(** * MTPZ handshake core of libmtp ([src/mtpz.c]): a shallow embedding

    The C functions of [mtpz.c] are rendered as Rocq functions over
    byte buffers.  Conventions used throughout:

    - a byte is a [Z] in [0, 256); a buffer ([char *] / [unsigned char *]
      with its extent) is a [list Z];
    - [int] and [unsigned int] are 32 bits wide; an unsigned value is a
      [Z] in [0, 2^32) ([u32] wraps), a signed one is obtained from its
      bit pattern with [s32];
    - the host is little-endian (the code casts [char *] to [int *] and
      byte-swaps to obtain big-endian words), see [load32] / [store32];
    - reading outside a buffer yields 0 and writing outside a buffer is
      dropped (stdpp's list insert); in C both are undefined, so every
      statement below that depends on a buffer access carries the bounds
      that keep the accesses inside the buffers. *)

From Stdlib Require Import ZArith List Lia Bool.
From Stdlib Require Ascii String.
From stdpp Require Import base list.
Import ListNotations.
Local Open Scope Z_scope.

(** ** Machine integers and memory accesses *)

Definition u32 (z : Z) : Z := z mod 2 ^ 32.
Definition s32 (z : Z) : Z := (z + 2 ^ 31) mod 2 ^ 32 - 2 ^ 31.
Definition u8 (z : Z) : Z := z mod 256.

(** [buf[i]] for an [unsigned char] buffer. *)
Definition getb (buf : list Z) (i : nat) : Z := nth i buf 0.

(** Reading an [unsigned int] through a pointer cast at [buf + off], on a
    little-endian host. *)
Definition load32 (buf : list Z) (off : nat) : Z :=
  getb buf off + 2 ^ 8 * getb buf (off + 1) + 2 ^ 16 * getb buf (off + 2)
  + 2 ^ 24 * getb buf (off + 3).

(** Writing the [unsigned int] [w] through a pointer cast at [buf + off],
    on a little-endian host. *)
Definition store32 (buf : list Z) (off : nat) (w : Z) : list Z :=
  <[(off + 3)%nat := u8 (w / 2 ^ 24)]>
    (<[(off + 2)%nat := u8 (w / 2 ^ 16)]>
      (<[(off + 1)%nat := u8 (w / 2 ^ 8)]>
        (<[off := u8 w]> buf))).

(** The byte of [w] that [store32] puts at offset [k]. *)
Definition byte_of (w : Z) (k : nat) : Z := u8 (w / 2 ^ (8 * Z.of_nat k)).

(** [memset(malloc(n), 0, n)] *)
Definition zeros (n : nat) : list Z := repeat 0 n.

(** [for (c = 0; c < n; c++) dst[doff + c] = src[soff + c];] — also the
    model of [memcpy(dst + doff, src + soff, n)]. *)
Fixpoint copy_bytes (n : nat) (dst : list Z) (doff : nat)
    (src : list Z) (soff : nat) : list Z :=
  match n with
  | O => dst
  | S n' => copy_bytes n' (<[doff := getb src soff]> dst) (S doff) src (S soff)
  end.

(** [mtpz_bswap32], in its portable form. *)
Definition mtpz_bswap32 (x : Z) : Z :=
  Z.lor (Z.shiftr x 24)
    (Z.lor (Z.land (Z.shiftr x 8) 0x0000ff00)
      (Z.lor (Z.land (Z.shiftl x 8) 0x00ff0000)
             (u32 (Z.shiftl x 24)))).

Definition MTPZ_SWAP (x : Z) : Z := mtpz_bswap32 (u32 x).

(** ** Hash engine *)

Module Hash.

Definition MTPZ_HASHSTATE_84 : nat := 5.
Definition MTPZ_HASHSTATE_88 : nat := 6.

(** [state_box[i]], where [state_box] is [state + 64] seen as an array of
    [int]; the value is the unsigned bit pattern, [s32] gives the [int]. *)
Definition state_box (state : list Z) (i : nat) : Z :=
  load32 state (64 + 4 * i).

Definition set_state_box (state : list Z) (i : nat) (v : Z) : list Z :=
  store32 state (64 + 4 * i) (u32 v).

Definition mtpz_hash_init_state : list Z := zeros 92.

Definition mtpz_hash_reset_state (state : list Z) : list Z :=
  let state := set_state_box state 0 0x67452301 in
  let state := set_state_box state 1 0xefcdab89 in
  let state := set_state_box state 2 0x98badcfe in
  let state := set_state_box state 3 0x10325476 in
  let state := set_state_box state 4 0xc3d2e1f0 in
  let state := set_state_box state MTPZ_HASHSTATE_84 0 in
  set_state_box state MTPZ_HASHSTATE_88 0.

Definition mtpz_hash_f (s : Z) (x y z : Z) : Z :=
  match s with
  | 0 => Z.lxor (Z.land x y) (Z.land (Z.lxor x 0xFFFFFFFF) z)
  | 1 => Z.lxor (Z.lxor x y) z
  | 2 => Z.lxor (Z.lxor (Z.land x y) (Z.land x z)) (Z.land y z)
  | 3 => Z.lxor (Z.lxor x y) z
  | _ => 0
  end.

Definition mtpz_hash_rotate_left (x : Z) (n : Z) : Z :=
  Z.lor (u32 (Z.shiftl x n)) (Z.shiftr x (32 - n)).

Definition K : list Z := [0x5a827999; 0x6ed9eba1; 0x8f1bbcdc; 0xca62c1d6].

(** The message schedule: [W[i] = MTPZ_SWAP(M[i])] for [i < 16], then the
    recurrence; [extend_W n W] runs [n] further iterations of the second
    loop on the words computed so far. *)
Definition W_init (msg : list Z) : list Z :=
  map (fun i => MTPZ_SWAP (load32 msg (4 * i))) (seq 0 16).

Fixpoint extend_W (n : nat) (W : list Z) : list Z :=
  match n with
  | O => W
  | S n' =>
      let i := length W in
      let w := mtpz_hash_rotate_left
                 (Z.lxor (Z.lxor (Z.lxor (nth (i - 3) W 0) (nth (i - 8) W 0))
                                 (nth (i - 14) W 0)) (nth (i - 16) W 0)) 1 in
      extend_W n' (W ++ [w])
  end.

Definition schedule (msg : list Z) : list Z := extend_W 64 (W_init msg).

(** One pass of the main loop at index [i]. *)
Definition round (W : list Z) (i : nat) (v : Z * Z * Z * Z * Z)
    : Z * Z * Z * Z * Z :=
  let '(a, b, c, d, e) := v in
  let s := Z.of_nat i / 20 in
  let T := Z.land (mtpz_hash_rotate_left a 5 + mtpz_hash_f s b c d + e
                   + nth (Z.to_nat s) K 0 + nth i W 0) 0xFFFFFFFF in
  (T, a, mtpz_hash_rotate_left b 30, c, d).

Definition mtpz_hash_compute_hash (state msg : list Z) (len : Z) : list Z :=
  if negb (len =? 64) then state
  else
    let W := schedule msg in
    let init := (state_box state 0, state_box state 1, state_box state 2,
                 state_box state 3, state_box state 4) in
    let '(a, b, c, d, e) := fold_left (fun v i => round W i v) (seq 0 80) init in
    let st0 := state in
    let state := set_state_box state 0 (Z.land (state_box st0 0 + a) 0xFFFFFFFF) in
    let state := set_state_box state 1 (Z.land (state_box st0 1 + b) 0xFFFFFFFF) in
    let state := set_state_box state 2 (Z.land (state_box st0 2 + c) 0xFFFFFFFF) in
    let state := set_state_box state 3 (Z.land (state_box st0 3 + d) 0xFFFFFFFF) in
    set_state_box state 4 (Z.land (state_box st0 4 + e) 0xFFFFFFFF).

(** [while (i > 63) { compute_hash(state, msg + j, 64); j += 64; i -= 64; }]
    makes [i / 64] passes when [i >= 0] and none otherwise. *)
Fixpoint block_loop (n : nat) (state msg : list Z) (j : nat) : list Z :=
  match n with
  | O => state
  | S n' => block_loop n' (mtpz_hash_compute_hash state (drop j msg) 64) msg (j + 64)
  end.

Definition mtpz_hash_transform_hash (state msg : list Z) (len : Z) : list Z :=
  let old := s32 (state_box state MTPZ_HASHSTATE_88) in
  let x := Z.land old 0x3F in
  let v5 := s32 (len + old) in
  let state := set_state_box state MTPZ_HASHSTATE_88 v5 in
  let state :=
    if len >? v5
    then set_state_box state MTPZ_HASHSTATE_84
           (s32 (state_box state MTPZ_HASHSTATE_84) + 1)
    else state in
  let '(state, i, j) :=
    if negb (x =? 0) && (len + x >? 0x3F)
    then
      let state := copy_bytes (Z.to_nat (64 - x)) state (Z.to_nat x) msg 0 in
      (mtpz_hash_compute_hash state state 64, len + x - 64, 64 - x)
    else (state, len, 0) in
  let n := Z.to_nat (i / 64) in
  let state := block_loop n state msg (Z.to_nat j) in
  let j := j + 64 * Z.of_nat n in
  let i := i - 64 * Z.of_nat n in
  if negb (i =? 0)
  then copy_bytes (Z.to_nat i) state (Z.to_nat x) msg (Z.to_nat j)
  else state.

(** Returns the new state and the output buffer; [off] is the position
    of the 20 output bytes inside [out]. *)
Definition mtpz_hash_finalize_hash (state out : list Z) (off : nat)
    : list Z * list Z :=
  let lo := s32 (state_box state MTPZ_HASHSTATE_88) in
  let hi := s32 (state_box state MTPZ_HASHSTATE_84) in
  let v2 := 64 - Z.land lo 0x3F in
  let v2 := if v2 <=? 8 then v2 + 64 else v2 in
  let v5 := <[0%nat := 0x80]> (zeros 72) in
  let v6 := Z.lor (8 * hi) (Z.shiftr lo 29) in
  let v7 := 8 * lo in
  let v6 := MTPZ_SWAP v6 in
  let v7 := MTPZ_SWAP v7 in
  let v5 := store32 v5 (Z.to_nat (v2 - 8)) v6 in
  let v5 := store32 v5 (Z.to_nat (v2 - 4)) v7 in
  let state := mtpz_hash_transform_hash state v5 v2 in
  let out := store32 out off (MTPZ_SWAP (state_box state 0)) in
  let out := store32 out (off + 4) (MTPZ_SWAP (state_box state 1)) in
  let out := store32 out (off + 8) (MTPZ_SWAP (state_box state 2)) in
  let out := store32 out (off + 12) (MTPZ_SWAP (state_box state 3)) in
  let out := store32 out (off + 16) (MTPZ_SWAP (state_box state 4)) in
  let state := copy_bytes 64 state 0 (zeros 64) 0 in
  (mtpz_hash_reset_state state, out).

(** One pass of the loop of [mtpz_hash_custom6A5DC] at counter [i];
    the loop state is [(state, v5, v13)]. *)
Definition mgf_step (len : Z) (i : nat) (s : list Z * list Z * list Z)
    : list Z * list Z * list Z :=
  let '(state, v5, v13) := s in
  let k := MTPZ_SWAP (Z.of_nat i) in
  let v5 := store32 v5 (Z.to_nat len) k in
  let state := mtpz_hash_reset_state state in
  let state := mtpz_hash_transform_hash state v5 (len + 4) in
  let '(state, v13) := mtpz_hash_finalize_hash state v13 (i * 20) in
  (state, v5, v13).

(** Returns the state left behind and the freshly allocated buffer.
    The size [v11 * 20] is an [int] product in the C; it is taken in [Z]
    here, which is the same as long as it stays below 2^31. *)
Definition mtpz_hash_custom6A5DC (state msg : list Z) (len a4 : Z)
    : list Z * list Z :=
  let v11 := Z.quot a4 20 + 1 in
  let v13 := zeros (Z.to_nat (v11 * 20)) in
  let v5 := zeros (Z.to_nat (len + 4)) in
  let v5 := copy_bytes (Z.to_nat len) v5 0 msg 0 in
  let '(state, _, v13) :=
    fold_left (fun s i => mgf_step len i s) (seq 0 (Z.to_nat v11))
              (state, v5, v13) in
  (state, v13).

(** The digest of a whole message, as the handshake computes it:
    reset, one absorb, finalise into a fresh 20-byte buffer. *)
Definition digest (state msg : list Z) : list Z :=
  let state := mtpz_hash_reset_state state in
  let state := mtpz_hash_transform_hash state msg (Z.of_nat (length msg)) in
  snd (mtpz_hash_finalize_hash state (zeros 20) 0).

End Hash.

(** ** AES constant tables *)

Definition mtpz_aes_rcon : list Z :=
  [
   0x01; 0x02; 0x04; 0x08; 0x10; 0x20; 0x40; 0x80; 0x1b; 0x36; 0x6c; 0xd8; 0xab; 0x4d; 0x9a
  ].

Definition mtpz_aes_sbox : list Z :=
  [
   0x63; 0x7c; 0x77; 0x7b; 0xf2; 0x6b; 0x6f; 0xc5; 0x30; 0x01; 0x67; 0x2b; 0xfe; 0xd7; 0xab; 0x76;
   0xca; 0x82; 0xc9; 0x7d; 0xfa; 0x59; 0x47; 0xf0; 0xad; 0xd4; 0xa2; 0xaf; 0x9c; 0xa4; 0x72; 0xc0;
   0xb7; 0xfd; 0x93; 0x26; 0x36; 0x3f; 0xf7; 0xcc; 0x34; 0xa5; 0xe5; 0xf1; 0x71; 0xd8; 0x31; 0x15;
   0x04; 0xc7; 0x23; 0xc3; 0x18; 0x96; 0x05; 0x9a; 0x07; 0x12; 0x80; 0xe2; 0xeb; 0x27; 0xb2; 0x75;
   0x09; 0x83; 0x2c; 0x1a; 0x1b; 0x6e; 0x5a; 0xa0; 0x52; 0x3b; 0xd6; 0xb3; 0x29; 0xe3; 0x2f; 0x84;
   0x53; 0xd1; 0x00; 0xed; 0x20; 0xfc; 0xb1; 0x5b; 0x6a; 0xcb; 0xbe; 0x39; 0x4a; 0x4c; 0x58; 0xcf;
   0xd0; 0xef; 0xaa; 0xfb; 0x43; 0x4d; 0x33; 0x85; 0x45; 0xf9; 0x02; 0x7f; 0x50; 0x3c; 0x9f; 0xa8;
   0x51; 0xa3; 0x40; 0x8f; 0x92; 0x9d; 0x38; 0xf5; 0xbc; 0xb6; 0xda; 0x21; 0x10; 0xff; 0xf3; 0xd2;
   0xcd; 0x0c; 0x13; 0xec; 0x5f; 0x97; 0x44; 0x17; 0xc4; 0xa7; 0x7e; 0x3d; 0x64; 0x5d; 0x19; 0x73;
   0x60; 0x81; 0x4f; 0xdc; 0x22; 0x2a; 0x90; 0x88; 0x46; 0xee; 0xb8; 0x14; 0xde; 0x5e; 0x0b; 0xdb;
   0xe0; 0x32; 0x3a; 0x0a; 0x49; 0x06; 0x24; 0x5c; 0xc2; 0xd3; 0xac; 0x62; 0x91; 0x95; 0xe4; 0x79;
   0xe7; 0xc8; 0x37; 0x6d; 0x8d; 0xd5; 0x4e; 0xa9; 0x6c; 0x56; 0xf4; 0xea; 0x65; 0x7a; 0xae; 0x08;
   0xba; 0x78; 0x25; 0x2e; 0x1c; 0xa6; 0xb4; 0xc6; 0xe8; 0xdd; 0x74; 0x1f; 0x4b; 0xbd; 0x8b; 0x8a;
   0x70; 0x3e; 0xb5; 0x66; 0x48; 0x03; 0xf6; 0x0e; 0x61; 0x35; 0x57; 0xb9; 0x86; 0xc1; 0x1d; 0x9e;
   0xe1; 0xf8; 0x98; 0x11; 0x69; 0xd9; 0x8e; 0x94; 0x9b; 0x1e; 0x87; 0xe9; 0xce; 0x55; 0x28; 0xdf;
   0x8c; 0xa1; 0x89; 0x0d; 0xbf; 0xe6; 0x42; 0x68; 0x41; 0x99; 0x2d; 0x0f; 0xb0; 0x54; 0xbb; 0x16
  ].

Definition mtpz_aes_invsbox : list Z :=
  [
   0x52; 0x09; 0x6a; 0xd5; 0x30; 0x36; 0xa5; 0x38; 0xbf; 0x40; 0xa3; 0x9e; 0x81; 0xf3; 0xd7; 0xfb;
   0x7c; 0xe3; 0x39; 0x82; 0x9b; 0x2f; 0xff; 0x87; 0x34; 0x8e; 0x43; 0x44; 0xc4; 0xde; 0xe9; 0xcb;
   0x54; 0x7b; 0x94; 0x32; 0xa6; 0xc2; 0x23; 0x3d; 0xee; 0x4c; 0x95; 0x0b; 0x42; 0xfa; 0xc3; 0x4e;
   0x08; 0x2e; 0xa1; 0x66; 0x28; 0xd9; 0x24; 0xb2; 0x76; 0x5b; 0xa2; 0x49; 0x6d; 0x8b; 0xd1; 0x25;
   0x72; 0xf8; 0xf6; 0x64; 0x86; 0x68; 0x98; 0x16; 0xd4; 0xa4; 0x5c; 0xcc; 0x5d; 0x65; 0xb6; 0x92;
   0x6c; 0x70; 0x48; 0x50; 0xfd; 0xed; 0xb9; 0xda; 0x5e; 0x15; 0x46; 0x57; 0xa7; 0x8d; 0x9d; 0x84;
   0x90; 0xd8; 0xab; 0x00; 0x8c; 0xbc; 0xd3; 0x0a; 0xf7; 0xe4; 0x58; 0x05; 0xb8; 0xb3; 0x45; 0x06;
   0xd0; 0x2c; 0x1e; 0x8f; 0xca; 0x3f; 0x0f; 0x02; 0xc1; 0xaf; 0xbd; 0x03; 0x01; 0x13; 0x8a; 0x6b;
   0x3a; 0x91; 0x11; 0x41; 0x4f; 0x67; 0xdc; 0xea; 0x97; 0xf2; 0xcf; 0xce; 0xf0; 0xb4; 0xe6; 0x73;
   0x96; 0xac; 0x74; 0x22; 0xe7; 0xad; 0x35; 0x85; 0xe2; 0xf9; 0x37; 0xe8; 0x1c; 0x75; 0xdf; 0x6e;
   0x47; 0xf1; 0x1a; 0x71; 0x1d; 0x29; 0xc5; 0x89; 0x6f; 0xb7; 0x62; 0x0e; 0xaa; 0x18; 0xbe; 0x1b;
   0xfc; 0x56; 0x3e; 0x4b; 0xc6; 0xd2; 0x79; 0x20; 0x9a; 0xdb; 0xc0; 0xfe; 0x78; 0xcd; 0x5a; 0xf4;
   0x1f; 0xdd; 0xa8; 0x33; 0x88; 0x07; 0xc7; 0x31; 0xb1; 0x12; 0x10; 0x59; 0x27; 0x80; 0xec; 0x5f;
   0x60; 0x51; 0x7f; 0xa9; 0x19; 0xb5; 0x4a; 0x0d; 0x2d; 0xe5; 0x7a; 0x9f; 0x93; 0xc9; 0x9c; 0xef;
   0xa0; 0xe0; 0x3b; 0x4d; 0xae; 0x2a; 0xf5; 0xb0; 0xc8; 0xeb; 0xbb; 0x3c; 0x83; 0x53; 0x99; 0x61;
   0x17; 0x2b; 0x04; 0x7e; 0xba; 0x77; 0xd6; 0x26; 0xe1; 0x69; 0x14; 0x63; 0x55; 0x21; 0x0c; 0x7d
  ].

Definition mtpz_aes_ft1 : list Z :=
  [
   0x6363a5c6; 0x7c7c84f8; 0x777799ee; 0x7b7b8df6; 0xf2f20dff; 0x6b6bbdd6; 0x6f6fb1de; 0xc5c55491;
   0x30305060; 0x01010302; 0x6767a9ce; 0x2b2b7d56; 0xfefe19e7; 0xd7d762b5; 0xababe64d; 0x76769aec;
   0xcaca458f; 0x82829d1f; 0xc9c94089; 0x7d7d87fa; 0xfafa15ef; 0x5959ebb2; 0x4747c98e; 0xf0f00bfb;
   0xadadec41; 0xd4d467b3; 0xa2a2fd5f; 0xafafea45; 0x9c9cbf23; 0xa4a4f753; 0x727296e4; 0xc0c05b9b;
   0xb7b7c275; 0xfdfd1ce1; 0x9393ae3d; 0x26266a4c; 0x36365a6c; 0x3f3f417e; 0xf7f702f5; 0xcccc4f83;
   0x34345c68; 0xa5a5f451; 0xe5e534d1; 0xf1f108f9; 0x717193e2; 0xd8d873ab; 0x31315362; 0x15153f2a;
   0x04040c08; 0xc7c75295; 0x23236546; 0xc3c35e9d; 0x18182830; 0x9696a137; 0x05050f0a; 0x9a9ab52f;
   0x0707090e; 0x12123624; 0x80809b1b; 0xe2e23ddf; 0xebeb26cd; 0x2727694e; 0xb2b2cd7f; 0x75759fea;
   0x09091b12; 0x83839e1d; 0x2c2c7458; 0x1a1a2e34; 0x1b1b2d36; 0x6e6eb2dc; 0x5a5aeeb4; 0xa0a0fb5b;
   0x5252f6a4; 0x3b3b4d76; 0xd6d661b7; 0xb3b3ce7d; 0x29297b52; 0xe3e33edd; 0x2f2f715e; 0x84849713;
   0x5353f5a6; 0xd1d168b9; 0x00000000; 0xeded2cc1; 0x20206040; 0xfcfc1fe3; 0xb1b1c879; 0x5b5bedb6;
   0x6a6abed4; 0xcbcb468d; 0xbebed967; 0x39394b72; 0x4a4ade94; 0x4c4cd498; 0x5858e8b0; 0xcfcf4a85;
   0xd0d06bbb; 0xefef2ac5; 0xaaaae54f; 0xfbfb16ed; 0x4343c586; 0x4d4dd79a; 0x33335566; 0x85859411;
   0x4545cf8a; 0xf9f910e9; 0x02020604; 0x7f7f81fe; 0x5050f0a0; 0x3c3c4478; 0x9f9fba25; 0xa8a8e34b;
   0x5151f3a2; 0xa3a3fe5d; 0x4040c080; 0x8f8f8a05; 0x9292ad3f; 0x9d9dbc21; 0x38384870; 0xf5f504f1;
   0xbcbcdf63; 0xb6b6c177; 0xdada75af; 0x21216342; 0x10103020; 0xffff1ae5; 0xf3f30efd; 0xd2d26dbf;
   0xcdcd4c81; 0x0c0c1418; 0x13133526; 0xecec2fc3; 0x5f5fe1be; 0x9797a235; 0x4444cc88; 0x1717392e;
   0xc4c45793; 0xa7a7f255; 0x7e7e82fc; 0x3d3d477a; 0x6464acc8; 0x5d5de7ba; 0x19192b32; 0x737395e6;
   0x6060a0c0; 0x81819819; 0x4f4fd19e; 0xdcdc7fa3; 0x22226644; 0x2a2a7e54; 0x9090ab3b; 0x8888830b;
   0x4646ca8c; 0xeeee29c7; 0xb8b8d36b; 0x14143c28; 0xdede79a7; 0x5e5ee2bc; 0x0b0b1d16; 0xdbdb76ad;
   0xe0e03bdb; 0x32325664; 0x3a3a4e74; 0x0a0a1e14; 0x4949db92; 0x06060a0c; 0x24246c48; 0x5c5ce4b8;
   0xc2c25d9f; 0xd3d36ebd; 0xacacef43; 0x6262a6c4; 0x9191a839; 0x9595a431; 0xe4e437d3; 0x79798bf2;
   0xe7e732d5; 0xc8c8438b; 0x3737596e; 0x6d6db7da; 0x8d8d8c01; 0xd5d564b1; 0x4e4ed29c; 0xa9a9e049;
   0x6c6cb4d8; 0x5656faac; 0xf4f407f3; 0xeaea25cf; 0x6565afca; 0x7a7a8ef4; 0xaeaee947; 0x08081810;
   0xbabad56f; 0x787888f0; 0x25256f4a; 0x2e2e725c; 0x1c1c2438; 0xa6a6f157; 0xb4b4c773; 0xc6c65197;
   0xe8e823cb; 0xdddd7ca1; 0x74749ce8; 0x1f1f213e; 0x4b4bdd96; 0xbdbddc61; 0x8b8b860d; 0x8a8a850f;
   0x707090e0; 0x3e3e427c; 0xb5b5c471; 0x6666aacc; 0x4848d890; 0x03030506; 0xf6f601f7; 0x0e0e121c;
   0x6161a3c2; 0x35355f6a; 0x5757f9ae; 0xb9b9d069; 0x86869117; 0xc1c15899; 0x1d1d273a; 0x9e9eb927;
   0xe1e138d9; 0xf8f813eb; 0x9898b32b; 0x11113322; 0x6969bbd2; 0xd9d970a9; 0x8e8e8907; 0x9494a733;
   0x9b9bb62d; 0x1e1e223c; 0x87879215; 0xe9e920c9; 0xcece4987; 0x5555ffaa; 0x28287850; 0xdfdf7aa5;
   0x8c8c8f03; 0xa1a1f859; 0x89898009; 0x0d0d171a; 0xbfbfda65; 0xe6e631d7; 0x4242c684; 0x6868b8d0;
   0x4141c382; 0x9999b029; 0x2d2d775a; 0x0f0f111e; 0xb0b0cb7b; 0x5454fca8; 0xbbbbd66d; 0x16163a2c
  ].

Definition mtpz_aes_ft2 : list Z :=
  [
   0x63a5c663; 0x7c84f87c; 0x7799ee77; 0x7b8df67b; 0xf20dfff2; 0x6bbdd66b; 0x6fb1de6f; 0xc55491c5;
   0x30506030; 0x01030201; 0x67a9ce67; 0x2b7d562b; 0xfe19e7fe; 0xd762b5d7; 0xabe64dab; 0x769aec76;
   0xca458fca; 0x829d1f82; 0xc94089c9; 0x7d87fa7d; 0xfa15effa; 0x59ebb259; 0x47c98e47; 0xf00bfbf0;
   0xadec41ad; 0xd467b3d4; 0xa2fd5fa2; 0xafea45af; 0x9cbf239c; 0xa4f753a4; 0x7296e472; 0xc05b9bc0;
   0xb7c275b7; 0xfd1ce1fd; 0x93ae3d93; 0x266a4c26; 0x365a6c36; 0x3f417e3f; 0xf702f5f7; 0xcc4f83cc;
   0x345c6834; 0xa5f451a5; 0xe534d1e5; 0xf108f9f1; 0x7193e271; 0xd873abd8; 0x31536231; 0x153f2a15;
   0x040c0804; 0xc75295c7; 0x23654623; 0xc35e9dc3; 0x18283018; 0x96a13796; 0x050f0a05; 0x9ab52f9a;
   0x07090e07; 0x12362412; 0x809b1b80; 0xe23ddfe2; 0xeb26cdeb; 0x27694e27; 0xb2cd7fb2; 0x759fea75;
   0x091b1209; 0x839e1d83; 0x2c74582c; 0x1a2e341a; 0x1b2d361b; 0x6eb2dc6e; 0x5aeeb45a; 0xa0fb5ba0;
   0x52f6a452; 0x3b4d763b; 0xd661b7d6; 0xb3ce7db3; 0x297b5229; 0xe33edde3; 0x2f715e2f; 0x84971384;
   0x53f5a653; 0xd168b9d1; 0x00000000; 0xed2cc1ed; 0x20604020; 0xfc1fe3fc; 0xb1c879b1; 0x5bedb65b;
   0x6abed46a; 0xcb468dcb; 0xbed967be; 0x394b7239; 0x4ade944a; 0x4cd4984c; 0x58e8b058; 0xcf4a85cf;
   0xd06bbbd0; 0xef2ac5ef; 0xaae54faa; 0xfb16edfb; 0x43c58643; 0x4dd79a4d; 0x33556633; 0x85941185;
   0x45cf8a45; 0xf910e9f9; 0x02060402; 0x7f81fe7f; 0x50f0a050; 0x3c44783c; 0x9fba259f; 0xa8e34ba8;
   0x51f3a251; 0xa3fe5da3; 0x40c08040; 0x8f8a058f; 0x92ad3f92; 0x9dbc219d; 0x38487038; 0xf504f1f5;
   0xbcdf63bc; 0xb6c177b6; 0xda75afda; 0x21634221; 0x10302010; 0xff1ae5ff; 0xf30efdf3; 0xd26dbfd2;
   0xcd4c81cd; 0x0c14180c; 0x13352613; 0xec2fc3ec; 0x5fe1be5f; 0x97a23597; 0x44cc8844; 0x17392e17;
   0xc45793c4; 0xa7f255a7; 0x7e82fc7e; 0x3d477a3d; 0x64acc864; 0x5de7ba5d; 0x192b3219; 0x7395e673;
   0x60a0c060; 0x81981981; 0x4fd19e4f; 0xdc7fa3dc; 0x22664422; 0x2a7e542a; 0x90ab3b90; 0x88830b88;
   0x46ca8c46; 0xee29c7ee; 0xb8d36bb8; 0x143c2814; 0xde79a7de; 0x5ee2bc5e; 0x0b1d160b; 0xdb76addb;
   0xe03bdbe0; 0x32566432; 0x3a4e743a; 0x0a1e140a; 0x49db9249; 0x060a0c06; 0x246c4824; 0x5ce4b85c;
   0xc25d9fc2; 0xd36ebdd3; 0xacef43ac; 0x62a6c462; 0x91a83991; 0x95a43195; 0xe437d3e4; 0x798bf279;
   0xe732d5e7; 0xc8438bc8; 0x37596e37; 0x6db7da6d; 0x8d8c018d; 0xd564b1d5; 0x4ed29c4e; 0xa9e049a9;
   0x6cb4d86c; 0x56faac56; 0xf407f3f4; 0xea25cfea; 0x65afca65; 0x7a8ef47a; 0xaee947ae; 0x08181008;
   0xbad56fba; 0x7888f078; 0x256f4a25; 0x2e725c2e; 0x1c24381c; 0xa6f157a6; 0xb4c773b4; 0xc65197c6;
   0xe823cbe8; 0xdd7ca1dd; 0x749ce874; 0x1f213e1f; 0x4bdd964b; 0xbddc61bd; 0x8b860d8b; 0x8a850f8a;
   0x7090e070; 0x3e427c3e; 0xb5c471b5; 0x66aacc66; 0x48d89048; 0x03050603; 0xf601f7f6; 0x0e121c0e;
   0x61a3c261; 0x355f6a35; 0x57f9ae57; 0xb9d069b9; 0x86911786; 0xc15899c1; 0x1d273a1d; 0x9eb9279e;
   0xe138d9e1; 0xf813ebf8; 0x98b32b98; 0x11332211; 0x69bbd269; 0xd970a9d9; 0x8e89078e; 0x94a73394;
   0x9bb62d9b; 0x1e223c1e; 0x87921587; 0xe920c9e9; 0xce4987ce; 0x55ffaa55; 0x28785028; 0xdf7aa5df;
   0x8c8f038c; 0xa1f859a1; 0x89800989; 0x0d171a0d; 0xbfda65bf; 0xe631d7e6; 0x42c68442; 0x68b8d068;
   0x41c38241; 0x99b02999; 0x2d775a2d; 0x0f111e0f; 0xb0cb7bb0; 0x54fca854; 0xbbd66dbb; 0x163a2c16
  ].

Definition mtpz_aes_ft3 : list Z :=
  [
   0xc66363a5; 0xf87c7c84; 0xee777799; 0xf67b7b8d; 0xfff2f20d; 0xd66b6bbd; 0xde6f6fb1; 0x91c5c554;
   0x60303050; 0x02010103; 0xce6767a9; 0x562b2b7d; 0xe7fefe19; 0xb5d7d762; 0x4dababe6; 0xec76769a;
   0x8fcaca45; 0x1f82829d; 0x89c9c940; 0xfa7d7d87; 0xeffafa15; 0xb25959eb; 0x8e4747c9; 0xfbf0f00b;
   0x41adadec; 0xb3d4d467; 0x5fa2a2fd; 0x45afafea; 0x239c9cbf; 0x53a4a4f7; 0xe4727296; 0x9bc0c05b;
   0x75b7b7c2; 0xe1fdfd1c; 0x3d9393ae; 0x4c26266a; 0x6c36365a; 0x7e3f3f41; 0xf5f7f702; 0x83cccc4f;
   0x6834345c; 0x51a5a5f4; 0xd1e5e534; 0xf9f1f108; 0xe2717193; 0xabd8d873; 0x62313153; 0x2a15153f;
   0x0804040c; 0x95c7c752; 0x46232365; 0x9dc3c35e; 0x30181828; 0x379696a1; 0x0a05050f; 0x2f9a9ab5;
   0x0e070709; 0x24121236; 0x1b80809b; 0xdfe2e23d; 0xcdebeb26; 0x4e272769; 0x7fb2b2cd; 0xea75759f;
   0x1209091b; 0x1d83839e; 0x582c2c74; 0x341a1a2e; 0x361b1b2d; 0xdc6e6eb2; 0xb45a5aee; 0x5ba0a0fb;
   0xa45252f6; 0x763b3b4d; 0xb7d6d661; 0x7db3b3ce; 0x5229297b; 0xdde3e33e; 0x5e2f2f71; 0x13848497;
   0xa65353f5; 0xb9d1d168; 0x00000000; 0xc1eded2c; 0x40202060; 0xe3fcfc1f; 0x79b1b1c8; 0xb65b5bed;
   0xd46a6abe; 0x8dcbcb46; 0x67bebed9; 0x7239394b; 0x944a4ade; 0x984c4cd4; 0xb05858e8; 0x85cfcf4a;
   0xbbd0d06b; 0xc5efef2a; 0x4faaaae5; 0xedfbfb16; 0x864343c5; 0x9a4d4dd7; 0x66333355; 0x11858594;
   0x8a4545cf; 0xe9f9f910; 0x04020206; 0xfe7f7f81; 0xa05050f0; 0x783c3c44; 0x259f9fba; 0x4ba8a8e3;
   0xa25151f3; 0x5da3a3fe; 0x804040c0; 0x058f8f8a; 0x3f9292ad; 0x219d9dbc; 0x70383848; 0xf1f5f504;
   0x63bcbcdf; 0x77b6b6c1; 0xafdada75; 0x42212163; 0x20101030; 0xe5ffff1a; 0xfdf3f30e; 0xbfd2d26d;
   0x81cdcd4c; 0x180c0c14; 0x26131335; 0xc3ecec2f; 0xbe5f5fe1; 0x359797a2; 0x884444cc; 0x2e171739;
   0x93c4c457; 0x55a7a7f2; 0xfc7e7e82; 0x7a3d3d47; 0xc86464ac; 0xba5d5de7; 0x3219192b; 0xe6737395;
   0xc06060a0; 0x19818198; 0x9e4f4fd1; 0xa3dcdc7f; 0x44222266; 0x542a2a7e; 0x3b9090ab; 0x0b888883;
   0x8c4646ca; 0xc7eeee29; 0x6bb8b8d3; 0x2814143c; 0xa7dede79; 0xbc5e5ee2; 0x160b0b1d; 0xaddbdb76;
   0xdbe0e03b; 0x64323256; 0x743a3a4e; 0x140a0a1e; 0x924949db; 0x0c06060a; 0x4824246c; 0xb85c5ce4;
   0x9fc2c25d; 0xbdd3d36e; 0x43acacef; 0xc46262a6; 0x399191a8; 0x319595a4; 0xd3e4e437; 0xf279798b;
   0xd5e7e732; 0x8bc8c843; 0x6e373759; 0xda6d6db7; 0x018d8d8c; 0xb1d5d564; 0x9c4e4ed2; 0x49a9a9e0;
   0xd86c6cb4; 0xac5656fa; 0xf3f4f407; 0xcfeaea25; 0xca6565af; 0xf47a7a8e; 0x47aeaee9; 0x10080818;
   0x6fbabad5; 0xf0787888; 0x4a25256f; 0x5c2e2e72; 0x381c1c24; 0x57a6a6f1; 0x73b4b4c7; 0x97c6c651;
   0xcbe8e823; 0xa1dddd7c; 0xe874749c; 0x3e1f1f21; 0x964b4bdd; 0x61bdbddc; 0x0d8b8b86; 0x0f8a8a85;
   0xe0707090; 0x7c3e3e42; 0x71b5b5c4; 0xcc6666aa; 0x904848d8; 0x06030305; 0xf7f6f601; 0x1c0e0e12;
   0xc26161a3; 0x6a35355f; 0xae5757f9; 0x69b9b9d0; 0x17868691; 0x99c1c158; 0x3a1d1d27; 0x279e9eb9;
   0xd9e1e138; 0xebf8f813; 0x2b9898b3; 0x22111133; 0xd26969bb; 0xa9d9d970; 0x078e8e89; 0x339494a7;
   0x2d9b9bb6; 0x3c1e1e22; 0x15878792; 0xc9e9e920; 0x87cece49; 0xaa5555ff; 0x50282878; 0xa5dfdf7a;
   0x038c8c8f; 0x59a1a1f8; 0x09898980; 0x1a0d0d17; 0x65bfbfda; 0xd7e6e631; 0x844242c6; 0xd06868b8;
   0x824141c3; 0x299999b0; 0x5a2d2d77; 0x1e0f0f11; 0x7bb0b0cb; 0xa85454fc; 0x6dbbbbd6; 0x2c16163a
  ].

Definition mtpz_aes_ft4 : list Z :=
  [
   0xa5c66363; 0x84f87c7c; 0x99ee7777; 0x8df67b7b; 0x0dfff2f2; 0xbdd66b6b; 0xb1de6f6f; 0x5491c5c5;
   0x50603030; 0x03020101; 0xa9ce6767; 0x7d562b2b; 0x19e7fefe; 0x62b5d7d7; 0xe64dabab; 0x9aec7676;
   0x458fcaca; 0x9d1f8282; 0x4089c9c9; 0x87fa7d7d; 0x15effafa; 0xebb25959; 0xc98e4747; 0x0bfbf0f0;
   0xec41adad; 0x67b3d4d4; 0xfd5fa2a2; 0xea45afaf; 0xbf239c9c; 0xf753a4a4; 0x96e47272; 0x5b9bc0c0;
   0xc275b7b7; 0x1ce1fdfd; 0xae3d9393; 0x6a4c2626; 0x5a6c3636; 0x417e3f3f; 0x02f5f7f7; 0x4f83cccc;
   0x5c683434; 0xf451a5a5; 0x34d1e5e5; 0x08f9f1f1; 0x93e27171; 0x73abd8d8; 0x53623131; 0x3f2a1515;
   0x0c080404; 0x5295c7c7; 0x65462323; 0x5e9dc3c3; 0x28301818; 0xa1379696; 0x0f0a0505; 0xb52f9a9a;
   0x090e0707; 0x36241212; 0x9b1b8080; 0x3ddfe2e2; 0x26cdebeb; 0x694e2727; 0xcd7fb2b2; 0x9fea7575;
   0x1b120909; 0x9e1d8383; 0x74582c2c; 0x2e341a1a; 0x2d361b1b; 0xb2dc6e6e; 0xeeb45a5a; 0xfb5ba0a0;
   0xf6a45252; 0x4d763b3b; 0x61b7d6d6; 0xce7db3b3; 0x7b522929; 0x3edde3e3; 0x715e2f2f; 0x97138484;
   0xf5a65353; 0x68b9d1d1; 0x00000000; 0x2cc1eded; 0x60402020; 0x1fe3fcfc; 0xc879b1b1; 0xedb65b5b;
   0xbed46a6a; 0x468dcbcb; 0xd967bebe; 0x4b723939; 0xde944a4a; 0xd4984c4c; 0xe8b05858; 0x4a85cfcf;
   0x6bbbd0d0; 0x2ac5efef; 0xe54faaaa; 0x16edfbfb; 0xc5864343; 0xd79a4d4d; 0x55663333; 0x94118585;
   0xcf8a4545; 0x10e9f9f9; 0x06040202; 0x81fe7f7f; 0xf0a05050; 0x44783c3c; 0xba259f9f; 0xe34ba8a8;
   0xf3a25151; 0xfe5da3a3; 0xc0804040; 0x8a058f8f; 0xad3f9292; 0xbc219d9d; 0x48703838; 0x04f1f5f5;
   0xdf63bcbc; 0xc177b6b6; 0x75afdada; 0x63422121; 0x30201010; 0x1ae5ffff; 0x0efdf3f3; 0x6dbfd2d2;
   0x4c81cdcd; 0x14180c0c; 0x35261313; 0x2fc3ecec; 0xe1be5f5f; 0xa2359797; 0xcc884444; 0x392e1717;
   0x5793c4c4; 0xf255a7a7; 0x82fc7e7e; 0x477a3d3d; 0xacc86464; 0xe7ba5d5d; 0x2b321919; 0x95e67373;
   0xa0c06060; 0x98198181; 0xd19e4f4f; 0x7fa3dcdc; 0x66442222; 0x7e542a2a; 0xab3b9090; 0x830b8888;
   0xca8c4646; 0x29c7eeee; 0xd36bb8b8; 0x3c281414; 0x79a7dede; 0xe2bc5e5e; 0x1d160b0b; 0x76addbdb;
   0x3bdbe0e0; 0x56643232; 0x4e743a3a; 0x1e140a0a; 0xdb924949; 0x0a0c0606; 0x6c482424; 0xe4b85c5c;
   0x5d9fc2c2; 0x6ebdd3d3; 0xef43acac; 0xa6c46262; 0xa8399191; 0xa4319595; 0x37d3e4e4; 0x8bf27979;
   0x32d5e7e7; 0x438bc8c8; 0x596e3737; 0xb7da6d6d; 0x8c018d8d; 0x64b1d5d5; 0xd29c4e4e; 0xe049a9a9;
   0xb4d86c6c; 0xfaac5656; 0x07f3f4f4; 0x25cfeaea; 0xafca6565; 0x8ef47a7a; 0xe947aeae; 0x18100808;
   0xd56fbaba; 0x88f07878; 0x6f4a2525; 0x725c2e2e; 0x24381c1c; 0xf157a6a6; 0xc773b4b4; 0x5197c6c6;
   0x23cbe8e8; 0x7ca1dddd; 0x9ce87474; 0x213e1f1f; 0xdd964b4b; 0xdc61bdbd; 0x860d8b8b; 0x850f8a8a;
   0x90e07070; 0x427c3e3e; 0xc471b5b5; 0xaacc6666; 0xd8904848; 0x05060303; 0x01f7f6f6; 0x121c0e0e;
   0xa3c26161; 0x5f6a3535; 0xf9ae5757; 0xd069b9b9; 0x91178686; 0x5899c1c1; 0x273a1d1d; 0xb9279e9e;
   0x38d9e1e1; 0x13ebf8f8; 0xb32b9898; 0x33221111; 0xbbd26969; 0x70a9d9d9; 0x89078e8e; 0xa7339494;
   0xb62d9b9b; 0x223c1e1e; 0x92158787; 0x20c9e9e9; 0x4987cece; 0xffaa5555; 0x78502828; 0x7aa5dfdf;
   0x8f038c8c; 0xf859a1a1; 0x80098989; 0x171a0d0d; 0xda65bfbf; 0x31d7e6e6; 0xc6844242; 0xb8d06868;
   0xc3824141; 0xb0299999; 0x775a2d2d; 0x111e0f0f; 0xcb7bb0b0; 0xfca85454; 0xd66dbbbb; 0x3a2c1616
  ].

Definition mtpz_aes_rt1 : list Z :=
  [
   0xf4a75051; 0x4165537e; 0x17a4c31a; 0x275e963a; 0xab6bcb3b; 0x9d45f11f; 0xfa58abac; 0xe303934b;
   0x30fa5520; 0x766df6ad; 0xcc769188; 0x024c25f5; 0xe5d7fc4f; 0x2acbd7c5; 0x35448026; 0x62a38fb5;
   0xb15a49de; 0xba1b6725; 0xea0e9845; 0xfec0e15d; 0x2f7502c3; 0x4cf01281; 0x4697a38d; 0xd3f9c66b;
   0x8f5fe703; 0x929c9515; 0x6d7aebbf; 0x5259da95; 0xbe832dd4; 0x7421d358; 0xe0692949; 0xc9c8448e;
   0xc2896a75; 0x8e7978f4; 0x583e6b99; 0xb971dd27; 0xe14fb6be; 0x88ad17f0; 0x20ac66c9; 0xce3ab47d;
   0xdf4a1863; 0x1a3182e5; 0x51336097; 0x537f4562; 0x6477e0b1; 0x6bae84bb; 0x81a01cfe; 0x082b94f9;
   0x48685870; 0x45fd198f; 0xde6c8794; 0x7bf8b752; 0x73d323ab; 0x4b02e272; 0x1f8f57e3; 0x55ab2a66;
   0xeb2807b2; 0xb5c2032f; 0xc57b9a86; 0x3708a5d3; 0x2887f230; 0xbfa5b223; 0x036aba02; 0x16825ced;
   0xcf1c2b8a; 0x79b492a7; 0x07f2f0f3; 0x69e2a14e; 0xdaf4cd65; 0x05bed506; 0x34621fd1; 0xa6fe8ac4;
   0x2e539d34; 0xf355a0a2; 0x8ae13205; 0xf6eb75a4; 0x83ec390b; 0x60efaa40; 0x719f065e; 0x6e1051bd;
   0x218af93e; 0xdd063d96; 0x3e05aedd; 0xe6bd464d; 0x548db591; 0xc45d0571; 0x06d46f04; 0x5015ff60;
   0x98fb2419; 0xbde997d6; 0x4043cc89; 0xd99e7767; 0xe842bdb0; 0x898b8807; 0x195b38e7; 0xc8eedb79;
   0x7c0a47a1; 0x420fe97c; 0x841ec9f8; 0x00000000; 0x80868309; 0x2bed4832; 0x1170ac1e; 0x5a724e6c;
   0x0efffbfd; 0x8538560f; 0xaed51e3d; 0x2d392736; 0x0fd9640a; 0x5ca62168; 0x5b54d19b; 0x362e3a24;
   0x0a67b10c; 0x57e70f93; 0xee96d2b4; 0x9b919e1b; 0xc0c54f80; 0xdc20a261; 0x774b695a; 0x121a161c;
   0x93ba0ae2; 0xa02ae5c0; 0x22e0433c; 0x1b171d12; 0x090d0b0e; 0x8bc7adf2; 0xb6a8b92d; 0x1ea9c814;
   0xf1198557; 0x75074caf; 0x99ddbbee; 0x7f60fda3; 0x01269ff7; 0x72f5bc5c; 0x663bc544; 0xfb7e345b;
   0x4329768b; 0x23c6dccb; 0xedfc68b6; 0xe4f163b8; 0x31dccad7; 0x63851042; 0x97224013; 0xc6112084;
   0x4a247d85; 0xbb3df8d2; 0xf93211ae; 0x29a16dc7; 0x9e2f4b1d; 0xb230f3dc; 0x8652ec0d; 0xc1e3d077;
   0xb3166c2b; 0x70b999a9; 0x9448fa11; 0xe9642247; 0xfc8cc4a8; 0xf03f1aa0; 0x7d2cd856; 0x3390ef22;
   0x494ec787; 0x38d1c1d9; 0xcaa2fe8c; 0xd40b3698; 0xf581cfa6; 0x7ade28a5; 0xb78e26da; 0xadbfa43f;
   0x3a9de42c; 0x78920d50; 0x5fcc9b6a; 0x7e466254; 0x8d13c2f6; 0xd8b8e890; 0x39f75e2e; 0xc3aff582;
   0x5d80be9f; 0xd0937c69; 0xd52da96f; 0x2512b3cf; 0xac993bc8; 0x187da710; 0x9c636ee8; 0x3bbb7bdb;
   0x267809cd; 0x5918f46e; 0x9ab701ec; 0x4f9aa883; 0x956e65e6; 0xffe67eaa; 0xbccf0821; 0x15e8e6ef;
   0xe79bd9ba; 0x6f36ce4a; 0x9f09d4ea; 0xb07cd629; 0xa4b2af31; 0x3f23312a; 0xa59430c6; 0xa266c035;
   0x4ebc3774; 0x82caa6fc; 0x90d0b0e0; 0xa7d81533; 0x04984af1; 0xecdaf741; 0xcd500e7f; 0x91f62f17;
   0x4dd68d76; 0xefb04d43; 0xaa4d54cc; 0x9604dfe4; 0xd1b5e39e; 0x6a881b4c; 0x2c1fb8c1; 0x65517f46;
   0x5eea049d; 0x8c355d01; 0x877473fa; 0x0b412efb; 0x671d5ab3; 0xdbd25292; 0x105633e9; 0xd647136d;
   0xd7618c9a; 0xa10c7a37; 0xf8148e59; 0x133c89eb; 0xa927eece; 0x61c935b7; 0x1ce5ede1; 0x47b13c7a;
   0xd2df599c; 0xf2733f55; 0x14ce7918; 0xc737bf73; 0xf7cdea53; 0xfdaa5b5f; 0x3d6f14df; 0x44db8678;
   0xaff381ca; 0x68c43eb9; 0x24342c38; 0xa3405fc2; 0x1dc37216; 0xe2250cbc; 0x3c498b28; 0x0d9541ff;
   0xa8017139; 0x0cb3de08; 0xb4e49cd8; 0x56c19064; 0xcb84617b; 0x32b670d5; 0x6c5c7448; 0xb85742d0
  ].

Definition mtpz_aes_rt2 : list Z :=
  [
   0xa75051f4; 0x65537e41; 0xa4c31a17; 0x5e963a27; 0x6bcb3bab; 0x45f11f9d; 0x58abacfa; 0x03934be3;
   0xfa552030; 0x6df6ad76; 0x769188cc; 0x4c25f502; 0xd7fc4fe5; 0xcbd7c52a; 0x44802635; 0xa38fb562;
   0x5a49deb1; 0x1b6725ba; 0x0e9845ea; 0xc0e15dfe; 0x7502c32f; 0xf012814c; 0x97a38d46; 0xf9c66bd3;
   0x5fe7038f; 0x9c951592; 0x7aebbf6d; 0x59da9552; 0x832dd4be; 0x21d35874; 0x692949e0; 0xc8448ec9;
   0x896a75c2; 0x7978f48e; 0x3e6b9958; 0x71dd27b9; 0x4fb6bee1; 0xad17f088; 0xac66c920; 0x3ab47dce;
   0x4a1863df; 0x3182e51a; 0x33609751; 0x7f456253; 0x77e0b164; 0xae84bb6b; 0xa01cfe81; 0x2b94f908;
   0x68587048; 0xfd198f45; 0x6c8794de; 0xf8b7527b; 0xd323ab73; 0x02e2724b; 0x8f57e31f; 0xab2a6655;
   0x2807b2eb; 0xc2032fb5; 0x7b9a86c5; 0x08a5d337; 0x87f23028; 0xa5b223bf; 0x6aba0203; 0x825ced16;
   0x1c2b8acf; 0xb492a779; 0xf2f0f307; 0xe2a14e69; 0xf4cd65da; 0xbed50605; 0x621fd134; 0xfe8ac4a6;
   0x539d342e; 0x55a0a2f3; 0xe132058a; 0xeb75a4f6; 0xec390b83; 0xefaa4060; 0x9f065e71; 0x1051bd6e;
   0x8af93e21; 0x063d96dd; 0x05aedd3e; 0xbd464de6; 0x8db59154; 0x5d0571c4; 0xd46f0406; 0x15ff6050;
   0xfb241998; 0xe997d6bd; 0x43cc8940; 0x9e7767d9; 0x42bdb0e8; 0x8b880789; 0x5b38e719; 0xeedb79c8;
   0x0a47a17c; 0x0fe97c42; 0x1ec9f884; 0x00000000; 0x86830980; 0xed48322b; 0x70ac1e11; 0x724e6c5a;
   0xfffbfd0e; 0x38560f85; 0xd51e3dae; 0x3927362d; 0xd9640a0f; 0xa621685c; 0x54d19b5b; 0x2e3a2436;
   0x67b10c0a; 0xe70f9357; 0x96d2b4ee; 0x919e1b9b; 0xc54f80c0; 0x20a261dc; 0x4b695a77; 0x1a161c12;
   0xba0ae293; 0x2ae5c0a0; 0xe0433c22; 0x171d121b; 0x0d0b0e09; 0xc7adf28b; 0xa8b92db6; 0xa9c8141e;
   0x198557f1; 0x074caf75; 0xddbbee99; 0x60fda37f; 0x269ff701; 0xf5bc5c72; 0x3bc54466; 0x7e345bfb;
   0x29768b43; 0xc6dccb23; 0xfc68b6ed; 0xf163b8e4; 0xdccad731; 0x85104263; 0x22401397; 0x112084c6;
   0x247d854a; 0x3df8d2bb; 0x3211aef9; 0xa16dc729; 0x2f4b1d9e; 0x30f3dcb2; 0x52ec0d86; 0xe3d077c1;
   0x166c2bb3; 0xb999a970; 0x48fa1194; 0x642247e9; 0x8cc4a8fc; 0x3f1aa0f0; 0x2cd8567d; 0x90ef2233;
   0x4ec78749; 0xd1c1d938; 0xa2fe8cca; 0x0b3698d4; 0x81cfa6f5; 0xde28a57a; 0x8e26dab7; 0xbfa43fad;
   0x9de42c3a; 0x920d5078; 0xcc9b6a5f; 0x4662547e; 0x13c2f68d; 0xb8e890d8; 0xf75e2e39; 0xaff582c3;
   0x80be9f5d; 0x937c69d0; 0x2da96fd5; 0x12b3cf25; 0x993bc8ac; 0x7da71018; 0x636ee89c; 0xbb7bdb3b;
   0x7809cd26; 0x18f46e59; 0xb701ec9a; 0x9aa8834f; 0x6e65e695; 0xe67eaaff; 0xcf0821bc; 0xe8e6ef15;
   0x9bd9bae7; 0x36ce4a6f; 0x09d4ea9f; 0x7cd629b0; 0xb2af31a4; 0x23312a3f; 0x9430c6a5; 0x66c035a2;
   0xbc37744e; 0xcaa6fc82; 0xd0b0e090; 0xd81533a7; 0x984af104; 0xdaf741ec; 0x500e7fcd; 0xf62f1791;
   0xd68d764d; 0xb04d43ef; 0x4d54ccaa; 0x04dfe496; 0xb5e39ed1; 0x881b4c6a; 0x1fb8c12c; 0x517f4665;
   0xea049d5e; 0x355d018c; 0x7473fa87; 0x412efb0b; 0x1d5ab367; 0xd25292db; 0x5633e910; 0x47136dd6;
   0x618c9ad7; 0x0c7a37a1; 0x148e59f8; 0x3c89eb13; 0x27eecea9; 0xc935b761; 0xe5ede11c; 0xb13c7a47;
   0xdf599cd2; 0x733f55f2; 0xce791814; 0x37bf73c7; 0xcdea53f7; 0xaa5b5ffd; 0x6f14df3d; 0xdb867844;
   0xf381caaf; 0xc43eb968; 0x342c3824; 0x405fc2a3; 0xc372161d; 0x250cbce2; 0x498b283c; 0x9541ff0d;
   0x017139a8; 0xb3de080c; 0xe49cd8b4; 0xc1906456; 0x84617bcb; 0xb670d532; 0x5c74486c; 0x5742d0b8
  ].

Definition mtpz_aes_rt3 : list Z :=
  [
   0x51f4a750; 0x7e416553; 0x1a17a4c3; 0x3a275e96; 0x3bab6bcb; 0x1f9d45f1; 0xacfa58ab; 0x4be30393;
   0x2030fa55; 0xad766df6; 0x88cc7691; 0xf5024c25; 0x4fe5d7fc; 0xc52acbd7; 0x26354480; 0xb562a38f;
   0xdeb15a49; 0x25ba1b67; 0x45ea0e98; 0x5dfec0e1; 0xc32f7502; 0x814cf012; 0x8d4697a3; 0x6bd3f9c6;
   0x038f5fe7; 0x15929c95; 0xbf6d7aeb; 0x955259da; 0xd4be832d; 0x587421d3; 0x49e06929; 0x8ec9c844;
   0x75c2896a; 0xf48e7978; 0x99583e6b; 0x27b971dd; 0xbee14fb6; 0xf088ad17; 0xc920ac66; 0x7dce3ab4;
   0x63df4a18; 0xe51a3182; 0x97513360; 0x62537f45; 0xb16477e0; 0xbb6bae84; 0xfe81a01c; 0xf9082b94;
   0x70486858; 0x8f45fd19; 0x94de6c87; 0x527bf8b7; 0xab73d323; 0x724b02e2; 0xe31f8f57; 0x6655ab2a;
   0xb2eb2807; 0x2fb5c203; 0x86c57b9a; 0xd33708a5; 0x302887f2; 0x23bfa5b2; 0x02036aba; 0xed16825c;
   0x8acf1c2b; 0xa779b492; 0xf307f2f0; 0x4e69e2a1; 0x65daf4cd; 0x0605bed5; 0xd134621f; 0xc4a6fe8a;
   0x342e539d; 0xa2f355a0; 0x058ae132; 0xa4f6eb75; 0x0b83ec39; 0x4060efaa; 0x5e719f06; 0xbd6e1051;
   0x3e218af9; 0x96dd063d; 0xdd3e05ae; 0x4de6bd46; 0x91548db5; 0x71c45d05; 0x0406d46f; 0x605015ff;
   0x1998fb24; 0xd6bde997; 0x894043cc; 0x67d99e77; 0xb0e842bd; 0x07898b88; 0xe7195b38; 0x79c8eedb;
   0xa17c0a47; 0x7c420fe9; 0xf8841ec9; 0x00000000; 0x09808683; 0x322bed48; 0x1e1170ac; 0x6c5a724e;
   0xfd0efffb; 0x0f853856; 0x3daed51e; 0x362d3927; 0x0a0fd964; 0x685ca621; 0x9b5b54d1; 0x24362e3a;
   0x0c0a67b1; 0x9357e70f; 0xb4ee96d2; 0x1b9b919e; 0x80c0c54f; 0x61dc20a2; 0x5a774b69; 0x1c121a16;
   0xe293ba0a; 0xc0a02ae5; 0x3c22e043; 0x121b171d; 0x0e090d0b; 0xf28bc7ad; 0x2db6a8b9; 0x141ea9c8;
   0x57f11985; 0xaf75074c; 0xee99ddbb; 0xa37f60fd; 0xf701269f; 0x5c72f5bc; 0x44663bc5; 0x5bfb7e34;
   0x8b432976; 0xcb23c6dc; 0xb6edfc68; 0xb8e4f163; 0xd731dcca; 0x42638510; 0x13972240; 0x84c61120;
   0x854a247d; 0xd2bb3df8; 0xaef93211; 0xc729a16d; 0x1d9e2f4b; 0xdcb230f3; 0x0d8652ec; 0x77c1e3d0;
   0x2bb3166c; 0xa970b999; 0x119448fa; 0x47e96422; 0xa8fc8cc4; 0xa0f03f1a; 0x567d2cd8; 0x223390ef;
   0x87494ec7; 0xd938d1c1; 0x8ccaa2fe; 0x98d40b36; 0xa6f581cf; 0xa57ade28; 0xdab78e26; 0x3fadbfa4;
   0x2c3a9de4; 0x5078920d; 0x6a5fcc9b; 0x547e4662; 0xf68d13c2; 0x90d8b8e8; 0x2e39f75e; 0x82c3aff5;
   0x9f5d80be; 0x69d0937c; 0x6fd52da9; 0xcf2512b3; 0xc8ac993b; 0x10187da7; 0xe89c636e; 0xdb3bbb7b;
   0xcd267809; 0x6e5918f4; 0xec9ab701; 0x834f9aa8; 0xe6956e65; 0xaaffe67e; 0x21bccf08; 0xef15e8e6;
   0xbae79bd9; 0x4a6f36ce; 0xea9f09d4; 0x29b07cd6; 0x31a4b2af; 0x2a3f2331; 0xc6a59430; 0x35a266c0;
   0x744ebc37; 0xfc82caa6; 0xe090d0b0; 0x33a7d815; 0xf104984a; 0x41ecdaf7; 0x7fcd500e; 0x1791f62f;
   0x764dd68d; 0x43efb04d; 0xccaa4d54; 0xe49604df; 0x9ed1b5e3; 0x4c6a881b; 0xc12c1fb8; 0x4665517f;
   0x9d5eea04; 0x018c355d; 0xfa877473; 0xfb0b412e; 0xb3671d5a; 0x92dbd252; 0xe9105633; 0x6dd64713;
   0x9ad7618c; 0x37a10c7a; 0x59f8148e; 0xeb133c89; 0xcea927ee; 0xb761c935; 0xe11ce5ed; 0x7a47b13c;
   0x9cd2df59; 0x55f2733f; 0x1814ce79; 0x73c737bf; 0x53f7cdea; 0x5ffdaa5b; 0xdf3d6f14; 0x7844db86;
   0xcaaff381; 0xb968c43e; 0x3824342c; 0xc2a3405f; 0x161dc372; 0xbce2250c; 0x283c498b; 0xff0d9541;
   0x39a80171; 0x080cb3de; 0xd8b4e49c; 0x6456c190; 0x7bcb8461; 0xd532b670; 0x486c5c74; 0xd0b85742
  ].

Definition mtpz_aes_rt4 : list Z :=
  [
   0x5051f4a7; 0x537e4165; 0xc31a17a4; 0x963a275e; 0xcb3bab6b; 0xf11f9d45; 0xabacfa58; 0x934be303;
   0x552030fa; 0xf6ad766d; 0x9188cc76; 0x25f5024c; 0xfc4fe5d7; 0xd7c52acb; 0x80263544; 0x8fb562a3;
   0x49deb15a; 0x6725ba1b; 0x9845ea0e; 0xe15dfec0; 0x02c32f75; 0x12814cf0; 0xa38d4697; 0xc66bd3f9;
   0xe7038f5f; 0x9515929c; 0xebbf6d7a; 0xda955259; 0x2dd4be83; 0xd3587421; 0x2949e069; 0x448ec9c8;
   0x6a75c289; 0x78f48e79; 0x6b99583e; 0xdd27b971; 0xb6bee14f; 0x17f088ad; 0x66c920ac; 0xb47dce3a;
   0x1863df4a; 0x82e51a31; 0x60975133; 0x4562537f; 0xe0b16477; 0x84bb6bae; 0x1cfe81a0; 0x94f9082b;
   0x58704868; 0x198f45fd; 0x8794de6c; 0xb7527bf8; 0x23ab73d3; 0xe2724b02; 0x57e31f8f; 0x2a6655ab;
   0x07b2eb28; 0x032fb5c2; 0x9a86c57b; 0xa5d33708; 0xf2302887; 0xb223bfa5; 0xba02036a; 0x5ced1682;
   0x2b8acf1c; 0x92a779b4; 0xf0f307f2; 0xa14e69e2; 0xcd65daf4; 0xd50605be; 0x1fd13462; 0x8ac4a6fe;
   0x9d342e53; 0xa0a2f355; 0x32058ae1; 0x75a4f6eb; 0x390b83ec; 0xaa4060ef; 0x065e719f; 0x51bd6e10;
   0xf93e218a; 0x3d96dd06; 0xaedd3e05; 0x464de6bd; 0xb591548d; 0x0571c45d; 0x6f0406d4; 0xff605015;
   0x241998fb; 0x97d6bde9; 0xcc894043; 0x7767d99e; 0xbdb0e842; 0x8807898b; 0x38e7195b; 0xdb79c8ee;
   0x47a17c0a; 0xe97c420f; 0xc9f8841e; 0x00000000; 0x83098086; 0x48322bed; 0xac1e1170; 0x4e6c5a72;
   0xfbfd0eff; 0x560f8538; 0x1e3daed5; 0x27362d39; 0x640a0fd9; 0x21685ca6; 0xd19b5b54; 0x3a24362e;
   0xb10c0a67; 0x0f9357e7; 0xd2b4ee96; 0x9e1b9b91; 0x4f80c0c5; 0xa261dc20; 0x695a774b; 0x161c121a;
   0x0ae293ba; 0xe5c0a02a; 0x433c22e0; 0x1d121b17; 0x0b0e090d; 0xadf28bc7; 0xb92db6a8; 0xc8141ea9;
   0x8557f119; 0x4caf7507; 0xbbee99dd; 0xfda37f60; 0x9ff70126; 0xbc5c72f5; 0xc544663b; 0x345bfb7e;
   0x768b4329; 0xdccb23c6; 0x68b6edfc; 0x63b8e4f1; 0xcad731dc; 0x10426385; 0x40139722; 0x2084c611;
   0x7d854a24; 0xf8d2bb3d; 0x11aef932; 0x6dc729a1; 0x4b1d9e2f; 0xf3dcb230; 0xec0d8652; 0xd077c1e3;
   0x6c2bb316; 0x99a970b9; 0xfa119448; 0x2247e964; 0xc4a8fc8c; 0x1aa0f03f; 0xd8567d2c; 0xef223390;
   0xc787494e; 0xc1d938d1; 0xfe8ccaa2; 0x3698d40b; 0xcfa6f581; 0x28a57ade; 0x26dab78e; 0xa43fadbf;
   0xe42c3a9d; 0x0d507892; 0x9b6a5fcc; 0x62547e46; 0xc2f68d13; 0xe890d8b8; 0x5e2e39f7; 0xf582c3af;
   0xbe9f5d80; 0x7c69d093; 0xa96fd52d; 0xb3cf2512; 0x3bc8ac99; 0xa710187d; 0x6ee89c63; 0x7bdb3bbb;
   0x09cd2678; 0xf46e5918; 0x01ec9ab7; 0xa8834f9a; 0x65e6956e; 0x7eaaffe6; 0x0821bccf; 0xe6ef15e8;
   0xd9bae79b; 0xce4a6f36; 0xd4ea9f09; 0xd629b07c; 0xaf31a4b2; 0x312a3f23; 0x30c6a594; 0xc035a266;
   0x37744ebc; 0xa6fc82ca; 0xb0e090d0; 0x1533a7d8; 0x4af10498; 0xf741ecda; 0x0e7fcd50; 0x2f1791f6;
   0x8d764dd6; 0x4d43efb0; 0x54ccaa4d; 0xdfe49604; 0xe39ed1b5; 0x1b4c6a88; 0xb8c12c1f; 0x7f466551;
   0x049d5eea; 0x5d018c35; 0x73fa8774; 0x2efb0b41; 0x5ab3671d; 0x5292dbd2; 0x33e91056; 0x136dd647;
   0x8c9ad761; 0x7a37a10c; 0x8e59f814; 0x89eb133c; 0xeecea927; 0x35b761c9; 0xede11ce5; 0x3c7a47b1;
   0x599cd2df; 0x3f55f273; 0x791814ce; 0xbf73c737; 0xea53f7cd; 0x5b5ffdaa; 0x14df3d6f; 0x867844db;
   0x81caaff3; 0x3eb968c4; 0x2c382434; 0x5fc2a340; 0x72161dc3; 0x0cbce225; 0x8b283c49; 0x41ff0d95;
   0x7139a801; 0xde080cb3; 0x9cd8b4e4; 0x906456c1; 0x617bcb84; 0x70d532b6; 0x74486c5c; 0x42d0b857
  ].

Definition mtpz_aes_gb11 : list Z :=
  [
   0x00000000; 0x0b0e090d; 0x161c121a; 0x1d121b17; 0x2c382434; 0x27362d39; 0x3a24362e; 0x312a3f23;
   0x58704868; 0x537e4165; 0x4e6c5a72; 0x4562537f; 0x74486c5c; 0x7f466551; 0x62547e46; 0x695a774b;
   0xb0e090d0; 0xbbee99dd; 0xa6fc82ca; 0xadf28bc7; 0x9cd8b4e4; 0x97d6bde9; 0x8ac4a6fe; 0x81caaff3;
   0xe890d8b8; 0xe39ed1b5; 0xfe8ccaa2; 0xf582c3af; 0xc4a8fc8c; 0xcfa6f581; 0xd2b4ee96; 0xd9bae79b;
   0x7bdb3bbb; 0x70d532b6; 0x6dc729a1; 0x66c920ac; 0x57e31f8f; 0x5ced1682; 0x41ff0d95; 0x4af10498;
   0x23ab73d3; 0x28a57ade; 0x35b761c9; 0x3eb968c4; 0x0f9357e7; 0x049d5eea; 0x198f45fd; 0x12814cf0;
   0xcb3bab6b; 0xc035a266; 0xdd27b971; 0xd629b07c; 0xe7038f5f; 0xec0d8652; 0xf11f9d45; 0xfa119448;
   0x934be303; 0x9845ea0e; 0x8557f119; 0x8e59f814; 0xbf73c737; 0xb47dce3a; 0xa96fd52d; 0xa261dc20;
   0xf6ad766d; 0xfda37f60; 0xe0b16477; 0xebbf6d7a; 0xda955259; 0xd19b5b54; 0xcc894043; 0xc787494e;
   0xaedd3e05; 0xa5d33708; 0xb8c12c1f; 0xb3cf2512; 0x82e51a31; 0x89eb133c; 0x94f9082b; 0x9ff70126;
   0x464de6bd; 0x4d43efb0; 0x5051f4a7; 0x5b5ffdaa; 0x6a75c289; 0x617bcb84; 0x7c69d093; 0x7767d99e;
   0x1e3daed5; 0x1533a7d8; 0x0821bccf; 0x032fb5c2; 0x32058ae1; 0x390b83ec; 0x241998fb; 0x2f1791f6;
   0x8d764dd6; 0x867844db; 0x9b6a5fcc; 0x906456c1; 0xa14e69e2; 0xaa4060ef; 0xb7527bf8; 0xbc5c72f5;
   0xd50605be; 0xde080cb3; 0xc31a17a4; 0xc8141ea9; 0xf93e218a; 0xf2302887; 0xef223390; 0xe42c3a9d;
   0x3d96dd06; 0x3698d40b; 0x2b8acf1c; 0x2084c611; 0x11aef932; 0x1aa0f03f; 0x07b2eb28; 0x0cbce225;
   0x65e6956e; 0x6ee89c63; 0x73fa8774; 0x78f48e79; 0x49deb15a; 0x42d0b857; 0x5fc2a340; 0x54ccaa4d;
   0xf741ecda; 0xfc4fe5d7; 0xe15dfec0; 0xea53f7cd; 0xdb79c8ee; 0xd077c1e3; 0xcd65daf4; 0xc66bd3f9;
   0xaf31a4b2; 0xa43fadbf; 0xb92db6a8; 0xb223bfa5; 0x83098086; 0x8807898b; 0x9515929c; 0x9e1b9b91;
   0x47a17c0a; 0x4caf7507; 0x51bd6e10; 0x5ab3671d; 0x6b99583e; 0x60975133; 0x7d854a24; 0x768b4329;
   0x1fd13462; 0x14df3d6f; 0x09cd2678; 0x02c32f75; 0x33e91056; 0x38e7195b; 0x25f5024c; 0x2efb0b41;
   0x8c9ad761; 0x8794de6c; 0x9a86c57b; 0x9188cc76; 0xa0a2f355; 0xabacfa58; 0xb6bee14f; 0xbdb0e842;
   0xd4ea9f09; 0xdfe49604; 0xc2f68d13; 0xc9f8841e; 0xf8d2bb3d; 0xf3dcb230; 0xeecea927; 0xe5c0a02a;
   0x3c7a47b1; 0x37744ebc; 0x2a6655ab; 0x21685ca6; 0x10426385; 0x1b4c6a88; 0x065e719f; 0x0d507892;
   0x640a0fd9; 0x6f0406d4; 0x72161dc3; 0x791814ce; 0x48322bed; 0x433c22e0; 0x5e2e39f7; 0x552030fa;
   0x01ec9ab7; 0x0ae293ba; 0x17f088ad; 0x1cfe81a0; 0x2dd4be83; 0x26dab78e; 0x3bc8ac99; 0x30c6a594;
   0x599cd2df; 0x5292dbd2; 0x4f80c0c5; 0x448ec9c8; 0x75a4f6eb; 0x7eaaffe6; 0x63b8e4f1; 0x68b6edfc;
   0xb10c0a67; 0xba02036a; 0xa710187d; 0xac1e1170; 0x9d342e53; 0x963a275e; 0x8b283c49; 0x80263544;
   0xe97c420f; 0xe2724b02; 0xff605015; 0xf46e5918; 0xc544663b; 0xce4a6f36; 0xd3587421; 0xd8567d2c;
   0x7a37a10c; 0x7139a801; 0x6c2bb316; 0x6725ba1b; 0x560f8538; 0x5d018c35; 0x40139722; 0x4b1d9e2f;
   0x2247e964; 0x2949e069; 0x345bfb7e; 0x3f55f273; 0x0e7fcd50; 0x0571c45d; 0x1863df4a; 0x136dd647;
   0xcad731dc; 0xc1d938d1; 0xdccb23c6; 0xd7c52acb; 0xe6ef15e8; 0xede11ce5; 0xf0f307f2; 0xfbfd0eff;
   0x92a779b4; 0x99a970b9; 0x84bb6bae; 0x8fb562a3; 0xbe9f5d80; 0xb591548d; 0xa8834f9a; 0xa38d4697
  ].

Definition mtpz_aes_gb14 : list Z :=
  [
   0x00000000; 0x0e090d0b; 0x1c121a16; 0x121b171d; 0x3824342c; 0x362d3927; 0x24362e3a; 0x2a3f2331;
   0x70486858; 0x7e416553; 0x6c5a724e; 0x62537f45; 0x486c5c74; 0x4665517f; 0x547e4662; 0x5a774b69;
   0xe090d0b0; 0xee99ddbb; 0xfc82caa6; 0xf28bc7ad; 0xd8b4e49c; 0xd6bde997; 0xc4a6fe8a; 0xcaaff381;
   0x90d8b8e8; 0x9ed1b5e3; 0x8ccaa2fe; 0x82c3aff5; 0xa8fc8cc4; 0xa6f581cf; 0xb4ee96d2; 0xbae79bd9;
   0xdb3bbb7b; 0xd532b670; 0xc729a16d; 0xc920ac66; 0xe31f8f57; 0xed16825c; 0xff0d9541; 0xf104984a;
   0xab73d323; 0xa57ade28; 0xb761c935; 0xb968c43e; 0x9357e70f; 0x9d5eea04; 0x8f45fd19; 0x814cf012;
   0x3bab6bcb; 0x35a266c0; 0x27b971dd; 0x29b07cd6; 0x038f5fe7; 0x0d8652ec; 0x1f9d45f1; 0x119448fa;
   0x4be30393; 0x45ea0e98; 0x57f11985; 0x59f8148e; 0x73c737bf; 0x7dce3ab4; 0x6fd52da9; 0x61dc20a2;
   0xad766df6; 0xa37f60fd; 0xb16477e0; 0xbf6d7aeb; 0x955259da; 0x9b5b54d1; 0x894043cc; 0x87494ec7;
   0xdd3e05ae; 0xd33708a5; 0xc12c1fb8; 0xcf2512b3; 0xe51a3182; 0xeb133c89; 0xf9082b94; 0xf701269f;
   0x4de6bd46; 0x43efb04d; 0x51f4a750; 0x5ffdaa5b; 0x75c2896a; 0x7bcb8461; 0x69d0937c; 0x67d99e77;
   0x3daed51e; 0x33a7d815; 0x21bccf08; 0x2fb5c203; 0x058ae132; 0x0b83ec39; 0x1998fb24; 0x1791f62f;
   0x764dd68d; 0x7844db86; 0x6a5fcc9b; 0x6456c190; 0x4e69e2a1; 0x4060efaa; 0x527bf8b7; 0x5c72f5bc;
   0x0605bed5; 0x080cb3de; 0x1a17a4c3; 0x141ea9c8; 0x3e218af9; 0x302887f2; 0x223390ef; 0x2c3a9de4;
   0x96dd063d; 0x98d40b36; 0x8acf1c2b; 0x84c61120; 0xaef93211; 0xa0f03f1a; 0xb2eb2807; 0xbce2250c;
   0xe6956e65; 0xe89c636e; 0xfa877473; 0xf48e7978; 0xdeb15a49; 0xd0b85742; 0xc2a3405f; 0xccaa4d54;
   0x41ecdaf7; 0x4fe5d7fc; 0x5dfec0e1; 0x53f7cdea; 0x79c8eedb; 0x77c1e3d0; 0x65daf4cd; 0x6bd3f9c6;
   0x31a4b2af; 0x3fadbfa4; 0x2db6a8b9; 0x23bfa5b2; 0x09808683; 0x07898b88; 0x15929c95; 0x1b9b919e;
   0xa17c0a47; 0xaf75074c; 0xbd6e1051; 0xb3671d5a; 0x99583e6b; 0x97513360; 0x854a247d; 0x8b432976;
   0xd134621f; 0xdf3d6f14; 0xcd267809; 0xc32f7502; 0xe9105633; 0xe7195b38; 0xf5024c25; 0xfb0b412e;
   0x9ad7618c; 0x94de6c87; 0x86c57b9a; 0x88cc7691; 0xa2f355a0; 0xacfa58ab; 0xbee14fb6; 0xb0e842bd;
   0xea9f09d4; 0xe49604df; 0xf68d13c2; 0xf8841ec9; 0xd2bb3df8; 0xdcb230f3; 0xcea927ee; 0xc0a02ae5;
   0x7a47b13c; 0x744ebc37; 0x6655ab2a; 0x685ca621; 0x42638510; 0x4c6a881b; 0x5e719f06; 0x5078920d;
   0x0a0fd964; 0x0406d46f; 0x161dc372; 0x1814ce79; 0x322bed48; 0x3c22e043; 0x2e39f75e; 0x2030fa55;
   0xec9ab701; 0xe293ba0a; 0xf088ad17; 0xfe81a01c; 0xd4be832d; 0xdab78e26; 0xc8ac993b; 0xc6a59430;
   0x9cd2df59; 0x92dbd252; 0x80c0c54f; 0x8ec9c844; 0xa4f6eb75; 0xaaffe67e; 0xb8e4f163; 0xb6edfc68;
   0x0c0a67b1; 0x02036aba; 0x10187da7; 0x1e1170ac; 0x342e539d; 0x3a275e96; 0x283c498b; 0x26354480;
   0x7c420fe9; 0x724b02e2; 0x605015ff; 0x6e5918f4; 0x44663bc5; 0x4a6f36ce; 0x587421d3; 0x567d2cd8;
   0x37a10c7a; 0x39a80171; 0x2bb3166c; 0x25ba1b67; 0x0f853856; 0x018c355d; 0x13972240; 0x1d9e2f4b;
   0x47e96422; 0x49e06929; 0x5bfb7e34; 0x55f2733f; 0x7fcd500e; 0x71c45d05; 0x63df4a18; 0x6dd64713;
   0xd731dcca; 0xd938d1c1; 0xcb23c6dc; 0xc52acbd7; 0xef15e8e6; 0xe11ce5ed; 0xf307f2f0; 0xfd0efffb;
   0xa779b492; 0xa970b999; 0xbb6bae84; 0xb562a38f; 0x9f5d80be; 0x91548db5; 0x834f9aa8; 0x8d4697a3
  ].

Definition mtpz_aes_gb13 : list Z :=
  [
   0x00000000; 0x0d0b0e09; 0x1a161c12; 0x171d121b; 0x342c3824; 0x3927362d; 0x2e3a2436; 0x23312a3f;
   0x68587048; 0x65537e41; 0x724e6c5a; 0x7f456253; 0x5c74486c; 0x517f4665; 0x4662547e; 0x4b695a77;
   0xd0b0e090; 0xddbbee99; 0xcaa6fc82; 0xc7adf28b; 0xe49cd8b4; 0xe997d6bd; 0xfe8ac4a6; 0xf381caaf;
   0xb8e890d8; 0xb5e39ed1; 0xa2fe8cca; 0xaff582c3; 0x8cc4a8fc; 0x81cfa6f5; 0x96d2b4ee; 0x9bd9bae7;
   0xbb7bdb3b; 0xb670d532; 0xa16dc729; 0xac66c920; 0x8f57e31f; 0x825ced16; 0x9541ff0d; 0x984af104;
   0xd323ab73; 0xde28a57a; 0xc935b761; 0xc43eb968; 0xe70f9357; 0xea049d5e; 0xfd198f45; 0xf012814c;
   0x6bcb3bab; 0x66c035a2; 0x71dd27b9; 0x7cd629b0; 0x5fe7038f; 0x52ec0d86; 0x45f11f9d; 0x48fa1194;
   0x03934be3; 0x0e9845ea; 0x198557f1; 0x148e59f8; 0x37bf73c7; 0x3ab47dce; 0x2da96fd5; 0x20a261dc;
   0x6df6ad76; 0x60fda37f; 0x77e0b164; 0x7aebbf6d; 0x59da9552; 0x54d19b5b; 0x43cc8940; 0x4ec78749;
   0x05aedd3e; 0x08a5d337; 0x1fb8c12c; 0x12b3cf25; 0x3182e51a; 0x3c89eb13; 0x2b94f908; 0x269ff701;
   0xbd464de6; 0xb04d43ef; 0xa75051f4; 0xaa5b5ffd; 0x896a75c2; 0x84617bcb; 0x937c69d0; 0x9e7767d9;
   0xd51e3dae; 0xd81533a7; 0xcf0821bc; 0xc2032fb5; 0xe132058a; 0xec390b83; 0xfb241998; 0xf62f1791;
   0xd68d764d; 0xdb867844; 0xcc9b6a5f; 0xc1906456; 0xe2a14e69; 0xefaa4060; 0xf8b7527b; 0xf5bc5c72;
   0xbed50605; 0xb3de080c; 0xa4c31a17; 0xa9c8141e; 0x8af93e21; 0x87f23028; 0x90ef2233; 0x9de42c3a;
   0x063d96dd; 0x0b3698d4; 0x1c2b8acf; 0x112084c6; 0x3211aef9; 0x3f1aa0f0; 0x2807b2eb; 0x250cbce2;
   0x6e65e695; 0x636ee89c; 0x7473fa87; 0x7978f48e; 0x5a49deb1; 0x5742d0b8; 0x405fc2a3; 0x4d54ccaa;
   0xdaf741ec; 0xd7fc4fe5; 0xc0e15dfe; 0xcdea53f7; 0xeedb79c8; 0xe3d077c1; 0xf4cd65da; 0xf9c66bd3;
   0xb2af31a4; 0xbfa43fad; 0xa8b92db6; 0xa5b223bf; 0x86830980; 0x8b880789; 0x9c951592; 0x919e1b9b;
   0x0a47a17c; 0x074caf75; 0x1051bd6e; 0x1d5ab367; 0x3e6b9958; 0x33609751; 0x247d854a; 0x29768b43;
   0x621fd134; 0x6f14df3d; 0x7809cd26; 0x7502c32f; 0x5633e910; 0x5b38e719; 0x4c25f502; 0x412efb0b;
   0x618c9ad7; 0x6c8794de; 0x7b9a86c5; 0x769188cc; 0x55a0a2f3; 0x58abacfa; 0x4fb6bee1; 0x42bdb0e8;
   0x09d4ea9f; 0x04dfe496; 0x13c2f68d; 0x1ec9f884; 0x3df8d2bb; 0x30f3dcb2; 0x27eecea9; 0x2ae5c0a0;
   0xb13c7a47; 0xbc37744e; 0xab2a6655; 0xa621685c; 0x85104263; 0x881b4c6a; 0x9f065e71; 0x920d5078;
   0xd9640a0f; 0xd46f0406; 0xc372161d; 0xce791814; 0xed48322b; 0xe0433c22; 0xf75e2e39; 0xfa552030;
   0xb701ec9a; 0xba0ae293; 0xad17f088; 0xa01cfe81; 0x832dd4be; 0x8e26dab7; 0x993bc8ac; 0x9430c6a5;
   0xdf599cd2; 0xd25292db; 0xc54f80c0; 0xc8448ec9; 0xeb75a4f6; 0xe67eaaff; 0xf163b8e4; 0xfc68b6ed;
   0x67b10c0a; 0x6aba0203; 0x7da71018; 0x70ac1e11; 0x539d342e; 0x5e963a27; 0x498b283c; 0x44802635;
   0x0fe97c42; 0x02e2724b; 0x15ff6050; 0x18f46e59; 0x3bc54466; 0x36ce4a6f; 0x21d35874; 0x2cd8567d;
   0x0c7a37a1; 0x017139a8; 0x166c2bb3; 0x1b6725ba; 0x38560f85; 0x355d018c; 0x22401397; 0x2f4b1d9e;
   0x642247e9; 0x692949e0; 0x7e345bfb; 0x733f55f2; 0x500e7fcd; 0x5d0571c4; 0x4a1863df; 0x47136dd6;
   0xdccad731; 0xd1c1d938; 0xc6dccb23; 0xcbd7c52a; 0xe8e6ef15; 0xe5ede11c; 0xf2f0f307; 0xfffbfd0e;
   0xb492a779; 0xb999a970; 0xae84bb6b; 0xa38fb562; 0x80be9f5d; 0x8db59154; 0x9aa8834f; 0x97a38d46
  ].

Definition mtpz_aes_gb9 : list Z :=
  [
   0x00000000; 0x090d0b0e; 0x121a161c; 0x1b171d12; 0x24342c38; 0x2d392736; 0x362e3a24; 0x3f23312a;
   0x48685870; 0x4165537e; 0x5a724e6c; 0x537f4562; 0x6c5c7448; 0x65517f46; 0x7e466254; 0x774b695a;
   0x90d0b0e0; 0x99ddbbee; 0x82caa6fc; 0x8bc7adf2; 0xb4e49cd8; 0xbde997d6; 0xa6fe8ac4; 0xaff381ca;
   0xd8b8e890; 0xd1b5e39e; 0xcaa2fe8c; 0xc3aff582; 0xfc8cc4a8; 0xf581cfa6; 0xee96d2b4; 0xe79bd9ba;
   0x3bbb7bdb; 0x32b670d5; 0x29a16dc7; 0x20ac66c9; 0x1f8f57e3; 0x16825ced; 0x0d9541ff; 0x04984af1;
   0x73d323ab; 0x7ade28a5; 0x61c935b7; 0x68c43eb9; 0x57e70f93; 0x5eea049d; 0x45fd198f; 0x4cf01281;
   0xab6bcb3b; 0xa266c035; 0xb971dd27; 0xb07cd629; 0x8f5fe703; 0x8652ec0d; 0x9d45f11f; 0x9448fa11;
   0xe303934b; 0xea0e9845; 0xf1198557; 0xf8148e59; 0xc737bf73; 0xce3ab47d; 0xd52da96f; 0xdc20a261;
   0x766df6ad; 0x7f60fda3; 0x6477e0b1; 0x6d7aebbf; 0x5259da95; 0x5b54d19b; 0x4043cc89; 0x494ec787;
   0x3e05aedd; 0x3708a5d3; 0x2c1fb8c1; 0x2512b3cf; 0x1a3182e5; 0x133c89eb; 0x082b94f9; 0x01269ff7;
   0xe6bd464d; 0xefb04d43; 0xf4a75051; 0xfdaa5b5f; 0xc2896a75; 0xcb84617b; 0xd0937c69; 0xd99e7767;
   0xaed51e3d; 0xa7d81533; 0xbccf0821; 0xb5c2032f; 0x8ae13205; 0x83ec390b; 0x98fb2419; 0x91f62f17;
   0x4dd68d76; 0x44db8678; 0x5fcc9b6a; 0x56c19064; 0x69e2a14e; 0x60efaa40; 0x7bf8b752; 0x72f5bc5c;
   0x05bed506; 0x0cb3de08; 0x17a4c31a; 0x1ea9c814; 0x218af93e; 0x2887f230; 0x3390ef22; 0x3a9de42c;
   0xdd063d96; 0xd40b3698; 0xcf1c2b8a; 0xc6112084; 0xf93211ae; 0xf03f1aa0; 0xeb2807b2; 0xe2250cbc;
   0x956e65e6; 0x9c636ee8; 0x877473fa; 0x8e7978f4; 0xb15a49de; 0xb85742d0; 0xa3405fc2; 0xaa4d54cc;
   0xecdaf741; 0xe5d7fc4f; 0xfec0e15d; 0xf7cdea53; 0xc8eedb79; 0xc1e3d077; 0xdaf4cd65; 0xd3f9c66b;
   0xa4b2af31; 0xadbfa43f; 0xb6a8b92d; 0xbfa5b223; 0x80868309; 0x898b8807; 0x929c9515; 0x9b919e1b;
   0x7c0a47a1; 0x75074caf; 0x6e1051bd; 0x671d5ab3; 0x583e6b99; 0x51336097; 0x4a247d85; 0x4329768b;
   0x34621fd1; 0x3d6f14df; 0x267809cd; 0x2f7502c3; 0x105633e9; 0x195b38e7; 0x024c25f5; 0x0b412efb;
   0xd7618c9a; 0xde6c8794; 0xc57b9a86; 0xcc769188; 0xf355a0a2; 0xfa58abac; 0xe14fb6be; 0xe842bdb0;
   0x9f09d4ea; 0x9604dfe4; 0x8d13c2f6; 0x841ec9f8; 0xbb3df8d2; 0xb230f3dc; 0xa927eece; 0xa02ae5c0;
   0x47b13c7a; 0x4ebc3774; 0x55ab2a66; 0x5ca62168; 0x63851042; 0x6a881b4c; 0x719f065e; 0x78920d50;
   0x0fd9640a; 0x06d46f04; 0x1dc37216; 0x14ce7918; 0x2bed4832; 0x22e0433c; 0x39f75e2e; 0x30fa5520;
   0x9ab701ec; 0x93ba0ae2; 0x88ad17f0; 0x81a01cfe; 0xbe832dd4; 0xb78e26da; 0xac993bc8; 0xa59430c6;
   0xd2df599c; 0xdbd25292; 0xc0c54f80; 0xc9c8448e; 0xf6eb75a4; 0xffe67eaa; 0xe4f163b8; 0xedfc68b6;
   0x0a67b10c; 0x036aba02; 0x187da710; 0x1170ac1e; 0x2e539d34; 0x275e963a; 0x3c498b28; 0x35448026;
   0x420fe97c; 0x4b02e272; 0x5015ff60; 0x5918f46e; 0x663bc544; 0x6f36ce4a; 0x7421d358; 0x7d2cd856;
   0xa10c7a37; 0xa8017139; 0xb3166c2b; 0xba1b6725; 0x8538560f; 0x8c355d01; 0x97224013; 0x9e2f4b1d;
   0xe9642247; 0xe0692949; 0xfb7e345b; 0xf2733f55; 0xcd500e7f; 0xc45d0571; 0xdf4a1863; 0xd647136d;
   0x31dccad7; 0x38d1c1d9; 0x23c6dccb; 0x2acbd7c5; 0x15e8e6ef; 0x1ce5ede1; 0x07f2f0f3; 0x0efffbfd;
   0x79b492a7; 0x70b999a9; 0x6bae84bb; 0x62a38fb5; 0x5d80be9f; 0x548db591; 0x4f9aa883; 0x4697a38d
  ].

(** ** AES engine and modes *)

Module Aes.

(** [table[x]] for one of the constant tables. *)
Definition tbl (table : list Z) (x : Z) : Z := nth (Z.to_nat x) table 0.

Definition MTPZ_ENCRYPTIONLOBYTE (val : Z) : Z := Z.land (Z.shiftr val 24) 0xFF.
Definition MTPZ_ENCRYPTIONBYTE1 (val : Z) : Z := Z.land (Z.shiftr val 16) 0xFF.
Definition MTPZ_ENCRYPTIONBYTE2 (val : Z) : Z := Z.land (Z.shiftr val 8) 0xFF.
Definition MTPZ_ENCRYPTIONBYTE3 (val : Z) : Z := Z.land (Z.shiftr val 0) 0xFF.

(** *** Key schedule *)

(** One pass of the [for (i = key_len; i < ks; i += 4)] loop. *)
Definition schedule_step (key_len : nat) (key : list Z) (i rcon_i : nat)
    : list Z * nat :=
  let t0 := getb key (i - 4) in
  let t1 := getb key (i - 3) in
  let t2 := getb key (i - 2) in
  let t3 := getb key (i - 1) in
  let '(temp, rcon_i) :=
    if (i mod key_len =? 0)%nat then
      ([Z.land (Z.lxor (tbl mtpz_aes_sbox t1) (getb mtpz_aes_rcon rcon_i)) 0xFF;
        tbl mtpz_aes_sbox t2; tbl mtpz_aes_sbox t3; tbl mtpz_aes_sbox t0],
       S rcon_i)
    else if (24 <? key_len)%nat && (i mod key_len =? 16)%nat then
      ([tbl mtpz_aes_sbox t0; tbl mtpz_aes_sbox t1;
        tbl mtpz_aes_sbox t2; tbl mtpz_aes_sbox t3], rcon_i)
    else ([t0; t1; t2; t3], rcon_i) in
  let put j key :=
    <[(i + j)%nat := Z.land (Z.lxor (getb key (i + j - key_len)) (getb temp j)) 0xFF]> key in
  (put 3%nat (put 2%nat (put 1%nat (put 0%nat key))), rcon_i).

Fixpoint schedule_loop (n : nat) (key_len : nat) (key : list Z) (i rcon_i : nat)
    : list Z :=
  match n with
  | O => key
  | S n' =>
      let '(key, rcon_i) := schedule_step key_len key i rcon_i in
      schedule_loop n' key_len key (i + 4) rcon_i
  end.

(** Returns [*out]; [*out_len] is its length.  For an unsupported
    [key_len] the C code returns [NULL] with length 0, rendered as the
    empty buffer. *)
Definition mtpz_encryption_expand_key_inner (constant : list Z) (key_len : Z)
    : list Z :=
  let ks : option nat :=
    match key_len with
    | 16 => Some (16 * (10 + 1))%nat
    | 24 => Some (16 * (12 + 1))%nat
    | 32 => Some (16 * (14 + 1))%nat
    | _ => None
    end in
  match ks with
  | None => []
  | Some ks =>
      let kl := Z.to_nat key_len in
      let key := copy_bytes kl (zeros ks) 0 constant 0 in
      schedule_loop ((ks - kl) / 4) kl key kl 0
  end.

(** One pass of the loop of [mtpz_encryption_inv_mix_columns] at offset [o]. *)
Definition inv_mix_word (expanded : list Z) (p : nat) : Z :=
  MTPZ_SWAP
    (Z.lxor (Z.lxor (Z.lxor (tbl mtpz_aes_gb9 (getb expanded (p + 3)))
                            (tbl mtpz_aes_gb13 (getb expanded (p + 2))))
                    (tbl mtpz_aes_gb11 (getb expanded (p + 1))))
            (tbl mtpz_aes_gb14 (getb expanded p))).

Definition inv_mix_step (expanded : list Z) (o : nat) : list Z :=
  let expanded := store32 expanded (o + 16) (inv_mix_word expanded (o + 16)) in
  let expanded := store32 expanded (o + 20) (inv_mix_word expanded (o + 20)) in
  let expanded := store32 expanded (o + 24) (inv_mix_word expanded (o + 24)) in
  store32 expanded (o + 28) (inv_mix_word expanded (o + 28)).

Fixpoint inv_mix_loop (n : nat) (expanded : list Z) (o : nat) : list Z :=
  match n with
  | O => expanded
  | S n' => inv_mix_loop n' (inv_mix_step expanded o) (o + 16)
  end.

(** [for (v8 = 1; v8 < rounds; v8++)] runs [rounds - 1] times. *)
Definition mtpz_encryption_inv_mix_columns (expanded : list Z) (offset : nat)
    (rounds : Z) : list Z :=
  inv_mix_loop (Z.to_nat (rounds - 1)) expanded offset.

(** Returns the 484-byte block [back].  A [count] of 10 or 12 keeps the
    inverse mix-columns pass inside it; with the 32 that the callers
    pass for other key lengths the C stores past the block, which is
    not modelled (stores outside a buffer are dropped here). *)
Definition mtpz_encryption_expand_key (constant : list Z) (key_len count : Z)
    : list Z :=
  let back := zeros 484 in
  let inner := mtpz_encryption_expand_key_inner constant key_len in
  let inner_len := length inner in
  let back := <[0%nat := u8 (Z.rem count 0xFF)]> back in
  let i := 4%nat in
  let back := copy_bytes inner_len back i inner 0 in
  let i := (i + inner_len)%nat in
  let back := copy_bytes inner_len back i inner 0 in
  let seek :=
    match count with
    | 10 => 0xB4
    | 12 => 0xD4
    | _ => 0xF4
    end in
  mtpz_encryption_inv_mix_columns back (Z.to_nat seek) count.

(** *** Single-block operations *)

Definition words : Type := Z * Z * Z * Z.

(** [v ^ MTPZ_SWAP(u_expanded[(keyOffset + 4k) / 4])], for the four words. *)
Definition add_round_key (expanded : list Z) (keyOffset : Z) (v : words) : words :=
  let '(a, b, c, d) := v in
  let rk k := MTPZ_SWAP (load32 expanded (4 * Z.to_nat ((keyOffset + k) / 4))) in
  (Z.lxor a (rk 0), Z.lxor b (rk 4), Z.lxor c (rk 8), Z.lxor d (rk 12)).

(** [MTPZ_SWAP(u_seed[k])], for the four words of the seed. *)
Definition load_words (buf : list Z) (off : nat) : words :=
  (MTPZ_SWAP (load32 buf off), MTPZ_SWAP (load32 buf (off + 4)),
   MTPZ_SWAP (load32 buf (off + 8)), MTPZ_SWAP (load32 buf (off + 12))).

(** [u_data[k] = MTPZ_SWAP(v)], for the four words. *)
Definition store_words (buf : list Z) (off : nat) (v : words) : list Z :=
  let '(a, b, c, d) := v in
  let buf := store32 buf off (MTPZ_SWAP a) in
  let buf := store32 buf (off + 4) (MTPZ_SWAP b) in
  let buf := store32 buf (off + 8) (MTPZ_SWAP c) in
  store32 buf (off + 12) (MTPZ_SWAP d).

Definition xor4 (t1 t2 t3 t4 : Z) : Z := Z.lxor (Z.lxor (Z.lxor t1 t2) t3) t4.

(** The table round of the decryption: [v18 .. v21] from [v14 .. v17]. *)
Definition dec_round (v : words) : words :=
  let '(v14, v15, v16, v17) := v in
  let t a b c d :=
    xor4 (tbl mtpz_aes_rt1 (MTPZ_ENCRYPTIONBYTE3 a))
         (tbl mtpz_aes_rt2 (MTPZ_ENCRYPTIONBYTE2 b))
         (tbl mtpz_aes_rt3 (MTPZ_ENCRYPTIONLOBYTE c))
         (tbl mtpz_aes_rt4 (MTPZ_ENCRYPTIONBYTE1 d)) in
  (t v15 v16 v14 v17, t v16 v17 v15 v14, t v17 v14 v16 v15, t v14 v15 v17 v16).

(** The table round of the encryption. *)
Definition enc_round (v : words) : words :=
  let '(v14, v15, v16, v17) := v in
  let t a b c d :=
    xor4 (tbl mtpz_aes_ft1 (MTPZ_ENCRYPTIONBYTE3 a))
         (tbl mtpz_aes_ft2 (MTPZ_ENCRYPTIONBYTE2 b))
         (tbl mtpz_aes_ft3 (MTPZ_ENCRYPTIONLOBYTE c))
         (tbl mtpz_aes_ft4 (MTPZ_ENCRYPTIONBYTE1 d)) in
  (t v17 v16 v14 v15, t v14 v17 v15 v16, t v15 v14 v16 v17, t v16 v15 v17 v14).

(** [(b0 << 24) | (b1 << 16) | (b2 << 8) | (b3 << 0)] as an [unsigned int]. *)
Definition pack (b0 b1 b2 b3 : Z) : Z :=
  u32 (Z.lor (Z.lor (Z.lor (Z.shiftl b0 24) (Z.shiftl b1 16)) (Z.shiftl b2 8))
             (Z.shiftl b3 0)).

Definition dec_final (v : words) : words :=
  let '(v14, v15, v16, v17) := v in
  let t a b c d :=
    pack (tbl mtpz_aes_invsbox (MTPZ_ENCRYPTIONLOBYTE a))
         (tbl mtpz_aes_invsbox (MTPZ_ENCRYPTIONBYTE1 b))
         (tbl mtpz_aes_invsbox (MTPZ_ENCRYPTIONBYTE2 c))
         (tbl mtpz_aes_invsbox (MTPZ_ENCRYPTIONBYTE3 d)) in
  (t v14 v17 v16 v15, t v15 v14 v17 v16, t v16 v15 v14 v17, t v17 v16 v15 v14).

(** [FT3_Bytes[k]]: byte [k] of the table [mtpz_aes_ft3] seen through an
    [unsigned char] pointer (little-endian host). *)
Definition FT3_Bytes (k : Z) : Z :=
  u8 (tbl mtpz_aes_ft3 (k / 4) / 2 ^ (8 * (k mod 4))).

Definition enc_final (v : words) : words :=
  let '(v14, v15, v16, v17) := v in
  let t a b c d :=
    pack (FT3_Bytes (1 + 4 * MTPZ_ENCRYPTIONLOBYTE a))
         (FT3_Bytes (1 + 4 * MTPZ_ENCRYPTIONBYTE1 b))
         (FT3_Bytes (1 + 4 * MTPZ_ENCRYPTIONBYTE2 c))
         (FT3_Bytes (1 + 4 * MTPZ_ENCRYPTIONBYTE3 d)) in
  (t v14 v15 v16 v17, t v15 v16 v17 v14, t v16 v17 v14 v15, t v17 v14 v15 v16).

(** The [do ... while (rounds != 1)] loop of the decryption: [rounds]
    starts at 9 and the body runs 8 times, [keyOffset] stepping down. *)
Fixpoint dec_loop (n : nat) (expanded : list Z) (keyOffset : Z) (v : words)
    : words * Z :=
  match n with
  | O => (v, keyOffset)
  | S n' =>
      dec_loop n' expanded (keyOffset - 16)
        (dec_round (add_round_key expanded keyOffset v))
  end.

(** The [do ... while (rounds != 9)] loop of the encryption: [rounds]
    starts at 1 and the body runs 8 times, [keyOffset] stepping up. *)
Fixpoint enc_loop (n : nat) (expanded : list Z) (keyOffset : Z) (v : words)
    : words * Z :=
  match n with
  | O => (v, keyOffset)
  | S n' =>
      enc_loop n' expanded (keyOffset + 16)
        (enc_round (add_round_key expanded keyOffset v))
  end.

(** [data] is the buffer the [data] pointer points into and [off] the
    pointer's offset in it; [seed = None] is the [NULL] seed, for which
    the block itself is read. *)
Definition mtpz_encryption_decrypt_custom (data : list Z) (off : nat)
    (seed : option (list Z)) (expanded : list Z) : list Z :=
  let keyOffset := 0xB4 + 0xA0 in
  let u_seed := match seed with None => load_words data off
                              | Some s => load_words s 0 end in
  let v := add_round_key expanded keyOffset u_seed in
  let v := dec_round v in
  let keyOffset := keyOffset - 16 in
  let '(v, keyOffset) := dec_loop 8 expanded keyOffset v in
  let v := add_round_key expanded keyOffset v in
  let keyOffset := keyOffset - 16 in
  let v := dec_final v in
  store_words data off (add_round_key expanded keyOffset v).

Definition mtpz_encryption_encrypt_custom (data : list Z) (off : nat)
    (seed : option (list Z)) (expanded : list Z) : list Z :=
  let keyOffset := 0x04 in
  let u_seed := match seed with None => load_words data off
                              | Some s => load_words s 0 end in
  let v := add_round_key expanded keyOffset u_seed in
  let v := enc_round v in
  let keyOffset := keyOffset + 16 in
  let '(v, keyOffset) := enc_loop 8 expanded keyOffset v in
  let v := add_round_key expanded keyOffset v in
  let keyOffset := keyOffset + 16 in
  let v := enc_final v in
  store_words data off (add_round_key expanded keyOffset v).

(** *** Modes *)

(** The round count both modes pass to the key expansion:
    [(key_len == 16) ? 10 : (key_len == 24) ? 12 : 32]. *)
Definition cipher_advanced_rounds (key_len : Z) : Z :=
  if key_len =? 16 then 10 else if key_len =? 24 then 12 else 32.

Definition encrypt_mac_rounds (hash_length : Z) : Z :=
  if hash_length =? 16 then 10 else if hash_length =? 24 then 12 else 32.

(** The registers of the loop of [mtpz_encryption_cipher_advanced]:
    the buffer [data], [offset], [count], the scratch block [out] and
    the four words of [dtf]. *)
Record cbc_state : Type := CbcState {
  cbc_data : list Z;
  cbc_offset : Z;
  cbc_count : Z;
  cbc_out : list Z;
  cbc_dtf : list Z
}.

(** [buf_int[k] ^= MTPZ_SWAP(dtf[k])] for [k = 0 .. 3], where [buf_int]
    is the [unsigned int] view of [buf] starting at word index [w]. *)
Definition xor_dtf (buf : list Z) (w : nat) (dtf : list Z) : list Z :=
  let upd k buf :=
    store32 buf (4 * (w + k))
      (Z.lxor (load32 buf (4 * (w + k))) (MTPZ_SWAP (nth k dtf 0))) in
  upd 3%nat (upd 2%nat (upd 1%nat (upd 0%nat buf))).

(** [dtf[k] = MTPZ_SWAP(buf_int[w + k])] for [k = 0 .. 3]. *)
Definition load_dtf (buf : list Z) (w : nat) : list Z :=
  map (fun k => MTPZ_SWAP (load32 buf (4 * (w + k)))) (seq 0 4).

Definition cbc_step (encrypt : bool) (expanded : list Z) (s : cbc_state)
    : cbc_state :=
  let '(CbcState data offset count out dtf) := s in
  let short := count <? 16 in
  let out := if short then zeros 16 else out in
  let chunk := if short then count else 16 in
  let off := Z.to_nat offset in
  let out := copy_bytes (Z.to_nat chunk) out 0 data off in
  let w := Z.to_nat (Z.quot offset 4) in
  if encrypt then
    let out := xor_dtf out 0 dtf in
    let data := mtpz_encryption_encrypt_custom data off (Some out) expanded in
    let dtf := load_dtf data w in
    CbcState data (offset + chunk) (count - chunk) out dtf
  else
    let data := mtpz_encryption_decrypt_custom data off (Some out) expanded in
    let data := xor_dtf data w dtf in
    let dtf := load_dtf out 0 in
    CbcState data (offset + chunk) (count - chunk) out dtf.

(** [while (count != 0)]: every pass lowers a positive [count] by at
    least one, so [count] passes are always enough. *)
Fixpoint cbc_loop (fuel : nat) (encrypt : bool) (expanded : list Z)
    (s : cbc_state) : cbc_state :=
  match fuel with
  | O => s
  | S fuel' =>
      if cbc_count s =? 0 then s
      else cbc_loop fuel' encrypt expanded (cbc_step encrypt expanded s)
  end.

(** Returns the buffer [data] as the call leaves it. *)
Definition mtpz_encryption_cipher_advanced (key : list Z) (key_len : Z)
    (data : list Z) (data_len : Z) (encrypt : bool) : list Z :=
  let len := cipher_advanced_rounds key_len in
  let expanded := mtpz_encryption_expand_key key key_len len in
  let s := CbcState data 0 data_len (zeros 16) (zeros 4) in
  cbc_data (cbc_loop (Z.to_nat data_len) encrypt expanded s).

(** *** Block-by-block mode with the stored key *)

(** The [do ... while (count != 0)] loop of [mtpz_encryption_cipher]:
    one block per pass. *)
Fixpoint ecb_loop (fuel : nat) (encrypt : bool) (expanded data : list Z)
    (offset count : Z) : list Z :=
  match fuel with
  | O => data
  | S fuel' =>
      let data :=
        if encrypt
        then mtpz_encryption_encrypt_custom data (Z.to_nat offset) None expanded
        else mtpz_encryption_decrypt_custom data (Z.to_nat offset) None expanded in
      let count := count - 16 in
      let offset := offset + 16 in
      if count =? 0 then data
      else ecb_loop fuel' encrypt expanded data offset count
  end.

(** [key] is the global [MTPZ_ENCRYPTION_KEY].  Returns the buffer [data]
    as the call leaves it.  The loop makes [count / 16] passes for a
    positive [count]; a [len] of 2^31 or more makes [count] negative and
    is left out of the statements below. *)
Definition mtpz_encryption_cipher (key : list Z) (data : list Z) (len : Z)
    (encrypt : bool) : list Z :=
  let count := s32 len in
  if Z.land count 0x0F =? 0 then
    let expanded := mtpz_encryption_expand_key key 16 10 in
    if negb (count =? 0)
    then ecb_loop (Z.to_nat (count / 16)) encrypt expanded data 0 count
    else data
  else data.

(** [for (i = 0; i < 16; i++) dst[i] = (2 * src[i]) | (src[i + 1] >> 7);]
    followed by the conditional [dst[15] ^= 0x87]. *)
Definition mac_double (src : list Z) : list Z :=
  let dst :=
    fold_left
      (fun dst i =>
         <[i := u8 (Z.lor (2 * getb src i) (Z.shiftr (getb src (i + 1)) 7))]> dst)
      (seq 0 16) (zeros 17) in
  if 128 <=? getb src 0
  then <[15%nat := Z.lxor (getb dst 15) 0x87]> dst
  else dst.

(** [for (i = 0; i < n; i++) dst[i] ^= src[i];] *)
Definition xor_into (n : nat) (dst src : list Z) : list Z :=
  fold_left (fun dst i => <[i := Z.lxor (getb dst i) (getb src i)]> dst)
            (seq 0 n) dst.

(** [hash = None] is the [NULL] pointer.  Returns the buffer [out] as
    the call leaves it.  [actual_seed] has 16 bytes: a [seed_len] above
    16 makes the C store past the block, which is not modelled. *)
Definition mtpz_encryption_encrypt_mac (hash : option (list Z))
    (hash_length : Z) (seed : list Z) (seed_len : Z) (out : list Z) : list Z :=
  match hash with
  | None => out
  | Some hash =>
      if negb (hash_length =? 16) then out
      else
        let enc_hash :=
          mtpz_encryption_cipher_advanced hash hash_length (zeros 17) 16 true in
        let loop1 := mac_double enc_hash in
        let loop2 := mac_double loop1 in
        let len := encrypt_mac_rounds hash_length in
        let expanded := mtpz_encryption_expand_key hash hash_length len in
        let actual_seed := zeros 16 in
        let actual_seed :=
          if seed_len =? 16 then
            xor_into 16 (xor_into 16 actual_seed seed) loop1
          else
            let actual_seed := xor_into (Z.to_nat seed_len) actual_seed seed in
            let actual_seed := <[Z.to_nat seed_len := 128]> actual_seed in
            xor_into 16 actual_seed loop2 in
        mtpz_encryption_encrypt_custom out 0 (Some actual_seed) expanded
  end.

End Aes.

(** ** Secrets loader *)

Module Loader.

(** [malloc(n)]: the block's initial contents are whatever the heap
    holds, given by [junk]. *)
Definition malloc (junk : nat -> Z) (n : nat) : list Z := map junk (seq 0 n).

(** Character codes of a literal. *)
Definition chars (s : String.string) : list Z :=
  map (fun c => Z.of_N (Ascii.N_of_ascii c)) (String.list_ascii_of_string s).

Module Lit.
Import String.
Definition mtpz_data : list Z := chars "/.mtpz-data".
End Lit.

(** The C string held by a buffer: the bytes before the first NUL. *)
Fixpoint cstr (buf : list Z) : list Z :=
  match buf with
  | [] => []
  | c :: rest => if c =? 0 then [] else c :: cstr rest
  end.

Definition strlen (s : list Z) : Z := Z.of_nat (length (cstr s)).

(** [fgets]: at most [n] characters, stopping after a newline; returns
    the characters stored and the rest of the stream. *)
Fixpoint fgets_chars (n : nat) (stream : list Z) : list Z * list Z :=
  match n, stream with
  | S n', c :: rest =>
      if c =? 10 then ([c], rest)
      else let '(l, r) := fgets_chars n' rest in (c :: l, r)
  | _, _ => ([], stream)
  end.

(** [None] is the [NULL] result at end of file. *)
Definition fgets (num : Z) (stream : list Z) : option (list Z) * list Z :=
  match stream with
  | [] => (None, stream)
  | _ => let '(l, r) := fgets_chars (Z.to_nat (num - 1)) stream in (Some l, r)
  end.

(** The result is the C string left in [str].  ([result[newlen - 1]] with
    [newlen = 0] reads before the buffer in C; the string is then left
    empty here.) *)
Definition fgets_strip (num : Z) (stream : list Z)
    : option (list Z) * list Z :=
  match fgets num stream with
  | (None, r) => (None, r)
  | (Some result, r) =>
      let s := cstr result in
      let newlen := length s in
      if (0 <? newlen)%nat && (getb s (newlen - 1) =? 10)
      then (Some (take (newlen - 1) s), r)
      else (Some s, r)
  end.

Definition isspace (c : Z) : bool :=
  (c =? 32) || ((9 <=? c) && (c <=? 13)).

(** Value of a hexadecimal digit, if [c] is one. *)
Definition xdigit (c : Z) : option Z :=
  if (48 <=? c) && (c <=? 57) then Some (c - 48)
  else if (97 <=? c) && (c <=? 102) then Some (c - 87)
  else if (65 <=? c) && (c <=? 70) then Some (c - 55)
  else None.

Fixpoint skip_space (s : list Z) : list Z :=
  match s with
  | c :: rest => if isspace c then skip_space rest else s
  | [] => []
  end.

(** [sscanf(s, "%2x", &u) == 1] as ISO C describes the conversion: white
    space is skipped, then at most two characters of an optionally
    signed hexadecimal number are taken; a lone sign or the prefix [0x]
    cut by the width is a matching failure (C libraries differ on the
    cut prefix; some store 0 and return 1).  [Some u] is the stored
    [unsigned int], [None] any other return value. *)
Definition sscanf_2x (s : list Z) : option Z :=
  match skip_space s with
  | [] => None
  | c1 :: rest =>
      if (c1 =? 43) || (c1 =? 45) then
        match rest with
        | c2 :: _ =>
            match xdigit c2 with
            | Some d => Some (if c1 =? 45 then u32 (- d) else d)
            | None => None
            end
        | [] => None
        end
      else
        match xdigit c1 with
        | None => None
        | Some d1 =>
            match rest with
            | c2 :: _ =>
                match xdigit c2 with
                | Some d2 => Some (16 * d1 + d2)
                | None =>
                    if (c1 =? 48) && ((c2 =? 120) || (c2 =? 88)) then None
                    else Some d1
                end
            | [] => Some d1
            end
        end
  end.

(** [while (i < len && sscanf(hex + i, "%2x", &u) == 1)], at most
    [len / 2 + 1] tests of the condition. *)
Fixpoint hex_loop (fuel : nat) (hex : list Z) (len : Z) (bytes : list Z)
    (i : Z) : list Z :=
  match fuel with
  | O => bytes
  | S fuel' =>
      if i <? len then
        match sscanf_2x (drop (Z.to_nat i) hex) with
        | Some u =>
            hex_loop fuel' hex len (<[Z.to_nat (i / 2) := u8 u]> bytes) (i + 2)
        | None => bytes
        end
      else bytes
  end.

(** [None] is the [NULL] result. *)
Definition hex_to_bytes (junk : nat -> Z) (hex : list Z) (len : Z)
    : option (list Z) :=
  if negb (len mod 2 =? 0) then None
  else
    let bytes := malloc junk (Z.to_nat (len / 2)) in
    Some (hex_loop (Z.to_nat (len / 2) + 1) hex len bytes 0).

(** The five globals; [None] is a [NULL] pointer. *)
Record secrets : Type := Secrets {
  MTPZ_ENCRYPTION_KEY : option (list Z);
  MTPZ_PUBLIC_EXPONENT : option (list Z);
  MTPZ_MODULUS : option (list Z);
  MTPZ_PRIVATE_KEY : option (list Z);
  MTPZ_CERTIFICATES : option (list Z)
}.

Definition no_secrets : secrets := Secrets None None None None None.

(** [home] is the result of [getenv("HOME")], [fopen path] the contents of
    the file at [path] when it can be opened.  Returns [ret] and the
    globals as the call leaves them. *)
Definition mtpz_loaddata (junk : nat -> Z) (home : option (list Z))
    (fopen : list Z -> option (list Z)) : Z * secrets :=
  let ret := -1 in
  let g := no_secrets in
  match home with
  | None => (-1, g)
  | Some home =>
    let path := home ++ Lit.mtpz_data in
    match fopen path with
    | None => (ret, g)
    | Some fdata =>
      let '(pubexp, fdata) := fgets_strip 8 fdata in
      let g := Secrets (MTPZ_ENCRYPTION_KEY g) pubexp (MTPZ_MODULUS g)
                       (MTPZ_PRIVATE_KEY g) (MTPZ_CERTIFICATES g) in
      match pubexp with
      | None => (ret, g)
      | Some _ =>
        let '(hexenckey, fdata) := fgets_strip 35 fdata in
        match hexenckey with
        | None => (ret, g)
        | Some hexenckey =>
          let enckey := hex_to_bytes junk hexenckey (strlen hexenckey) in
          let g := Secrets enckey (MTPZ_PUBLIC_EXPONENT g) (MTPZ_MODULUS g)
                           (MTPZ_PRIVATE_KEY g) (MTPZ_CERTIFICATES g) in
          match enckey with
          | None => (ret, g)
          | Some _ =>
            let '(modulus, fdata) := fgets_strip 260 fdata in
            let g := Secrets (MTPZ_ENCRYPTION_KEY g) (MTPZ_PUBLIC_EXPONENT g)
                             modulus (MTPZ_PRIVATE_KEY g) (MTPZ_CERTIFICATES g) in
            match modulus with
            | None => (ret, g)
            | Some _ =>
              let '(privkey, fdata) := fgets_strip 260 fdata in
              let g := Secrets (MTPZ_ENCRYPTION_KEY g) (MTPZ_PUBLIC_EXPONENT g)
                               (MTPZ_MODULUS g) privkey (MTPZ_CERTIFICATES g) in
              match privkey with
              | None => (ret, g)
              | Some _ =>
                let '(hexcerts, fdata) := fgets_strip 1260 fdata in
                match hexcerts with
                | None => (ret, g)
                | Some hexcerts =>
                  let certs := hex_to_bytes junk hexcerts (strlen hexcerts) in
                  let g := Secrets (MTPZ_ENCRYPTION_KEY g)
                                   (MTPZ_PUBLIC_EXPONENT g) (MTPZ_MODULUS g)
                                   (MTPZ_PRIVATE_KEY g) certs in
                  match certs with
                  | None => (ret, g)
                  | Some _ => (0, g)
                  end
                end
              end
            end
          end
        end
      end
    end
  end.

End Loader.

(** ** RSA engine

    libgcrypt is outside the repository: [gcry_pk_decrypt] stands for the
    raw private-key operation on the key built by [mtpz_rsa_init] from
    the three hex strings, taking and returning the value of an MPI. *)

Module Rsa.

Record mtpz_rsa_t : Type := RsaKey {
  rsa_modulus : list Z;
  rsa_privkey : list Z;
  rsa_pubexp : list Z
}.

(** [calloc_ok] tells whether [calloc] succeeded; [None] is [NULL]. *)
Definition mtpz_rsa_init (calloc_ok : bool) (modulus privkey pubexp : list Z)
    : option mtpz_rsa_t :=
  if calloc_ok then Some (RsaKey modulus privkey pubexp) else None.

(** [gcry_mpi_scan] with [GCRYMPI_FMT_USG]: big-endian unsigned value. *)
Definition mpi_scan_usg (buf : list Z) : Z :=
  fold_left (fun acc b => acc * 256 + b) buf 0.

Definition gcry_mpi_get_nbits (v : Z) : Z :=
  if v <=? 0 then 0 else Z.log2 v + 1.

(** The [n] big-endian bytes of [v]. *)
Definition mpi_bytes (n : nat) (v : Z) : list Z :=
  map (fun i => u8 (v / 2 ^ (8 * Z.of_nat (n - 1 - i)))) (seq 0 n).

Section Engine.

Variable gcry_pk_decrypt : mtpz_rsa_t -> Z -> Z.

(** What the uninitialised [written] holds when [gcry_mpi_print] fails. *)
Variable written0 : Z.

(** Returns [(int)written] and the buffer [to] as the call leaves it.
    ([memset] with a negative count is not modelled: it stops the
    program; the statements below keep the value within [tlen] bytes.
    The [int] product [tlen * 8] is taken in [Z], which is the same as
    long as it stays below 2^31.) *)
Definition mtpz_rsa_decrypt (flen : Z) (from : list Z) (tlen : Z)
    (to : list Z) (rsa : mtpz_rsa_t) : Z * list Z :=
  let mpi_from := mpi_scan_usg (take (Z.to_nat flen) from) in
  let mpi_value := gcry_pk_decrypt rsa mpi_from in
  let bitshift := tlen * 8 - gcry_mpi_get_nbits mpi_value in
  let sh := Z.quot bitshift 8 in
  let '(to, toff, tlen) :=
    if negb (sh =? 0)
    then (copy_bytes (Z.to_nat sh) to 0 (zeros (Z.to_nat sh)) 0,
          Z.to_nat sh, tlen - sh)
    else (to, 0%nat, tlen) in
  let n := (gcry_mpi_get_nbits mpi_value + 7) / 8 in
  if n <=? tlen
  then (n, copy_bytes (Z.to_nat n) to toff (mpi_bytes (Z.to_nat n) mpi_value) 0)
  else (written0, to).

Definition mtpz_rsa_sign (flen : Z) (from : list Z) (tlen : Z)
    (to : list Z) (rsa : mtpz_rsa_t) : Z * list Z :=
  mtpz_rsa_decrypt flen from tlen to rsa.

End Engine.

End Rsa.

(** ** Handshake *)

Module Handshake.

(** [for (i = 0; i < n; i++) dst[doff + i] ^= src[i];] *)
Definition xor_bytes (n : nat) (dst : list Z) (doff : nat) (src : list Z)
    : list Z :=
  fold_left
    (fun dst i => <[(doff + i)%nat := Z.lxor (getb dst (doff + i)) (getb src i)]> dst)
    (seq 0 n) dst.




(** The secrets the handshake reads from the globals. *)
Record bundle : Type := Bundle {
  modulus : list Z;
  private_key : list Z;
  public_exponent : list Z;
  certificates : list Z
}.

Section Protocol.

Variable gcry_pk_decrypt : Rsa.mtpz_rsa_t -> Z -> Z.
Variable written0 : Z.
Variable secrets : bundle.

(** The transport (ptp.c, outside the repository) acts on a device
    state [dev]; every request returns a response code. *)
Variable dev : Type.
Variable PTP_RC_OK : Z.
Variable ptp_setdevicepropvalue : dev -> list Z -> Z * dev.
Variable ptp_mtpz_resethandshake : dev -> Z * dev.
Variable ptp_mtpz_sendwmdrmpdapprequest : dev -> option (list Z) -> Z -> Z * dev.
Variable ptp_mtpz_getwmdrmpdappresponse : dev -> Z * list Z * dev.
Variable ptp_mtpz_wmdrmpd_enabletrustedfilesoperations :
  dev -> Z -> Z -> Z -> Z -> Z * dev.


(** The 128-byte block [odata] signed by the application certificate
    message, from the bytes hashed. *)
Definition make_odata (hashed : list Z) : list Z :=
  let state := Hash.mtpz_hash_init_state in
  let v16 := zeros 28 in
  let hash := zeros 20 in
  let odata := zeros 128 in
  let state := Hash.mtpz_hash_reset_state state in
  let state := Hash.mtpz_hash_transform_hash state hashed (Z.of_nat (length hashed)) in
  let '(state, v16) := Hash.mtpz_hash_finalize_hash state v16 8 in
  let state := Hash.mtpz_hash_reset_state state in
  let state := Hash.mtpz_hash_transform_hash state v16 28 in
  let '(state, hash) := Hash.mtpz_hash_finalize_hash state hash 0 in
  let '(state, v17) := Hash.mtpz_hash_custom6A5DC state hash 20 107 in
  let odata := copy_bytes 20 odata 107 hash 0 in
  let odata := <[106%nat := 0x01]> odata in
  let odata := xor_bytes 107 odata 0 v17 in
  let odata := <[0%nat := Z.land (getb odata 0) 127]> odata in
  <[127%nat := 188]> odata.

(** [rand i] is the value of the [i]-th call of [rand()].  Returns the
    message ([None] for [NULL]), [*out_len] and [*out_random]. *)
Definition ptp_mtpz_makeapplicationcertificatemessage (calloc_ok : bool)
    (rand : nat -> Z) : option (list Z) * Z * list Z :=
  let out_len := 785 in
  let acm := zeros 785 in
  let certsLength := 0x275 in
  let acm := <[0%nat := 0x02]> acm in
  let acm := <[1%nat := 0x01]> acm in
  let acm := <[2%nat := 0x01]> acm in
  let acm := <[3%nat := 0x00]> acm in
  let acm := <[4%nat := 0x00]> acm in
  let acm := <[5%nat := 0x02]> acm in
  let acm := <[6%nat := 0x75]> acm in
  let target := 7%nat in
  let acm := copy_bytes (Z.to_nat certsLength) acm target (certificates secrets) 0 in
  let target := (target + Z.to_nat certsLength)%nat in
  let acm := <[target := 0x00]> acm in
  let acm := <[S target := 0x10]> acm in
  let target := (target + 2)%nat in
  let random := map (fun i => u8 (Z.rem (rand i) 256)) (seq 0 16) in
  let acm := copy_bytes 16 acm target random 0 in
  let target := (target + 16)%nat in
  let odata := make_odata (take (target - 2) (drop 2 acm)) in
  match Rsa.mtpz_rsa_init calloc_ok (modulus secrets) (private_key secrets)
                          (public_exponent secrets) with
  | None => (None, 0, random)
  | Some rsa =>
      let signature := zeros 128 in
      let '(_, signature) :=
        Rsa.mtpz_rsa_sign gcry_pk_decrypt written0 128 odata 128 signature rsa in
      let acm := <[target := 0x01]> acm in
      let acm := <[(target + 1)%nat := 0x00]> acm in
      let acm := <[(target + 2)%nat := 0x80]> acm in
      let target := (target + 3)%nat in
      let acm := copy_bytes 128 acm target signature 0 in
      (Some acm, out_len, random)
  end.












End Protocol.

End Handshake.

(** ** Notions used in the statements and proofs below *)

(** Two hash states agree up to [k] when both are 92 bytes long and hold
    the same seven words and the same first [k] buffer bytes. *)
Definition states_agree (k : nat) (a b : list Z) : Prop :=
  length a = 92%nat /\ length b = 92%nat
  /\ forall j, (j < k \/ 64 <= j)%nat -> getb a j = getb b j.

(** The fill level of the 64-byte buffer: [state_box[6] & 0x3F]. *)
Definition fill (state : list Z) : nat :=
  Z.to_nat (Z.land (s32 (Hash.state_box state Hash.MTPZ_HASHSTATE_88)) 0x3F).

(** Well-formed bytes and 32-bit words. *)
Definition byte_ok (b : Z) : Prop := 0 <= b < 256.
Definition bytes_ok (l : list Z) : Prop := Forall byte_ok l.
Definition word_ok (w : Z) : Prop := 0 <= w < 2 ^ 32.

(** The word whose bytes, most significant first, are [a b c d]. *)
Definition be (a b c d : Z) : Z := ((a * 2 ^ 8 + b) * 2 ^ 8 + c) * 2 ^ 8 + d.

Definition in_word_range (w : Z) : bool := (0 <=? w) && (w <? 2 ^ 32).
Definition in_byte_range (w : Z) : bool := (0 <=? w) && (w <? 256).

(** The 256 byte values. *)
Definition all_bytes : list Z := map Z.of_nat (seq 0 256).

(** The S-box as the last encryption round reads it from [FT3_Bytes]. *)
Definition sub_byte (b : Z) : Z := Aes.FT3_Bytes (1 + 4 * b).

Definition words_ok (v : Aes.words) : Prop :=
  let '(a, b, c, d) := v in word_ok a /\ word_ok b /\ word_ok c /\ word_ok d.

Definition xorw (v k : Aes.words) : Aes.words :=
  let '(a, b, c, d) := v in
  let '(ka, kb, kc, kd) := k in
  (Z.lxor a ka, Z.lxor b kb, Z.lxor c kc, Z.lxor d kd).

(** The transformation [mtpz_encryption_inv_mix_columns] applies to one
    big-endian word of the schedule. *)
Definition inv_mix (w : Z) : Z :=
  Z.lxor (Z.lxor (Z.lxor (Aes.tbl mtpz_aes_gb9 (Aes.MTPZ_ENCRYPTIONBYTE3 w))
                         (Aes.tbl mtpz_aes_gb13 (Aes.MTPZ_ENCRYPTIONBYTE2 w)))
                 (Aes.tbl mtpz_aes_gb11 (Aes.MTPZ_ENCRYPTIONBYTE1 w)))
         (Aes.tbl mtpz_aes_gb14 (Aes.MTPZ_ENCRYPTIONLOBYTE w)).

Definition inv_mix4 (v : Aes.words) : Aes.words :=
  let '(a, b, c, d) := v in (inv_mix a, inv_mix b, inv_mix c, inv_mix d).

(** The two block functions on words, over round keys [rk 0 .. rk 10]
    (encryption) and [dk 10 .. dk 0] (decryption). *)
Fixpoint enc_rounds (n : nat) (rk : nat -> Aes.words) (i : nat)
    (v : Aes.words) : Aes.words :=
  match n with
  | O => v
  | S n' => enc_rounds n' rk (S i) (Aes.enc_round (xorw v (rk i)))
  end.

Definition enc_core (rk : nat -> Aes.words) (x : Aes.words) : Aes.words :=
  xorw (Aes.enc_final (xorw (enc_rounds 9 rk 0 x) (rk 9%nat))) (rk 10%nat).

Fixpoint dec_rounds (n : nat) (dk : nat -> Aes.words) (i : nat)
    (v : Aes.words) : Aes.words :=
  match n with
  | O => v
  | S n' => dec_rounds n' dk (i - 1) (Aes.dec_round (xorw v (dk i)))
  end.

Definition dec_core (dk : nat -> Aes.words) (y : Aes.words) : Aes.words :=
  xorw (Aes.dec_final (xorw (dec_rounds 9 dk 10 y) (dk 1%nat))) (dk 0%nat).

(** Round key [i] as the block functions read it from an expanded
    schedule: encryption from the first copy, decryption from the second. *)
Definition enc_key (expanded : list Z) (i : nat) : Aes.words :=
  Aes.load_words expanded (4 + 16 * i).

Definition dec_key (expanded : list Z) (i : nat) : Aes.words :=
  Aes.load_words expanded (180 + 16 * i).

(** A schedule whose second copy is what the ten-round decryption
    expects: first and last round keys as they are, the nine in between
    through inverse mix columns. *)
Definition schedule_ok (expanded : list Z) : Prop :=
  dec_key expanded 0 = enc_key expanded 0
  /\ dec_key expanded 10 = enc_key expanded 10
  /\ (forall i, (1 <= i <= 9)%nat ->
        dec_key expanded i = inv_mix4 (enc_key expanded i))
  /\ (forall i, words_ok (enc_key expanded i)).

(** The sixteen bytes four big-endian words occupy in memory. *)
Definition word_bytes (w : Z) : list Z :=
  [Aes.MTPZ_ENCRYPTIONLOBYTE w; Aes.MTPZ_ENCRYPTIONBYTE1 w;
   Aes.MTPZ_ENCRYPTIONBYTE2 w; Aes.MTPZ_ENCRYPTIONBYTE3 w].

Definition words_bytes (v : Aes.words) : list Z :=
  let '(a, b, c, d) := v in
  word_bytes a ++ word_bytes b ++ word_bytes c ++ word_bytes d.

(** The [dtf] register holding four words. *)
Definition words_list (v : Aes.words) : list Z :=
  let '(a, b, c, d) := v in [a; b; c; d].

(** Cipher block chaining over whole blocks, as a function on words:
    every block is combined with the previous ciphertext block, the
    first with [iv]. *)
Fixpoint cbc_enc_blocks (rk : nat -> Aes.words) (iv : Aes.words)
    (xs : list Aes.words) : list Aes.words :=
  match xs with
  | [] => []
  | x :: r =>
      let c := enc_core rk (xorw x iv) in c :: cbc_enc_blocks rk c r
  end.

Fixpoint cbc_dec_blocks (dk : nat -> Aes.words) (iv : Aes.words)
    (cs : list Aes.words) : list Aes.words :=
  match cs with
  | [] => []
  | c :: r => xorw (dec_core dk c) iv :: cbc_dec_blocks dk c r
  end.

(** The first [n] blocks of a buffer, as words. *)
Fixpoint to_blocks (n : nat) (p : list Z) : list Aes.words :=
  match n with
  | O => []
  | S n' => Aes.load_words p 0 :: to_blocks n' (drop 16 p)
  end.

(** The number a byte string denotes, most significant byte first. *)
Definition be_value (l : list Z) : Z :=
  fold_left (fun acc b => acc * 256 + b) l 0.

(** The two lower-case hexadecimal digits of each byte. *)
Definition hex_digit (d : Z) : Z := if d <? 10 then 48 + d else 87 + d.

Definition hex_of_bytes (bs : list Z) : list Z :=
  flat_map (fun b => [hex_digit (b / 16); hex_digit (b mod 16)]) bs.

(** A line of text: no NUL and no newline inside. *)
Definition line_char (c : Z) : Prop := c <> 0 /\ c <> 10.

(** What the block functions read as their input block. *)
Definition seed_words (data : list Z) (off : nat) (seed : option (list Z))
    : Aes.words :=
  match seed with
  | None => Aes.load_words data off
  | Some s => Aes.load_words s 0
  end.

(** The four bytes [bswap32(i)] occupies in memory. *)
Definition counter_bytes (i : nat) : list Z :=
  store32 (zeros 4) 0 (MTPZ_SWAP (Z.of_nat i)).

(** ** Inputs used in the statements below *)

Module Samples.
Import String.

(** Keys and the block of the examples in FIPS 197, appendix C. *)
Definition aes_key_128 : list Z := map Z.of_nat (seq 0 16).
Definition aes_key_192 : list Z := map Z.of_nat (seq 0 24).
Definition aes_block : list Z := map (fun i => 17 * Z.of_nat i) (seq 0 16).
Definition two_blocks : list Z := aes_block ++ aes_block.

(** A secrets file whose encryption-key line and certificates line hold
    no hexadecimal digit at all. *)
Definition non_hex_file : list Z :=
  Loader.chars "010001" ++ [10]
  ++ Loader.chars "zzzzzzzzzzzzzzzzzzzzzzzzzzzzzzzz" ++ [10]
  ++ Loader.chars "c0ffee" ++ [10]
  ++ Loader.chars "c0ffee" ++ [10]
  ++ Loader.chars "zz" ++ [10].

Definition home : list Z := Loader.chars "/home/user".

(** A toy RSA engine and bundle, and a scripted device that answers
    every request with 0x2001 and hands out one fixed response. *)
Definition toy_rsa : Rsa.mtpz_rsa_t -> Z -> Z := fun _ _ => 5.

Definition toy_bundle : Handshake.bundle :=
  Handshake.Bundle [] [] [] (zeros 629).

Definition zero_rand : nat -> Z := fun _ => 0.











End Samples.

(** * Properties *)

(** ** Buffers: reads after writes *)

Lemma getb_lookup (buf : list Z) (i : nat) :
  getb buf i = default 0 (buf !! i).
Proof. unfold getb. apply nth_lookup. Qed.

Lemma getb_ge (buf : list Z) (i : nat) :
  (length buf <= i)%nat -> getb buf i = 0.
Proof. intros H. unfold getb. now apply nth_overflow. Qed.

Lemma getb_insert (buf : list Z) (i j : nat) (x : Z) :
  getb (<[i := x]> buf) j =
  if decide (i = j /\ (i < length buf)%nat) then x else getb buf j.
Proof.
  rewrite !getb_lookup. case_decide as H.
  - destruct H as [-> H]. now rewrite list_lookup_insert_eq.
  - destruct (decide (i = j)) as [-> | Hne].
    + rewrite !lookup_ge_None_2; [reflexivity | lia | rewrite length_insert; lia].
    + now rewrite list_lookup_insert_ne.
Qed.

Lemma getb_app (a b : list Z) (j : nat) :
  getb (a ++ b) j =
  if decide (j < length a)%nat then getb a j else getb b (j - length a).
Proof.
  rewrite !getb_lookup. case_decide.
  - now rewrite lookup_app_l.
  - rewrite lookup_app_r by lia. reflexivity.
Qed.

Lemma getb_take (n : nat) (buf : list Z) (j : nat) :
  getb (take n buf) j = if decide (j < n)%nat then getb buf j else 0.
Proof.
  rewrite !getb_lookup. case_decide.
  - now rewrite lookup_take_lt.
  - rewrite lookup_take_ge by lia. reflexivity.
Qed.

Lemma getb_drop (n : nat) (buf : list Z) (j : nat) :
  getb (drop n buf) j = getb buf (n + j).
Proof. rewrite !getb_lookup. now rewrite lookup_drop. Qed.

Lemma getb_zeros (n j : nat) : getb (zeros n) j = 0.
Proof.
  unfold getb, zeros. destruct (nth_in_or_default j (repeat 0 n) 0) as [H | H].
  - now apply repeat_spec in H.
  - exact H.
Qed.

Lemma getb_cons (x : Z) (buf : list Z) (j : nat) :
  getb (x :: buf) j = if decide (j = 0)%nat then x else getb buf (j - 1).
Proof.
  destruct j as [| j]; simpl; [reflexivity |].
  unfold getb. simpl. now rewrite Nat.sub_0_r.
Qed.

Lemma getb_nil (j : nat) : getb [] j = 0.
Proof. unfold getb. now destruct j. Qed.

Lemma length_zeros (n : nat) : length (zeros n) = n.
Proof. apply repeat_length. Qed.

Lemma buf_ext (a b : list Z) :
  length a = length b ->
  (forall j, (j < length a)%nat -> getb a j = getb b j) -> a = b.
Proof.
  intros Hlen H. apply (nth_ext a b 0 0 Hlen). exact H.
Qed.

Lemma length_store32 (buf : list Z) (off : nat) (w : Z) :
  length (store32 buf off w) = length buf.
Proof. unfold store32. now rewrite !length_insert. Qed.

Lemma length_copy_bytes (n : nat) (dst : list Z) (doff : nat)
    (src : list Z) (soff : nat) :
  length (copy_bytes n dst doff src soff) = length dst.
Proof.
  revert dst doff soff. induction n as [| n IH]; intros; simpl; [reflexivity |].
  now rewrite IH, length_insert.
Qed.

Lemma getb_copy_bytes (n : nat) (dst : list Z) (doff : nat)
    (src : list Z) (soff j : nat) :
  getb (copy_bytes n dst doff src soff) j =
  if decide ((doff <= j < doff + n)%nat /\ (j < length dst)%nat)
  then getb src (soff + (j - doff)) else getb dst j.
Proof.
  revert dst doff soff. induction n as [| n IH]; intros; simpl.
  - case_decide; [lia | reflexivity].
  - rewrite IH, length_insert, getb_insert.
    repeat case_decide; try lia; try reflexivity;
      repeat match goal with H : _ /\ _ |- _ => destruct H end;
      subst; try lia; f_equal; lia.
Qed.

Lemma getb_store32 (buf : list Z) (off : nat) (w : Z) (j : nat) :
  getb (store32 buf off w) j =
  if decide ((off <= j < off + 4)%nat /\ (j < length buf)%nat)
  then byte_of w (j - off) else getb buf j.
Proof.
  unfold store32. rewrite !getb_insert, !length_insert.
  repeat case_decide; try lia; try reflexivity; unfold byte_of.
  - replace (j - off)%nat with 3%nat by lia. reflexivity.
  - replace (j - off)%nat with 2%nat by lia. reflexivity.
  - replace (j - off)%nat with 1%nat by lia. reflexivity.
  - replace (j - off)%nat with 0%nat by lia. simpl. now rewrite Z.div_1_r.
Qed.

(** In-range forms, which do not duplicate the buffer. *)
Lemma getb_insert_in (buf : list Z) (i j : nat) (x : Z) :
  (i < length buf)%nat ->
  getb (<[i := x]> buf) j = if decide (i = j) then x else getb buf j.
Proof. intros H. rewrite getb_insert. repeat case_decide; try lia; tauto. Qed.

Lemma getb_copy_bytes_in (n : nat) (dst : list Z) (doff : nat)
    (src : list Z) (soff j : nat) :
  (doff + n <= length dst)%nat ->
  getb (copy_bytes n dst doff src soff) j =
  if decide (doff <= j < doff + n)%nat
  then getb src (soff + (j - doff)) else getb dst j.
Proof.
  intros H. rewrite getb_copy_bytes. repeat case_decide; try lia; tauto.
Qed.

Lemma getb_store32_in (buf : list Z) (off : nat) (w : Z) (j : nat) :
  (off + 4 <= length buf)%nat ->
  getb (store32 buf off w) j =
  if decide (off <= j < off + 4)%nat then byte_of w (j - off) else getb buf j.
Proof.
  intros H. rewrite getb_store32. repeat case_decide; try lia; tauto.
Qed.

(** Lengths of written buffers. *)
Ltac len_norm :=
  repeat rewrite ?length_copy_bytes, ?length_store32, ?length_insert,
    ?length_zeros, ?length_app, ?length_take, ?length_drop, ?length_cons,
    ?length_nil.

Ltac len := len_norm; cbn [length]; lia.

(** Rewrites a read of a written buffer into a case analysis on the
    index. *)
Ltac getb_norm :=
  repeat progress
    (rewrite ?getb_app, ?getb_take, ?getb_drop, ?getb_zeros, ?getb_cons,
       ?getb_nil;
     try rewrite getb_copy_bytes_in by len;
     try rewrite getb_store32_in by len;
     try rewrite getb_insert_in by len).

Ltac split_cases :=
  repeat (case_decide; try lia);
  repeat match goal with H : _ /\ _ |- _ => destruct H end;
  subst; try lia; try reflexivity; try (f_equal; lia).

(** ** Hash engine: the state buffer *)

Lemma length_set_state_box (state : list Z) (i : nat) (v : Z) :
  length (Hash.set_state_box state i v) = length state.
Proof. apply length_store32. Qed.

Lemma length_reset_state (state : list Z) :
  length (Hash.mtpz_hash_reset_state state) = length state.
Proof.
  unfold Hash.mtpz_hash_reset_state. now rewrite !length_set_state_box.
Qed.

Lemma length_compute_hash (state msg : list Z) (len : Z) :
  length (Hash.mtpz_hash_compute_hash state msg len) = length state.
Proof.
  unfold Hash.mtpz_hash_compute_hash. destruct (negb _); [reflexivity |].
  destruct (fold_left _ _ _) as [[[[a b] c] d] e].
  now rewrite !length_set_state_box.
Qed.

Lemma length_block_loop (n : nat) (state msg : list Z) (j : nat) :
  length (Hash.block_loop n state msg j) = length state.
Proof.
  revert state j. induction n as [| n IH]; intros; simpl; [reflexivity |].
  now rewrite IH, length_compute_hash.
Qed.

Lemma length_transform_hash (state msg : list Z) (len : Z) :
  length (Hash.mtpz_hash_transform_hash state msg len) = length state.
Proof.
  unfold Hash.mtpz_hash_transform_hash.
  repeat match goal with
         | |- context [if ?c then _ else _] => destruct c
         end;
    rewrite ?length_copy_bytes, ?length_block_loop, ?length_compute_hash,
      ?length_copy_bytes, ?length_set_state_box; reflexivity.
Qed.

Lemma length_finalize_state (state out : list Z) (off : nat) :
  length (fst (Hash.mtpz_hash_finalize_hash state out off)) = length state.
Proof.
  unfold Hash.mtpz_hash_finalize_hash. cbn [fst].
  now rewrite length_reset_state, length_copy_bytes, length_transform_hash.
Qed.

Lemma length_finalize_out (state out : list Z) (off : nat) :
  length (snd (Hash.mtpz_hash_finalize_hash state out off)) = length out.
Proof.
  unfold Hash.mtpz_hash_finalize_hash. cbn [snd]. now rewrite !length_store32.
Qed.

(** *** States that differ only in stale buffer bytes *)

Lemma states_agree_weaken (k k' : nat) (a b : list Z) :
  (k' <= k)%nat -> states_agree k a b -> states_agree k' a b.
Proof.
  intros Hk (Ha & Hb & H). repeat split; try assumption.
  intros j Hj. apply H. lia.
Qed.

Lemma states_agree_full (a b : list Z) : states_agree 64 a b -> a = b.
Proof.
  intros (Ha & Hb & H). apply buf_ext; [congruence |].
  intros j _. apply H. lia.
Qed.

Lemma states_agree_refl (k : nat) (a : list Z) :
  length a = 92%nat -> states_agree k a a.
Proof. intros Ha. repeat split; auto. Qed.

Lemma states_agree_load32 (k : nat) (a b : list Z) (p : nat) :
  states_agree k a b -> (64 <= p)%nat -> load32 a p = load32 b p.
Proof.
  intros (_ & _ & H) Hp. unfold load32. rewrite !H by lia. reflexivity.
Qed.

Lemma states_agree_state_box (k : nat) (a b : list Z) (i : nat) :
  states_agree k a b -> Hash.state_box a i = Hash.state_box b i.
Proof. intros H. unfold Hash.state_box. eapply states_agree_load32; [exact H | lia]. Qed.

Lemma states_agree_store32 (k : nat) (a b : list Z) (p : nat) (w : Z) :
  states_agree k a b -> states_agree k (store32 a p w) (store32 b p w).
Proof.
  intros (Ha & Hb & H). repeat split; rewrite ?length_store32; try assumption.
  intros j Hj. rewrite !getb_store32, Ha, Hb. case_decide; [reflexivity |].
  now apply H.
Qed.

Lemma states_agree_set_state_box (k : nat) (a b : list Z) (i : nat) (v : Z) :
  states_agree k a b ->
  states_agree k (Hash.set_state_box a i v) (Hash.set_state_box b i v).
Proof. apply states_agree_store32. Qed.

Lemma states_agree_copy_bytes (k n doff : nat) (a b src : list Z) (soff : nat) :
  states_agree k a b -> (doff <= k)%nat ->
  states_agree (Nat.max k (doff + n))
    (copy_bytes n a doff src soff) (copy_bytes n b doff src soff).
Proof.
  intros (Ha & Hb & H) Hd. repeat split; rewrite ?length_copy_bytes; try assumption.
  intros j Hj. rewrite !getb_copy_bytes, Ha, Hb. case_decide; [reflexivity |].
  apply H. lia.
Qed.

Lemma states_agree_compute_hash (k : nat) (a b msg : list Z) (len : Z) :
  states_agree k a b ->
  states_agree k (Hash.mtpz_hash_compute_hash a msg len)
    (Hash.mtpz_hash_compute_hash b msg len).
Proof.
  intros H. unfold Hash.mtpz_hash_compute_hash.
  destruct (negb _); [exact H |].
  rewrite !(states_agree_state_box k a b) by exact H.
  destruct (fold_left _ _ _) as [[[[x1 x2] x3] x4] x5].
  now repeat apply states_agree_set_state_box.
Qed.

Lemma states_agree_block_loop (k n : nat) (a b msg : list Z) (j : nat) :
  states_agree k a b ->
  states_agree k (Hash.block_loop n a msg j) (Hash.block_loop n b msg j).
Proof.
  revert a b j. induction n as [| n IH]; intros a b j H; simpl; [exact H |].
  apply IH. now apply states_agree_compute_hash.
Qed.

(** *** Words in memory *)

Lemma u8_range (z : Z) : 0 <= u8 z < 256.
Proof. unfold u8. apply Z.mod_pos_bound. lia. Qed.

Lemma u32_range (z : Z) : 0 <= u32 z < 2 ^ 32.
Proof. unfold u32. apply Z.mod_pos_bound. lia. Qed.

Lemma u32_small (z : Z) : 0 <= z < 2 ^ 32 -> u32 z = z.
Proof. intros H. unfold u32. now apply Z.mod_small. Qed.

Lemma bytes_sum (w : Z) :
  u8 w + 2 ^ 8 * u8 (w / 2 ^ 8) + 2 ^ 16 * u8 (w / 2 ^ 16)
  + 2 ^ 24 * u8 (w / 2 ^ 24) = u32 w.
Proof.
  unfold u8, u32. change (2 ^ 8) with 256. change (2 ^ 16) with 65536.
  change (2 ^ 24) with 16777216. change (2 ^ 32) with 4294967296.
  Z.div_mod_to_equations. lia.
Qed.

Lemma load32_store32_same (buf : list Z) (p : nat) (w : Z) :
  (p + 4 <= length buf)%nat -> load32 (store32 buf p w) p = u32 w.
Proof.
  intros H. unfold load32. rewrite !getb_store32_in by lia.
  repeat case_decide; try lia.
  replace (p - p)%nat with 0%nat by lia.
  replace (p + 1 - p)%nat with 1%nat by lia.
  replace (p + 2 - p)%nat with 2%nat by lia.
  replace (p + 3 - p)%nat with 3%nat by lia.
  unfold byte_of. cbn [Z.of_nat Pos.of_succ_nat Pos.succ Z.mul Pos.mul Pos.add].
  rewrite Z.pow_0_r, Z.div_1_r. apply bytes_sum.
Qed.

Lemma load32_store32_other (buf : list Z) (p q : nat) (w : Z) :
  (q + 4 <= p \/ p + 4 <= q)%nat ->
  load32 (store32 buf p w) q = load32 buf q.
Proof.
  intros H. unfold load32. rewrite !getb_store32.
  repeat case_decide; try lia; reflexivity.
Qed.

Lemma load32_copy_bytes_other (n : nat) (dst : list Z) (doff : nat)
    (src : list Z) (soff q : nat) :
  (q + 4 <= doff \/ doff + n <= q)%nat ->
  load32 (copy_bytes n dst doff src soff) q = load32 dst q.
Proof.
  intros H. unfold load32. rewrite !getb_copy_bytes.
  repeat case_decide; try lia; reflexivity.
Qed.

Lemma state_box_set_same (state : list Z) (i : nat) (v : Z) :
  (64 + 4 * i + 4 <= length state)%nat ->
  Hash.state_box (Hash.set_state_box state i v) i = u32 v.
Proof.
  intros H. unfold Hash.state_box, Hash.set_state_box.
  rewrite load32_store32_same by lia. unfold u32. apply Z.mod_mod. lia.
Qed.

Lemma state_box_set_other (state : list Z) (i j : nat) (v : Z) :
  i <> j -> Hash.state_box (Hash.set_state_box state i v) j = Hash.state_box state j.
Proof.
  intros H. unfold Hash.state_box, Hash.set_state_box.
  apply load32_store32_other. lia.
Qed.

Lemma state_box_compute_hash (state msg : list Z) (len : Z) (j : nat) :
  (5 <= j)%nat ->
  Hash.state_box (Hash.mtpz_hash_compute_hash state msg len) j
  = Hash.state_box state j.
Proof.
  intros H. unfold Hash.mtpz_hash_compute_hash. destruct (negb _); [reflexivity |].
  destruct (fold_left _ _ _) as [[[[x1 x2] x3] x4] x5].
  rewrite !state_box_set_other by lia. reflexivity.
Qed.

Lemma state_box_block_loop (n : nat) (state msg : list Z) (k j : nat) :
  (5 <= j)%nat ->
  Hash.state_box (Hash.block_loop n state msg k) j = Hash.state_box state j.
Proof.
  intros H. revert state k. induction n as [| n IH]; intros; simpl; [reflexivity |].
  now rewrite IH, state_box_compute_hash.
Qed.

Lemma land_63 (z : Z) : Z.land z 0x3F = z mod 64.
Proof. change 0x3F with (Z.ones 6). rewrite Z.land_ones by lia. reflexivity. Qed.

Lemma s32_mod_64 (z : Z) : s32 z mod 64 = z mod 64.
Proof.
  unfold s32. change (2 ^ 31) with 2147483648. change (2 ^ 32) with 4294967296.
  Z.div_mod_to_equations. lia.
Qed.

Lemma u32_mod_64 (z : Z) : u32 z mod 64 = z mod 64.
Proof.
  unfold u32. change (2 ^ 32) with 4294967296.
  Z.div_mod_to_equations. lia.
Qed.

(** *** Absorbing and finalising do not read stale buffer bytes *)

Lemma fill_agree (k : nat) (a b : list Z) :
  states_agree k a b -> fill a = fill b.
Proof.
  intros H. unfold fill. now rewrite (states_agree_state_box k a b).
Qed.

Lemma fill_spec (state : list Z) :
  Z.of_nat (fill state) = Hash.state_box state Hash.MTPZ_HASHSTATE_88 mod 64.
Proof.
  unfold fill. rewrite land_63, s32_mod_64. apply Z2Nat.id.
  apply Z.mod_pos_bound. lia.
Qed.

Lemma states_agree_transform (a b msg : list Z) (len : Z) :
  states_agree (fill a) a b -> 0 <= len ->
  states_agree (fill (Hash.mtpz_hash_transform_hash a msg len))
    (Hash.mtpz_hash_transform_hash a msg len)
    (Hash.mtpz_hash_transform_hash b msg len).
Proof.
  intros H Hlen.
  assert (Hla : length a = 92%nat) by apply H.
  assert (Hfa := fill_spec a).
  assert (Hfr := fill_spec (Hash.mtpz_hash_transform_hash a msg len)).
  revert Hfr.
  unfold Hash.mtpz_hash_transform_hash.
  rewrite <- !(states_agree_state_box _ a b Hash.MTPZ_HASHSTATE_88 H).
  set (old := s32 (Hash.state_box a Hash.MTPZ_HASHSTATE_88)) in *.
  set (x := Z.land old 63).
  assert (Hx : x = Z.of_nat (fill a)).
  { unfold x, old. rewrite land_63, s32_mod_64. now rewrite Hfa. }
  assert (Hx63 : 0 <= x < 64).
  { unfold x. rewrite land_63. apply Z.mod_pos_bound. lia. }
  set (v5 := s32 (len + old)).
  set (a1 := Hash.set_state_box a Hash.MTPZ_HASHSTATE_88 v5).
  set (b1 := Hash.set_state_box b Hash.MTPZ_HASHSTATE_88 v5).
  assert (H1 : states_agree (fill a) a1 b1)
    by now apply states_agree_set_state_box.
  rewrite <- !(states_agree_state_box _ a1 b1 Hash.MTPZ_HASHSTATE_84 H1).
  set (a2 := if len >? v5 then _ else a1).
  set (b2 := if len >? v5 then _ else b1).
  assert (H2 : states_agree (fill a) a2 b2).
  { unfold a2, b2. destruct (len >? v5); [| exact H1].
    now apply states_agree_set_state_box. }
  assert (Hc2 : Hash.state_box a2 Hash.MTPZ_HASHSTATE_88 = u32 v5).
  { unfold a2. destruct (len >? v5).
    - rewrite state_box_set_other by (unfold Hash.MTPZ_HASHSTATE_84,
        Hash.MTPZ_HASHSTATE_88; lia).
      unfold a1. apply state_box_set_same.
      unfold Hash.MTPZ_HASHSTATE_88. lia.
    - unfold a1. apply state_box_set_same.
      unfold Hash.MTPZ_HASHSTATE_88. lia. }
  assert (Hl2 : length a2 = 92%nat) by apply H2.
  clearbody a2 b2. clear H1 a1 b1.
  destruct (negb (x =? 0) && (len + x >? 63)) eqn:Hbr.
  - (* the buffer is completed and flushed: the states coincide *)
    intros _.
    assert (E : copy_bytes (Z.to_nat (64 - x)) a2 (Z.to_nat x) msg 0
                = copy_bytes (Z.to_nat (64 - x)) b2 (Z.to_nat x) msg 0).
    { apply states_agree_full.
      eapply states_agree_weaken;
        [| apply states_agree_copy_bytes; [exact H2 | lia]].
      lia. }
    rewrite E. apply states_agree_refl.
    repeat match goal with
           | |- context [if ?c then _ else _] => destruct c
           end;
      rewrite ?length_copy_bytes, ?length_block_loop, ?length_compute_hash,
        ?length_copy_bytes; apply H2.
  - (* nothing to flush: whole blocks, then the tail goes after the fill *)
    set (n := Z.to_nat (len / 64)).
    assert (Hcase : x = 0 \/ (x <> 0 /\ len + x <= 63)).
    { destruct (Z.eqb_spec x 0); [now left | right].
      cbn [negb andb] in Hbr. split; [assumption | lia]. }
    assert (Hn : Z.of_nat n = len / 64) by (unfold n; apply Z2Nat.id; apply Z.div_pos; lia).
    assert (Hi : 0 <= len - 64 * Z.of_nat n < 64).
    { rewrite Hn. pose proof (Z.mod_pos_bound len 64 ltac:(lia)).
      rewrite Z.mod_eq in H0 by lia. lia. }
    assert (H3 : states_agree (fill a) (Hash.block_loop n a2 msg (Z.to_nat 0))
                   (Hash.block_loop n b2 msg (Z.to_nat 0)))
      by now apply states_agree_block_loop.
    assert (Hfit : Z.of_nat (fill a) + (len - 64 * Z.of_nat n) <= 63).
    { destruct Hcase as [E | [_ E]]; [lia |].
      assert (len / 64 = 0) by (apply Z.div_small; lia). lia. }
    destruct (negb (len - 64 * Z.of_nat n =? 0)) eqn:Hrem.
    + intros Hfr. eapply states_agree_weaken;
        [| apply states_agree_copy_bytes; [exact H3 | lia]].
      apply Nat2Z.inj_le. rewrite Hfr.
      unfold Hash.state_box at 1.
      rewrite load32_copy_bytes_other
        by (unfold Hash.MTPZ_HASHSTATE_88; lia).
      fold (Hash.state_box (Hash.block_loop n a2 msg (Z.to_nat 0))
              Hash.MTPZ_HASHSTATE_88).
      rewrite state_box_block_loop by (unfold Hash.MTPZ_HASHSTATE_88; lia).
      rewrite Hc2, u32_mod_64. unfold v5. rewrite s32_mod_64.
      assert (Hold : old mod 64 = Z.of_nat (fill a)).
      { unfold old. now rewrite s32_mod_64. }
      rewrite Nat2Z.inj_max, Nat2Z.inj_add, Z2Nat.id, Z2Nat.id by lia.
      rewrite Hx in *.
      revert Hold Hfit Hi. generalize (Z.of_nat (fill a)) (Z.of_nat n). intros f m.
      intros. Z.div_mod_to_equations. lia.
    + intros Hfr. eapply states_agree_weaken; [| exact H3].
      apply Nat2Z.inj_le. rewrite Hfr.
      rewrite state_box_block_loop by (unfold Hash.MTPZ_HASHSTATE_88; lia).
      rewrite Hc2, u32_mod_64. unfold v5. rewrite s32_mod_64.
      assert (Hold : old mod 64 = Z.of_nat (fill a)).
      { unfold old. now rewrite s32_mod_64. }
      apply negb_false_iff, Z.eqb_eq in Hrem.
      revert Hold Hfit Hi Hrem. generalize (Z.of_nat (fill a)) (Z.of_nat n).
      intros f m. intros. Z.div_mod_to_equations. lia.
Qed.

Lemma states_agree_reset (a b : list Z) :
  length a = 92%nat -> length b = 92%nat ->
  states_agree 0 (Hash.mtpz_hash_reset_state a) (Hash.mtpz_hash_reset_state b).
Proof.
  intros Ha Hb. repeat split; rewrite ?length_reset_state; try assumption.
  intros j Hj. unfold Hash.mtpz_hash_reset_state, Hash.set_state_box,
    Hash.MTPZ_HASHSTATE_84, Hash.MTPZ_HASHSTATE_88.
  rewrite !getb_store32, !length_store32, Ha, Hb.
  repeat (case_decide; [reflexivity |]).
  rewrite !getb_ge by lia. reflexivity.
Qed.

Lemma fill_reset (a : list Z) :
  length a = 92%nat -> fill (Hash.mtpz_hash_reset_state a) = 0%nat.
Proof.
  intros Ha. unfold fill, Hash.mtpz_hash_reset_state.
  rewrite state_box_set_same
    by (rewrite !length_set_state_box; unfold Hash.MTPZ_HASHSTATE_88; lia).
  reflexivity.
Qed.

Lemma finalize_agree (a b out : list Z) (off : nat) :
  states_agree (fill a) a b ->
  snd (Hash.mtpz_hash_finalize_hash a out off)
  = snd (Hash.mtpz_hash_finalize_hash b out off).
Proof.
  intros H. unfold Hash.mtpz_hash_finalize_hash. cbn [snd].
  rewrite <- !(states_agree_state_box _ a b _ H).
  match goal with
  | |- context [Hash.mtpz_hash_transform_hash a ?m ?l] =>
      assert (Ht := states_agree_transform a b m l H);
      set (v5 := m) in *; set (v2 := l) in *
  end.
  assert (Hv2 : 0 <= v2).
  { unfold v2. rewrite land_63.
    pose proof (Z.mod_pos_bound
      (s32 (Hash.state_box a Hash.MTPZ_HASHSTATE_88)) 64 ltac:(lia)).
    match goal with |- context [if ?c then _ else _] => destruct c end; lia. }
  specialize (Ht Hv2).
  rewrite <- !(states_agree_state_box _ _ _ _ Ht). reflexivity.
Qed.

(** The digest of a message does not depend on what the state buffer
    held before: any two 92-byte states give the same 20 bytes. *)
Lemma digest_state_irrelevant (a b msg : list Z) :
  length a = 92%nat -> length b = 92%nat ->
  Hash.digest a msg = Hash.digest b msg.
Proof.
  intros Ha Hb. unfold Hash.digest. apply finalize_agree.
  apply states_agree_transform; [| lia].
  rewrite fill_reset by exact Ha. now apply states_agree_reset.
Qed.

(** ** Mask generation *)

Lemma finalize_out_local (state out : list Z) (off : nat) :
  (off + 20 <= length out)%nat ->
  snd (Hash.mtpz_hash_finalize_hash state out off)
  = take off out ++ snd (Hash.mtpz_hash_finalize_hash state (zeros 20) 0)
    ++ drop (off + 20) out.
Proof.
  intros H. apply buf_ext.
  - rewrite length_finalize_out, !length_app, length_finalize_out. len.
  - intros j Hj. rewrite length_finalize_out in Hj.
    unfold Hash.mtpz_hash_finalize_hash. cbn [snd].
    set (st := Hash.mtpz_hash_transform_hash _ _ _).
    getb_norm. len_norm. split_cases.
Qed.

Lemma store32_at_end (seed c4 : list Z) (w : Z) :
  length c4 = 4%nat ->
  store32 (seed ++ c4) (length seed) w = seed ++ store32 (zeros 4) 0 w.
Proof.
  intros H. apply buf_ext.
  - len.
  - intros j Hj. revert Hj. len_norm. intros Hj. getb_norm. split_cases.
Qed.

Lemma copy_bytes_prefix (seed : list Z) (k : nat) :
  copy_bytes (length seed) (zeros (length seed + k)) 0 seed 0 = seed ++ zeros k.
Proof.
  apply buf_ext.
  - len.
  - intros j Hj. revert Hj. len_norm. intros Hj. getb_norm. split_cases.
Qed.

Lemma length_digest (state msg : list Z) : length (Hash.digest state msg) = 20%nat.
Proof. unfold Hash.digest. now rewrite length_finalize_out, length_zeros. Qed.

Lemma mgf_step_spec (seed c4 pre rest state : list Z) (a : nat) :
  length state = 92%nat -> length c4 = 4%nat ->
  length pre = (a * 20)%nat -> (20 <= length rest)%nat ->
  exists state',
    Hash.mgf_step (Z.of_nat (length seed)) a (state, seed ++ c4, pre ++ rest)
    = (state', seed ++ counter_bytes a,
       (pre ++ Hash.digest Hash.mtpz_hash_init_state (seed ++ counter_bytes a))
       ++ drop 20 rest)
    /\ length state' = 92%nat.
Proof.
  intros Hs Hc Hp Hr. unfold Hash.mgf_step.
  rewrite Nat2Z.id, store32_at_end by exact Hc. fold (counter_bytes a).
  destruct (Hash.mtpz_hash_finalize_hash _ _ _) as [st' out] eqn:E.
  exists st'. split.
  - f_equal.
    assert (Eo := f_equal snd E). cbn [snd] in Eo. rewrite <- Eo.
    rewrite finalize_out_local by (rewrite length_app; lia).
    rewrite <- Hp, take_app_length, <- app_assoc.
    f_equal. f_equal.
    + rewrite (digest_state_irrelevant Hash.mtpz_hash_init_state state)
        by (auto using length_zeros).
      unfold Hash.digest. len_norm. unfold counter_bytes. len_norm.
      replace (Z.of_nat (length seed + 4)) with (Z.of_nat (length seed) + 4) by lia.
      reflexivity.
    + rewrite drop_app_add'; [reflexivity | exact eq_refl].
  - assert (Es := f_equal fst E). cbn [fst] in Es. rewrite <- Es.
    now rewrite length_finalize_state, length_transform_hash, length_reset_state.
Qed.

Lemma mgf_fold_spec (seed : list Z) (m : nat) :
  forall (a : nat) (state c4 pre rest : list Z),
  length state = 92%nat -> length c4 = 4%nat ->
  length pre = (a * 20)%nat -> length rest = (m * 20)%nat ->
  snd (fold_left (fun s i => Hash.mgf_step (Z.of_nat (length seed)) i s)
         (seq a m) (state, seed ++ c4, pre ++ rest))
  = pre ++ flat_map
             (fun i => Hash.digest Hash.mtpz_hash_init_state
                         (seed ++ counter_bytes i)) (seq a m).
Proof.
  induction m as [| m IH]; intros a state c4 pre rest Hs Hc Hp Hr.
  - cbn. destruct rest; [reflexivity | discriminate].
  - cbn [seq fold_left flat_map].
    destruct (mgf_step_spec seed c4 pre rest state a Hs Hc Hp ltac:(lia))
      as (st' & -> & Hs').
    rewrite IH.
    + now rewrite <- app_assoc.
    + exact Hs'.
    + unfold counter_bytes. len.
    + rewrite length_app, length_digest. lia.
    + rewrite length_drop. lia.
Qed.

Lemma flat_map_block (f : nat -> list Z) (a n i : nat) :
  (forall k, length (f k) = 20%nat) -> (i < n)%nat ->
  take 20 (drop (20 * i) (flat_map f (seq a n))) = f (a + i)%nat.
Proof.
  intros Hf. revert a i. induction n as [| n IH]; intros a i Hi; [lia |].
  cbn [seq flat_map]. destruct i as [| i].
  - rewrite Nat.mul_0_r, Nat.add_0_r, drop_0.
    rewrite take_app_length'; [reflexivity | now rewrite Hf].
  - rewrite drop_app_ge by (rewrite Hf; lia). rewrite Hf.
    replace (20 * S i - 20)%nat with (20 * i)%nat by lia.
    rewrite IH by lia. f_equal. lia.
Qed.

Lemma length_flat_map_blocks (f : nat -> list Z) (a n : nat) :
  (forall k, length (f k) = 20%nat) ->
  length (flat_map f (seq a n)) = (20 * n)%nat.
Proof.
  intros Hf. revert a. induction n as [| n IH]; intros a; [reflexivity |].
  cbn [seq flat_map]. rewrite length_app, Hf, IH. lia.
Qed.

(** C2, as the code counts the blocks.  For a 92-byte state, a seed
    whose length fits an [int] with four bytes to spare and an
    [out_len >= 0] whose buffer size [(out_len / 20 + 1) * 20] fits an
    [int], the function makes [out_len / 20 + 1] passes; pass [i] resets
    the state, absorbs the seed followed by the four bytes of
    [bswap32(i)] and finalises into [output[20 i .. 20 i + 20]]; the
    buffer returned has [(out_len / 20 + 1) * 20] bytes.  The number of
    passes is the ceiling of [out_len / 20] exactly when 20 does not
    divide [out_len]. *)
Theorem mgf_blocks (state seed : list Z) (out_len : Z) :
  length state = 92%nat ->
  0 <= out_len ->
  (out_len / 20 + 1) * 20 < 2 ^ 31 ->
  Z.of_nat (length seed) + 4 < 2 ^ 31 ->
  let n := Z.to_nat (out_len / 20 + 1) in
  let block i := Hash.digest Hash.mtpz_hash_init_state (seed ++ counter_bytes i) in
  let out :=
    snd (Hash.mtpz_hash_custom6A5DC state seed (Z.of_nat (length seed)) out_len) in
  out = flat_map block (seq 0 n)
  /\ length out = (20 * n)%nat
  /\ (forall i, (i < n)%nat -> take 20 (drop (20 * i) out) = block i)
  /\ (out_len mod 20 <> 0 -> Z.of_nat n = (out_len + 19) / 20)
  /\ (out_len mod 20 = 0 -> Z.of_nat n = (out_len + 19) / 20 + 1).
Proof.
  intros Hs Hout _ _ n block out.
  assert (Hq : Z.quot out_len 20 = out_len / 20)
    by (apply Z.quot_div_nonneg; lia).
  assert (Hn : Z.of_nat n = out_len / 20 + 1).
  { unfold n. apply Z2Nat.id. pose proof (Z.div_pos out_len 20). lia. }
  assert (Hmain : out = flat_map block (seq 0 n)).
  { unfold out, Hash.mtpz_hash_custom6A5DC. rewrite Hq.
    replace (Z.to_nat (Z.of_nat (length seed) + 4)) with (length seed + 4)%nat by lia.
    rewrite Nat2Z.id, copy_bytes_prefix. fold n.
    pose proof (mgf_fold_spec seed n 0 state (zeros 4) []
                  (zeros (Z.to_nat ((out_len / 20 + 1) * 20))) Hs) as Hf.
    cbn [app] in Hf.
    destruct (fold_left _ _ _) as [[st v5] v13]. cbn [snd] in *.
    apply Hf; [apply length_zeros | reflexivity |].
    rewrite length_zeros. lia. }
  assert (Hb : forall k, length (block k) = 20%nat)
    by (intros k; unfold block; apply length_digest).
  split; [exact Hmain |]. rewrite Hmain. split; [| split; [| split]].
  - apply length_flat_map_blocks. exact Hb.
  - intros i Hi. apply (flat_map_block block 0 n i Hb Hi).
  - intros Hm. rewrite Hn. Z.div_mod_to_equations. lia.
  - intros Hm. rewrite Hn. Z.div_mod_to_equations. lia.
Qed.

Lemma mgf_blocks_witness :
  length (snd (Hash.mtpz_hash_custom6A5DC Hash.mtpz_hash_init_state
                 [1; 2; 3] (Z.of_nat (length [1; 2; 3])) 107)) = 120%nat.
Proof.
  pose proof (mgf_blocks Hash.mtpz_hash_init_state [1; 2; 3] 107) as H.
  cbv zeta in H.
  change (Z.to_nat (107 / 20 + 1)) with 6%nat in H.
  apply H; [reflexivity | lia | reflexivity | vm_compute; reflexivity].
Defined.

(** With [out_len = 20] the buffer has 40 bytes, not the 20 a ceiling
    would give. *)
Lemma mgf_blocks_not_ceiling :
  let out_len := 20 in
  length (snd (Hash.mtpz_hash_custom6A5DC Hash.mtpz_hash_init_state [] 0 out_len))
  <> Z.to_nat ((out_len + 19) / 20 * 20).
Proof. vm_compute. discriminate. Qed.

(** ** Bitwise operations on bytes and words *)

Lemma testbit_high (k a n : Z) :
  0 <= k -> 0 <= a < 2 ^ k -> k <= n -> Z.testbit a n = false.
Proof.
  intros Hk Ha Hn. rewrite <- (Z.mod_small a (2 ^ k)) by exact Ha.
  apply Z.mod_pow2_bits_high. lia.
Qed.

Lemma range_of_bits (k a : Z) :
  0 <= k -> 0 <= a -> (forall n, k <= n -> Z.testbit a n = false) ->
  0 <= a < 2 ^ k.
Proof.
  intros Hk Ha H. split; [exact Ha |].
  assert (E : a mod 2 ^ k = a).
  { apply Z.bits_inj'. intros n Hn. rewrite Z.testbit_mod_pow2 by exact Hk.
    destruct (Z.ltb_spec n k); [reflexivity |]. now rewrite H. }
  rewrite <- E. apply Z.mod_pos_bound. apply Z.pow_pos_nonneg; lia.
Qed.

Lemma lxor_range (k a b : Z) :
  0 <= k -> 0 <= a < 2 ^ k -> 0 <= b < 2 ^ k -> 0 <= Z.lxor a b < 2 ^ k.
Proof.
  intros Hk Ha Hb. apply range_of_bits; [exact Hk | |].
  - apply Z.lxor_nonneg. lia.
  - intros n Hn. rewrite Z.lxor_spec, !(testbit_high k) by assumption.
    reflexivity.
Qed.

Lemma land_disjoint (k hi lo : Z) :
  0 <= k -> 0 <= lo < 2 ^ k -> Z.land (hi * 2 ^ k) lo = 0.
Proof.
  intros Hk Hlo. apply Z.bits_inj'. intros n Hn.
  rewrite Z.land_spec, Z.bits_0. destruct (Z.lt_ge_cases n k).
  - now rewrite Z.mul_pow2_bits_low.
  - rewrite (testbit_high k lo) by assumption. apply andb_false_r.
Qed.

Lemma lor_disjoint (k hi lo : Z) :
  0 <= k -> 0 <= lo < 2 ^ k -> Z.lor (hi * 2 ^ k) lo = hi * 2 ^ k + lo.
Proof.
  intros Hk Hlo. rewrite <- Z.add_lor_land, land_disjoint by assumption. lia.
Qed.

Lemma lxor_split (k hi lo hi' lo' : Z) :
  0 <= k -> 0 <= lo < 2 ^ k -> 0 <= lo' < 2 ^ k ->
  Z.lxor (hi * 2 ^ k + lo) (hi' * 2 ^ k + lo')
  = Z.lxor hi hi' * 2 ^ k + Z.lxor lo lo'.
Proof.
  intros Hk Hlo Hlo'.
  rewrite <- !lor_disjoint by (try apply lxor_range; assumption).
  apply Z.bits_inj'. intros n Hn.
  rewrite Z.lxor_spec, !Z.lor_spec, Z.lxor_spec.
  destruct (Z.lt_ge_cases n k).
  - rewrite !Z.mul_pow2_bits_low by assumption. reflexivity.
  - rewrite !Z.mul_pow2_bits, Z.lxor_spec, !(testbit_high k lo),
      !(testbit_high k lo') by assumption.
    now rewrite !orb_false_r.
Qed.

(** *** Words as four bytes *)

Lemma be_word_ok (a b c d : Z) :
  byte_ok a -> byte_ok b -> byte_ok c -> byte_ok d -> word_ok (be a b c d).
Proof. unfold byte_ok, word_ok, be. lia. Qed.

Lemma lxor_byte_ok (a b : Z) : byte_ok a -> byte_ok b -> byte_ok (Z.lxor a b).
Proof. apply (lxor_range 8). lia. Qed.

Lemma lxor_word_ok (a b : Z) : word_ok a -> word_ok b -> word_ok (Z.lxor a b).
Proof. apply (lxor_range 32). lia. Qed.

Lemma lxor_be (a b c d a' b' c' d' : Z) :
  byte_ok a -> byte_ok b -> byte_ok c -> byte_ok d ->
  byte_ok a' -> byte_ok b' -> byte_ok c' -> byte_ok d' ->
  Z.lxor (be a b c d) (be a' b' c' d')
  = be (Z.lxor a a') (Z.lxor b b') (Z.lxor c c') (Z.lxor d d').
Proof.
  unfold byte_ok, be. intros.
  rewrite !(lxor_split 8) by lia. reflexivity.
Qed.

Lemma lobyte_div (w : Z) : Aes.MTPZ_ENCRYPTIONLOBYTE w = (w / 2 ^ 24) mod 2 ^ 8.
Proof.
  unfold Aes.MTPZ_ENCRYPTIONLOBYTE. rewrite Z.shiftr_div_pow2 by lia.
  change 0xFF with (Z.ones 8). now rewrite Z.land_ones by lia.
Qed.

Lemma byte1_div (w : Z) : Aes.MTPZ_ENCRYPTIONBYTE1 w = (w / 2 ^ 16) mod 2 ^ 8.
Proof.
  unfold Aes.MTPZ_ENCRYPTIONBYTE1. rewrite Z.shiftr_div_pow2 by lia.
  change 0xFF with (Z.ones 8). now rewrite Z.land_ones by lia.
Qed.

Lemma byte2_div (w : Z) : Aes.MTPZ_ENCRYPTIONBYTE2 w = (w / 2 ^ 8) mod 2 ^ 8.
Proof.
  unfold Aes.MTPZ_ENCRYPTIONBYTE2. rewrite Z.shiftr_div_pow2 by lia.
  change 0xFF with (Z.ones 8). now rewrite Z.land_ones by lia.
Qed.

Lemma byte3_div (w : Z) : Aes.MTPZ_ENCRYPTIONBYTE3 w = w mod 2 ^ 8.
Proof.
  unfold Aes.MTPZ_ENCRYPTIONBYTE3. rewrite Z.shiftr_0_r.
  change 0xFF with (Z.ones 8). now rewrite Z.land_ones by lia.
Qed.

Ltac pow_consts :=
  change (2 ^ 8) with 256 in *; change (2 ^ 16) with 65536 in *;
  change (2 ^ 24) with 16777216 in *; change (2 ^ 32) with 4294967296 in *.

Lemma bytes_of_be (a b c d : Z) :
  byte_ok a -> byte_ok b -> byte_ok c -> byte_ok d ->
  Aes.MTPZ_ENCRYPTIONLOBYTE (be a b c d) = a
  /\ Aes.MTPZ_ENCRYPTIONBYTE1 (be a b c d) = b
  /\ Aes.MTPZ_ENCRYPTIONBYTE2 (be a b c d) = c
  /\ Aes.MTPZ_ENCRYPTIONBYTE3 (be a b c d) = d.
Proof.
  unfold byte_ok. intros. rewrite lobyte_div, byte1_div, byte2_div, byte3_div.
  unfold be. pow_consts. repeat split; Z.div_mod_to_equations; lia.
Qed.

Lemma be_of_bytes (w : Z) :
  word_ok w ->
  w = be (Aes.MTPZ_ENCRYPTIONLOBYTE w) (Aes.MTPZ_ENCRYPTIONBYTE1 w)
        (Aes.MTPZ_ENCRYPTIONBYTE2 w) (Aes.MTPZ_ENCRYPTIONBYTE3 w).
Proof.
  unfold word_ok. intros. rewrite lobyte_div, byte1_div, byte2_div, byte3_div.
  unfold be. pow_consts. Z.div_mod_to_equations. lia.
Qed.

Lemma byte_macros_ok (w : Z) :
  byte_ok (Aes.MTPZ_ENCRYPTIONLOBYTE w) /\ byte_ok (Aes.MTPZ_ENCRYPTIONBYTE1 w)
  /\ byte_ok (Aes.MTPZ_ENCRYPTIONBYTE2 w) /\ byte_ok (Aes.MTPZ_ENCRYPTIONBYTE3 w).
Proof.
  rewrite lobyte_div, byte1_div, byte2_div, byte3_div. unfold byte_ok.
  pow_consts. repeat split; apply Z.mod_pos_bound; lia.
Qed.

Lemma pack_be (a b c d : Z) :
  byte_ok a -> byte_ok b -> byte_ok c -> byte_ok d ->
  Aes.pack a b c d = be a b c d.
Proof.
  unfold byte_ok. intros Ha Hb Hc Hd. unfold Aes.pack.
  rewrite !Z.shiftl_mul_pow2, Z.pow_0_r, Z.mul_1_r by lia.
  rewrite (lor_disjoint 24 a (b * 2 ^ 16)) by lia.
  replace (a * 2 ^ 24 + b * 2 ^ 16) with ((a * 2 ^ 8 + b) * 2 ^ 16) by ring.
  rewrite (lor_disjoint 16 (a * 2 ^ 8 + b) (c * 2 ^ 8)) by lia.
  replace ((a * 2 ^ 8 + b) * 2 ^ 16 + c * 2 ^ 8)
    with (((a * 2 ^ 8 + b) * 2 ^ 8 + c) * 2 ^ 8) by ring.
  rewrite (lor_disjoint 8 ((a * 2 ^ 8 + b) * 2 ^ 8 + c) d) by lia.
  fold (be a b c d). apply u32_small. now apply be_word_ok.
Qed.

Lemma land_mask (y k : Z) :
  0 <= k -> Z.land y (Z.ones 8 * 2 ^ k) = (y / 2 ^ k) mod 2 ^ 8 * 2 ^ k.
Proof.
  intros Hk. apply Z.bits_inj'. intros n Hn.
  rewrite Z.land_spec, !Z.mul_pow2_bits, Z.testbit_mod_pow2, Z.testbit_ones
    by lia.
  destruct (Z.lt_ge_cases n k).
  - rewrite (Z.testbit_neg_r _ (n - k)) by lia.
    replace (0 <=? n - k) with false by (symmetry; apply Z.leb_gt; lia).
    cbn [andb]. now rewrite !andb_false_r.
  - rewrite Z.div_pow2_bits by lia.
    replace (n - k + k) with n by lia.
    replace (0 <=? n - k) with true by (symmetry; apply Z.leb_le; lia).
    cbn [andb]. apply andb_comm.
Qed.

Lemma bswap32_be (a b c d : Z) :
  byte_ok a -> byte_ok b -> byte_ok c -> byte_ok d ->
  mtpz_bswap32 (be a b c d) = be d c b a.
Proof.
  unfold byte_ok. intros Ha Hb Hc Hd. unfold mtpz_bswap32.
  change 0x0000ff00 with (Z.ones 8 * 2 ^ 8).
  change 0x00ff0000 with (Z.ones 8 * 2 ^ 16).
  rewrite !land_mask by lia.
  rewrite !Z.shiftr_div_pow2, !Z.shiftl_mul_pow2 by lia.
  assert (E1 : be a b c d / 2 ^ 24 = a)
    by (unfold be; pow_consts; Z.div_mod_to_equations; lia).
  assert (E2 : (be a b c d / 2 ^ 8 / 2 ^ 8) mod 2 ^ 8 = b)
    by (unfold be; pow_consts; Z.div_mod_to_equations; lia).
  assert (E3 : (be a b c d * 2 ^ 8 / 2 ^ 16) mod 2 ^ 8 = c)
    by (unfold be; pow_consts; Z.div_mod_to_equations; lia).
  assert (E4 : u32 (be a b c d * 2 ^ 24) = d * 2 ^ 24)
    by (unfold u32, be; pow_consts; Z.div_mod_to_equations; lia).
  rewrite E1, E2, E3, E4.
  rewrite (Z.lor_comm (c * 2 ^ 16)), (lor_disjoint 24 d (c * 2 ^ 16)) by lia.
  replace (d * 2 ^ 24 + c * 2 ^ 16) with ((d * 2 ^ 8 + c) * 2 ^ 16) by ring.
  rewrite (Z.lor_comm (b * 2 ^ 8)),
    (lor_disjoint 16 (d * 2 ^ 8 + c) (b * 2 ^ 8)) by lia.
  replace ((d * 2 ^ 8 + c) * 2 ^ 16 + b * 2 ^ 8)
    with (((d * 2 ^ 8 + c) * 2 ^ 8 + b) * 2 ^ 8) by ring.
  rewrite Z.lor_comm, (lor_disjoint 8 ((d * 2 ^ 8 + c) * 2 ^ 8 + b) a) by lia.
  reflexivity.
Qed.

Lemma swap_be (a b c d : Z) :
  byte_ok a -> byte_ok b -> byte_ok c -> byte_ok d ->
  MTPZ_SWAP (be a b c d) = be d c b a.
Proof.
  intros. unfold MTPZ_SWAP. rewrite u32_small by now apply be_word_ok.
  now apply bswap32_be.
Qed.

Lemma swap_word_ok (w : Z) : word_ok (MTPZ_SWAP w).
Proof.
  unfold MTPZ_SWAP.
  pose proof (u32_range w) as Hw. fold (word_ok (u32 w)) in Hw.
  rewrite (be_of_bytes _ Hw).
  destruct (byte_macros_ok (u32 w)) as (H1 & H2 & H3 & H4).
  rewrite bswap32_be by assumption. now apply be_word_ok.
Qed.

Lemma swap_swap (w : Z) : word_ok w -> MTPZ_SWAP (MTPZ_SWAP w) = w.
Proof.
  intros Hw. rewrite (be_of_bytes _ Hw) at 2.
  destruct (byte_macros_ok w) as (H1 & H2 & H3 & H4).
  rewrite (be_of_bytes _ Hw) at 1.
  now rewrite !swap_be.
Qed.

(** *** Big-endian words in buffers *)

Lemma getb_byte_ok (buf : list Z) (i : nat) : bytes_ok buf -> byte_ok (getb buf i).
Proof.
  intros H. unfold getb. destruct (nth_in_or_default i buf 0) as [Hin | ->].
  - unfold bytes_ok in H. rewrite Forall_forall in H. apply H.
    now apply list_elem_of_In.
  - unfold byte_ok. lia.
Qed.

Lemma swap_load32 (buf : list Z) (p : nat) :
  bytes_ok buf ->
  MTPZ_SWAP (load32 buf p)
  = be (getb buf p) (getb buf (p + 1)) (getb buf (p + 2)) (getb buf (p + 3)).
Proof.
  intros H.
  pose proof (getb_byte_ok buf p H). pose proof (getb_byte_ok buf (p + 1) H).
  pose proof (getb_byte_ok buf (p + 2) H). pose proof (getb_byte_ok buf (p + 3) H).
  replace (load32 buf p)
    with (be (getb buf (p + 3)) (getb buf (p + 2)) (getb buf (p + 1)) (getb buf p))
    by (unfold load32, be; ring).
  now apply swap_be.
Qed.

Lemma byte_of_swap (w : Z) :
  word_ok w ->
  byte_of (MTPZ_SWAP w) 0 = Aes.MTPZ_ENCRYPTIONLOBYTE w
  /\ byte_of (MTPZ_SWAP w) 1 = Aes.MTPZ_ENCRYPTIONBYTE1 w
  /\ byte_of (MTPZ_SWAP w) 2 = Aes.MTPZ_ENCRYPTIONBYTE2 w
  /\ byte_of (MTPZ_SWAP w) 3 = Aes.MTPZ_ENCRYPTIONBYTE3 w.
Proof.
  intros Hw. destruct (byte_macros_ok w) as (H1 & H2 & H3 & H4).
  pose proof (be_of_bytes w Hw) as E.
  set (a := Aes.MTPZ_ENCRYPTIONLOBYTE w) in *.
  set (b := Aes.MTPZ_ENCRYPTIONBYTE1 w) in *.
  set (c := Aes.MTPZ_ENCRYPTIONBYTE2 w) in *.
  set (d := Aes.MTPZ_ENCRYPTIONBYTE3 w) in *.
  clearbody a b c d. subst w. rewrite swap_be by assumption.
  unfold byte_ok, byte_of, u8, be in *.
  change (8 * Z.of_nat 0) with 0. change (8 * Z.of_nat 1) with 8.
  change (8 * Z.of_nat 2) with 16. change (8 * Z.of_nat 3) with 24.
  pow_consts. change (2 ^ 0) with 1.
  repeat split; Z.div_mod_to_equations; lia.
Qed.

(** ** AES: facts about the constant tables *)

Lemma forall_bytes (P : Z -> bool) :
  forallb P all_bytes = true -> forall b, byte_ok b -> P b = true.
Proof.
  intros H b Hb. rewrite forallb_forall in H. apply H.
  unfold all_bytes. rewrite <- (Z2Nat.id b) by apply Hb.
  apply in_map, in_seq. unfold byte_ok in Hb. lia.
Qed.

Lemma forall_bytes2 (P : Z -> Z -> bool) :
  forallb (fun a => forallb (P a) all_bytes) all_bytes = true ->
  forall a b, byte_ok a -> byte_ok b -> P a b = true.
Proof.
  intros H a b Ha Hb.
  apply (forall_bytes (P a)); [| exact Hb].
  now apply (forall_bytes (fun a => forallb (P a) all_bytes)).
Qed.

Lemma tbl_word_ok (T : list Z) :
  forallb in_word_range T = true -> forall x, word_ok (Aes.tbl T x).
Proof.
  intros H x. unfold Aes.tbl.
  destruct (nth_in_or_default (Z.to_nat x) T 0) as [Hin | ->].
  - rewrite forallb_forall in H. specialize (H _ Hin).
    unfold in_word_range in H. unfold word_ok. lia.
  - unfold word_ok. lia.
Qed.

Lemma tbl_byte_ok (T : list Z) :
  forallb in_byte_range T = true -> forall x, byte_ok (Aes.tbl T x).
Proof.
  intros H x. unfold Aes.tbl.
  destruct (nth_in_or_default (Z.to_nat x) T 0) as [Hin | ->].
  - rewrite forallb_forall in H. specialize (H _ Hin).
    unfold in_byte_range in H. unfold byte_ok. lia.
  - unfold byte_ok. lia.
Qed.

Lemma ft1_ok x : word_ok (Aes.tbl mtpz_aes_ft1 x).
Proof. apply tbl_word_ok. vm_compute. reflexivity. Qed.
Lemma ft2_ok x : word_ok (Aes.tbl mtpz_aes_ft2 x).
Proof. apply tbl_word_ok. vm_compute. reflexivity. Qed.
Lemma ft3_ok x : word_ok (Aes.tbl mtpz_aes_ft3 x).
Proof. apply tbl_word_ok. vm_compute. reflexivity. Qed.
Lemma ft4_ok x : word_ok (Aes.tbl mtpz_aes_ft4 x).
Proof. apply tbl_word_ok. vm_compute. reflexivity. Qed.
Lemma rt1_ok x : word_ok (Aes.tbl mtpz_aes_rt1 x).
Proof. apply tbl_word_ok. vm_compute. reflexivity. Qed.
Lemma rt2_ok x : word_ok (Aes.tbl mtpz_aes_rt2 x).
Proof. apply tbl_word_ok. vm_compute. reflexivity. Qed.
Lemma rt3_ok x : word_ok (Aes.tbl mtpz_aes_rt3 x).
Proof. apply tbl_word_ok. vm_compute. reflexivity. Qed.
Lemma rt4_ok x : word_ok (Aes.tbl mtpz_aes_rt4 x).
Proof. apply tbl_word_ok. vm_compute. reflexivity. Qed.
Lemma gb9_ok x : word_ok (Aes.tbl mtpz_aes_gb9 x).
Proof. apply tbl_word_ok. vm_compute. reflexivity. Qed.
Lemma gb11_ok x : word_ok (Aes.tbl mtpz_aes_gb11 x).
Proof. apply tbl_word_ok. vm_compute. reflexivity. Qed.
Lemma gb13_ok x : word_ok (Aes.tbl mtpz_aes_gb13 x).
Proof. apply tbl_word_ok. vm_compute. reflexivity. Qed.
Lemma gb14_ok x : word_ok (Aes.tbl mtpz_aes_gb14 x).
Proof. apply tbl_word_ok. vm_compute. reflexivity. Qed.
Lemma invsbox_ok x : byte_ok (Aes.tbl mtpz_aes_invsbox x).
Proof. apply tbl_byte_ok. vm_compute. reflexivity. Qed.

Lemma sub_byte_ok (b : Z) : byte_ok (sub_byte b).
Proof. unfold sub_byte, Aes.FT3_Bytes. apply u8_range. Qed.

(** The inverse S-box undoes the S-box. *)
Lemma invsbox_sub_byte (b : Z) :
  byte_ok b -> Aes.tbl mtpz_aes_invsbox (sub_byte b) = b.
Proof.
  intros Hb. apply Z.eqb_eq.
  apply (forall_bytes (fun b => Aes.tbl mtpz_aes_invsbox (sub_byte b) =? b));
    [vm_compute; reflexivity | exact Hb].
Qed.

(** The decryption tables are the inverse-mix-columns tables composed
    with the inverse S-box. *)
Lemma rt1_sub_byte (b : Z) :
  byte_ok b -> Aes.tbl mtpz_aes_rt1 (sub_byte b) = Aes.tbl mtpz_aes_gb9 b.
Proof.
  intros Hb. apply Z.eqb_eq.
  apply (forall_bytes
           (fun b => Aes.tbl mtpz_aes_rt1 (sub_byte b) =? Aes.tbl mtpz_aes_gb9 b));
    [vm_compute; reflexivity | exact Hb].
Qed.

Lemma rt2_sub_byte (b : Z) :
  byte_ok b -> Aes.tbl mtpz_aes_rt2 (sub_byte b) = Aes.tbl mtpz_aes_gb13 b.
Proof.
  intros Hb. apply Z.eqb_eq.
  apply (forall_bytes
           (fun b => Aes.tbl mtpz_aes_rt2 (sub_byte b) =? Aes.tbl mtpz_aes_gb13 b));
    [vm_compute; reflexivity | exact Hb].
Qed.

Lemma rt3_sub_byte (b : Z) :
  byte_ok b -> Aes.tbl mtpz_aes_rt3 (sub_byte b) = Aes.tbl mtpz_aes_gb14 b.
Proof.
  intros Hb. apply Z.eqb_eq.
  apply (forall_bytes
           (fun b => Aes.tbl mtpz_aes_rt3 (sub_byte b) =? Aes.tbl mtpz_aes_gb14 b));
    [vm_compute; reflexivity | exact Hb].
Qed.

Lemma rt4_sub_byte (b : Z) :
  byte_ok b -> Aes.tbl mtpz_aes_rt4 (sub_byte b) = Aes.tbl mtpz_aes_gb11 b.
Proof.
  intros Hb. apply Z.eqb_eq.
  apply (forall_bytes
           (fun b => Aes.tbl mtpz_aes_rt4 (sub_byte b) =? Aes.tbl mtpz_aes_gb11 b));
    [vm_compute; reflexivity | exact Hb].
Qed.

(** Inverse mix columns undoes the mix columns folded into the four
    encryption tables, leaving the S-box output in one byte. *)
Lemma inv_mix_ft1 (b : Z) :
  byte_ok b -> inv_mix (Aes.tbl mtpz_aes_ft1 b) = be 0 0 0 (sub_byte b).
Proof.
  intros Hb. apply Z.eqb_eq.
  apply (forall_bytes
           (fun b => inv_mix (Aes.tbl mtpz_aes_ft1 b) =? be 0 0 0 (sub_byte b)));
    [vm_compute; reflexivity | exact Hb].
Qed.

Lemma inv_mix_ft2 (b : Z) :
  byte_ok b -> inv_mix (Aes.tbl mtpz_aes_ft2 b) = be 0 0 (sub_byte b) 0.
Proof.
  intros Hb. apply Z.eqb_eq.
  apply (forall_bytes
           (fun b => inv_mix (Aes.tbl mtpz_aes_ft2 b) =? be 0 0 (sub_byte b) 0));
    [vm_compute; reflexivity | exact Hb].
Qed.

Lemma inv_mix_ft3 (b : Z) :
  byte_ok b -> inv_mix (Aes.tbl mtpz_aes_ft3 b) = be (sub_byte b) 0 0 0.
Proof.
  intros Hb. apply Z.eqb_eq.
  apply (forall_bytes
           (fun b => inv_mix (Aes.tbl mtpz_aes_ft3 b) =? be (sub_byte b) 0 0 0));
    [vm_compute; reflexivity | exact Hb].
Qed.

Lemma inv_mix_ft4 (b : Z) :
  byte_ok b -> inv_mix (Aes.tbl mtpz_aes_ft4 b) = be 0 (sub_byte b) 0 0.
Proof.
  intros Hb. apply Z.eqb_eq.
  apply (forall_bytes
           (fun b => inv_mix (Aes.tbl mtpz_aes_ft4 b) =? be 0 (sub_byte b) 0 0));
    [vm_compute; reflexivity | exact Hb].
Qed.

(** The inverse-mix-columns tables are linear over xor. *)
Lemma gb9_lxor (a b : Z) :
  byte_ok a -> byte_ok b ->
  Aes.tbl mtpz_aes_gb9 (Z.lxor a b)
  = Z.lxor (Aes.tbl mtpz_aes_gb9 a) (Aes.tbl mtpz_aes_gb9 b).
Proof.
  intros Ha Hb. apply Z.eqb_eq.
  apply (forall_bytes2
           (fun a b => Aes.tbl mtpz_aes_gb9 (Z.lxor a b)
                       =? Z.lxor (Aes.tbl mtpz_aes_gb9 a) (Aes.tbl mtpz_aes_gb9 b)));
    [vm_compute; reflexivity | exact Ha | exact Hb].
Qed.

Lemma gb11_lxor (a b : Z) :
  byte_ok a -> byte_ok b ->
  Aes.tbl mtpz_aes_gb11 (Z.lxor a b)
  = Z.lxor (Aes.tbl mtpz_aes_gb11 a) (Aes.tbl mtpz_aes_gb11 b).
Proof.
  intros Ha Hb. apply Z.eqb_eq.
  apply (forall_bytes2
           (fun a b => Aes.tbl mtpz_aes_gb11 (Z.lxor a b)
                       =? Z.lxor (Aes.tbl mtpz_aes_gb11 a) (Aes.tbl mtpz_aes_gb11 b)));
    [vm_compute; reflexivity | exact Ha | exact Hb].
Qed.

Lemma gb13_lxor (a b : Z) :
  byte_ok a -> byte_ok b ->
  Aes.tbl mtpz_aes_gb13 (Z.lxor a b)
  = Z.lxor (Aes.tbl mtpz_aes_gb13 a) (Aes.tbl mtpz_aes_gb13 b).
Proof.
  intros Ha Hb. apply Z.eqb_eq.
  apply (forall_bytes2
           (fun a b => Aes.tbl mtpz_aes_gb13 (Z.lxor a b)
                       =? Z.lxor (Aes.tbl mtpz_aes_gb13 a) (Aes.tbl mtpz_aes_gb13 b)));
    [vm_compute; reflexivity | exact Ha | exact Hb].
Qed.

Lemma gb14_lxor (a b : Z) :
  byte_ok a -> byte_ok b ->
  Aes.tbl mtpz_aes_gb14 (Z.lxor a b)
  = Z.lxor (Aes.tbl mtpz_aes_gb14 a) (Aes.tbl mtpz_aes_gb14 b).
Proof.
  intros Ha Hb. apply Z.eqb_eq.
  apply (forall_bytes2
           (fun a b => Aes.tbl mtpz_aes_gb14 (Z.lxor a b)
                       =? Z.lxor (Aes.tbl mtpz_aes_gb14 a) (Aes.tbl mtpz_aes_gb14 b)));
    [vm_compute; reflexivity | exact Ha | exact Hb].
Qed.

(** ** AES: one round against its inverse *)

(** Equalities between xors of the same terms. *)
Ltac xor_ac :=
  apply Z.bits_inj'; intros ?n ?Hn; rewrite !Z.lxor_spec;
  repeat match goal with
         | |- context [Z.testbit ?a ?n] => destruct (Z.testbit a n)
         end;
  reflexivity.

Lemma macros_lxor (x y : Z) :
  word_ok x -> word_ok y ->
  Aes.MTPZ_ENCRYPTIONLOBYTE (Z.lxor x y)
    = Z.lxor (Aes.MTPZ_ENCRYPTIONLOBYTE x) (Aes.MTPZ_ENCRYPTIONLOBYTE y)
  /\ Aes.MTPZ_ENCRYPTIONBYTE1 (Z.lxor x y)
    = Z.lxor (Aes.MTPZ_ENCRYPTIONBYTE1 x) (Aes.MTPZ_ENCRYPTIONBYTE1 y)
  /\ Aes.MTPZ_ENCRYPTIONBYTE2 (Z.lxor x y)
    = Z.lxor (Aes.MTPZ_ENCRYPTIONBYTE2 x) (Aes.MTPZ_ENCRYPTIONBYTE2 y)
  /\ Aes.MTPZ_ENCRYPTIONBYTE3 (Z.lxor x y)
    = Z.lxor (Aes.MTPZ_ENCRYPTIONBYTE3 x) (Aes.MTPZ_ENCRYPTIONBYTE3 y).
Proof.
  intros Hx Hy.
  destruct (byte_macros_ok x) as (X0 & X1 & X2 & X3).
  destruct (byte_macros_ok y) as (Y0 & Y1 & Y2 & Y3).
  rewrite (be_of_bytes x Hx) at 1 3 5 7.
  rewrite (be_of_bytes y Hy) at 1 3 5 7.
  rewrite lxor_be by assumption.
  apply bytes_of_be; now apply lxor_byte_ok.
Qed.

Lemma inv_mix_word_ok (x : Z) : word_ok (inv_mix x).
Proof.
  unfold inv_mix.
  repeat apply lxor_word_ok; auto using gb9_ok, gb11_ok, gb13_ok, gb14_ok.
Qed.

Lemma inv_mix_lxor (x y : Z) :
  word_ok x -> word_ok y ->
  inv_mix (Z.lxor x y) = Z.lxor (inv_mix x) (inv_mix y).
Proof.
  intros Hx Hy. unfold inv_mix.
  destruct (macros_lxor x y Hx Hy) as (-> & -> & -> & ->).
  destruct (byte_macros_ok x) as (X0 & X1 & X2 & X3).
  destruct (byte_macros_ok y) as (Y0 & Y1 & Y2 & Y3).
  rewrite gb9_lxor, gb11_lxor, gb13_lxor, gb14_lxor by assumption.
  xor_ac.
Qed.

Lemma macros_pack (a b c d : Z) :
  byte_ok a -> byte_ok b -> byte_ok c -> byte_ok d ->
  Aes.MTPZ_ENCRYPTIONLOBYTE (Aes.pack a b c d) = a
  /\ Aes.MTPZ_ENCRYPTIONBYTE1 (Aes.pack a b c d) = b
  /\ Aes.MTPZ_ENCRYPTIONBYTE2 (Aes.pack a b c d) = c
  /\ Aes.MTPZ_ENCRYPTIONBYTE3 (Aes.pack a b c d) = d.
Proof. intros. rewrite pack_be by assumption. now apply bytes_of_be. Qed.

Lemma pack_word_ok (a b c d : Z) : word_ok (Aes.pack a b c d).
Proof. unfold Aes.pack. apply u32_range. Qed.

Lemma xor4_word_ok (a b c d : Z) :
  word_ok a -> word_ok b -> word_ok c -> word_ok d -> word_ok (Aes.xor4 a b c d).
Proof. intros. unfold Aes.xor4. now repeat apply lxor_word_ok. Qed.

(** One output word of the decryption round applied to S-box outputs. *)
Lemma dec_word (a b c d : Z) :
  byte_ok a -> byte_ok b -> byte_ok c -> byte_ok d ->
  Aes.xor4 (Aes.tbl mtpz_aes_rt1 (sub_byte d)) (Aes.tbl mtpz_aes_rt2 (sub_byte c))
           (Aes.tbl mtpz_aes_rt3 (sub_byte a)) (Aes.tbl mtpz_aes_rt4 (sub_byte b))
  = Z.lxor (Z.lxor (Z.lxor (Aes.tbl mtpz_aes_gb9 d) (Aes.tbl mtpz_aes_gb13 c))
                   (Aes.tbl mtpz_aes_gb11 b)) (Aes.tbl mtpz_aes_gb14 a).
Proof.
  intros. unfold Aes.xor4.
  rewrite rt1_sub_byte, rt2_sub_byte, rt3_sub_byte, rt4_sub_byte by assumption.
  xor_ac.
Qed.

(** Inverse mix columns of one output word of the encryption round. *)
Lemma enc_word (p q r s : Z) :
  byte_ok p -> byte_ok q -> byte_ok r -> byte_ok s ->
  inv_mix (Aes.xor4 (Aes.tbl mtpz_aes_ft1 p) (Aes.tbl mtpz_aes_ft2 q)
                    (Aes.tbl mtpz_aes_ft3 r) (Aes.tbl mtpz_aes_ft4 s))
  = Aes.pack (sub_byte r) (sub_byte s) (sub_byte q) (sub_byte p).
Proof.
  intros Hp Hq Hr Hs. unfold Aes.xor4.
  rewrite !inv_mix_lxor
    by (repeat apply lxor_word_ok; auto using ft1_ok, ft2_ok, ft3_ok, ft4_ok).
  rewrite inv_mix_ft1, inv_mix_ft2, inv_mix_ft3, inv_mix_ft4 by assumption.
  assert (H0 : byte_ok 0) by (unfold byte_ok; lia).
  pose proof (sub_byte_ok p). pose proof (sub_byte_ok q).
  pose proof (sub_byte_ok r). pose proof (sub_byte_ok s).
  rewrite !lxor_be by (repeat apply lxor_byte_ok; assumption).
  rewrite pack_be by assumption.
  rewrite ?Z.lxor_0_l, ?Z.lxor_0_r. reflexivity.
Qed.

(** *** The four-word operations *)

Lemma xorw_ok (v k : Aes.words) : words_ok v -> words_ok k -> words_ok (xorw v k).
Proof.
  destruct v as [[[a b] c] d], k as [[[ka kb] kc] kd]. unfold words_ok, xorw.
  intros (? & ? & ? & ?) (? & ? & ? & ?).
  repeat split; now apply lxor_word_ok.
Qed.

Lemma xorw_cancel (v k : Aes.words) : xorw (xorw v k) k = v.
Proof.
  destruct v as [[[a b] c] d], k as [[[ka kb] kc] kd]. unfold xorw.
  now rewrite !Z.lxor_assoc, !Z.lxor_nilpotent, !Z.lxor_0_r.
Qed.

Lemma enc_round_ok (v : Aes.words) : words_ok (Aes.enc_round v).
Proof.
  destruct v as [[[a b] c] d]. unfold Aes.enc_round, words_ok.
  repeat split; apply xor4_word_ok;
    first [apply ft1_ok | apply ft2_ok | apply ft3_ok | apply ft4_ok].
Qed.

Lemma dec_round_ok (v : Aes.words) : words_ok (Aes.dec_round v).
Proof.
  destruct v as [[[a b] c] d]. unfold Aes.dec_round, words_ok.
  repeat split; apply xor4_word_ok;
    first [apply rt1_ok | apply rt2_ok | apply rt3_ok | apply rt4_ok].
Qed.

Lemma enc_final_ok (v : Aes.words) : words_ok (Aes.enc_final v).
Proof.
  destruct v as [[[a b] c] d]. unfold Aes.enc_final, words_ok.
  repeat split; apply pack_word_ok.
Qed.

Lemma dec_final_ok (v : Aes.words) : words_ok (Aes.dec_final v).
Proof.
  destruct v as [[[a b] c] d]. unfold Aes.dec_final, words_ok.
  repeat split; apply pack_word_ok.
Qed.

Lemma inv_mix4_ok (v : Aes.words) : words_ok (inv_mix4 v).
Proof.
  destruct v as [[[a b] c] d]. unfold inv_mix4, words_ok.
  repeat split; apply inv_mix_word_ok.
Qed.

Lemma inv_mix4_xorw (v k : Aes.words) :
  words_ok v -> words_ok k ->
  inv_mix4 (xorw v k) = xorw (inv_mix4 v) (inv_mix4 k).
Proof.
  destruct v as [[[a b] c] d], k as [[[ka kb] kc] kd].
  unfold words_ok, xorw, inv_mix4.
  intros (? & ? & ? & ?) (? & ? & ? & ?).
  now rewrite !inv_mix_lxor.
Qed.

Ltac macro_facts w :=
  let H0 := fresh in let H1 := fresh in let H2 := fresh in let H3 := fresh in
  destruct (byte_macros_ok w) as (H0 & H1 & H2 & H3).

(** The decryption round, fed the output of the last encryption step,
    yields the inverse mix columns of what that step was given. *)
Lemma dec_round_enc_final (x : Aes.words) :
  Aes.dec_round (Aes.enc_final x) = inv_mix4 x.
Proof.
  destruct x as [[[a b] c] d].
  macro_facts a. macro_facts b. macro_facts c. macro_facts d.
  unfold Aes.enc_final, Aes.dec_round, inv_mix4, inv_mix.
  fold (sub_byte (Aes.MTPZ_ENCRYPTIONLOBYTE a)) (sub_byte (Aes.MTPZ_ENCRYPTIONLOBYTE b))
       (sub_byte (Aes.MTPZ_ENCRYPTIONLOBYTE c)) (sub_byte (Aes.MTPZ_ENCRYPTIONLOBYTE d))
       (sub_byte (Aes.MTPZ_ENCRYPTIONBYTE1 a)) (sub_byte (Aes.MTPZ_ENCRYPTIONBYTE1 b))
       (sub_byte (Aes.MTPZ_ENCRYPTIONBYTE1 c)) (sub_byte (Aes.MTPZ_ENCRYPTIONBYTE1 d))
       (sub_byte (Aes.MTPZ_ENCRYPTIONBYTE2 a)) (sub_byte (Aes.MTPZ_ENCRYPTIONBYTE2 b))
       (sub_byte (Aes.MTPZ_ENCRYPTIONBYTE2 c)) (sub_byte (Aes.MTPZ_ENCRYPTIONBYTE2 d))
       (sub_byte (Aes.MTPZ_ENCRYPTIONBYTE3 a)) (sub_byte (Aes.MTPZ_ENCRYPTIONBYTE3 b))
       (sub_byte (Aes.MTPZ_ENCRYPTIONBYTE3 c)) (sub_byte (Aes.MTPZ_ENCRYPTIONBYTE3 d)).
  repeat match goal with
         | |- context [Aes.pack ?p ?q ?r ?s] =>
             let H := fresh in
             pose proof (macros_pack p q r s (sub_byte_ok _) (sub_byte_ok _)
                           (sub_byte_ok _) (sub_byte_ok _)) as H;
             destruct H as (-> & -> & -> & ->)
         end.
  rewrite !dec_word by assumption. reflexivity.
Qed.

(** Inverse mix columns turns the encryption round into the last
    encryption step. *)
Lemma inv_mix4_enc_round (x : Aes.words) :
  inv_mix4 (Aes.enc_round x) = Aes.enc_final x.
Proof.
  destruct x as [[[a b] c] d].
  macro_facts a. macro_facts b. macro_facts c. macro_facts d.
  unfold Aes.enc_final, Aes.enc_round, inv_mix4.
  rewrite !enc_word by assumption. reflexivity.
Qed.

(** The last decryption step undoes the last encryption step. *)
Lemma dec_final_enc_final (x : Aes.words) :
  words_ok x -> Aes.dec_final (Aes.enc_final x) = x.
Proof.
  destruct x as [[[a b] c] d]. intros (Ha & Hb & Hc & Hd).
  macro_facts a. macro_facts b. macro_facts c. macro_facts d.
  unfold Aes.enc_final, Aes.dec_final.
  fold (sub_byte (Aes.MTPZ_ENCRYPTIONLOBYTE a)) (sub_byte (Aes.MTPZ_ENCRYPTIONLOBYTE b))
       (sub_byte (Aes.MTPZ_ENCRYPTIONLOBYTE c)) (sub_byte (Aes.MTPZ_ENCRYPTIONLOBYTE d))
       (sub_byte (Aes.MTPZ_ENCRYPTIONBYTE1 a)) (sub_byte (Aes.MTPZ_ENCRYPTIONBYTE1 b))
       (sub_byte (Aes.MTPZ_ENCRYPTIONBYTE1 c)) (sub_byte (Aes.MTPZ_ENCRYPTIONBYTE1 d))
       (sub_byte (Aes.MTPZ_ENCRYPTIONBYTE2 a)) (sub_byte (Aes.MTPZ_ENCRYPTIONBYTE2 b))
       (sub_byte (Aes.MTPZ_ENCRYPTIONBYTE2 c)) (sub_byte (Aes.MTPZ_ENCRYPTIONBYTE2 d))
       (sub_byte (Aes.MTPZ_ENCRYPTIONBYTE3 a)) (sub_byte (Aes.MTPZ_ENCRYPTIONBYTE3 b))
       (sub_byte (Aes.MTPZ_ENCRYPTIONBYTE3 c)) (sub_byte (Aes.MTPZ_ENCRYPTIONBYTE3 d)).
  repeat match goal with
         | |- context [Aes.tbl mtpz_aes_invsbox (?m (Aes.pack ?p ?q ?r ?s))] =>
             let H := fresh in
             pose proof (macros_pack p q r s (sub_byte_ok _) (sub_byte_ok _)
                           (sub_byte_ok _) (sub_byte_ok _)) as H;
             destruct H as (-> & -> & -> & ->)
         end.
  rewrite !invsbox_sub_byte by assumption.
  rewrite !pack_be by assumption.
  now rewrite <- !be_of_bytes.
Qed.

(** Undoing one middle round: the decryption round on the state after
    round key [k], then the transformed key, gives back the state the
    last-step form of the previous round. *)
Lemma round_undone (x k : Aes.words) :
  words_ok k ->
  xorw (Aes.dec_round (Aes.enc_final (xorw (Aes.enc_round x) k))) (inv_mix4 k)
  = Aes.enc_final x.
Proof.
  intros Hk. rewrite dec_round_enc_final.
  rewrite inv_mix4_xorw by (auto using enc_round_ok).
  now rewrite xorw_cancel, inv_mix4_enc_round.
Qed.

(** ** AES: ten rounds against their inverse *)

Lemma enc_rounds_snoc (n : nat) (rk : nat -> Aes.words) (i : nat) (v : Aes.words) :
  enc_rounds (S n) rk i v
  = Aes.enc_round (xorw (enc_rounds n rk i v) (rk (i + n)%nat)).
Proof.
  revert i v. induction n as [| n IH]; intros i v.
  - cbn. now rewrite Nat.add_0_r.
  - change (enc_rounds (S (S n)) rk i v)
      with (enc_rounds (S n) rk (S i) (Aes.enc_round (xorw v (rk i)))).
    rewrite IH. cbn [enc_rounds]. do 3 f_equal. lia.
Qed.

Section Core.

Variables rk dk : nat -> Aes.words.
Hypothesis rk_ok : forall i, words_ok (rk i).
Hypothesis dk_mid : forall i, (1 <= i <= 9)%nat -> dk i = inv_mix4 (rk i).
Hypothesis dk_first : dk 0%nat = rk 0%nat.
Hypothesis dk_last : dk 10%nat = rk 10%nat.

Lemma dec_rounds_undo (x : Aes.words) (n : nat) :
  (n <= 9)%nat ->
  forall t,
  xorw t (dk (S n)) = Aes.enc_final (xorw (enc_rounds n rk 0 x) (rk n)) ->
  xorw (dec_rounds n dk (S n) t) (dk 1%nat) = Aes.enc_final (xorw x (rk 0%nat)).
Proof.
  induction n as [| n IH]; intros Hn t Ht.
  - exact Ht.
  - cbn [dec_rounds]. replace (S (S n) - 1)%nat with (S n) by lia.
    apply IH; [lia |].
    rewrite Ht, enc_rounds_snoc, Nat.add_0_l.
    rewrite (dk_mid (S n)) by lia.
    apply round_undone, rk_ok.
Qed.

Lemma dec_core_enc_core (x : Aes.words) :
  words_ok x -> dec_core dk (enc_core rk x) = x.
Proof.
  intros Hx. unfold dec_core.
  rewrite (dec_rounds_undo x 9).
  - rewrite dec_final_enc_final by (apply xorw_ok; auto).
    rewrite dk_first. apply xorw_cancel.
  - lia.
  - unfold enc_core. rewrite dk_last. apply xorw_cancel.
Qed.

End Core.

(** *** The block functions of the code are these ten rounds *)

Lemma add_round_key_xorw (expanded : list Z) (p : nat) (v : Aes.words) :
  Aes.add_round_key expanded (Z.of_nat (4 * p)) v
  = xorw v (Aes.load_words expanded (4 * p)).
Proof.
  destruct v as [[[a b] c] d]. unfold Aes.add_round_key, xorw, Aes.load_words.
  replace (4 * Z.to_nat ((Z.of_nat (4 * p) + 0) / 4))%nat with (4 * p)%nat
    by (rewrite Z.add_0_r, Nat2Z.inj_mul, Z.mul_comm, Z.div_mul by lia; lia).
  replace (4 * Z.to_nat ((Z.of_nat (4 * p) + 4) / 4))%nat with (4 * p + 4)%nat.
  2:{ replace (Z.of_nat (4 * p) + 4) with ((Z.of_nat p + 1) * 4) by lia.
      rewrite Z.div_mul by lia. lia. }
  replace (4 * Z.to_nat ((Z.of_nat (4 * p) + 8) / 4))%nat with (4 * p + 8)%nat.
  2:{ replace (Z.of_nat (4 * p) + 8) with ((Z.of_nat p + 2) * 4) by lia.
      rewrite Z.div_mul by lia. lia. }
  replace (4 * Z.to_nat ((Z.of_nat (4 * p) + 12) / 4))%nat with (4 * p + 12)%nat.
  2:{ replace (Z.of_nat (4 * p) + 12) with ((Z.of_nat p + 3) * 4) by lia.
      rewrite Z.div_mul by lia. lia. }
  reflexivity.
Qed.

Lemma add_enc_key (expanded : list Z) (i : nat) (v : Aes.words) :
  Aes.add_round_key expanded (4 + 16 * Z.of_nat i) v = xorw v (enc_key expanded i).
Proof.
  replace (4 + 16 * Z.of_nat i) with (Z.of_nat (4 * (1 + 4 * i))) by lia.
  rewrite add_round_key_xorw. unfold enc_key. do 2 f_equal. lia.
Qed.

Lemma add_dec_key (expanded : list Z) (i : nat) (v : Aes.words) :
  Aes.add_round_key expanded (180 + 16 * Z.of_nat i) v = xorw v (dec_key expanded i).
Proof.
  replace (180 + 16 * Z.of_nat i) with (Z.of_nat (4 * (45 + 4 * i))) by lia.
  rewrite add_round_key_xorw. unfold dec_key. do 2 f_equal. lia.
Qed.

Lemma enc_loop_rounds (expanded : list Z) (n i : nat) (v : Aes.words) :
  Aes.enc_loop n expanded (4 + 16 * Z.of_nat i) v
  = (enc_rounds n (enc_key expanded) i v, 4 + 16 * Z.of_nat (i + n)).
Proof.
  revert i v. induction n as [| n IH]; intros i v; cbn [Aes.enc_loop enc_rounds].
  - now rewrite Nat.add_0_r.
  - rewrite add_enc_key.
    replace (4 + 16 * Z.of_nat i + 16) with (4 + 16 * Z.of_nat (S i)) by lia.
    rewrite IH. do 2 f_equal. lia.
Qed.

Lemma dec_loop_rounds (expanded : list Z) (n i : nat) (v : Aes.words) :
  (n <= i)%nat ->
  Aes.dec_loop n expanded (180 + 16 * Z.of_nat i) v
  = (dec_rounds n (dec_key expanded) i v, 180 + 16 * Z.of_nat (i - n)).
Proof.
  revert i v. induction n as [| n IH]; intros i v Hi; cbn [Aes.dec_loop dec_rounds].
  - now rewrite Nat.sub_0_r.
  - rewrite add_dec_key.
    replace (180 + 16 * Z.of_nat i - 16) with (180 + 16 * Z.of_nat (i - 1)) by lia.
    rewrite IH by lia. do 2 f_equal. lia.
Qed.

Lemma encrypt_custom_core (data : list Z) (off : nat) (seed : option (list Z))
    (expanded : list Z) :
  Aes.mtpz_encryption_encrypt_custom data off seed expanded
  = Aes.store_words data off
      (enc_core (enc_key expanded) (seed_words data off seed)).
Proof.
  unfold Aes.mtpz_encryption_encrypt_custom. fold (seed_words data off seed).
  change 0x04 with (4 + 16 * Z.of_nat 0). rewrite add_enc_key.
  replace (4 + 16 * Z.of_nat 0 + 16) with (4 + 16 * Z.of_nat 1) by lia.
  rewrite enc_loop_rounds. cbn [Nat.add].
  rewrite add_enc_key.
  replace (4 + 16 * Z.of_nat 9 + 16) with (4 + 16 * Z.of_nat 10) by lia.
  rewrite add_enc_key. reflexivity.
Qed.

Lemma decrypt_custom_core (data : list Z) (off : nat) (seed : option (list Z))
    (expanded : list Z) :
  Aes.mtpz_encryption_decrypt_custom data off seed expanded
  = Aes.store_words data off
      (dec_core (dec_key expanded) (seed_words data off seed)).
Proof.
  unfold Aes.mtpz_encryption_decrypt_custom. fold (seed_words data off seed).
  change (0xB4 + 0xA0) with (180 + 16 * Z.of_nat 10). rewrite add_dec_key.
  replace (180 + 16 * Z.of_nat 10 - 16) with (180 + 16 * Z.of_nat 9) by lia.
  rewrite dec_loop_rounds by lia. cbn [Nat.sub].
  rewrite add_dec_key.
  replace (180 + 16 * Z.of_nat 1 - 16) with (180 + 16 * Z.of_nat 0) by lia.
  rewrite add_dec_key. reflexivity.
Qed.

(** ** AES: the expanded schedule of a 16-byte key *)

Lemma bytes_ok_insert (buf : list Z) (i : nat) (x : Z) :
  bytes_ok buf -> byte_ok x -> bytes_ok (<[i := x]> buf).
Proof. intros Hb Hx. now apply Forall_insert. Qed.

Lemma bytes_ok_zeros (n : nat) : bytes_ok (zeros n).
Proof. apply Forall_forall. intros x Hx. apply list_elem_of_In, repeat_spec in Hx. subst. unfold byte_ok. lia. Qed.

Lemma bytes_ok_copy_bytes (n : nat) (dst : list Z) (doff : nat) (src : list Z)
    (soff : nat) :
  bytes_ok dst -> bytes_ok src -> bytes_ok (copy_bytes n dst doff src soff).
Proof.
  revert dst doff soff. induction n as [| n IH]; intros dst doff soff Hd Hs;
    cbn [copy_bytes]; [exact Hd |].
  apply IH; [| exact Hs]. apply bytes_ok_insert; [exact Hd |].
  now apply getb_byte_ok.
Qed.

Lemma bytes_ok_store32 (buf : list Z) (p : nat) (w : Z) :
  bytes_ok buf -> bytes_ok (store32 buf p w).
Proof.
  intros H. unfold store32. repeat apply bytes_ok_insert; try exact H;
    apply u8_range.
Qed.

Lemma land_ff_ok (x : Z) : byte_ok (Z.land x 0xFF).
Proof.
  change 0xFF with (Z.ones 8). rewrite Z.land_ones by lia.
  apply Z.mod_pos_bound. lia.
Qed.

Lemma schedule_step_ok (key_len : nat) (key : list Z) (i rcon_i : nat) :
  bytes_ok key ->
  bytes_ok (fst (Aes.schedule_step key_len key i rcon_i))
  /\ length (fst (Aes.schedule_step key_len key i rcon_i)) = length key.
Proof.
  intros H. unfold Aes.schedule_step.
  destruct (if (i mod key_len =? 0)%nat then _ else _) as [temp r].
  cbn [fst]. split.
  - repeat apply bytes_ok_insert; try exact H; apply land_ff_ok.
  - now rewrite !length_insert.
Qed.

Lemma schedule_loop_ok (n key_len : nat) (key : list Z) (i rcon_i : nat) :
  bytes_ok key ->
  bytes_ok (Aes.schedule_loop n key_len key i rcon_i)
  /\ length (Aes.schedule_loop n key_len key i rcon_i) = length key.
Proof.
  revert key i rcon_i. induction n as [| n IH]; intros key i rcon_i H;
    cbn [Aes.schedule_loop]; [now split |].
  destruct (schedule_step_ok key_len key i rcon_i H) as [Hb Hl].
  destruct (Aes.schedule_step key_len key i rcon_i) as [key' r'].
  cbn [fst] in *. destruct (IH key' (i + 4)%nat r' Hb) as [Hb' Hl'].
  split; [exact Hb' | congruence].
Qed.

Lemma expand_key_inner_16 (k : list Z) :
  bytes_ok k ->
  bytes_ok (Aes.mtpz_encryption_expand_key_inner k 16)
  /\ length (Aes.mtpz_encryption_expand_key_inner k 16) = 176%nat.
Proof.
  intros Hk. unfold Aes.mtpz_encryption_expand_key_inner.
  change (Z.to_nat 16) with 16%nat.
  change (16 * (10 + 1))%nat with 176%nat.
  destruct (schedule_loop_ok ((176 - 16) / 4) 16
              (copy_bytes 16 (zeros 176) 0 k 0) 16 0) as [Hb Hl].
  - apply bytes_ok_copy_bytes; [apply bytes_ok_zeros | exact Hk].
  - split; [exact Hb |]. rewrite Hl. len.
Qed.

Lemma inv_mix_word_load (e : list Z) (p : nat) :
  bytes_ok e ->
  Aes.inv_mix_word e p = MTPZ_SWAP (inv_mix (MTPZ_SWAP (load32 e p))).
Proof.
  intros He. unfold Aes.inv_mix_word, inv_mix. rewrite swap_load32 by exact He.
  destruct (bytes_of_be (getb e p) (getb e (p + 1)) (getb e (p + 2)) (getb e (p + 3)))
    as (-> & -> & -> & ->); auto using getb_byte_ok.
Qed.

Lemma load_store_swapped (buf : list Z) (p : nat) (w : Z) :
  (p + 4 <= length buf)%nat -> word_ok w ->
  MTPZ_SWAP (load32 (store32 buf p (MTPZ_SWAP w)) p) = w.
Proof.
  intros Hp Hw. rewrite load32_store32_same by exact Hp.
  rewrite u32_small by apply swap_word_ok. now apply swap_swap.
Qed.

Lemma length_inv_mix_step (e : list Z) (o : nat) :
  length (Aes.inv_mix_step e o) = length e.
Proof. unfold Aes.inv_mix_step. now rewrite !length_store32. Qed.

Lemma bytes_ok_inv_mix_step (e : list Z) (o : nat) :
  bytes_ok e -> bytes_ok (Aes.inv_mix_step e o).
Proof. intros H. unfold Aes.inv_mix_step. now repeat apply bytes_ok_store32. Qed.

Lemma inv_mix_step_other (e : list Z) (o q : nat) :
  (q + 4 <= o + 16 \/ o + 32 <= q)%nat ->
  load32 (Aes.inv_mix_step e o) q = load32 e q.
Proof.
  intros H. unfold Aes.inv_mix_step.
  rewrite !load32_store32_other by lia. reflexivity.
Qed.

Lemma inv_mix_step_block (e : list Z) (o : nat) :
  bytes_ok e -> (o + 32 <= length e)%nat ->
  Aes.load_words (Aes.inv_mix_step e o) (o + 16)
  = inv_mix4 (Aes.load_words e (o + 16)).
Proof.
  intros He Hl. unfold Aes.inv_mix_step.
  rewrite (inv_mix_word_load e) by exact He.
  set (e1 := store32 e (o + 16) _).
  assert (H1 : bytes_ok e1) by now apply bytes_ok_store32.
  rewrite (inv_mix_word_load e1) by exact H1.
  set (e2 := store32 e1 (o + 20) _).
  assert (H2 : bytes_ok e2) by now apply bytes_ok_store32.
  rewrite (inv_mix_word_load e2) by exact H2.
  set (e3 := store32 e2 (o + 24) _).
  assert (H3 : bytes_ok e3) by now apply bytes_ok_store32.
  rewrite (inv_mix_word_load e3) by exact H3.
  assert (L1 : length e1 = length e) by apply length_store32.
  assert (L2 : length e2 = length e) by (unfold e2; now rewrite length_store32).
  assert (L3 : length e3 = length e) by (unfold e3; now rewrite length_store32).
  unfold Aes.load_words, inv_mix4.
  replace (o + 16 + 4)%nat with (o + 20)%nat by lia.
  replace (o + 16 + 8)%nat with (o + 24)%nat by lia.
  replace (o + 16 + 12)%nat with (o + 28)%nat by lia.
  f_equal; [f_equal; [f_equal |] |].
  - rewrite (load32_store32_other _ (o + 28) (o + 16)) by lia. unfold e3.
    rewrite (load32_store32_other _ (o + 24) (o + 16)) by lia. unfold e2.
    rewrite (load32_store32_other _ (o + 20) (o + 16)) by lia. unfold e1.
    apply load_store_swapped; [lia | apply inv_mix_word_ok].
  - rewrite (load32_store32_other _ (o + 28) (o + 20)) by lia. unfold e3.
    rewrite (load32_store32_other _ (o + 24) (o + 20)) by lia. unfold e2.
    rewrite load_store_swapped by (try apply inv_mix_word_ok; lia).
    unfold e1. now rewrite (load32_store32_other _ (o + 16) (o + 20)) by lia.
  - rewrite (load32_store32_other _ (o + 28) (o + 24)) by lia. unfold e3.
    rewrite load_store_swapped by (try apply inv_mix_word_ok; lia).
    unfold e2. rewrite (load32_store32_other _ (o + 20) (o + 24)) by lia.
    unfold e1. now rewrite (load32_store32_other _ (o + 16) (o + 24)) by lia.
  - rewrite load_store_swapped by (try apply inv_mix_word_ok; lia).
    unfold e3. rewrite (load32_store32_other _ (o + 24) (o + 28)) by lia.
    unfold e2. rewrite (load32_store32_other _ (o + 20) (o + 28)) by lia.
    unfold e1. now rewrite (load32_store32_other _ (o + 16) (o + 28)) by lia.
Qed.

Lemma load_words_ext (a b : list Z) (p q : nat) :
  (forall k, (k <= 12)%nat -> load32 a (p + k) = load32 b (q + k)) ->
  Aes.load_words a p = Aes.load_words b q.
Proof.
  intros H. unfold Aes.load_words.
  rewrite <- (Nat.add_0_r p) at 1. rewrite <- (Nat.add_0_r q) at 1.
  rewrite !H by lia. reflexivity.
Qed.

Lemma inv_mix_loop_spec (n : nat) :
  forall (e : list Z) (o : nat),
  bytes_ok e -> (o + 16 + 16 * n <= length e)%nat ->
  (forall i, (i < n)%nat ->
     Aes.load_words (Aes.inv_mix_loop n e o) (o + 16 + 16 * i)
     = inv_mix4 (Aes.load_words e (o + 16 + 16 * i)))
  /\ (forall q, (q + 4 <= o + 16 \/ o + 16 + 16 * n <= q)%nat ->
        load32 (Aes.inv_mix_loop n e o) q = load32 e q).
Proof.
  induction n as [| n IH]; intros e o He Hl; cbn [Aes.inv_mix_loop].
  - split; [intros i Hi; lia | reflexivity].
  - destruct (IH (Aes.inv_mix_step e o) (o + 16)%nat) as [IHb IHo].
    { now apply bytes_ok_inv_mix_step. }
    { rewrite length_inv_mix_step. lia. }
    split.
    + intros [| i] Hi.
      * rewrite Nat.mul_0_r, Nat.add_0_r.
        rewrite <- inv_mix_step_block by (try exact He; lia).
        apply load_words_ext. intros k Hk. apply IHo. lia.
      * replace (o + 16 + 16 * S i)%nat with (o + 16 + 16 + 16 * i)%nat by lia.
        rewrite IHb by lia. f_equal.
        apply load_words_ext. intros k Hk. apply inv_mix_step_other. lia.
    + intros q Hq. rewrite IHo by lia. apply inv_mix_step_other. lia.
Qed.

Lemma load_words_ok (buf : list Z) (p : nat) : words_ok (Aes.load_words buf p).
Proof. unfold Aes.load_words, words_ok. repeat split; apply swap_word_ok. Qed.

Lemma expand_key_16_ok (k : list Z) :
  bytes_ok k -> schedule_ok (Aes.mtpz_encryption_expand_key k 16 10).
Proof.
  intros Hk. destruct (expand_key_inner_16 k Hk) as [Hib Hil].
  unfold Aes.mtpz_encryption_expand_key.
  set (inner := Aes.mtpz_encryption_expand_key_inner k 16) in *.
  clearbody inner. rewrite Hil. cbv zeta.
  change (Z.to_nat 180) with 180%nat.
  unfold Aes.mtpz_encryption_inv_mix_columns. change (Z.to_nat (10 - 1)) with 9%nat.
  set (B := copy_bytes 176 (copy_bytes 176 _ 4 inner 0) (4 + 176) inner 0).
  assert (HB : bytes_ok B).
  { unfold B.
    apply bytes_ok_copy_bytes; [apply bytes_ok_copy_bytes | exact Hib];
      [| exact Hib].
    apply bytes_ok_insert; [apply bytes_ok_zeros | apply u8_range]. }
  assert (LB : length B = 484%nat) by (unfold B; len).
  assert (Hcopy : forall j, (j + 4 <= 176)%nat ->
            load32 B (180 + j) = load32 B (4 + j)).
  { intros j Hj. unfold load32, B. getb_norm. split_cases. }
  destruct (inv_mix_loop_spec 9 B 180 HB ltac:(lia)) as [Hin Hout].
  unfold schedule_ok, dec_key, enc_key. split; [| split; [| split]].
  - apply load_words_ext. intros j Hj.
    rewrite !Hout by lia. rewrite Nat.mul_0_r, !Nat.add_0_r.
    apply (Hcopy j). lia.
  - apply load_words_ext. intros j Hj.
    rewrite !Hout by lia.
    replace (180 + 16 * 10 + j)%nat with (180 + (160 + j))%nat by lia.
    rewrite Hcopy by lia. f_equal; lia.
  - intros i Hi.
    replace (180 + 16 * i)%nat with (180 + 16 + 16 * (i - 1))%nat by lia.
    rewrite Hin by lia. f_equal.
    apply load_words_ext. intros j Hj.
    rewrite Hout by lia.
    replace (180 + 16 + 16 * (i - 1) + j)%nat with (180 + (16 * i + j))%nat by lia.
    rewrite Hcopy by lia. f_equal; lia.
  - intros i. apply load_words_ok.
Qed.

(** ** AES: blocks in memory *)

Lemma length_words_bytes (v : Aes.words) : length (words_bytes v) = 16%nat.
Proof. destruct v as [[[a b] c] d]. reflexivity. Qed.

Lemma length_store_words (buf : list Z) (off : nat) (v : Aes.words) :
  length (Aes.store_words buf off v) = length buf.
Proof.
  destruct v as [[[a b] c] d]. unfold Aes.store_words.
  now rewrite !length_store32.
Qed.

Lemma store32_swap_bytes (buf : list Z) (p : nat) (w : Z) :
  (p + 4 <= length buf)%nat -> word_ok w ->
  store32 buf p (MTPZ_SWAP w) = take p buf ++ word_bytes w ++ drop (p + 4) buf.
Proof.
  intros Hp Hw. destruct (byte_of_swap w Hw) as (E0 & E1 & E2 & E3).
  unfold word_bytes. apply buf_ext.
  - len.
  - intros j Hj. rewrite length_store32 in Hj.
    rewrite getb_store32_in by lia.
    getb_norm. len_norm. cbn [length].
    repeat (case_decide; try lia);
      repeat match goal with H : _ /\ _ |- _ => destruct H end; subst;
      try (f_equal; lia).
    + replace (j - p)%nat with 0%nat by lia. exact E0.
    + replace (j - p)%nat with 1%nat by lia. exact E1.
    + replace (j - p)%nat with 2%nat by lia. exact E2.
    + replace (j - p)%nat with 3%nat by lia. exact E3.
Qed.

Lemma store32_swap_mid (pre x post : list Z) (p : nat) (w : Z) :
  length pre = p -> length x = 4%nat -> word_ok w ->
  store32 (pre ++ x ++ post) p (MTPZ_SWAP w) = pre ++ word_bytes w ++ post.
Proof.
  intros Hp Hx Hw. rewrite store32_swap_bytes by (try assumption; len).
  subst p. rewrite take_app_length. do 2 f_equal.
  rewrite app_assoc. apply drop_app_length'. len.
Qed.

Lemma split_block (buf : list Z) (off : nat) :
  (off + 16 <= length buf)%nat ->
  exists x1 x2 x3 x4,
    buf = take off buf ++ x1 ++ x2 ++ x3 ++ x4 ++ drop (off + 16) buf
    /\ length x1 = 4%nat /\ length x2 = 4%nat /\ length x3 = 4%nat
    /\ length x4 = 4%nat
    /\ take 16 (drop off buf) = x1 ++ x2 ++ x3 ++ x4.
Proof.
  intros H. set (r := drop off buf).
  exists (take 4 r), (take 4 (drop 4 r)), (take 4 (drop 8 r)),
    (take 4 (drop 12 r)).
  assert (Hr : (16 <= length r)%nat) by (unfold r; len).
  assert (E : take 16 r
              = take 4 r ++ take 4 (drop 4 r) ++ take 4 (drop 8 r)
                ++ take 4 (drop 12 r)).
  { rewrite <- (take_drop 4 r) at 1. rewrite take_app_ge by len.
    rewrite length_take_le by lia. f_equal. change (16 - 4)%nat with 12%nat.
    rewrite <- (take_drop 4 (drop 4 r)) at 1. rewrite take_app_ge by len.
    rewrite length_take_le by len. f_equal. change (12 - 4)%nat with 8%nat.
    rewrite drop_drop. change (4 + 4)%nat with 8%nat.
    rewrite <- (take_drop 4 (drop 8 r)) at 1. rewrite take_app_ge by len.
    rewrite length_take_le by len. f_equal. change (8 - 4)%nat with 4%nat.
    rewrite drop_drop. change (8 + 4)%nat with 12%nat. reflexivity. }
  split; [| repeat split; try (rewrite length_take_le; len); exact E].
  rewrite <- (take_drop off buf) at 1. f_equal. fold r.
  rewrite <- (take_drop 16 r) at 1. rewrite E. rewrite <- !app_assoc.
  do 4 f_equal. unfold r. rewrite drop_drop. f_equal.
Qed.

Lemma store_words_bytes (buf : list Z) (off : nat) (v : Aes.words) :
  (off + 16 <= length buf)%nat -> words_ok v ->
  Aes.store_words buf off v
  = take off buf ++ words_bytes v ++ drop (off + 16) buf.
Proof.
  destruct v as [[[a b] c] d]. intros Hl (Ha & Hb & Hc & Hd).
  destruct (split_block buf off Hl)
    as (x1 & x2 & x3 & x4 & E & H1 & H2 & H3 & H4 & _).
  assert (Hpre : length (take off buf) = off) by (rewrite length_take_le; lia).
  set (pre := take off buf) in *. set (post := drop (off + 16) buf) in *.
  clearbody pre post. subst buf.
  unfold Aes.store_words, words_bytes.
  rewrite (store32_swap_mid pre x1 _ off a) by assumption.
  rewrite (app_assoc pre (word_bytes a)).
  rewrite (store32_swap_mid (pre ++ word_bytes a) x2 _ (off + 4) b)
    by (try assumption; unfold word_bytes; len).
  rewrite (app_assoc (pre ++ word_bytes a) (word_bytes b)).
  rewrite (store32_swap_mid _ x3 _ (off + 8) c)
    by (try assumption; unfold word_bytes; len).
  rewrite (app_assoc _ (word_bytes c)).
  rewrite (store32_swap_mid _ x4 _ (off + 12) d)
    by (try assumption; unfold word_bytes; len).
  now rewrite <- !app_assoc.
Qed.

Lemma load32_app_skip (pre l : list Z) (p k : nat) :
  length pre = p -> load32 (pre ++ l) (p + k) = load32 l k.
Proof.
  intros <-. unfold load32. rewrite !getb_app.
  repeat (case_decide; try lia).
  repeat f_equal; lia.
Qed.

Lemma swap_load32_cons (a b c d : Z) (l : list Z) :
  byte_ok a -> byte_ok b -> byte_ok c -> byte_ok d ->
  MTPZ_SWAP (load32 (a :: b :: c :: d :: l) 0) = be a b c d.
Proof.
  intros Ha Hb Hc Hd.
  change (load32 (a :: b :: c :: d :: l) 0) with (load32 [a; b; c; d] 0).
  rewrite swap_load32. { reflexivity. }
  unfold bytes_ok. repeat (apply Forall_cons; split; [assumption |]).
  apply Forall_nil_2.
Qed.

Lemma swap_load32_word_bytes (w : Z) (l : list Z) :
  word_ok w -> MTPZ_SWAP (load32 (word_bytes w ++ l) 0) = w.
Proof.
  intros Hw. destruct (byte_macros_ok w) as (H0 & H1 & H2 & H3).
  unfold word_bytes. cbn [app]. rewrite swap_load32_cons by assumption.
  symmetry. now apply be_of_bytes.
Qed.

Lemma load_words_bytes (pre post : list Z) (off : nat) (v : Aes.words) :
  length pre = off -> words_ok v ->
  Aes.load_words (pre ++ words_bytes v ++ post) off = v.
Proof.
  destruct v as [[[a b] c] d]. intros Hp (Ha & Hb & Hc & Hd).
  unfold Aes.load_words, words_bytes.
  rewrite <- (Nat.add_0_r off) at 1.
  rewrite !(load32_app_skip pre _ off) by exact Hp.
  rewrite <- !app_assoc.
  rewrite swap_load32_word_bytes by assumption.
  rewrite (load32_app_skip (word_bytes a) _ 4 0) by reflexivity.
  rewrite swap_load32_word_bytes by assumption.
  rewrite (app_assoc (word_bytes a) (word_bytes b)).
  rewrite (load32_app_skip (word_bytes a ++ word_bytes b) _ 8 0) by reflexivity.
  rewrite swap_load32_word_bytes by assumption.
  rewrite (app_assoc (word_bytes a ++ word_bytes b) (word_bytes c)).
  rewrite (load32_app_skip _ _ 12 0) by reflexivity.
  rewrite swap_load32_word_bytes by assumption.
  reflexivity.
Qed.

Lemma four_bytes (x : list Z) :
  length x = 4%nat -> exists a b c d, x = [a; b; c; d].
Proof.
  destruct x as [| a [| b [| c [| d [| e x]]]]]; try discriminate.
  intros _. now exists a, b, c, d.
Qed.

Lemma word_bytes_be (a b c d : Z) :
  byte_ok a -> byte_ok b -> byte_ok c -> byte_ok d ->
  word_bytes (be a b c d) = [a; b; c; d].
Proof.
  intros Ha Hb Hc Hd. unfold word_bytes.
  destruct (bytes_of_be a b c d Ha Hb Hc Hd) as (-> & -> & -> & ->).
  reflexivity.
Qed.

Lemma bytes_ok_app (a b : list Z) : bytes_ok (a ++ b) <-> bytes_ok a /\ bytes_ok b.
Proof. unfold bytes_ok. apply Forall_app. Qed.

Lemma bytes_ok_four (a b c d : Z) :
  bytes_ok [a; b; c; d] -> byte_ok a /\ byte_ok b /\ byte_ok c /\ byte_ok d.
Proof.
  unfold bytes_ok. intros H.
  apply Forall_cons in H as [Ha H]. apply Forall_cons in H as [Hb H].
  apply Forall_cons in H as [Hc H]. apply Forall_cons in H as [Hd _].
  auto.
Qed.

Lemma words_bytes_load_words (src : list Z) (off : nat) :
  bytes_ok src -> (off + 16 <= length src)%nat ->
  words_bytes (Aes.load_words src off) = take 16 (drop off src).
Proof.
  intros Hb Hl.
  destruct (split_block src off Hl)
    as (x1 & x2 & x3 & x4 & E & H1 & H2 & H3 & H4 & ->).
  assert (Hpre : length (take off src) = off) by (rewrite length_take_le; lia).
  set (pre := take off src) in *. set (post := drop (off + 16) src) in *.
  clearbody pre post. subst src.
  apply bytes_ok_app in Hb as [_ Hb]. apply bytes_ok_app in Hb as [B1 Hb].
  apply bytes_ok_app in Hb as [B2 Hb]. apply bytes_ok_app in Hb as [B3 Hb].
  apply bytes_ok_app in Hb as [B4 _].
  destruct (four_bytes x1 H1) as (a1 & b1 & c1 & d1 & ->).
  destruct (four_bytes x2 H2) as (a2 & b2 & c2 & d2 & ->).
  destruct (four_bytes x3 H3) as (a3 & b3 & c3 & d3 & ->).
  destruct (four_bytes x4 H4) as (a4 & b4 & c4 & d4 & ->).
  apply bytes_ok_four in B1 as (? & ? & ? & ?).
  apply bytes_ok_four in B2 as (? & ? & ? & ?).
  apply bytes_ok_four in B3 as (? & ? & ? & ?).
  apply bytes_ok_four in B4 as (? & ? & ? & ?).
  rewrite <- (word_bytes_be a1 b1 c1 d1) by assumption.
  rewrite <- (word_bytes_be a2 b2 c2 d2) by assumption.
  rewrite <- (word_bytes_be a3 b3 c3 d3) by assumption.
  rewrite <- (word_bytes_be a4 b4 c4 d4) by assumption.
  replace (word_bytes (be a1 b1 c1 d1) ++ word_bytes (be a2 b2 c2 d2)
           ++ word_bytes (be a3 b3 c3 d3) ++ word_bytes (be a4 b4 c4 d4)
           ++ post)
    with (words_bytes (be a1 b1 c1 d1, be a2 b2 c2 d2, be a3 b3 c3 d3,
                       be a4 b4 c4 d4) ++ post)
    by (unfold words_bytes; now rewrite <- !app_assoc).
  rewrite load_words_bytes.
  - reflexivity.
  - exact Hpre.
  - unfold words_ok. repeat split; now apply be_word_ok.
Qed.

Lemma bytes_ok_words_bytes (v : Aes.words) : bytes_ok (words_bytes v).
Proof.
  destruct v as [[[a b] c] d]. unfold words_bytes, word_bytes, bytes_ok.
  destruct (byte_macros_ok a) as (? & ? & ? & ?).
  destruct (byte_macros_ok b) as (? & ? & ? & ?).
  destruct (byte_macros_ok c) as (? & ? & ? & ?).
  destruct (byte_macros_ok d) as (? & ? & ? & ?).
  cbn [app]. repeat (apply Forall_cons; split; [assumption |]).
  apply Forall_nil_2.
Qed.

(** ** AES: one block, there and back *)

Lemma enc_core_ok (rk : nat -> Aes.words) (x : Aes.words) :
  words_ok (rk 10%nat) -> words_ok (enc_core rk x).
Proof. intros H. unfold enc_core. apply xorw_ok; [apply enc_final_ok | exact H]. Qed.

Lemma dec_core_ok (dk : nat -> Aes.words) (y : Aes.words) :
  words_ok (dk 0%nat) -> words_ok (dec_core dk y).
Proof. intros H. unfold dec_core. apply xorw_ok; [apply dec_final_ok | exact H]. Qed.

Lemma block_round_trip (expanded data : list Z) (off : nat) :
  schedule_ok expanded -> bytes_ok data -> (off + 16 <= length data)%nat ->
  Aes.mtpz_encryption_decrypt_custom
    (Aes.mtpz_encryption_encrypt_custom data off None expanded) off None
    expanded
  = data.
Proof.
  intros (K0 & K10 & Kmid & Kok) Hb Hl.
  rewrite decrypt_custom_core, encrypt_custom_core. unfold seed_words.
  set (x := Aes.load_words data off).
  assert (Hx : words_ok x) by apply load_words_ok.
  assert (Hy : words_ok (enc_core (enc_key expanded) x))
    by (apply enc_core_ok, Kok).
  rewrite (store_words_bytes data) by assumption.
  rewrite load_words_bytes by (try assumption; rewrite length_take_le; lia).
  rewrite dec_core_enc_core by assumption.
  rewrite store_words_bytes.
  - rewrite take_app_length' by (rewrite length_take_le; lia).
    rewrite (app_assoc (take off data) (words_bytes (enc_core _ _))).
    rewrite drop_app_length'
      by (rewrite length_app, length_take_le, length_words_bytes; lia).
    unfold x. rewrite words_bytes_load_words by assumption.
    rewrite <- (take_drop off data) at 4. f_equal.
    rewrite <- drop_drop. apply take_drop.
  - rewrite !length_app, length_take_le, length_words_bytes, length_drop; lia.
  - exact Hx.
Qed.

Lemma bytes_ok_check (l : list Z) : forallb in_byte_range l = true -> bytes_ok l.
Proof.
  unfold bytes_ok. induction l as [| x l IH]; cbn [forallb]; intros H.
  - apply Forall_nil_2.
  - apply andb_true_iff in H as [Hx Hl]. apply Forall_cons. split.
    + unfold in_byte_range in Hx. apply andb_true_iff in Hx as [H0 H1].
      unfold byte_ok. lia.
    + now apply IH.
Qed.

(** C6. For every 16-byte key and every 16-byte block, decrypting the
    encrypted block with [mtpz_encryption_decrypt_custom], over the
    schedule [mtpz_encryption_expand_key] makes for that key, gives the
    block back. *)
Theorem block_round_trip_128 (k b : list Z) :
  length k = 16%nat -> bytes_ok k -> length b = 16%nat -> bytes_ok b ->
  let expanded :=
    Aes.mtpz_encryption_expand_key k 16 (Aes.cipher_advanced_rounds 16) in
  Aes.mtpz_encryption_decrypt_custom
    (Aes.mtpz_encryption_encrypt_custom b 0 None expanded) 0 None expanded
  = b.
Proof.
  intros _ Hk Hl Hb expanded. apply block_round_trip.
  - apply expand_key_16_ok, Hk.
  - exact Hb.
  - rewrite Hl. lia.
Qed.

Lemma block_round_trip_128_witness :
  let expanded := Aes.mtpz_encryption_expand_key Samples.aes_key_128 16 10 in
  Aes.mtpz_encryption_decrypt_custom
    (Aes.mtpz_encryption_encrypt_custom Samples.aes_block 0 None expanded)
    0 None expanded
  = Samples.aes_block.
Proof.
  apply (block_round_trip_128 Samples.aes_key_128 Samples.aes_block);
    [reflexivity | apply bytes_ok_check; reflexivity
    | reflexivity | apply bytes_ok_check; reflexivity].
Defined.

(** With a 24-byte key the block functions still run ten rounds over
    the schedule offsets of a 16-byte key, and decryption does not give
    the block back. *)
Lemma block_round_trip_fails_for_24_byte_key :
  let expanded :=
    Aes.mtpz_encryption_expand_key Samples.aes_key_192 24
      (Aes.cipher_advanced_rounds 24) in
  Aes.mtpz_encryption_decrypt_custom
    (Aes.mtpz_encryption_encrypt_custom Samples.aes_block 0 None expanded)
    0 None expanded
  <> Samples.aes_block.
Proof. vm_compute. discriminate. Qed.

(** ** The chaining mode *)

Lemma copy_bytes_block (out done x rest : list Z) :
  length out = 16%nat -> length x = 16%nat ->
  copy_bytes 16 out 0 (done ++ x ++ rest) (length done) = x.
Proof.
  intros Ho Hx. apply buf_ext.
  - rewrite length_copy_bytes. lia.
  - intros j Hj. rewrite length_copy_bytes in Hj.
    rewrite getb_copy_bytes_in by lia.
    case_decide; [| lia].
    rewrite !getb_app. repeat (case_decide; try lia). f_equal. lia.
Qed.

Lemma swap_lxor (a b : Z) :
  word_ok a -> word_ok b ->
  MTPZ_SWAP (Z.lxor a b) = Z.lxor (MTPZ_SWAP a) (MTPZ_SWAP b).
Proof.
  intros Ha Hb.
  destruct (byte_macros_ok a) as (? & ? & ? & ?).
  destruct (byte_macros_ok b) as (? & ? & ? & ?).
  rewrite (be_of_bytes a Ha), (be_of_bytes b Hb).
  rewrite lxor_be by assumption.
  rewrite !swap_be by (try assumption; now apply lxor_byte_ok).
  now rewrite lxor_be.
Qed.

Lemma load32_word_bytes (w : Z) (l : list Z) :
  word_ok w -> load32 (word_bytes w ++ l) 0 = MTPZ_SWAP w.
Proof.
  intros Hw. destruct (byte_macros_ok w) as (H0 & H1 & H2 & H3).
  rewrite <- (swap_load32_word_bytes w l Hw) at 2.
  rewrite swap_swap; [reflexivity |].
  unfold word_bytes, load32, getb, word_ok. cbn [app nth Nat.add].
  unfold byte_ok in *. lia.
Qed.

Lemma xor_word_mid (pre post : list Z) (p : nat) (x v : Z) :
  length pre = p -> word_ok x -> word_ok v ->
  store32 (pre ++ word_bytes x ++ post) p
    (Z.lxor (load32 (pre ++ word_bytes x ++ post) p) (MTPZ_SWAP v))
  = pre ++ word_bytes (Z.lxor x v) ++ post.
Proof.
  intros Hp Hx Hv.
  rewrite <- (Nat.add_0_r p) at 2.
  rewrite (load32_app_skip pre _ p 0 Hp).
  rewrite load32_word_bytes by exact Hx.
  rewrite <- swap_lxor by assumption.
  apply store32_swap_mid; [exact Hp | reflexivity | now apply lxor_word_ok].
Qed.

Lemma xor_dtf_bytes (pre post : list Z) (w : nat) (x iv : Aes.words) :
  length pre = (4 * w)%nat -> words_ok x -> words_ok iv ->
  Aes.xor_dtf (pre ++ words_bytes x ++ post) w (words_list iv)
  = pre ++ words_bytes (xorw x iv) ++ post.
Proof.
  destruct x as [[[a b] c] d], iv as [[[a' b'] c'] d'].
  intros Hp (Ha & Hb & Hc & Hd) (Ha' & Hb' & Hc' & Hd').
  unfold Aes.xor_dtf, words_bytes, xorw, words_list. cbn [nth].
  rewrite <- !app_assoc.
  rewrite (xor_word_mid pre _ (4 * (w + 0)) a a') by (assumption || lia).
  rewrite (app_assoc pre (word_bytes (Z.lxor a a'))).
  rewrite (xor_word_mid _ _ (4 * (w + 1)) b b')
    by (try assumption; unfold word_bytes; len).
  rewrite (app_assoc _ (word_bytes (Z.lxor b b'))).
  rewrite (xor_word_mid _ _ (4 * (w + 2)) c c')
    by (try assumption; unfold word_bytes; len).
  rewrite (app_assoc _ (word_bytes (Z.lxor c c'))).
  rewrite (xor_word_mid _ _ (4 * (w + 3)) d d')
    by (try assumption; unfold word_bytes; len).
  now rewrite <- !app_assoc.
Qed.

Lemma load_dtf_words (buf : list Z) (w : nat) :
  Aes.load_dtf buf w = words_list (Aes.load_words buf (4 * w)).
Proof.
  unfold Aes.load_dtf, Aes.load_words, words_list. cbn [map seq].
  repeat f_equal; lia.
Qed.

Lemma xor_dtf_block (x iv : Aes.words) :
  words_ok x -> words_ok iv ->
  Aes.xor_dtf (words_bytes x) 0 (words_list iv) = words_bytes (xorw x iv).
Proof.
  intros Hx Hiv.
  pose proof (xor_dtf_bytes [] [] 0 x iv eq_refl Hx Hiv) as H.
  rewrite !app_nil_r in H. exact H.
Qed.

Lemma load_words_block (v : Aes.words) :
  words_ok v -> Aes.load_words (words_bytes v) 0 = v.
Proof.
  intros Hv. pose proof (load_words_bytes [] [] 0 v eq_refl Hv) as H.
  rewrite app_nil_r in H. exact H.
Qed.

Lemma store_words_mid (pre x post : list Z) (v : Aes.words) :
  length x = 16%nat -> words_ok v ->
  Aes.store_words (pre ++ x ++ post) (length pre) v
  = pre ++ words_bytes v ++ post.
Proof.
  intros Hx Hv. rewrite store_words_bytes by (try assumption; len).
  rewrite take_app_length. do 2 f_equal.
  rewrite app_assoc. apply drop_app_length'. len.
Qed.

Lemma word_index (w : nat) :
  Z.to_nat (Z.quot (Z.of_nat (4 * w)) 4) = w.
Proof.
  rewrite Z.quot_div_nonneg by lia.
  replace (Z.of_nat (4 * w)) with (Z.of_nat w * 4) by lia.
  rewrite Z.div_mul by lia. apply Nat2Z.id.
Qed.

Section Chaining.

Variable expanded : list Z.
Hypothesis keys_ok : forall i, words_ok (enc_key expanded i).
Hypothesis first_key_ok : words_ok (dec_key expanded 0).

Lemma cbc_step_encrypt (done rest out : list Z) (x iv : Aes.words) (w : nat)
    (count : Z) :
  length done = (4 * w)%nat -> length out = 16%nat ->
  words_ok x -> words_ok iv -> 16 <= count ->
  Aes.cbc_step true expanded
    (Aes.CbcState (done ++ words_bytes x ++ rest) (Z.of_nat (length done))
       count out (words_list iv))
  = let c := enc_core (enc_key expanded) (xorw x iv) in
    Aes.CbcState (done ++ words_bytes c ++ rest) (Z.of_nat (length done) + 16)
      (count - 16) (words_bytes (xorw x iv)) (words_list c).
Proof.
  intros Hd Ho Hx Hiv Hc. unfold Aes.cbc_step.
  replace (count <? 16) with false by (symmetry; apply Z.ltb_ge; lia).
  rewrite Nat2Z.id. change (Z.to_nat 16) with 16%nat.
  rewrite copy_bytes_block by (assumption || apply length_words_bytes).
  rewrite xor_dtf_block by assumption.
  rewrite encrypt_custom_core. unfold seed_words.
  rewrite load_words_block by now apply xorw_ok.
  assert (Hok : words_ok (enc_core (enc_key expanded) (xorw x iv)))
    by apply enc_core_ok, keys_ok.
  rewrite store_words_mid by (assumption || apply length_words_bytes).
  replace (Z.to_nat (Z.quot (Z.of_nat (length done)) 4)) with w
    by (rewrite Hd, word_index; reflexivity).
  rewrite load_dtf_words, <- Hd. rewrite load_words_bytes by (reflexivity || assumption).
  reflexivity.
Qed.

Lemma cbc_step_decrypt (done rest out : list Z) (c iv : Aes.words) (w : nat)
    (count : Z) :
  length done = (4 * w)%nat -> length out = 16%nat ->
  words_ok c -> words_ok iv -> 16 <= count ->
  Aes.cbc_step false expanded
    (Aes.CbcState (done ++ words_bytes c ++ rest) (Z.of_nat (length done))
       count out (words_list iv))
  = let x := xorw (dec_core (dec_key expanded) c) iv in
    Aes.CbcState (done ++ words_bytes x ++ rest) (Z.of_nat (length done) + 16)
      (count - 16) (words_bytes c) (words_list c).
Proof.
  intros Hd Ho Hx Hiv Hc. unfold Aes.cbc_step.
  replace (count <? 16) with false by (symmetry; apply Z.ltb_ge; lia).
  rewrite Nat2Z.id. change (Z.to_nat 16) with 16%nat.
  rewrite copy_bytes_block by (assumption || apply length_words_bytes).
  rewrite decrypt_custom_core. unfold seed_words.
  rewrite load_words_block by assumption.
  assert (Hok : words_ok (dec_core (dec_key expanded) c))
    by apply dec_core_ok, first_key_ok.
  rewrite store_words_mid by (assumption || apply length_words_bytes).
  replace (Z.to_nat (Z.quot (Z.of_nat (length done)) 4)) with w
    by (rewrite Hd, word_index; reflexivity).
  rewrite xor_dtf_bytes by assumption.
  rewrite load_dtf_words. change (4 * 0)%nat with 0%nat.
  rewrite load_words_block by assumption.
  reflexivity.
Qed.

Lemma cbc_loop_encrypt (xs : list Aes.words) :
  Forall words_ok xs ->
  forall (fuel : nat) (done out : list Z) (iv : Aes.words) (w : nat),
    length done = (4 * w)%nat -> length out = 16%nat -> words_ok iv ->
    (length xs <= fuel)%nat ->
    Aes.cbc_data
      (Aes.cbc_loop fuel true expanded
         (Aes.CbcState (done ++ flat_map words_bytes xs)
            (Z.of_nat (length done)) (16 * Z.of_nat (length xs)) out
            (words_list iv)))
    = done ++ flat_map words_bytes (cbc_enc_blocks (enc_key expanded) iv xs).
Proof.
  induction 1 as [| x r Hx Hr IH]; intros fuel done out iv w Hd Ho Hiv Hf.
  - destruct fuel; reflexivity.
  - destruct fuel as [| fuel]; [cbn [length] in Hf; lia |].
    cbn [Aes.cbc_loop Aes.cbc_count].
    replace (16 * Z.of_nat (length (x :: r)) =? 0) with false
      by (symmetry; apply Z.eqb_neq; cbn [length]; lia).
    cbn [flat_map].
    rewrite (cbc_step_encrypt done _ out x iv w) by (cbn [length]; lia || assumption).
    cbv zeta. set (c := enc_core (enc_key expanded) (xorw x iv)).
    cbn [cbc_enc_blocks]. fold c.
    rewrite (app_assoc done (words_bytes c)).
    replace (Z.of_nat (length done) + 16)
      with (Z.of_nat (length (done ++ words_bytes c)))
      by (rewrite length_app, length_words_bytes; lia).
    replace (16 * Z.of_nat (length (x :: r)) - 16)
      with (16 * Z.of_nat (length r)) by (cbn [length]; lia).
    rewrite (IH fuel _ _ c (w + 4)%nat).
    + cbn [flat_map]. now rewrite <- app_assoc.
    + rewrite length_app, length_words_bytes. lia.
    + apply length_words_bytes.
    + apply enc_core_ok, keys_ok.
    + cbn [length] in Hf. lia.
Qed.

Lemma cbc_loop_decrypt (cs : list Aes.words) :
  Forall words_ok cs ->
  forall (fuel : nat) (done out : list Z) (iv : Aes.words) (w : nat),
    length done = (4 * w)%nat -> length out = 16%nat -> words_ok iv ->
    (length cs <= fuel)%nat ->
    Aes.cbc_data
      (Aes.cbc_loop fuel false expanded
         (Aes.CbcState (done ++ flat_map words_bytes cs)
            (Z.of_nat (length done)) (16 * Z.of_nat (length cs)) out
            (words_list iv)))
    = done ++ flat_map words_bytes (cbc_dec_blocks (dec_key expanded) iv cs).
Proof.
  induction 1 as [| c r Hc Hr IH]; intros fuel done out iv w Hd Ho Hiv Hf.
  - destruct fuel; reflexivity.
  - destruct fuel as [| fuel]; [cbn [length] in Hf; lia |].
    cbn [Aes.cbc_loop Aes.cbc_count].
    replace (16 * Z.of_nat (length (c :: r)) =? 0) with false
      by (symmetry; apply Z.eqb_neq; cbn [length]; lia).
    cbn [flat_map].
    rewrite (cbc_step_decrypt done _ out c iv w) by (cbn [length]; lia || assumption).
    cbv zeta. set (x := xorw (dec_core (dec_key expanded) c) iv).
    cbn [cbc_dec_blocks]. fold x.
    rewrite (app_assoc done (words_bytes x)).
    replace (Z.of_nat (length done) + 16)
      with (Z.of_nat (length (done ++ words_bytes x)))
      by (rewrite length_app, length_words_bytes; lia).
    replace (16 * Z.of_nat (length (c :: r)) - 16)
      with (16 * Z.of_nat (length r)) by (cbn [length]; lia).
    rewrite (IH fuel _ _ c (w + 4)%nat).
    + cbn [flat_map]. now rewrite <- app_assoc.
    + rewrite length_app, length_words_bytes. lia.
    + apply length_words_bytes.
    + exact Hc.
    + cbn [length] in Hf. lia.
Qed.

Lemma cbc_enc_blocks_ok (iv : Aes.words) (xs : list Aes.words) :
  Forall words_ok (cbc_enc_blocks (enc_key expanded) iv xs).
Proof.
  revert iv. induction xs as [| x r IH]; intros iv; cbn [cbc_enc_blocks].
  - apply Forall_nil_2.
  - apply Forall_cons. split; [apply enc_core_ok, keys_ok | apply IH].
Qed.

Lemma length_cbc_enc_blocks (iv : Aes.words) (xs : list Aes.words) :
  length (cbc_enc_blocks (enc_key expanded) iv xs) = length xs.
Proof.
  revert iv. induction xs as [| x r IH]; intros iv; cbn [cbc_enc_blocks length].
  - reflexivity.
  - now rewrite IH.
Qed.

End Chaining.

Lemma cbc_blocks_round_trip (expanded : list Z) (iv : Aes.words)
    (xs : list Aes.words) :
  schedule_ok expanded -> words_ok iv -> Forall words_ok xs ->
  cbc_dec_blocks (dec_key expanded) iv
    (cbc_enc_blocks (enc_key expanded) iv xs) = xs.
Proof.
  intros (K0 & K10 & Kmid & Kok) Hiv Hxs. revert iv Hiv.
  induction Hxs as [| x r Hx Hr IH]; intros iv Hiv.
  - reflexivity.
  - cbn [cbc_enc_blocks cbc_dec_blocks].
    rewrite dec_core_enc_core by (try assumption; now apply xorw_ok).
    rewrite xorw_cancel. f_equal. apply IH. apply enc_core_ok, Kok.
Qed.

Lemma to_blocks_ok (n : nat) (p : list Z) : Forall words_ok (to_blocks n p).
Proof.
  revert p. induction n as [| n IH]; intros p; cbn [to_blocks].
  - apply Forall_nil_2.
  - apply Forall_cons. split; [apply load_words_ok | apply IH].
Qed.

Lemma length_to_blocks (n : nat) (p : list Z) : length (to_blocks n p) = n.
Proof.
  revert p. induction n as [| n IH]; intros p; cbn [to_blocks length].
  - reflexivity.
  - now rewrite IH.
Qed.

Lemma bytes_ok_drop (n : nat) (p : list Z) : bytes_ok p -> bytes_ok (drop n p).
Proof. unfold bytes_ok. apply Forall_drop. Qed.

Lemma to_blocks_bytes (n : nat) (p : list Z) :
  bytes_ok p -> length p = (16 * n)%nat ->
  flat_map words_bytes (to_blocks n p) = p.
Proof.
  revert p. induction n as [| n IH]; intros p Hb Hl; cbn [to_blocks flat_map].
  - destruct p; [reflexivity | cbn [length] in Hl; lia].
  - rewrite words_bytes_load_words by (assumption || lia).
    rewrite drop_0, IH.
    + apply take_drop.
    + now apply bytes_ok_drop.
    + rewrite length_drop. lia.
Qed.

(** C5. For every 16-byte key and every buffer of whole 16-byte blocks,
    [mtpz_encryption_cipher_advanced] in decrypt mode, run on what it
    left in encrypt mode under the same key, gives the buffer back. *)
Theorem cbc_round_trip_128 (k p : list Z) (n : nat) :
  length k = 16%nat -> bytes_ok k ->
  bytes_ok p -> length p = (16 * n)%nat -> Z.of_nat (length p) < 2 ^ 31 ->
  let data_len := Z.of_nat (length p) in
  Aes.mtpz_encryption_cipher_advanced k 16
    (Aes.mtpz_encryption_cipher_advanced k 16 p data_len true) data_len false
  = p.
Proof.
  intros _ Hk Hp Hl _ data_len.
  unfold Aes.mtpz_encryption_cipher_advanced.
  change (Aes.cipher_advanced_rounds 16) with 10.
  set (expanded := Aes.mtpz_encryption_expand_key k 16 10).
  assert (Hs : schedule_ok expanded) by apply expand_key_16_ok, Hk.
  pose proof Hs as (K0 & K10 & Kmid & Kok).
  assert (Hz : words_ok (0, 0, 0, 0)) by (unfold words_ok, word_ok; lia).
  set (xs := to_blocks n p).
  assert (Hxs : Forall words_ok xs) by apply to_blocks_ok.
  assert (Hlen : data_len = 16 * Z.of_nat (length xs))
    by (unfold data_len, xs; rewrite length_to_blocks; lia).
  set (fuel := Z.to_nat data_len).
  assert (Hfuel : (length xs <= fuel)%nat) by (unfold fuel; lia).
  set (z := (0, 0, 0, 0)) in Hz.
  set (cs := cbc_enc_blocks (enc_key expanded) z xs).
  assert (He : Aes.cbc_data
                 (Aes.cbc_loop fuel true expanded
                    (Aes.CbcState p 0 data_len (zeros 16) (zeros 4)))
               = flat_map words_bytes cs).
  { pose proof (cbc_loop_encrypt expanded Kok xs Hxs fuel [] (zeros 16) z 0
                  eq_refl eq_refl Hz Hfuel) as H.
    cbn [app length] in H. change (Z.of_nat 0) with 0 in H.
    rewrite <- Hlen in H. unfold xs in H at 1.
    rewrite to_blocks_bytes in H by assumption. exact H. }
  rewrite He.
  assert (Hcs : Forall words_ok cs) by (apply cbc_enc_blocks_ok, Kok).
  assert (Hk0 : words_ok (dec_key expanded 0)) by (rewrite K0; apply Kok).
  assert (Hfuel' : (length cs <= fuel)%nat)
    by (unfold cs; now rewrite length_cbc_enc_blocks).
  pose proof (cbc_loop_decrypt expanded Hk0 cs Hcs fuel [] (zeros 16) z 0
                eq_refl eq_refl Hz Hfuel') as H.
  cbn [app length] in H. change (Z.of_nat 0) with 0 in H.
  unfold cs in H at 2. rewrite length_cbc_enc_blocks, <- Hlen in H.
  change (words_list z) with (zeros 4) in H. rewrite H.
  unfold cs. rewrite cbc_blocks_round_trip by assumption.
  apply to_blocks_bytes; assumption.
Qed.

Lemma cbc_round_trip_128_witness :
  Aes.mtpz_encryption_cipher_advanced Samples.aes_key_128 16
    (Aes.mtpz_encryption_cipher_advanced Samples.aes_key_128 16
       Samples.two_blocks 32 true) 32 false
  = Samples.two_blocks.
Proof.
  apply (cbc_round_trip_128 Samples.aes_key_128 Samples.two_blocks 2);
    [reflexivity | apply bytes_ok_check; reflexivity
    | apply bytes_ok_check; reflexivity | reflexivity | reflexivity].
Defined.

(** With a 24-byte key, which the key expansion accepts, decrypt mode
    does not give the buffer back. *)
Lemma cbc_round_trip_fails_for_24_byte_key :
  Aes.mtpz_encryption_cipher_advanced Samples.aes_key_192 24
    (Aes.mtpz_encryption_cipher_advanced Samples.aes_key_192 24
       Samples.two_blocks 32 true) 32 false
  <> Samples.two_blocks.
Proof. vm_compute. discriminate. Qed.

(** ** Application certificate message *)

Lemma length_mtpz_rsa_decrypt gcry written0 flen from tlen to rsa :
  length (snd (Rsa.mtpz_rsa_decrypt gcry written0 flen from tlen to rsa))
  = length to.
Proof.
  unfold Rsa.mtpz_rsa_decrypt.
  destruct (negb _); destruct (_ <=? _); simpl;
    now rewrite ?length_copy_bytes.
Qed.

(** C1, as the code lays the message out.  With certificates of at least
    0x275 bytes, an RSA result that fits 128 bytes and the RSA object
    allocated, the message is 785 bytes: the preamble 02 01 01 00 00 02
    75, the first 0x275 certificate bytes, 00 10, the 16 random bytes,
    the three bytes 01 00 80, and the 128-byte signature. *)
Theorem application_certificate_message_layout
    (gcry : Rsa.mtpz_rsa_t -> Z -> Z) (written0 : Z)
    (secrets : Handshake.bundle) (rand : nat -> Z) :
  (0x275 <= length (Handshake.certificates secrets))%nat ->
  (forall rsa m, 0 <= gcry rsa m < 2 ^ 1024) ->
  let random := map (fun i => u8 (Z.rem (rand i) 256)) (seq 0 16) in
  let hashed :=
    [0x01; 0x00; 0x00; 0x02; 0x75] ++ take 0x275 (Handshake.certificates secrets)
    ++ [0x00; 0x10] ++ random in
  let rsa := Rsa.RsaKey (Handshake.modulus secrets)
               (Handshake.private_key secrets) (Handshake.public_exponent secrets) in
  let signature :=
    snd (Rsa.mtpz_rsa_sign gcry written0 128 (Handshake.make_odata hashed) 128
           (zeros 128) rsa) in
  let message :=
    [0x02; 0x01; 0x01; 0x00; 0x00; 0x02; 0x75]
    ++ take 0x275 (Handshake.certificates secrets)
    ++ [0x00; 0x10] ++ random ++ [0x01; 0x00; 0x80] ++ signature in
  Handshake.ptp_mtpz_makeapplicationcertificatemessage gcry written0 secrets
    true rand = (Some message, 785, random)
  /\ length message = 785%nat
  /\ length random = 16%nat
  /\ length signature = 128%nat.
Proof.
  intros Hcerts _ random hashed rsa signature message.
  assert (Hrandom : length random = 16%nat) by reflexivity.
  assert (Hsig : length signature = 128%nat).
  { unfold signature, Rsa.mtpz_rsa_sign.
    now rewrite length_mtpz_rsa_decrypt, length_zeros. }
  assert (Hmsg : length message = 785%nat).
  { unfold message. rewrite !length_app, length_take_le, Hsig, Hrandom by lia.
    simpl length. lia. }
  split; [| auto].
  unfold Handshake.ptp_mtpz_makeapplicationcertificatemessage.
  change (Z.to_nat 629) with 629%nat.
  cbv beta iota zeta delta [Rsa.mtpz_rsa_init].
  fold random.
  match goal with
  | |- context [Handshake.make_odata ?h] =>
      assert (Hh : h = hashed)
  end.
  { apply buf_ext.
    - unfold hashed. len_norm. rewrite Hrandom. cbn [length]. lia.
    - intros j Hj. revert Hj. len_norm. intros Hj.
      unfold hashed. getb_norm. len_norm. rewrite ?Hrandom. cbn [length].
      split_cases. }
  rewrite Hh. fold rsa.
  destruct (Rsa.mtpz_rsa_sign _ _ _ _ _ _ _) as [w sg] eqn:E.
  change sg with signature. clear E.
  f_equal. f_equal. f_equal.
  apply buf_ext.
  - rewrite Hmsg. len.
  - intros j Hj. revert Hj. len_norm. intros Hj.
    unfold message. getb_norm. len_norm. rewrite ?Hrandom, ?Hsig. cbn [length].
    split_cases.
Qed.

Lemma application_certificate_message_layout_witness :
  snd (fst (Handshake.ptp_mtpz_makeapplicationcertificatemessage
              Samples.toy_rsa 0 Samples.toy_bundle true Samples.zero_rand))
  = 785.
Proof.
  destruct (application_certificate_message_layout Samples.toy_rsa 0
              Samples.toy_bundle Samples.zero_rand) as [H _].
  - unfold Samples.toy_bundle, Handshake.certificates.
    rewrite length_zeros. lia.
  - intros rsa m. unfold Samples.toy_rsa. lia.
  - exact (f_equal (fun r => snd (fst r)) H).
Defined.

(** The message is not the preamble, the certificates, 00 10 and the
    random bytes followed at once by the 128-byte signature: that makes
    782 bytes, and the message has 785. *)
Lemma application_certificate_message_not_782_bytes :
  let certificates := take 0x275 (Handshake.certificates Samples.toy_bundle) in
  let random := zeros 16 in
  let hashed := [0x01; 0x00; 0x00; 0x02; 0x75] ++ certificates
                ++ [0x00; 0x10] ++ random in
  let signature :=
    snd (Rsa.mtpz_rsa_sign Samples.toy_rsa 0 128 (Handshake.make_odata hashed)
           128 (zeros 128) (Rsa.RsaKey [] [] [])) in
  length signature = 128%nat
  /\ fst (fst (Handshake.ptp_mtpz_makeapplicationcertificatemessage
                 Samples.toy_rsa 0 Samples.toy_bundle true Samples.zero_rand))
     <> Some ([0x02; 0x01; 0x01; 0x00; 0x00; 0x02; 0x75] ++ certificates
              ++ [0x00; 0x10] ++ random ++ signature).
Proof.
  split; [vm_compute; reflexivity |].
  intros H.
  apply (f_equal (fun o => match o with
                           | Some m => length m
                           | None => 0%nat
                           end)) in H.
  vm_compute in H. discriminate H.
Qed.

(** ** Response validation *)








Section Validation.

Variable gcry_pk_decrypt : Rsa.mtpz_rsa_t -> Z -> Z.
Variable written0 : Z.
Variable secrets : Handshake.bundle.
Variable dev : Type.
Variable PTP_RC_OK : Z.
Variable ptp_setdevicepropvalue : dev -> list Z -> Z * dev.
Variable ptp_mtpz_resethandshake : dev -> Z * dev.
Variable ptp_mtpz_sendwmdrmpdapprequest : dev -> option (list Z) -> Z -> Z * dev.
Variable ptp_mtpz_getwmdrmpdappresponse : dev -> Z * list Z * dev.
Variable ptp_mtpz_wmdrmpd_enabletrustedfilesoperations :
  dev -> Z -> Z -> Z -> Z -> Z * dev.

Hypothesis ok_is_not_failure : PTP_RC_OK <> 0xFFFF.









End Validation.



(** ** Hash engine: conformance and the length counter *)

(** C7.  Whatever the 92-byte state held before, reset, one absorb and
    finalise compute standard SHA-1 on the two reference inputs: the
    empty string hashes to da39a3ee5e6b4b0d3255bfef95601890afd80709 and
    the three bytes of "abc" to
    a9993e364706816aba3e25717850c26c9cd0d89d, the last byte being 9d. *)
Theorem sha1_reference_vectors (state : list Z) :
  length state = 92%nat ->
  Hash.digest state [] =
    [0xda; 0x39; 0xa3; 0xee; 0x5e; 0x6b; 0x4b; 0x0d; 0x32; 0x55;
     0xbf; 0xef; 0x95; 0x60; 0x18; 0x90; 0xaf; 0xd8; 0x07; 0x09]
  /\ Hash.digest state [0x61; 0x62; 0x63] =
    [0xa9; 0x99; 0x3e; 0x36; 0x47; 0x06; 0x81; 0x6a; 0xba; 0x3e;
     0x25; 0x71; 0x78; 0x50; 0xc2; 0x6c; 0x9c; 0xd0; 0xd8; 0x9d].
Proof.
  intros Hs.
  rewrite !(digest_state_irrelevant state Hash.mtpz_hash_init_state)
    by (exact Hs || reflexivity).
  split; vm_compute; reflexivity.
Qed.

Lemma sha1_reference_vectors_witness :
  Hash.digest (repeat 0xFF 92) [0x61; 0x62; 0x63] =
    [0xa9; 0x99; 0x3e; 0x36; 0x47; 0x06; 0x81; 0x6a; 0xba; 0x3e;
     0x25; 0x71; 0x78; 0x50; 0xc2; 0x6c; 0x9c; 0xd0; 0xd8; 0x9d].
Proof.
  apply (sha1_reference_vectors (repeat 0xFF 92)). reflexivity.
Defined.

(** The digest of "abc" does not end in 9c. *)
Lemma sha1_abc_does_not_end_in_9c :
  Hash.digest Hash.mtpz_hash_init_state [0x61; 0x62; 0x63] <>
    [0xa9; 0x99; 0x3e; 0x36; 0x47; 0x06; 0x81; 0x6a; 0xba; 0x3e;
     0x25; 0x71; 0x78; 0x50; 0xc2; 0x6c; 0x9c; 0xd0; 0xd8; 0x9c].
Proof. vm_compute. discriminate. Qed.

(** C9.  The high word of the length counter does not follow the carry
    of the low word.  Absorbing 60 and then 34 bytes after a reset takes
    the low word from 60 towards 94 without any wrap, yet the second
    call stores its last 30 message bytes at [state[60 ..]], over the
    chaining words and the counter: the high word ends as 0x42424242 and
    the low word as 0x4242.  Separately, with the low word at
    0x80000000 a one-byte absorb bumps the high word although
    0x80000001 is not below 0x80000000, the comparison being made on
    [int]s. *)
Theorem length_counter_high_word_diverges :
  let st0 := Hash.mtpz_hash_reset_state Hash.mtpz_hash_init_state in
  let st1 := Hash.mtpz_hash_transform_hash st0 (repeat 0x41 60) 60 in
  let st2 := Hash.mtpz_hash_transform_hash st1 (repeat 0x42 34) 34 in
  let sb := Hash.set_state_box st0 Hash.MTPZ_HASHSTATE_88 0x80000000 in
  let sb' := Hash.mtpz_hash_transform_hash sb [0x61] 1 in
  (Hash.state_box st1 Hash.MTPZ_HASHSTATE_88 = 60
   /\ Hash.state_box st1 Hash.MTPZ_HASHSTATE_84 = 0
   /\ u32 (60 + 34) = 94
   /\ Hash.state_box st2 Hash.MTPZ_HASHSTATE_84 = 0x42424242
   /\ Hash.state_box st2 Hash.MTPZ_HASHSTATE_88 = 0x4242)
  /\ (Hash.state_box sb Hash.MTPZ_HASHSTATE_88 = 0x80000000
      /\ Hash.state_box sb Hash.MTPZ_HASHSTATE_84 = 0
      /\ Hash.state_box sb' Hash.MTPZ_HASHSTATE_88 = u32 (0x80000000 + 1)
      /\ (u32 (0x80000000 + 1) <? 0x80000000) = false
      /\ Hash.state_box sb' Hash.MTPZ_HASHSTATE_84 = 1).
Proof. vm_compute. repeat split; reflexivity. Qed.

(** ** AES: round selection and the MAC guard *)

(** C4.  The round count handed to the key expansion is 10 for a 16-byte
    key and 12 for a 24-byte key, but 32, not 14, for a 32-byte key, in
    both modes. *)
Theorem rounds_selected_for_key_sizes :
  Aes.cipher_advanced_rounds 16 = 10
  /\ Aes.cipher_advanced_rounds 24 = 12
  /\ Aes.cipher_advanced_rounds 32 = 32
  /\ Aes.encrypt_mac_rounds 32 = 32.
Proof. vm_compute. repeat split; reflexivity. Qed.

(** C10.  When the hash pointer is [NULL] or [hash_length] is not 16,
    [mtpz_encryption_encrypt_mac] returns at once and the output buffer
    is exactly what it was. *)
Theorem encrypt_mac_guard_leaves_out (hash : option (list Z))
    (hash_length : Z) (seed : list Z) (seed_len : Z) (out : list Z) :
  hash = None \/ hash_length <> 16 ->
  Aes.mtpz_encryption_encrypt_mac hash hash_length seed seed_len out = out.
Proof.
  intros [-> | Hlen]; [reflexivity |].
  unfold Aes.mtpz_encryption_encrypt_mac.
  destruct hash as [h |]; [| reflexivity].
  destruct (Z.eqb_spec hash_length 16) as [E | _]; [contradiction | reflexivity].
Qed.

Lemma encrypt_mac_guard_leaves_out_witness :
  Aes.mtpz_encryption_encrypt_mac (Some (zeros 24)) 24 (zeros 16) 16
    [1; 2; 3; 4; 5; 6; 7; 8; 9; 10; 11; 12; 13; 14; 15; 16]
  = [1; 2; 3; 4; 5; 6; 7; 8; 9; 10; 11; 12; 13; 14; 15; 16].
Proof.
  apply (encrypt_mac_guard_leaves_out (Some (zeros 24)) 24 (zeros 16) 16).
  right. lia.
Defined.

(** ** Secrets loader *)

(** [hex_to_bytes] returns [NULL] for an odd length and a buffer for
    every even length, whatever the characters are. *)
Lemma hex_to_bytes_null_iff_odd (junk : nat -> Z) (hex : list Z) (len : Z) :
  Loader.hex_to_bytes junk hex len = None <-> len mod 2 <> 0.
Proof.
  unfold Loader.hex_to_bytes.
  destruct (Z.eqb_spec (len mod 2) 0) as [E | E]; simpl; split; intros H;
    try discriminate; try congruence; reflexivity.
Qed.

(** C3.  A secrets file whose encryption-key line is 32 letters [z] and
    whose certificates line is [zz] is accepted: decoding stops at the
    first pair, [hex_to_bytes] still hands back its buffer, and
    [mtpz_loaddata] returns 0 with all five globals set, the key and the
    certificates being the untouched contents of the allocation. *)
Theorem loaddata_accepts_non_hex_lines :
  let junk := fun _ : nat => 0xAA in
  let r := Loader.mtpz_loaddata junk (Some Samples.home)
             (fun _ => Some Samples.non_hex_file) in
  Loader.sscanf_2x [122; 122] = None
  /\ fst r = 0
  /\ Loader.MTPZ_ENCRYPTION_KEY (snd r) = Some (repeat 0xAA 16)
  /\ Loader.MTPZ_CERTIFICATES (snd r) = Some [0xAA].
Proof. vm_compute. repeat split; reflexivity. Qed.

(** * Further properties of the code *)

(** ** Secrets loader: decoding and reading lines *)

Lemma hex_digit_range (d : Z) :
  0 <= d < 16 ->
  (48 <= hex_digit d <= 57 /\ d < 10 \/ 97 <= hex_digit d <= 102 /\ 10 <= d).
Proof. unfold hex_digit. intros H. destruct (Z.ltb_spec d 10); lia. Qed.

Lemma xdigit_hex_digit (d : Z) :
  0 <= d < 16 -> Loader.xdigit (hex_digit d) = Some d.
Proof.
  intros H. unfold Loader.xdigit, hex_digit.
  destruct (Z.ltb_spec d 10).
  - replace ((48 <=? 48 + d) && (48 + d <=? 57)) with true
      by (symmetry; apply andb_true_iff; lia).
    f_equal. lia.
  - replace ((48 <=? 87 + d) && (87 + d <=? 57)) with false
      by (symmetry; apply andb_false_iff; lia).
    replace ((97 <=? 87 + d) && (87 + d <=? 102)) with true
      by (symmetry; apply andb_true_iff; lia).
    f_equal. lia.
Qed.

Lemma isspace_hex_digit (d : Z) : 0 <= d < 16 -> Loader.isspace (hex_digit d) = false.
Proof.
  intros H. destruct (hex_digit_range d H) as [[H1 _] | [H1 _]];
    unfold Loader.isspace; apply orb_false_iff; split;
    try (apply Z.eqb_neq; lia); apply andb_false_iff; lia.
Qed.

Lemma sscanf_hex_pair (b : Z) (rest : list Z) :
  byte_ok b ->
  Loader.sscanf_2x (hex_digit (b / 16) :: hex_digit (b mod 16) :: rest) = Some b.
Proof.
  intros Hb. unfold byte_ok in Hb.
  assert (H1 : 0 <= b / 16 < 16) by (Z.div_mod_to_equations; lia).
  assert (H2 : 0 <= b mod 16 < 16) by (Z.div_mod_to_equations; lia).
  unfold Loader.sscanf_2x. cbn [Loader.skip_space].
  rewrite isspace_hex_digit by exact H1.
  replace ((hex_digit (b / 16) =? 43) || (hex_digit (b / 16) =? 45)) with false.
  2: { symmetry. apply orb_false_iff.
       destruct (hex_digit_range _ H1) as [[? _] | [? _]]; split;
         apply Z.eqb_neq; lia. }
  rewrite !xdigit_hex_digit by assumption.
  f_equal. Z.div_mod_to_equations. lia.
Qed.

Lemma length_hex_of_bytes (bs : list Z) :
  length (hex_of_bytes bs) = (2 * length bs)%nat.
Proof.
  unfold hex_of_bytes. induction bs as [| b bs IH]; cbn [flat_map length app].
  - reflexivity.
  - rewrite IH. lia.
Qed.

Lemma hex_loop_decodes (bs : list Z) :
  bytes_ok bs ->
  forall (pre hexpre buf : list Z) (fuel : nat),
    length hexpre = (2 * length pre)%nat ->
    length buf = length bs ->
    (length bs < fuel)%nat ->
    Loader.hex_loop fuel (hexpre ++ hex_of_bytes bs)
      (Z.of_nat (length hexpre + 2 * length bs)) (pre ++ buf)
      (Z.of_nat (length hexpre))
    = pre ++ bs.
Proof.
  induction 1 as [| b bs Hb Hbs IH]; intros pre hexpre buf fuel Hp Hl Hf.
  - destruct buf; [| discriminate Hl].
    destruct fuel as [| fuel]; [reflexivity |]. cbn [Loader.hex_loop length].
    replace (Z.of_nat (length hexpre) <? Z.of_nat (length hexpre + 2 * 0))
      with false by (symmetry; apply Z.ltb_ge; lia).
    reflexivity.
  - destruct buf as [| x buf]; [discriminate Hl |].
    destruct fuel as [| fuel]; [cbn [length] in Hf; lia |].
    cbn [Loader.hex_loop].
    replace (Z.of_nat (length hexpre)
             <? Z.of_nat (length hexpre + 2 * length (b :: bs)))
      with true by (symmetry; apply Z.ltb_lt; cbn [length]; lia).
    rewrite Nat2Z.id, drop_app_length.
    change (hex_of_bytes (b :: bs))
      with (hex_digit (b / 16) :: hex_digit (b mod 16) :: hex_of_bytes bs).
    rewrite sscanf_hex_pair by exact Hb.
    replace (Z.to_nat (Z.of_nat (length hexpre) / 2)) with (length pre).
    2: { rewrite Hp. replace (Z.of_nat (2 * length pre)) with (Z.of_nat (length pre) * 2) by lia.
         rewrite Z.div_mul by lia. now rewrite Nat2Z.id. }
    rewrite insert_app_r_alt by lia. rewrite Nat.sub_diag. cbn [insert list_insert].
    replace (u8 b) with b by (unfold u8, byte_ok in *; rewrite Z.mod_small; lia).
    specialize (IH (pre ++ [b])
                  (hexpre ++ [hex_digit (b / 16); hex_digit (b mod 16)]) buf fuel).
    rewrite <- !app_assoc in IH. cbn [app] in IH.
    replace (Z.of_nat (length hexpre) + 2)
      with (Z.of_nat (length (hexpre ++ [hex_digit (b / 16); hex_digit (b mod 16)])))
      by (rewrite length_app; cbn [length]; lia).
    replace (length hexpre + 2 * length (b :: bs))%nat
      with (length (hexpre ++ [hex_digit (b / 16); hex_digit (b mod 16)])
            + 2 * length bs)%nat
      by (rewrite length_app; cbn [length]; lia).
    apply IH.
    + rewrite !length_app. cbn [length]. lia.
    + cbn [length] in Hl. lia.
    + cbn [length] in Hf. lia.
Qed.

Lemma hex_to_bytes_hex_of_bytes (junk : nat -> Z) (bs : list Z) :
  bytes_ok bs ->
  Loader.hex_to_bytes junk (hex_of_bytes bs)
    (Z.of_nat (length (hex_of_bytes bs))) = Some bs.
Proof.
  intros Hb. unfold Loader.hex_to_bytes. rewrite length_hex_of_bytes.
  replace (Z.of_nat (2 * length bs)) with (Z.of_nat (length bs) * 2) by lia.
  rewrite Z.mod_mul, Z.div_mul by lia. cbn [Z.eqb negb]. f_equal.
  rewrite Nat2Z.id.
  pose proof (hex_loop_decodes bs Hb [] [] (Loader.malloc junk (length bs))
                (length bs + 1) eq_refl) as H.
  cbn [app length Nat.add] in H.
  replace (Z.of_nat (length bs) * 2) with (Z.of_nat (2 * length bs)) by lia.
  apply H.
  - unfold Loader.malloc. now rewrite length_map, length_seq.
  - lia.
Qed.

Lemma cstr_line (l : list Z) : Forall line_char l -> Loader.cstr l = l.
Proof.
  induction 1 as [| c l [Hc _] Hl IH]; cbn [Loader.cstr]; [reflexivity |].
  destruct (Z.eqb_spec c 0); [contradiction |]. now rewrite IH.
Qed.

Lemma strlen_line (l : list Z) :
  Forall line_char l -> Loader.strlen l = Z.of_nat (length l).
Proof. intros H. unfold Loader.strlen. now rewrite cstr_line. Qed.

Lemma hex_of_bytes_line (bs : list Z) :
  bytes_ok bs -> Forall line_char (hex_of_bytes bs).
Proof.
  unfold hex_of_bytes.
  induction 1 as [| b bs Hb Hbs IH]; cbn [flat_map app]; [apply Forall_nil_2 |].
  unfold byte_ok in Hb.
  assert (H1 : 0 <= b / 16 < 16) by (Z.div_mod_to_equations; lia).
  assert (H2 : 0 <= b mod 16 < 16) by (Z.div_mod_to_equations; lia).
  apply Forall_cons. split.
  - unfold line_char. destruct (hex_digit_range _ H1) as [[? _] | [? _]]; lia.
  - apply Forall_cons. split; [| exact IH].
    unfold line_char. destruct (hex_digit_range _ H2) as [[? _] | [? _]]; lia.
Qed.

Lemma hex_to_bytes_strlen (junk : nat -> Z) (bs : list Z) :
  bytes_ok bs ->
  Loader.hex_to_bytes junk (hex_of_bytes bs)
    (Loader.strlen (hex_of_bytes bs)) = Some bs.
Proof.
  intros Hb. rewrite strlen_line by now apply hex_of_bytes_line.
  now apply hex_to_bytes_hex_of_bytes.
Qed.

(** X2.  Decoding undoes encoding: for every byte string, [hex_to_bytes]
    applied to its lower-case hexadecimal text, with the length
    [strlen] gives, returns exactly the bytes. *)
Theorem hex_to_bytes_round_trip (junk : nat -> Z) (bs : list Z) :
  bytes_ok bs ->
  Loader.hex_to_bytes junk (hex_of_bytes bs)
    (Loader.strlen (hex_of_bytes bs)) = Some bs.
Proof. apply hex_to_bytes_strlen. Qed.

Lemma hex_to_bytes_round_trip_witness :
  Loader.hex_to_bytes (fun _ => 0xAA) (hex_of_bytes [0; 127; 171; 255])
    (Loader.strlen (hex_of_bytes [0; 127; 171; 255]))
  = Some [0; 127; 171; 255].
Proof.
  apply (hex_to_bytes_round_trip (fun _ => 0xAA) [0; 127; 171; 255]).
  apply bytes_ok_check. reflexivity.
Defined.

Lemma fgets_chars_line (l rest : list Z) (n : nat) :
  Forall line_char l -> (length l < n)%nat ->
  Loader.fgets_chars n (l ++ 10 :: rest) = (l ++ [10], rest).
Proof.
  intros Hl. revert n. induction Hl as [| c l [_ Hc] Hl IH]; intros n Hn.
  - destruct n as [| n]; [cbn [length] in Hn; lia |]. reflexivity.
  - destruct n as [| n]; [cbn [length] in Hn; lia |].
    cbn [app Loader.fgets_chars].
    destruct (Z.eqb_spec c 10); [contradiction |].
    rewrite IH by (cbn [length] in Hn; lia). reflexivity.
Qed.

Lemma fgets_strip_line (num : Z) (l rest : list Z) :
  Forall line_char l -> Z.of_nat (length l) + 1 < num ->
  Loader.fgets_strip num (l ++ 10 :: rest) = (Some l, rest).
Proof.
  intros Hl Hn. unfold Loader.fgets_strip, Loader.fgets.
  destruct (l ++ 10 :: rest) eqn:E; [destruct l; discriminate E |].
  rewrite <- E. rewrite fgets_chars_line by (assumption || lia).
  assert (Hc : Loader.cstr (l ++ [10]) = l ++ [10]).
  { clear -Hl. induction Hl as [| c l [Hc _] Hl IH]; cbn [app Loader.cstr].
    - reflexivity.
    - destruct (Z.eqb_spec c 0); [contradiction |]. now rewrite IH. }
  rewrite Hc, length_app. cbn [length].
  replace (length l + 1 - 1)%nat with (length l) by lia.
  replace (0 <? length l + 1)%nat with true by (symmetry; apply Nat.ltb_lt; lia).
  rewrite getb_app. case_decide; [lia |].
  rewrite Nat.sub_diag. cbn [getb nth andb Z.eqb Pos.eqb].
  now rewrite take_app_length.
Qed.

(** X3.  A well-formed secrets file is read back exactly.  When
    [~/.mtpz-data] holds five newline-terminated lines, the public
    exponent, the encryption key in hexadecimal, the modulus, the
    private key and the certificates in hexadecimal, each short enough
    for its [fgets] buffer, [mtpz_loaddata] returns 0 and the five
    globals hold the three text lines without their newline and the two
    decoded byte strings. *)
Theorem loaddata_reads_well_formed_file (junk : nat -> Z)
    (home : list Z) (fopen : list Z -> option (list Z))
    (pubexp key modulus privkey certs rest : list Z) :
  fopen (home ++ Loader.Lit.mtpz_data)
  = Some (pubexp ++ 10 :: hex_of_bytes key ++ 10 :: modulus ++ 10 :: privkey
          ++ 10 :: hex_of_bytes certs ++ 10 :: rest) ->
  Forall line_char pubexp -> (length pubexp <= 6)%nat ->
  bytes_ok key -> (length key <= 16)%nat ->
  Forall line_char modulus -> (length modulus <= 258)%nat ->
  Forall line_char privkey -> (length privkey <= 258)%nat ->
  bytes_ok certs -> (length certs <= 629)%nat ->
  Loader.mtpz_loaddata junk (Some home) fopen
  = (0, Loader.Secrets (Some key) (Some pubexp) (Some modulus) (Some privkey)
          (Some certs)).
Proof.
  intros Hf Hpe Lpe Hk Lk Hm Lm Hp Lp Hc Lc.
  unfold Loader.mtpz_loaddata. rewrite Hf.
  rewrite fgets_strip_line by (assumption || lia).
  rewrite fgets_strip_line
    by (try (now apply hex_of_bytes_line); rewrite length_hex_of_bytes; lia).
  rewrite hex_to_bytes_strlen by exact Hk.
  rewrite fgets_strip_line by (assumption || lia).
  rewrite fgets_strip_line by (assumption || lia).
  rewrite fgets_strip_line
    by (try (now apply hex_of_bytes_line); rewrite length_hex_of_bytes; lia).
  rewrite hex_to_bytes_strlen by exact Hc.
  reflexivity.
Qed.

Lemma loaddata_reads_well_formed_file_witness :
  Loader.mtpz_loaddata (fun _ => 0xAA) (Some Samples.home)
    (fun _ => Some ([49; 48] ++ 10 :: hex_of_bytes [1; 2; 254] ++ 10 :: [65]
                    ++ 10 :: [66; 67] ++ 10 :: hex_of_bytes [9; 200] ++ 10 :: []))
  = (0, Loader.Secrets (Some [1; 2; 254]) (Some [49; 48]) (Some [65])
          (Some [66; 67]) (Some [9; 200])).
Proof.
  apply (loaddata_reads_well_formed_file (fun _ => 0xAA) Samples.home _
           [49; 48] [1; 2; 254] [65] [66; 67] [9; 200] []);
    try reflexivity;
    try (apply bytes_ok_check; reflexivity);
    try (cbn [length]; lia);
    repeat (apply Forall_cons; split; [unfold line_char; lia |]);
    apply Forall_nil_2.
Defined.

(** X4.  [mtpz_loaddata] returns 0 or -1 and nothing else; a return of 0
    means all five globals were set to non-[NULL] buffers; and with
    [HOME] unset or the file not opening it returns -1 having set
    nothing. *)
Theorem loaddata_result (junk : nat -> Z) (home : option (list Z))
    (fopen : list Z -> option (list Z)) :
  let r := Loader.mtpz_loaddata junk home fopen in
  (fst r = 0 \/ fst r = -1)
  /\ (fst r = 0 ->
      Loader.MTPZ_ENCRYPTION_KEY (snd r) <> None
      /\ Loader.MTPZ_PUBLIC_EXPONENT (snd r) <> None
      /\ Loader.MTPZ_MODULUS (snd r) <> None
      /\ Loader.MTPZ_PRIVATE_KEY (snd r) <> None
      /\ Loader.MTPZ_CERTIFICATES (snd r) <> None)
  /\ ((home = None \/ exists h, home = Some h /\ fopen (h ++ Loader.Lit.mtpz_data) = None) ->
      r = (-1, Loader.no_secrets)).
Proof.
  unfold Loader.mtpz_loaddata.
  destruct home as [h |]; cbn zeta.
  2: { split; [right; reflexivity |]. split; [discriminate | reflexivity]. }
  destruct (fopen (h ++ Loader.Lit.mtpz_data)) as [fdata |] eqn:Ef.
  2: { split; [right; reflexivity |]. split; [discriminate | reflexivity]. }
  assert (Hno : (Some h = None \/
                 exists h0, Some h = Some h0 /\ fopen (h0 ++ Loader.Lit.mtpz_data) = None)
                -> False).
  { intros [H | (h0 & [= <-] & H)]; congruence. }
  destruct (Loader.fgets_strip 8 fdata) as [[pe |] f1];
    [| split; [right; reflexivity | split; [discriminate | intros H; destruct (Hno H)]]].
  destruct (Loader.fgets_strip 35 f1) as [[hk |] f2];
    [| split; [right; reflexivity | split; [discriminate | intros H; destruct (Hno H)]]].
  destruct (Loader.hex_to_bytes junk hk (Loader.strlen hk)) as [k |];
    [| split; [right; reflexivity | split; [discriminate | intros H; destruct (Hno H)]]].
  destruct (Loader.fgets_strip 260 f2) as [[m |] f3];
    [| split; [right; reflexivity | split; [discriminate | intros H; destruct (Hno H)]]].
  destruct (Loader.fgets_strip 260 f3) as [[p |] f4];
    [| split; [right; reflexivity | split; [discriminate | intros H; destruct (Hno H)]]].
  destruct (Loader.fgets_strip 1260 f4) as [[hc |] f5];
    [| split; [right; reflexivity | split; [discriminate | intros H; destruct (Hno H)]]].
  destruct (Loader.hex_to_bytes junk hc (Loader.strlen hc)) as [c |];
    [| split; [right; reflexivity | split; [discriminate | intros H; destruct (Hno H)]]].
  split; [left; reflexivity |]. split.
  - intros _. cbn. repeat split; discriminate.
  - intros H; destruct (Hno H).
Qed.

(** ** Byte swap and rotation *)

(** X5.  [mtpz_bswap32] reverses the four bytes of a 32-bit word and
    is its own inverse. *)
Theorem bswap32_reverses_bytes (a b c d : Z) :
  byte_ok a -> byte_ok b -> byte_ok c -> byte_ok d ->
  mtpz_bswap32 (be a b c d) = be d c b a
  /\ mtpz_bswap32 (mtpz_bswap32 (be a b c d)) = be a b c d.
Proof.
  intros Ha Hb Hc Hd. split; [now apply bswap32_be |].
  now rewrite !bswap32_be.
Qed.

Lemma bswap32_reverses_bytes_witness :
  mtpz_bswap32 (be 0x12 0x34 0x56 0x78) = be 0x78 0x56 0x34 0x12
  /\ mtpz_bswap32 (mtpz_bswap32 (be 0x12 0x34 0x56 0x78)) = be 0x12 0x34 0x56 0x78.
Proof.
  apply (bswap32_reverses_bytes 0x12 0x34 0x56 0x78); unfold byte_ok; lia.
Defined.

Lemma testbit_rotate_left (x n i : Z) :
  word_ok x -> 0 < n < 32 -> 0 <= i ->
  Z.testbit (Hash.mtpz_hash_rotate_left x n) i
  = if i <? 32 then Z.testbit x ((i - n) mod 32) else false.
Proof.
  intros Hx Hn Hi. unfold Hash.mtpz_hash_rotate_left, u32, word_ok in *.
  rewrite Z.lor_spec.
  rewrite Z.testbit_mod_pow2 by lia.
  rewrite Z.shiftl_spec by lia.
  rewrite Z.shiftr_spec by lia.
  destruct (Z.ltb_spec i 32) as [Hlt | Hge].
  - destruct (Z.lt_ge_cases i n) as [Hin | Hin].
    + rewrite (Z.testbit_neg_r x (i - n)) by lia. cbn [orb andb].
      f_equal. replace ((i - n) mod 32) with (i - n + 32); [lia |].
      apply (Z.mod_unique _ _ (-1)); lia.
    + rewrite (testbit_high 32 x (i + (32 - n))) by lia.
      rewrite orb_false_r. cbn [andb]. f_equal. symmetry. apply Z.mod_small. lia.
  - cbn [orb]. apply (testbit_high 32); lia.
Qed.

Lemma rotate_left_word_ok (x n : Z) :
  word_ok x -> 0 < n < 32 -> word_ok (Hash.mtpz_hash_rotate_left x n).
Proof.
  intros Hx Hn. apply (range_of_bits 32); [lia | |].
  - unfold Hash.mtpz_hash_rotate_left. apply Z.lor_nonneg. split.
    + apply u32_range.
    + apply Z.shiftr_nonneg. unfold word_ok in Hx. lia.
  - intros i Hi. rewrite testbit_rotate_left by (assumption || lia).
    replace (i <? 32) with false by (symmetry; apply Z.ltb_ge; lia).
    reflexivity.
Qed.

(** X6.  For a 32-bit word and a count strictly between 0 and 32,
    [mtpz_hash_rotate_left] is a rotation: bit [i] of the result is bit
    [(i - n) mod 32] of the argument, the result is again a 32-bit word,
    and rotating on by [32 - n] gives the word back. *)
Theorem rotate_left_is_rotation (x n : Z) :
  0 <= x < 2 ^ 32 -> 0 < n < 32 ->
  0 <= Hash.mtpz_hash_rotate_left x n < 2 ^ 32
  /\ (forall i, 0 <= i < 32 ->
        Z.testbit (Hash.mtpz_hash_rotate_left x n) i
        = Z.testbit x ((i - n) mod 32))
  /\ Hash.mtpz_hash_rotate_left (Hash.mtpz_hash_rotate_left x n) (32 - n) = x.
Proof.
  intros Hx Hn. fold (word_ok x) in Hx.
  pose proof (rotate_left_word_ok x n Hx Hn) as Hr.
  split; [exact Hr |]. split.
  - intros i Hi. rewrite testbit_rotate_left by (assumption || lia).
    replace (i <? 32) with true by (symmetry; apply Z.ltb_lt; lia).
    reflexivity.
  - apply Z.bits_inj'. intros i Hi.
    rewrite testbit_rotate_left by (assumption || lia).
    destruct (Z.ltb_spec i 32) as [Hlt | Hge].
    + rewrite testbit_rotate_left
        by (try assumption; apply Z.mod_pos_bound; lia).
      pose proof (Z.mod_pos_bound (i - (32 - n)) 32 ltac:(lia)) as Hm.
      replace ((i - (32 - n)) mod 32 <? 32) with true
        by (symmetry; apply Z.ltb_lt; lia).
      f_equal. rewrite Zminus_mod_idemp_l.
      replace (i - (32 - n) - n) with (i + (-1) * 32) by lia.
      rewrite Z.mod_add by lia. apply Z.mod_small. lia.
    + symmetry. apply (testbit_high 32); unfold word_ok in Hx; lia.
Qed.

Lemma rotate_left_is_rotation_witness :
  Hash.mtpz_hash_rotate_left (Hash.mtpz_hash_rotate_left 0x80000001 5) (32 - 5)
  = 0x80000001.
Proof.
  apply (rotate_left_is_rotation 0x80000001 5); lia.
Defined.

(** ** RSA: the output buffer *)

Lemma length_mpi_bytes (n : nat) (v : Z) : length (Rsa.mpi_bytes n v) = n.
Proof. unfold Rsa.mpi_bytes. now rewrite length_map, length_seq. Qed.

Lemma getb_map_seq (f : nat -> Z) (a n i : nat) :
  (i < n)%nat -> getb (map f (seq a n)) i = f (a + i)%nat.
Proof.
  unfold getb. revert a i. induction n as [| n IH]; intros a i Hi; [lia |].
  cbn [seq map]. destruct i as [| i]; cbn [nth].
  - f_equal. lia.
  - rewrite IH by lia. f_equal. lia.
Qed.

Lemma getb_mpi_bytes (n : nat) (v : Z) (i : nat) :
  (i < n)%nat ->
  getb (Rsa.mpi_bytes n v) i = u8 (v / 2 ^ (8 * Z.of_nat (n - 1 - i))).
Proof.
  intros Hi. unfold Rsa.mpi_bytes. now rewrite getb_map_seq by exact Hi.
Qed.

Lemma nbits_spec (v : Z) :
  0 <= v ->
  0 <= Rsa.gcry_mpi_get_nbits v /\ v < 2 ^ Rsa.gcry_mpi_get_nbits v
  /\ (Rsa.gcry_mpi_get_nbits v = 0 <-> v = 0).
Proof.
  intros Hv. unfold Rsa.gcry_mpi_get_nbits.
  destruct (Z.leb_spec v 0) as [H0 | H0].
  - assert (v = 0) by lia. subst v. cbn. repeat split; lia.
  - pose proof (Z.log2_nonneg v). destruct (Z.log2_spec v H0) as [_ Hlt].
    replace (Z.succ (Z.log2 v)) with (Z.log2 v + 1) in Hlt by lia.
    repeat split; lia.
Qed.

Lemma nbits_bound (v k : Z) :
  0 <= k -> 0 <= v < 2 ^ k -> Rsa.gcry_mpi_get_nbits v <= k.
Proof.
  intros Hk Hv. unfold Rsa.gcry_mpi_get_nbits.
  destruct (Z.leb_spec v 0) as [H0 | H0]; [lia |].
  assert (Z.log2 v < k) by (apply Z.log2_lt_pow2; lia). lia.
Qed.

Lemma mpi_scan_acc (l : list Z) (acc : Z) :
  fold_left (fun a b => a * 256 + b) l acc
  = acc * 2 ^ (8 * Z.of_nat (length l)) + Rsa.mpi_scan_usg l.
Proof.
  unfold Rsa.mpi_scan_usg. revert acc.
  induction l as [| b l IH]; intros acc; cbn [fold_left length].
  - cbn. lia.
  - rewrite IH. rewrite (IH (0 * 256 + b)).
    replace (8 * Z.of_nat (S (length l))) with (8 + 8 * Z.of_nat (length l)) by lia.
    rewrite Z.pow_add_r by lia. change (2 ^ 8) with 256. ring.
Qed.

Lemma mpi_bytes_succ (n : nat) (v : Z) :
  Rsa.mpi_bytes (S n) v = u8 (v / 2 ^ (8 * Z.of_nat n)) :: Rsa.mpi_bytes n v.
Proof.
  unfold Rsa.mpi_bytes. cbn [seq map]. f_equal.
  - do 3 f_equal. lia.
  - rewrite <- seq_shift, map_map. apply map_ext. intros i.
    do 4 f_equal. lia.
Qed.

Lemma mpi_scan_mpi_bytes (n : nat) (v : Z) :
  0 <= v -> Rsa.mpi_scan_usg (Rsa.mpi_bytes n v) = v mod 2 ^ (8 * Z.of_nat n).
Proof.
  intros Hv. induction n as [| n IH].
  - cbn. now rewrite Z.mod_1_r.
  - rewrite mpi_bytes_succ. unfold Rsa.mpi_scan_usg. cbn [fold_left].
    rewrite mpi_scan_acc, length_mpi_bytes, IH. unfold u8.
    replace (8 * Z.of_nat (S n)) with (8 * Z.of_nat n + 8) by lia.
    rewrite Z.pow_add_r by lia. change (2 ^ 8) with 256.
    assert (Hp : 0 < 2 ^ (8 * Z.of_nat n)) by (apply Z.pow_pos_nonneg; lia).
    rewrite (Z.rem_mul_r v _ 256) by lia. cbn [Z.mul Z.add]. ring.
Qed.

(** X7.  [mtpz_rsa_decrypt] leaves the RSA result in [to] as a
    big-endian number of exactly [tlen] bytes, leading zero bytes
    included, whenever the result fits; it returns the number of bytes
    the result needs, which is 0 exactly for the result 0.  Here [from]
    holds its [flen] bytes, [to] has [tlen] bytes, and the bit count
    [tlen * 8] fits an [int]. *)
Theorem rsa_decrypt_fixed_width (gcry : Rsa.mtpz_rsa_t -> Z -> Z)
    (written0 flen : Z) (from : list Z) (n : nat) (to : list Z)
    (rsa : Rsa.mtpz_rsa_t) :
  let v := gcry rsa (Rsa.mpi_scan_usg (take (Z.to_nat flen) from)) in
  let r := Rsa.mtpz_rsa_decrypt gcry written0 flen from (Z.of_nat n) to rsa in
  0 <= flen <= Z.of_nat (length from) ->
  Z.of_nat n * 8 < 2 ^ 31 ->
  0 <= v < 2 ^ (8 * Z.of_nat n) ->
  length to = n ->
  snd r = Rsa.mpi_bytes n v
  /\ Rsa.mpi_scan_usg (snd r) = v
  /\ fst r = (Rsa.gcry_mpi_get_nbits v + 7) / 8
  /\ (fst r = 0 <-> v = 0).
Proof.
  intros v r _ _ Hv Hl.
  destruct (nbits_spec v ltac:(lia)) as (HL0 & HvL & HLz).
  pose proof (nbits_bound v (8 * Z.of_nat n) ltac:(lia) Hv) as HLn.
  assert (Hr : r = ((Rsa.gcry_mpi_get_nbits v + 7) / 8, Rsa.mpi_bytes n v)).
  { unfold r, Rsa.mtpz_rsa_decrypt. fold v.
    set (L := Rsa.gcry_mpi_get_nbits v) in *.
    rewrite Z.quot_div_nonneg by lia.
    set (sh := (Z.of_nat n * 8 - L) / 8).
    set (m := (L + 7) / 8).
    assert (Hsum : sh + m = Z.of_nat n)
      by (unfold sh, m; Z.div_mod_to_equations; lia).
    assert (Hsh : 0 <= sh) by (unfold sh; Z.div_mod_to_equations; lia).
    assert (Hm : 0 <= m) by (unfold m; Z.div_mod_to_equations; lia).
    assert (Hhigh : forall j, (j < Z.to_nat sh)%nat ->
                      u8 (v / 2 ^ (8 * Z.of_nat (n - 1 - j))) = 0).
    { intros j Hj. rewrite Z.div_small; [reflexivity |]. split; [lia |].
      apply (Z.lt_le_trans _ (2 ^ L)); [exact HvL |].
      apply Z.pow_le_mono_r; [lia |]. unfold m in *. Z.div_mod_to_equations. lia. }
    destruct (Z.eqb_spec sh 0) as [E | E]; cbn [negb].
    - replace (m <=? Z.of_nat n) with true by (symmetry; apply Z.leb_le; lia).
      f_equal. replace (Z.to_nat m) with n by lia.
      apply buf_ext; [now rewrite length_copy_bytes, length_mpi_bytes |].
      intros j Hj. rewrite length_copy_bytes in Hj.
      rewrite getb_copy_bytes_in by lia. case_decide; [| lia].
      f_equal. lia.
    - replace (m <=? Z.of_nat n - sh) with true by (symmetry; apply Z.leb_le; lia).
      f_equal.
      apply buf_ext; [now rewrite !length_copy_bytes, length_mpi_bytes |].
      intros j Hj. rewrite !length_copy_bytes in Hj.
      rewrite getb_copy_bytes_in by (rewrite length_copy_bytes; lia).
      rewrite getb_copy_bytes_in by lia.
      rewrite (getb_mpi_bytes n) by lia.
      case_decide.
      + rewrite getb_mpi_bytes by lia. do 4 f_equal. lia.
      + case_decide; [| lia]. rewrite getb_zeros.
        symmetry. apply Hhigh. lia. }
  rewrite Hr. cbn [fst snd]. split; [reflexivity |]. split.
  - rewrite mpi_scan_mpi_bytes by lia. apply Z.mod_small. exact Hv.
  - split; [reflexivity |]. rewrite <- HLz.
    split; intros H; [| rewrite H; reflexivity].
    Z.div_mod_to_equations. lia.
Qed.

Lemma rsa_decrypt_fixed_width_witness :
  snd (Rsa.mtpz_rsa_decrypt Samples.toy_rsa 0 128 (zeros 128) (Z.of_nat 128)
         (zeros 128) (Rsa.RsaKey [] [] []))
  = Rsa.mpi_bytes 128 5.
Proof.
  apply (rsa_decrypt_fixed_width Samples.toy_rsa 0 128 (zeros 128) 128
           (zeros 128) (Rsa.RsaKey [] [] [])).
  - rewrite length_zeros. lia.
  - reflexivity.
  - unfold Samples.toy_rsa. split; [lia | reflexivity].
  - reflexivity.
Defined.

(** ** Hash engine: what a call touches *)

(** X8.  A reset wipes the past: the digest of a message computed by
    reset, absorb and finalise is the same whatever the 92-byte state
    held before, stale buffer bytes and counters included. *)
Theorem digest_forgets_previous_state (a b msg : list Z) :
  length a = 92%nat -> length b = 92%nat ->
  Hash.digest a msg = Hash.digest b msg.
Proof. apply digest_state_irrelevant. Qed.

Lemma digest_forgets_previous_state_witness :
  Hash.digest (repeat 0xFF 92) [1; 2; 3] = Hash.digest (zeros 92) [1; 2; 3].
Proof.
  apply (digest_forgets_previous_state (repeat 0xFF 92) (zeros 92) [1; 2; 3]);
    reflexivity.
Defined.





(** ** Hash engine: absorbing in two calls *)

Lemma load32_ext (a b : list Z) (p q : nat) :
  (forall i, (i < 4)%nat -> getb a (p + i) = getb b (q + i)) ->
  load32 a p = load32 b q.
Proof.
  intros H. unfold load32.
  rewrite <- (Nat.add_0_r p) at 1. rewrite <- (Nat.add_0_r q) at 1.
  rewrite !H by lia. reflexivity.
Qed.

Lemma compute_hash_msg_ext (s msg msg' : list Z) (len : Z) :
  (forall i, (i < 64)%nat -> getb msg i = getb msg' i) ->
  Hash.mtpz_hash_compute_hash s msg len = Hash.mtpz_hash_compute_hash s msg' len.
Proof.
  intros H. unfold Hash.mtpz_hash_compute_hash, Hash.schedule.
  replace (Hash.W_init msg') with (Hash.W_init msg); [reflexivity |].
  unfold Hash.W_init. apply map_ext_in. intros i Hi. apply in_seq in Hi.
  f_equal. apply (load32_ext msg msg' (4 * i) (4 * i)). intros k Hk.
  apply H. lia.
Qed.

Lemma block_loop_msg_ext (n : nat) (s msg msg' : list Z) (j j' : nat) :
  (forall i, (i < 64 * n)%nat -> getb msg (j + i) = getb msg' (j' + i)) ->
  Hash.block_loop n s msg j = Hash.block_loop n s msg' j'.
Proof.
  revert s j j'. induction n as [| n IH]; intros s j j' H; [reflexivity |].
  cbn [Hash.block_loop].
  rewrite (compute_hash_msg_ext s (drop j msg) (drop j' msg')).
  - apply IH. intros i Hi.
    replace (j + 64 + i)%nat with (j + (64 + i))%nat by lia.
    replace (j' + 64 + i)%nat with (j' + (64 + i))%nat by lia.
    apply H. lia.
  - intros i Hi. rewrite !getb_drop. apply H. lia.
Qed.

Lemma block_loop_add (n k : nat) (s msg : list Z) (j : nat) :
  Hash.block_loop (n + k) s msg j
  = Hash.block_loop k (Hash.block_loop n s msg j) msg (j + 64 * n).
Proof.
  revert s j. induction n as [| n IH]; intros s j.
  - cbn [Nat.add Hash.block_loop]. f_equal. lia.
  - cbn [Nat.add Hash.block_loop]. rewrite IH. f_equal. lia.
Qed.

Lemma set_state_box_comm (s : list Z) (i j : nat) (a b : Z) :
  i <> j -> (64 + 4 * i + 4 <= length s)%nat -> (64 + 4 * j + 4 <= length s)%nat ->
  Hash.set_state_box (Hash.set_state_box s i a) j b
  = Hash.set_state_box (Hash.set_state_box s j b) i a.
Proof.
  intros Hij Hi Hj. unfold Hash.set_state_box. apply buf_ext.
  - now rewrite !length_store32.
  - intros k Hk. rewrite !length_store32 in Hk.
    rewrite !getb_store32_in by (rewrite ?length_store32; lia).
    repeat (case_decide; try lia); reflexivity.
Qed.

Lemma set_state_box_twice (s : list Z) (i : nat) (a b : Z) :
  (64 + 4 * i + 4 <= length s)%nat ->
  Hash.set_state_box (Hash.set_state_box s i a) i b = Hash.set_state_box s i b.
Proof.
  intros Hi. unfold Hash.set_state_box. apply buf_ext.
  - now rewrite !length_store32.
  - intros k Hk. rewrite !length_store32 in Hk.
    rewrite !getb_store32_in by (rewrite ?length_store32; lia).
    repeat (case_decide; try lia); reflexivity.
Qed.

Lemma set_state_box_copy_comm (s : list Z) (i : nat) (v : Z) (n doff : nat)
    (src : list Z) (soff : nat) :
  (doff + n <= 64)%nat -> (64 + 4 * i + 4 <= length s)%nat ->
  Hash.set_state_box (copy_bytes n s doff src soff) i v
  = copy_bytes n (Hash.set_state_box s i v) doff src soff.
Proof.
  intros Hd Hi. unfold Hash.set_state_box. apply buf_ext.
  - now rewrite !length_store32, !length_copy_bytes, length_store32.
  - intros k Hk.
    rewrite getb_store32_in by (rewrite length_copy_bytes; lia).
    rewrite !getb_copy_bytes_in by (rewrite ?length_store32; lia).
    rewrite getb_store32_in by lia.
    repeat (case_decide; try lia); reflexivity.
Qed.

Lemma state_box_copy_bytes (s : list Z) (i n doff : nat) (src : list Z)
    (soff : nat) :
  (doff + n <= 64)%nat ->
  Hash.state_box (copy_bytes n s doff src soff) i = Hash.state_box s i.
Proof.
  intros H. unfold Hash.state_box. apply load32_copy_bytes_other. lia.
Qed.

Lemma compute_hash_set_counter (s msg : list Z) (len : Z) (i : nat) (v : Z) :
  length s = 92%nat -> (5 <= i < 7)%nat ->
  Hash.mtpz_hash_compute_hash (Hash.set_state_box s i v) msg len
  = Hash.set_state_box (Hash.mtpz_hash_compute_hash s msg len) i v.
Proof.
  intros Hs Hi. unfold Hash.mtpz_hash_compute_hash.
  destruct (negb (len =? 64)); [reflexivity |].
  rewrite !(state_box_set_other s i) by lia.
  destruct (fold_left _ _ _) as [[[[a b] c] d] e].
  rewrite (set_state_box_comm s i 0) by lia.
  rewrite (set_state_box_comm _ i 1) by (rewrite ?length_set_state_box; lia).
  rewrite (set_state_box_comm _ i 2) by (rewrite ?length_set_state_box; lia).
  rewrite (set_state_box_comm _ i 3) by (rewrite ?length_set_state_box; lia).
  rewrite (set_state_box_comm _ i 4) by (rewrite ?length_set_state_box; lia).
  reflexivity.
Qed.

Lemma compute_hash_copy_comm (s msg : list Z) (len : Z) (n doff : nat)
    (src : list Z) (soff : nat) :
  length s = 92%nat -> (doff + n <= 64)%nat ->
  Hash.mtpz_hash_compute_hash (copy_bytes n s doff src soff) msg len
  = copy_bytes n (Hash.mtpz_hash_compute_hash s msg len) doff src soff.
Proof.
  intros Hs Hd. unfold Hash.mtpz_hash_compute_hash.
  destruct (negb (len =? 64)); [reflexivity |].
  rewrite !state_box_copy_bytes by exact Hd.
  destruct (fold_left _ _ _) as [[[[a b] c] d] e].
  rewrite !set_state_box_copy_comm by (rewrite ?length_set_state_box; lia).
  reflexivity.
Qed.

Lemma block_loop_set_counter (n : nat) (s msg : list Z) (j i : nat) (v : Z) :
  length s = 92%nat -> (5 <= i < 7)%nat ->
  Hash.block_loop n (Hash.set_state_box s i v) msg j
  = Hash.set_state_box (Hash.block_loop n s msg j) i v.
Proof.
  revert s j. induction n as [| n IH]; intros s j Hs Hi; [reflexivity |].
  cbn [Hash.block_loop]. rewrite compute_hash_set_counter by assumption.
  apply IH; [now rewrite length_compute_hash | exact Hi].
Qed.

Lemma block_loop_copy_comm (k : nat) (s msg : list Z) (j n doff : nat)
    (src : list Z) (soff : nat) :
  length s = 92%nat -> (doff + n <= 64)%nat ->
  Hash.block_loop k (copy_bytes n s doff src soff) msg j
  = copy_bytes n (Hash.block_loop k s msg j) doff src soff.
Proof.
  revert s j. induction k as [| k IH]; intros s j Hs Hd; [reflexivity |].
  cbn [Hash.block_loop]. rewrite compute_hash_copy_comm by assumption.
  apply IH; [now rewrite length_compute_hash | exact Hd].
Qed.

Lemma s32_small (z : Z) : 0 <= z < 2 ^ 31 -> s32 z = z.
Proof.
  intros H. unfold s32. rewrite Z.mod_small; lia.
Qed.

(** The absorb call on a state whose counter is [c], away from the
    wrap-around of the counter. *)
Lemma transform_shape (s msg : list Z) (len c : Z) :
  Hash.state_box s Hash.MTPZ_HASHSTATE_88 = c ->
  0 <= c -> 0 <= len -> c + len < 2 ^ 31 ->
  Hash.mtpz_hash_transform_hash s msg len
  = let x := c mod 64 in
    let state := Hash.set_state_box s Hash.MTPZ_HASHSTATE_88 (len + c) in
    let '(state, i, j) :=
      if negb (x =? 0) && (len + x >? 0x3F)
      then
        let state := copy_bytes (Z.to_nat (64 - x)) state (Z.to_nat x) msg 0 in
        (Hash.mtpz_hash_compute_hash state state 64, len + x - 64, 64 - x)
      else (state, len, 0) in
    let n := Z.to_nat (i / 64) in
    let state := Hash.block_loop n state msg (Z.to_nat j) in
    let j := j + 64 * Z.of_nat n in
    let i := i - 64 * Z.of_nat n in
    if negb (i =? 0)
    then copy_bytes (Z.to_nat i) state (Z.to_nat x) msg (Z.to_nat j)
    else state.
Proof.
  intros Hc Hc0 Hl Hsum. unfold Hash.mtpz_hash_transform_hash.
  rewrite Hc. rewrite (s32_small c) by lia. rewrite land_63.
  rewrite (s32_small (len + c)) by lia.
  replace (len >? len + c) with false
    by (symmetry; rewrite Z.gtb_ltb; apply Z.ltb_ge; lia).
  reflexivity.
Qed.

Lemma counter_after_reset (s : list Z) :
  length s = 92%nat ->
  Hash.state_box (Hash.mtpz_hash_reset_state s) Hash.MTPZ_HASHSTATE_88 = 0.
Proof.
  intros Hs. unfold Hash.mtpz_hash_reset_state.
  rewrite state_box_set_same by (rewrite !length_set_state_box; cbn; lia).
  reflexivity.
Qed.

Lemma absorb_aligned (s msg : list Z) (l c : nat) :
  Hash.state_box s Hash.MTPZ_HASHSTATE_88 = Z.of_nat c ->
  (c mod 64 = 0)%nat -> Z.of_nat (c + l) < 2 ^ 31 ->
  Hash.mtpz_hash_transform_hash s msg (Z.of_nat l)
  = let st := Hash.block_loop (l / 64)
                (Hash.set_state_box s Hash.MTPZ_HASHSTATE_88 (Z.of_nat (c + l)))
                msg 0 in
    if (l mod 64 =? 0)%nat then st
    else copy_bytes (l mod 64) st 0 msg (64 * (l / 64)).
Proof.
  intros Hc Hx Hsum.
  rewrite (transform_shape s msg (Z.of_nat l) (Z.of_nat c)) by (assumption || lia).
  cbv zeta.
  replace (Z.of_nat c mod 64) with 0
    by (change 64 with (Z.of_nat 64); rewrite <- Nat2Z.inj_mod; lia).
  cbn [Z.eqb negb andb].
  replace (Z.of_nat l + Z.of_nat c) with (Z.of_nat (c + l)) by lia.
  replace (Z.to_nat (Z.of_nat l / 64)) with (l / 64)%nat
    by (change 64 with (Z.of_nat 64); rewrite <- Nat2Z.inj_div; lia).
  change (Z.to_nat 0) with 0%nat.
  pose proof (Nat.div_mod_eq l 64) as Hdm.
  replace (Z.of_nat l - 64 * Z.of_nat (l / 64)) with (Z.of_nat (l mod 64)) by lia.
  replace (0 + 64 * Z.of_nat (l / 64)) with (Z.of_nat (64 * (l / 64))) by lia.
  rewrite !Nat2Z.id.
  destruct (Nat.eqb_spec (l mod 64) 0) as [E | E].
  - rewrite E. reflexivity.
  - replace (Z.of_nat (l mod 64) =? 0) with false
      by (symmetry; apply Z.eqb_neq; lia).
    reflexivity.
Qed.

Lemma absorb_fill (s msg : list Z) (l c : nat) :
  Hash.state_box s Hash.MTPZ_HASHSTATE_88 = Z.of_nat c ->
  (c mod 64 + l < 64)%nat -> Z.of_nat (c + l) < 2 ^ 31 ->
  Hash.mtpz_hash_transform_hash s msg (Z.of_nat l)
  = let st := Hash.set_state_box s Hash.MTPZ_HASHSTATE_88 (Z.of_nat (c + l)) in
    if (l =? 0)%nat then st else copy_bytes l st (c mod 64) msg 0.
Proof.
  intros Hc Hx Hsum.
  rewrite (transform_shape s msg (Z.of_nat l) (Z.of_nat c)) by (assumption || lia).
  cbv zeta.
  replace (Z.of_nat c mod 64) with (Z.of_nat (c mod 64))
    by (change 64 with (Z.of_nat 64); now rewrite <- Nat2Z.inj_mod).
  replace (Z.of_nat l + Z.of_nat (c mod 64) >? 63) with false
    by (symmetry; rewrite Z.gtb_ltb; apply Z.ltb_ge; lia).
  rewrite andb_false_r.
  replace (Z.of_nat l + Z.of_nat c) with (Z.of_nat (c + l)) by lia.
  replace (Z.of_nat l / 64) with 0 by (symmetry; apply Z.div_small; lia).
  change (Z.to_nat 0) with 0%nat. cbn [Hash.block_loop].
  replace (Z.of_nat l - 64 * Z.of_nat 0) with (Z.of_nat l) by lia.
  rewrite !Nat2Z.id.
  destruct (Nat.eqb_spec l 0) as [E | E].
  - rewrite E. reflexivity.
  - replace (Z.of_nat l =? 0) with false by (symmetry; apply Z.eqb_neq; lia).
    reflexivity.
Qed.

Lemma absorb_cross (s msg : list Z) (l c k : nat) :
  Hash.state_box s Hash.MTPZ_HASHSTATE_88 = Z.of_nat c ->
  (c mod 64 <> 0)%nat -> (c mod 64 + l = 64 * (k + 1))%nat ->
  Z.of_nat (c + l) < 2 ^ 31 ->
  Hash.mtpz_hash_transform_hash s msg (Z.of_nat l)
  = let st := Hash.set_state_box s Hash.MTPZ_HASHSTATE_88 (Z.of_nat (c + l)) in
    let st := copy_bytes (64 - c mod 64) st (c mod 64) msg 0 in
    Hash.block_loop k (Hash.mtpz_hash_compute_hash st st 64) msg (64 - c mod 64).
Proof.
  intros Hc Hx Hk Hsum.
  rewrite (transform_shape s msg (Z.of_nat l) (Z.of_nat c)) by (assumption || lia).
  cbv zeta.
  replace (Z.of_nat c mod 64) with (Z.of_nat (c mod 64))
    by (change 64 with (Z.of_nat 64); now rewrite <- Nat2Z.inj_mod).
  pose proof (Nat.mod_upper_bound c 64 ltac:(lia)) as Hub.
  replace (Z.of_nat (c mod 64) =? 0) with false
    by (symmetry; apply Z.eqb_neq; lia).
  replace (Z.of_nat l + Z.of_nat (c mod 64) >? 63) with true
    by (symmetry; rewrite Z.gtb_ltb; apply Z.ltb_lt; lia).
  cbn [negb andb].
  replace (Z.of_nat l + Z.of_nat c) with (Z.of_nat (c + l)) by lia.
  replace (Z.of_nat l + Z.of_nat (c mod 64) - 64) with (Z.of_nat k * 64) by lia.
  rewrite Z.div_mul by lia. rewrite Nat2Z.id.
  replace (Z.of_nat k * 64 - 64 * Z.of_nat k) with 0 by lia.
  cbn [Z.eqb negb].
  replace (Z.to_nat (64 - Z.of_nat (c mod 64))) with (64 - c mod 64)%nat by lia.
  rewrite Nat2Z.id. reflexivity.
Qed.

Lemma copy_bytes_src_ext (n : nat) (dst : list Z) (doff : nat)
    (src src' : list Z) (soff soff' : nat) :
  (forall i, (i < n)%nat -> getb src (soff + i) = getb src' (soff' + i)) ->
  copy_bytes n dst doff src soff = copy_bytes n dst doff src' soff'.
Proof.
  revert dst doff soff soff'. induction n as [| n IH]; intros dst doff soff soff' H.
  - reflexivity.
  - cbn [copy_bytes]. rewrite <- (Nat.add_0_r soff), <- (Nat.add_0_r soff') at 1.
    rewrite (H 0%nat) by lia. rewrite !Nat.add_0_r.
    apply IH. intros i Hi.
    replace (S soff + i)%nat with (soff + S i)%nat by lia.
    replace (S soff' + i)%nat with (soff' + S i)%nat by lia.
    apply H. lia.
Qed.

Lemma copy_bytes_split (a b : nat) (dst : list Z) (doff : nat) (src : list Z)
    (soff : nat) :
  copy_bytes (a + b) dst doff src soff
  = copy_bytes b (copy_bytes a dst doff src soff) (doff + a) src (soff + a).
Proof.
  revert dst doff soff. induction a as [| a IH]; intros dst doff soff.
  - cbn [Nat.add copy_bytes]. now rewrite !Nat.add_0_r.
  - cbn [Nat.add copy_bytes]. rewrite IH. f_equal; lia.
Qed.

Section TwoCalls.

Variables r m1 m2 : list Z.
Hypothesis r_length : length r = 92%nat.
Hypothesis r_counter : Hash.state_box r Hash.MTPZ_HASHSTATE_88 = 0.
Hypothesis total : Z.of_nat (length m1 + length m2) < 2 ^ 31.

Let l1 := length m1.
Let l2 := length m2.
Let s1 := Hash.mtpz_hash_transform_hash r m1 (Z.of_nat l1).
Let whole := Hash.mtpz_hash_transform_hash r (m1 ++ m2) (Z.of_nat (l1 + l2)).
Let counted := Hash.set_state_box r Hash.MTPZ_HASHSTATE_88 (Z.of_nat (l1 + l2)).
Let B := Hash.block_loop (l1 / 64) counted m1 0.

Lemma first_call :
  s1 = let st := Hash.block_loop (l1 / 64)
                   (Hash.set_state_box r Hash.MTPZ_HASHSTATE_88 (Z.of_nat l1))
                   m1 0 in
       if (l1 mod 64 =? 0)%nat then st
       else copy_bytes (l1 mod 64) st 0 m1 (64 * (l1 / 64)).
Proof.
  unfold s1. rewrite (absorb_aligned r m1 l1 0); [reflexivity | exact r_counter | reflexivity |].
  unfold l1. cbn [Nat.add]. lia.
Qed.

Lemma first_call_length : length s1 = 92%nat.
Proof. unfold s1. now rewrite length_transform_hash. Qed.

Lemma first_call_counter :
  Hash.state_box s1 Hash.MTPZ_HASHSTATE_88 = Z.of_nat l1.
Proof.
  rewrite first_call. cbv zeta.
  pose proof (Nat.mod_upper_bound l1 64 ltac:(lia)).
  assert (E : Hash.state_box
                (Hash.block_loop (l1 / 64)
                   (Hash.set_state_box r Hash.MTPZ_HASHSTATE_88 (Z.of_nat l1)) m1 0)
                Hash.MTPZ_HASHSTATE_88 = Z.of_nat l1).
  { rewrite state_box_block_loop by (unfold Hash.MTPZ_HASHSTATE_88; lia).
    rewrite state_box_set_same by (rewrite r_length; cbn; lia).
    apply u32_small. unfold l1. lia. }
  destruct (l1 mod 64 =? 0)%nat; [exact E |].
  rewrite state_box_copy_bytes by lia. exact E.
Qed.

Lemma first_call_recounted :
  Hash.set_state_box s1 Hash.MTPZ_HASHSTATE_88 (Z.of_nat (l1 + l2))
  = if (l1 mod 64 =? 0)%nat then B
    else copy_bytes (l1 mod 64) B 0 m1 (64 * (l1 / 64)).
Proof.
  rewrite first_call. cbv zeta.
  pose proof (Nat.mod_upper_bound l1 64 ltac:(lia)).
  assert (E : Hash.set_state_box
                (Hash.block_loop (l1 / 64)
                   (Hash.set_state_box r Hash.MTPZ_HASHSTATE_88 (Z.of_nat l1)) m1 0)
                Hash.MTPZ_HASHSTATE_88 (Z.of_nat (l1 + l2)) = B).
  { unfold B, counted.
    rewrite <- block_loop_set_counter
      by (rewrite ?length_set_state_box; unfold Hash.MTPZ_HASHSTATE_88; lia).
    rewrite set_state_box_twice by (rewrite r_length; cbn; lia).
    reflexivity. }
  destruct (l1 mod 64 =? 0)%nat; [exact E |].
  rewrite set_state_box_copy_comm
    by (rewrite ?length_block_loop, ?length_set_state_box, ?r_length; cbn; lia).
  now rewrite E.
Qed.

Lemma whole_call :
  whole = let st := Hash.block_loop ((l1 + l2) / 64) counted (m1 ++ m2) 0 in
          if ((l1 + l2) mod 64 =? 0)%nat then st
          else copy_bytes ((l1 + l2) mod 64) st 0 (m1 ++ m2)
                 (64 * ((l1 + l2) / 64)).
Proof.
  unfold whole. rewrite (absorb_aligned r (m1 ++ m2) (l1 + l2) 0);
    [reflexivity | exact r_counter | reflexivity |].
  unfold l1, l2. cbn [Nat.add]. lia.
Qed.

Lemma B_length : length B = 92%nat.
Proof. unfold B, counted. now rewrite length_block_loop, length_set_state_box. Qed.

Lemma blocks_of_first (st : list Z) :
  Hash.block_loop (l1 / 64) st (m1 ++ m2) 0 = Hash.block_loop (l1 / 64) st m1 0.
Proof.
  apply block_loop_msg_ext. intros i Hi. cbn [Nat.add].
  rewrite getb_app. pose proof (Nat.div_mod_eq l1 64).
  case_decide; [reflexivity | unfold l1 in *; lia].
Qed.

Let second := Hash.mtpz_hash_transform_hash s1 m2 (Z.of_nat l2).

Lemma two_calls_aligned : (l1 mod 64 = 0)%nat -> second = whole.
Proof.
  intros Hx. pose proof (Nat.div_mod_eq l1 64) as H1.
  pose proof (Nat.div_mod_eq l2 64) as H2.
  unfold second.
  rewrite (absorb_aligned s1 m2 l2 l1)
    by (try apply first_call_counter; try exact Hx; unfold l1, l2; lia).
  cbv zeta. rewrite first_call_recounted, Hx. cbn [Nat.eqb].
  rewrite whole_call. cbv zeta.
  pose proof (Nat.mod_upper_bound l2 64 ltac:(lia)) as Hub.
  replace ((l1 + l2) / 64)%nat with (l1 / 64 + l2 / 64)%nat
    by (apply (Nat.div_unique _ _ _ (l2 mod 64)); lia).
  replace ((l1 + l2) mod 64)%nat with (l2 mod 64)%nat
    by (apply (Nat.mod_unique _ _ (l1 / 64 + l2 / 64)); lia).
  rewrite block_loop_add, blocks_of_first. fold B. cbn [Nat.add].
  assert (Eb : Hash.block_loop (l2 / 64) B (m1 ++ m2) (64 * (l1 / 64))
               = Hash.block_loop (l2 / 64) B m2 0).
  { apply block_loop_msg_ext. intros i Hi. rewrite getb_app.
    case_decide; [unfold l1 in *; lia |]. f_equal. unfold l1 in *. lia. }
  rewrite Eb. destruct (l2 mod 64 =? 0)%nat; [reflexivity |].
  apply copy_bytes_src_ext. intros i Hi. rewrite getb_app.
  case_decide; [unfold l1 in *; lia |]. f_equal. unfold l1 in *. lia.
Qed.

Lemma two_calls_fill :
  (l1 mod 64 <> 0)%nat -> (l1 mod 64 + l2 < 64)%nat -> second = whole.
Proof.
  intros Hx Hfit. pose proof (Nat.div_mod_eq l1 64) as H1.
  unfold second.
  rewrite (absorb_fill s1 m2 l2 l1)
    by (try apply first_call_counter; try exact Hfit; unfold l1, l2; lia).
  cbv zeta. rewrite first_call_recounted.
  replace (l1 mod 64 =? 0)%nat with false by (symmetry; now apply Nat.eqb_neq).
  rewrite whole_call. cbv zeta.
  assert (Hq : ((l1 + l2) / 64 = l1 / 64)%nat).
  { symmetry. apply (Nat.div_unique _ _ _ (l1 mod 64 + l2)); lia. }
  assert (Hm : ((l1 + l2) mod 64 = l1 mod 64 + l2)%nat).
  { symmetry. apply (Nat.mod_unique _ _ (l1 / 64)); lia. }
  rewrite Hq, Hm, blocks_of_first. fold B.
  replace (l1 mod 64 + l2 =? 0)%nat with false by (symmetry; apply Nat.eqb_neq; lia).
  rewrite copy_bytes_split. cbn [Nat.add].
  replace (copy_bytes (l1 mod 64) B 0 (m1 ++ m2) (64 * (l1 / 64)))
    with (copy_bytes (l1 mod 64) B 0 m1 (64 * (l1 / 64))).
  2: { apply copy_bytes_src_ext. intros i Hi. rewrite getb_app.
       case_decide; [reflexivity | unfold l1 in *; lia]. }
  destruct (Nat.eqb_spec l2 0) as [E | E].
  - rewrite E. reflexivity.
  - apply copy_bytes_src_ext. intros i Hi. rewrite getb_app.
    case_decide; [unfold l1 in *; lia |]. f_equal. unfold l1 in *. lia.
Qed.

Lemma two_calls_cross (k : nat) :
  (l1 mod 64 <> 0)%nat -> (l1 mod 64 + l2 = 64 * (k + 1))%nat ->
  second
  = copy_bytes (64 - l1 mod 64)
      (copy_bytes (l1 mod 64) whole 0 m1 (64 * (l1 / 64))) (l1 mod 64) m2 0.
Proof.
  intros Hx Hk. pose proof (Nat.div_mod_eq l1 64) as H1.
  pose proof (Nat.mod_upper_bound l1 64 ltac:(lia)) as Hub.
  unfold second.
  rewrite (absorb_cross s1 m2 l2 l1 k)
    by (try apply first_call_counter; try assumption; unfold l1, l2; lia).
  cbv zeta. rewrite first_call_recounted.
  replace (l1 mod 64 =? 0)%nat with false by (symmetry; now apply Nat.eqb_neq).
  rewrite whole_call. cbv zeta.
  assert (Hq : ((l1 + l2) / 64 = l1 / 64 + (1 + k))%nat).
  { symmetry. apply (Nat.div_unique _ _ _ 0); lia. }
  assert (Hm : ((l1 + l2) mod 64 = 0)%nat).
  { symmetry. apply (Nat.mod_unique _ _ (l1 / 64 + (1 + k))); lia. }
  rewrite Hq, Hm. cbn [Nat.eqb].
  rewrite block_loop_add, blocks_of_first. fold B. cbn [Nat.add Hash.block_loop].
  set (x := (l1 mod 64)%nat) in *. set (o := (64 * (l1 / 64))%nat) in *.
  set (F := fun st => copy_bytes (64 - x) (copy_bytes x st 0 m1 o) x m2 0).
  change (copy_bytes (64 - x) (copy_bytes x B 0 m1 o) x m2 0) with (F B).
  assert (HF : forall st, length st = 92%nat ->
            Hash.mtpz_hash_compute_hash (F st) (drop o (m1 ++ m2)) 64
            = F (Hash.mtpz_hash_compute_hash st (drop o (m1 ++ m2)) 64)).
  { intros st Hst. unfold F.
    rewrite !compute_hash_copy_comm by (rewrite ?length_copy_bytes; lia).
    reflexivity. }
  rewrite (compute_hash_msg_ext (F B) (F B) (drop o (m1 ++ m2))).
  2: { intros i Hi. unfold F.
       rewrite getb_copy_bytes_in by (rewrite length_copy_bytes, B_length; lia).
       rewrite getb_copy_bytes_in by (rewrite B_length; lia).
       rewrite getb_drop, getb_app.
       repeat (case_decide; try (unfold l1 in *; lia));
         f_equal; unfold l1 in *; lia. }
  rewrite HF by apply B_length.
  unfold F at 1.
  rewrite !block_loop_copy_comm
    by (rewrite ?length_copy_bytes, ?length_compute_hash, ?B_length; lia).
  unfold F. do 2 f_equal.
  apply block_loop_msg_ext. intros i Hi. rewrite getb_app.
  case_decide; [unfold l1 in *; lia |]. f_equal. unfold l1 in *. lia.
Qed.

Lemma whole_length : length whole = 92%nat.
Proof. unfold whole. now rewrite length_transform_hash. Qed.

Lemma whole_counter :
  Hash.state_box whole Hash.MTPZ_HASHSTATE_88 = Z.of_nat (l1 + l2).
Proof.
  rewrite whole_call. cbv zeta.
  pose proof (Nat.mod_upper_bound (l1 + l2)%nat 64%nat ltac:(lia)).
  assert (E : Hash.state_box
                (Hash.block_loop ((l1 + l2) / 64) counted (m1 ++ m2) 0)
                Hash.MTPZ_HASHSTATE_88 = Z.of_nat (l1 + l2)).
  { rewrite state_box_block_loop by (unfold Hash.MTPZ_HASHSTATE_88; lia).
    unfold counted.
    rewrite state_box_set_same by (rewrite r_length; cbn; lia).
    apply u32_small. unfold l1, l2. lia. }
  destruct ((l1 + l2) mod 64 =? 0)%nat; [exact E |].
  rewrite state_box_copy_bytes by lia. exact E.
Qed.

Lemma two_calls_digest (out : list Z) (off : nat) :
  (l1 mod 64 = 0 \/ l1 mod 64 + l2 < 64 \/ (l1 + l2) mod 64 = 0)%nat ->
  snd (Hash.mtpz_hash_finalize_hash second out off)
  = snd (Hash.mtpz_hash_finalize_hash whole out off).
Proof.
  intros H.
  destruct (Nat.eq_dec (l1 mod 64)%nat 0%nat) as [Hx | Hx];
    [now rewrite two_calls_aligned |].
  destruct (Nat.lt_ge_cases (l1 mod 64 + l2)%nat 64%nat) as [Hfit | Hge];
    [now rewrite two_calls_fill |].
  destruct H as [H | [H | H]]; [contradiction | lia |].
  pose proof (Nat.div_mod_eq l1 64) as H1.
  pose proof (Nat.div_mod_eq (l1 + l2)%nat 64%nat) as H2.
  pose proof (Nat.mod_upper_bound l1 64 ltac:(lia)) as Hub.
  assert (Hk : (l1 mod 64 + l2
                = 64 * (((l1 + l2) / 64 - l1 / 64 - 1) + 1))%nat) by lia.
  rewrite (two_calls_cross _ Hx Hk).
  apply finalize_agree.
  set (x := (l1 mod 64)%nat) in *.
  set (a := copy_bytes (64 - x) (copy_bytes x whole 0 m1 (64 * (l1 / 64))) x m2 0).
  assert (Hc : Hash.state_box a Hash.MTPZ_HASHSTATE_88 = Z.of_nat (l1 + l2)).
  { unfold a. rewrite !state_box_copy_bytes by lia. apply whole_counter. }
  assert (Hfill : fill a = 0%nat).
  { apply Nat2Z.inj. rewrite fill_spec, Hc.
    change 64 with (Z.of_nat 64). rewrite <- Nat2Z.inj_mod. now rewrite H. }
  rewrite Hfill. unfold states_agree, a.
  rewrite !length_copy_bytes, whole_length. repeat split.
  intros j [Hj | Hj]; [lia |].
  rewrite getb_copy_bytes_in by (rewrite length_copy_bytes, whole_length; lia).
  rewrite getb_copy_bytes_in by (rewrite whole_length; lia).
  repeat (case_decide; try lia); reflexivity.
Qed.

End TwoCalls.

(** X11.  Absorbing a message in two calls.  After a reset, absorbing
    [m1] and then [m2] leads to the same digest as absorbing [m1 ++ m2]
    in one call whenever the second call starts on a block boundary, or
    fits in what is left of the 64-byte buffer, or ends exactly on a
    block boundary. *)
Theorem absorb_in_two_calls (state m1 m2 out : list Z) (off : nat) :
  length state = 92%nat ->
  Z.of_nat (length m1 + length m2) < 2 ^ 31 ->
  (length m1 mod 64 = 0 \/ length m1 mod 64 + length m2 < 64
   \/ (length m1 + length m2) mod 64 = 0)%nat ->
  let r := Hash.mtpz_hash_reset_state state in
  let two :=
    Hash.mtpz_hash_transform_hash
      (Hash.mtpz_hash_transform_hash r m1 (Z.of_nat (length m1)))
      m2 (Z.of_nat (length m2)) in
  let one :=
    Hash.mtpz_hash_transform_hash r (m1 ++ m2) (Z.of_nat (length (m1 ++ m2))) in
  snd (Hash.mtpz_hash_finalize_hash two out off)
  = snd (Hash.mtpz_hash_finalize_hash one out off).
Proof.
  intros Hs Ht Hc r two one. unfold two, one. rewrite length_app.
  apply (two_calls_digest r m1 m2).
  - unfold r. now rewrite length_reset_state.
  - now apply counter_after_reset.
  - exact Ht.
  - exact Hc.
Qed.

Lemma absorb_in_two_calls_witness :
  snd (Hash.mtpz_hash_finalize_hash
         (Hash.mtpz_hash_transform_hash
            (Hash.mtpz_hash_transform_hash
               (Hash.mtpz_hash_reset_state Hash.mtpz_hash_init_state)
               (repeat 0x41 60) (Z.of_nat (length (repeat 0x41 60))))
            (repeat 0x42 4) (Z.of_nat (length (repeat 0x42 4))))
         (zeros 20) 0)
  = snd (Hash.mtpz_hash_finalize_hash
           (Hash.mtpz_hash_transform_hash
              (Hash.mtpz_hash_reset_state Hash.mtpz_hash_init_state)
              (repeat 0x41 60 ++ repeat 0x42 4)
              (Z.of_nat (length (repeat 0x41 60 ++ repeat 0x42 4))))
           (zeros 20) 0).
Proof.
  apply (absorb_in_two_calls Hash.mtpz_hash_init_state (repeat 0x41 60)
           (repeat 0x42 4) (zeros 20) 0).
  - reflexivity.
  - vm_compute. reflexivity.
  - right. right. reflexivity.
Defined.

(** ** AES: what the block functions and the modes touch *)

Lemma enc_key_ok (expanded : list Z) (i : nat) : words_ok (enc_key expanded i).
Proof. apply load_words_ok. Qed.

Lemma dec_key_ok (expanded : list Z) (i : nat) : words_ok (dec_key expanded i).
Proof. apply load_words_ok. Qed.

Lemma encrypt_custom_bytes (data : list Z) (off : nat) (seed : option (list Z))
    (expanded : list Z) :
  (off + 16 <= length data)%nat ->
  Aes.mtpz_encryption_encrypt_custom data off seed expanded
  = take off data
    ++ words_bytes (enc_core (enc_key expanded) (seed_words data off seed))
    ++ drop (off + 16) data.
Proof.
  intros H. rewrite encrypt_custom_core. apply store_words_bytes; [exact H |].
  apply enc_core_ok, enc_key_ok.
Qed.

Lemma decrypt_custom_bytes (data : list Z) (off : nat) (seed : option (list Z))
    (expanded : list Z) :
  (off + 16 <= length data)%nat ->
  Aes.mtpz_encryption_decrypt_custom data off seed expanded
  = take off data
    ++ words_bytes (dec_core (dec_key expanded) (seed_words data off seed))
    ++ drop (off + 16) data.
Proof.
  intros H. rewrite decrypt_custom_core. apply store_words_bytes; [exact H |].
  apply dec_core_ok, dec_key_ok.
Qed.

Lemma block_frame (data v : list Z) (off : nat) :
  (off + 16 <= length data)%nat -> length v = 16%nat ->
  let data' := take off data ++ v ++ drop (off + 16) data in
  length data' = length data
  /\ take off data' = take off data
  /\ drop (off + 16) data' = drop (off + 16) data.
Proof.
  intros Hl Hv data'. unfold data'.
  assert (Ht : length (take off data) = off) by (rewrite length_take_le; lia).
  split; [| split].
  - rewrite !length_app, Ht, Hv, length_drop. lia.
  - rewrite take_app_length' by lia. reflexivity.
  - rewrite app_assoc, drop_app_length' by (rewrite length_app; lia).
    reflexivity.
Qed.

(** X12.  The block functions write the sixteen bytes of their block
    and nothing else, whatever the schedule and the seed are: the buffer
    keeps its length, the bytes before the block and the bytes after
    it. *)
Theorem block_functions_write_one_block (data : list Z) (off : nat)
    (seed : option (list Z)) (expanded : list Z) (encrypt : bool) :
  (off + 16 <= length data)%nat ->
  let data' :=
    if encrypt
    then Aes.mtpz_encryption_encrypt_custom data off seed expanded
    else Aes.mtpz_encryption_decrypt_custom data off seed expanded in
  length data' = length data
  /\ take off data' = take off data
  /\ drop (off + 16) data' = drop (off + 16) data.
Proof.
  intros H data'. unfold data'. destruct encrypt.
  - rewrite encrypt_custom_bytes by exact H.
    apply block_frame; [exact H | apply length_words_bytes].
  - rewrite decrypt_custom_bytes by exact H.
    apply block_frame; [exact H | apply length_words_bytes].
Qed.

Lemma block_functions_write_one_block_witness :
  length (Aes.mtpz_encryption_encrypt_custom Samples.two_blocks 16 None
            (zeros 484))
  = length Samples.two_blocks.
Proof.
  apply (block_functions_write_one_block Samples.two_blocks 16 None (zeros 484)
           true).
  vm_compute. lia.
Defined.


(** X13.  With a seed, the block functions take their input block from
    the seed and use [data] for the output only: the call does what the
    seedless call does on the buffer with the seed's first sixteen bytes
    put in place of the block. *)
Theorem seed_is_the_input_block (data seed : list Z) (off : nat)
    (expanded : list Z) (encrypt : bool) :
  (off + 16 <= length data)%nat -> (16 <= length seed)%nat ->
  let data' := take off data ++ take 16 seed ++ drop (off + 16) data in
  (if encrypt
   then Aes.mtpz_encryption_encrypt_custom data off (Some seed) expanded
   else Aes.mtpz_encryption_decrypt_custom data off (Some seed) expanded)
  = (if encrypt
     then Aes.mtpz_encryption_encrypt_custom data' off None expanded
     else Aes.mtpz_encryption_decrypt_custom data' off None expanded).
Proof.
  intros Hd Hs data'.
  assert (Ht : length (take off data) = off) by (rewrite length_take_le; lia).
  destruct (block_frame data (take 16 seed) off Hd) as (Hl & Hpre & Hpost);
    [rewrite length_take_le; lia |].
  fold data' in Hl, Hpre, Hpost.
  assert (Hw : seed_words data' off None = seed_words data off (Some seed)).
  { unfold seed_words, data'. apply load_words_ext. intros k Hk.
    rewrite (load32_app_skip (take off data) _ off k Ht).
    apply load32_ext. intros i Hi.
    rewrite getb_app, length_take_le by lia.
    case_decide; [| lia]. rewrite getb_take. case_decide; [reflexivity | lia]. }
  destruct encrypt.
  - rewrite !encrypt_custom_bytes by lia. now rewrite Hw, Hpre, Hpost.
  - rewrite !decrypt_custom_bytes by lia. now rewrite Hw, Hpre, Hpost.
Qed.

Lemma seed_is_the_input_block_witness :
  Aes.mtpz_encryption_encrypt_custom (zeros 16) 0 (Some Samples.aes_block)
    (zeros 484)
  = Aes.mtpz_encryption_encrypt_custom
      (take 0 (zeros 16) ++ take 16 Samples.aes_block ++ drop (0 + 16) (zeros 16))
      0 None (zeros 484).
Proof.
  apply (seed_is_the_input_block (zeros 16) Samples.aes_block 0 (zeros 484) true);
    vm_compute; lia.
Defined.

(** *** The chaining mode with any key *)

Lemma cbc_loop_encrypt_rest (expanded : list Z) (xs : list Aes.words) :
  Forall words_ok xs ->
  forall (fuel : nat) (done out rest : list Z) (iv : Aes.words) (w : nat),
    length done = (4 * w)%nat -> length out = 16%nat -> words_ok iv ->
    (length xs <= fuel)%nat ->
    Aes.cbc_data
      (Aes.cbc_loop fuel true expanded
         (Aes.CbcState (done ++ flat_map words_bytes xs ++ rest)
            (Z.of_nat (length done)) (16 * Z.of_nat (length xs)) out
            (words_list iv)))
    = done ++ flat_map words_bytes (cbc_enc_blocks (enc_key expanded) iv xs)
      ++ rest.
Proof.
  induction 1 as [| x r Hx Hr IH]; intros fuel done out rest iv w Hd Ho Hiv Hf.
  - destruct fuel; reflexivity.
  - destruct fuel as [| fuel]; [cbn [length] in Hf; lia |].
    cbn [Aes.cbc_loop Aes.cbc_count].
    replace (16 * Z.of_nat (length (x :: r)) =? 0) with false
      by (symmetry; apply Z.eqb_neq; cbn [length]; lia).
    cbn [flat_map]. rewrite <- (app_assoc (words_bytes x)).
    rewrite (cbc_step_encrypt expanded (enc_key_ok expanded) done _ out x iv w)
      by (cbn [length]; lia || assumption).
    cbv zeta. set (c := enc_core (enc_key expanded) (xorw x iv)).
    cbn [cbc_enc_blocks]. fold c.
    rewrite (app_assoc done (words_bytes c)).
    replace (Z.of_nat (length done) + 16)
      with (Z.of_nat (length (done ++ words_bytes c)))
      by (rewrite length_app, length_words_bytes; lia).
    replace (16 * Z.of_nat (length (x :: r)) - 16)
      with (16 * Z.of_nat (length r)) by (cbn [length]; lia).
    rewrite (IH fuel _ _ _ c (w + 4)%nat).
    + cbn [flat_map]. now rewrite <- !app_assoc.
    + rewrite length_app, length_words_bytes. lia.
    + apply length_words_bytes.
    + apply enc_core_ok, enc_key_ok.
    + cbn [length] in Hf. lia.
Qed.

Lemma cbc_loop_decrypt_rest (expanded : list Z) (cs : list Aes.words) :
  Forall words_ok cs ->
  forall (fuel : nat) (done out rest : list Z) (iv : Aes.words) (w : nat),
    length done = (4 * w)%nat -> length out = 16%nat -> words_ok iv ->
    (length cs <= fuel)%nat ->
    Aes.cbc_data
      (Aes.cbc_loop fuel false expanded
         (Aes.CbcState (done ++ flat_map words_bytes cs ++ rest)
            (Z.of_nat (length done)) (16 * Z.of_nat (length cs)) out
            (words_list iv)))
    = done ++ flat_map words_bytes (cbc_dec_blocks (dec_key expanded) iv cs)
      ++ rest.
Proof.
  induction 1 as [| c r Hc Hr IH]; intros fuel done out rest iv w Hd Ho Hiv Hf.
  - destruct fuel; reflexivity.
  - destruct fuel as [| fuel]; [cbn [length] in Hf; lia |].
    cbn [Aes.cbc_loop Aes.cbc_count].
    replace (16 * Z.of_nat (length (c :: r)) =? 0) with false
      by (symmetry; apply Z.eqb_neq; cbn [length]; lia).
    cbn [flat_map]. rewrite <- (app_assoc (words_bytes c)).
    rewrite (cbc_step_decrypt expanded (dec_key_ok expanded 0) done _ out c iv w)
      by (cbn [length]; lia || assumption).
    cbv zeta. set (x := xorw (dec_core (dec_key expanded) c) iv).
    cbn [cbc_dec_blocks]. fold x.
    rewrite (app_assoc done (words_bytes x)).
    replace (Z.of_nat (length done) + 16)
      with (Z.of_nat (length (done ++ words_bytes x)))
      by (rewrite length_app, length_words_bytes; lia).
    replace (16 * Z.of_nat (length (c :: r)) - 16)
      with (16 * Z.of_nat (length r)) by (cbn [length]; lia).
    rewrite (IH fuel _ _ _ c (w + 4)%nat).
    + cbn [flat_map]. now rewrite <- !app_assoc.
    + rewrite length_app, length_words_bytes. lia.
    + apply length_words_bytes.
    + exact Hc.
    + cbn [length] in Hf. lia.
Qed.

(** The run of the mode on whole blocks followed by other bytes, as a
    function on blocks. *)
Lemma cipher_advanced_blocks (key : list Z) (key_len : Z) (p rest : list Z)
    (n : nat) (encrypt : bool) :
  bytes_ok p -> length p = (16 * n)%nat ->
  let expanded :=
    Aes.mtpz_encryption_expand_key key key_len
      (Aes.cipher_advanced_rounds key_len) in
  Aes.mtpz_encryption_cipher_advanced key key_len (p ++ rest)
    (Z.of_nat (length p)) encrypt
  = flat_map words_bytes
      (if encrypt
       then cbc_enc_blocks (enc_key expanded) (0, 0, 0, 0) (to_blocks n p)
       else cbc_dec_blocks (dec_key expanded) (0, 0, 0, 0) (to_blocks n p))
    ++ rest.
Proof.
  intros Hp Hl expanded. unfold Aes.mtpz_encryption_cipher_advanced.
  fold expanded.
  assert (Hz : words_ok (0, 0, 0, 0)) by (unfold words_ok, word_ok; lia).
  set (xs := to_blocks n p).
  assert (Hxs : Forall words_ok xs) by apply to_blocks_ok.
  assert (Hn : length xs = n) by apply length_to_blocks.
  assert (Hlen : Z.of_nat (length p) = 16 * Z.of_nat (length xs)) by lia.
  set (fuel := Z.to_nat (Z.of_nat (length p))).
  assert (Hfuel : (length xs <= fuel)%nat) by (unfold fuel; lia).
  clearbody fuel. rewrite Hlen.
  rewrite <- (to_blocks_bytes n p Hp Hl). fold xs.
  destruct encrypt.
  - exact (cbc_loop_encrypt_rest expanded xs Hxs _ [] (zeros 16) rest
             (0, 0, 0, 0) 0 eq_refl eq_refl Hz Hfuel).
  - exact (cbc_loop_decrypt_rest expanded xs Hxs _ [] (zeros 16) rest
             (0, 0, 0, 0) 0 eq_refl eq_refl Hz Hfuel).
Qed.

Lemma to_blocks_app (n1 n2 : nat) (p1 p2 : list Z) :
  length p1 = (16 * n1)%nat ->
  to_blocks (n1 + n2) (p1 ++ p2) = to_blocks n1 p1 ++ to_blocks n2 p2.
Proof.
  revert p1. induction n1 as [| n1 IH]; intros p1 Hl.
  - destruct p1; [reflexivity | discriminate Hl].
  - cbn [Nat.add to_blocks app]. f_equal.
    + apply load_words_ext. intros k Hk. apply load32_ext. intros i Hi.
      rewrite getb_app. case_decide; [reflexivity | lia].
    + rewrite drop_app_le by lia. apply IH. rewrite length_drop. lia.
Qed.

Lemma cbc_enc_blocks_app (rk : nat -> Aes.words) (iv : Aes.words)
    (xs ys : list Aes.words) :
  exists iv',
    cbc_enc_blocks rk iv (xs ++ ys)
    = cbc_enc_blocks rk iv xs ++ cbc_enc_blocks rk iv' ys.
Proof.
  revert iv. induction xs as [| x xs IH]; intros iv.
  - exists iv. reflexivity.
  - cbn [app cbc_enc_blocks].
    destruct (IH (enc_core rk (xorw x iv))) as [iv' E].
    exists iv'. now rewrite E.
Qed.

Lemma cbc_dec_blocks_app (dk : nat -> Aes.words) (iv : Aes.words)
    (xs ys : list Aes.words) :
  exists iv',
    cbc_dec_blocks dk iv (xs ++ ys)
    = cbc_dec_blocks dk iv xs ++ cbc_dec_blocks dk iv' ys.
Proof.
  revert iv. induction xs as [| x xs IH]; intros iv.
  - exists iv. reflexivity.
  - cbn [app cbc_dec_blocks]. destruct (IH x) as [iv' E].
    exists iv'. now rewrite E.
Qed.

Lemma length_flat_map_words (xs : list Aes.words) :
  length (flat_map words_bytes xs) = (16 * length xs)%nat.
Proof.
  induction xs as [| x xs IH]; cbn [flat_map length]; [reflexivity |].
  rewrite length_app, length_words_bytes, IH. lia.
Qed.

Lemma length_cbc_dec_blocks (dk : nat -> Aes.words) (iv : Aes.words)
    (cs : list Aes.words) :
  length (cbc_dec_blocks dk iv cs) = length cs.
Proof.
  revert iv. induction cs as [| c cs IH]; intros iv; cbn [cbc_dec_blocks length].
  - reflexivity.
  - now rewrite IH.
Qed.

(** X14.  The chaining mode stays inside [data_len]: run on whole
    blocks followed by other bytes, with a key of 16 or 24 bytes and in
    either direction, it leaves those other bytes as they are and does
    to the blocks what it does to them alone. *)
Theorem cbc_leaves_bytes_after_data_len (key : list Z) (key_len : Z)
    (p rest : list Z) (n : nat) (encrypt : bool) :
  key_len = 16 \/ key_len = 24 -> Z.of_nat (length key) = key_len ->
  bytes_ok p -> length p = (16 * n)%nat -> Z.of_nat (length p) < 2 ^ 31 ->
  Aes.mtpz_encryption_cipher_advanced key key_len (p ++ rest)
    (Z.of_nat (length p)) encrypt
  = Aes.mtpz_encryption_cipher_advanced key key_len p (Z.of_nat (length p))
      encrypt ++ rest.
Proof.
  intros _ _ Hp Hl _.
  pose proof (cipher_advanced_blocks key key_len p [] n encrypt Hp Hl) as H0.
  cbv zeta in H0. rewrite !app_nil_r in H0. rewrite H0.
  apply (cipher_advanced_blocks key key_len p rest n encrypt Hp Hl).
Qed.

Lemma cbc_leaves_bytes_after_data_len_witness :
  Aes.mtpz_encryption_cipher_advanced Samples.aes_key_192 24
    (Samples.two_blocks ++ [1; 2; 3]) (Z.of_nat (length Samples.two_blocks))
    true
  = Aes.mtpz_encryption_cipher_advanced Samples.aes_key_192 24
      Samples.two_blocks (Z.of_nat (length Samples.two_blocks)) true
    ++ [1; 2; 3].
Proof.
  apply (cbc_leaves_bytes_after_data_len Samples.aes_key_192 24
           Samples.two_blocks [1; 2; 3] 2 true).
  - right. reflexivity.
  - reflexivity.
  - apply bytes_ok_check. reflexivity.
  - reflexivity.
  - reflexivity.
Defined.

(** X15.  Chaining runs forward only: with a key of 16 or 24 bytes and
    in either direction, what the mode makes of the first blocks of a
    buffer does not depend on the blocks that follow.  The result on
    [p1 ++ p2] starts with the result on [p1]. *)
Theorem cbc_prefix (key : list Z) (key_len : Z) (p1 p2 : list Z)
    (n1 n2 : nat) (encrypt : bool) :
  key_len = 16 \/ key_len = 24 -> Z.of_nat (length key) = key_len ->
  bytes_ok p1 -> bytes_ok p2 ->
  length p1 = (16 * n1)%nat -> length p2 = (16 * n2)%nat ->
  Z.of_nat (length (p1 ++ p2)) < 2 ^ 31 ->
  take (length p1)
    (Aes.mtpz_encryption_cipher_advanced key key_len (p1 ++ p2)
       (Z.of_nat (length (p1 ++ p2))) encrypt)
  = Aes.mtpz_encryption_cipher_advanced key key_len p1 (Z.of_nat (length p1))
      encrypt.
Proof.
  intros _ _ H1 H2 L1 L2 _.
  assert (H12 : bytes_ok (p1 ++ p2)) by (apply bytes_ok_app; now split).
  assert (L12 : length (p1 ++ p2) = (16 * (n1 + n2))%nat)
    by (rewrite length_app; lia).
  pose proof (cipher_advanced_blocks key key_len (p1 ++ p2) [] (n1 + n2)
                encrypt H12 L12) as Hw.
  pose proof (cipher_advanced_blocks key key_len p1 [] n1 encrypt H1 L1) as Hf.
  cbv zeta in Hw, Hf. rewrite !app_nil_r in Hw, Hf. rewrite Hw, Hf.
  rewrite (to_blocks_app n1 n2 p1 p2 L1).
  set (expanded := Aes.mtpz_encryption_expand_key key key_len
                     (Aes.cipher_advanced_rounds key_len)).
  destruct encrypt.
  - destruct (cbc_enc_blocks_app (enc_key expanded) (0, 0, 0, 0)
                (to_blocks n1 p1) (to_blocks n2 p2)) as [iv' E].
    rewrite E, flat_map_app. apply take_app_length'.
    rewrite length_flat_map_words, length_cbc_enc_blocks, length_to_blocks.
    exact L1.
  - destruct (cbc_dec_blocks_app (dec_key expanded) (0, 0, 0, 0)
                (to_blocks n1 p1) (to_blocks n2 p2)) as [iv' E].
    rewrite E, flat_map_app. apply take_app_length'.
    rewrite length_flat_map_words, length_cbc_dec_blocks, length_to_blocks.
    exact L1.
Qed.

Lemma cbc_prefix_witness :
  take (length Samples.aes_block)
    (Aes.mtpz_encryption_cipher_advanced Samples.aes_key_128 16
       (Samples.aes_block ++ Samples.aes_block)
       (Z.of_nat (length (Samples.aes_block ++ Samples.aes_block))) true)
  = Aes.mtpz_encryption_cipher_advanced Samples.aes_key_128 16
      Samples.aes_block (Z.of_nat (length Samples.aes_block)) true.
Proof.
  apply (cbc_prefix Samples.aes_key_128 16 Samples.aes_block Samples.aes_block
           1 1 true);
    try (apply bytes_ok_check; reflexivity); try reflexivity.
  left. reflexivity.
Defined.

(** *** Block-by-block mode with the stored key *)

Lemma ecb_loop_blocks (expanded : list Z) (encrypt : bool) (xs : list Aes.words) :
  Forall words_ok xs -> xs <> [] ->
  forall (fuel : nat) (done rest : list Z),
    (length xs <= fuel)%nat ->
    Aes.ecb_loop fuel encrypt expanded (done ++ flat_map words_bytes xs ++ rest)
      (Z.of_nat (length done)) (16 * Z.of_nat (length xs))
    = done
      ++ flat_map
           (fun x => words_bytes
                       (if encrypt then enc_core (enc_key expanded) x
                        else dec_core (dec_key expanded) x)) xs
      ++ rest.
Proof.
  induction 1 as [| x r Hx Hr IH]; intros Hne fuel done rest Hf;
    [contradiction |].
  destruct fuel as [| fuel]; [cbn [length] in Hf; lia |].
  cbn [Aes.ecb_loop flat_map]. rewrite Nat2Z.id.
  rewrite <- !(app_assoc (words_bytes x)).
  set (y := if encrypt then enc_core (enc_key expanded) x
            else dec_core (dec_key expanded) x).
  assert (Hstep :
    (if encrypt
     then Aes.mtpz_encryption_encrypt_custom
            (done ++ words_bytes x ++ flat_map words_bytes r ++ rest)
            (length done) None expanded
     else Aes.mtpz_encryption_decrypt_custom
            (done ++ words_bytes x ++ flat_map words_bytes r ++ rest)
            (length done) None expanded)
    = done ++ words_bytes y ++ flat_map words_bytes r ++ rest).
  { unfold y. destruct encrypt.
    - rewrite encrypt_custom_core. unfold seed_words.
      rewrite load_words_bytes by (reflexivity || assumption).
      apply store_words_mid; [apply length_words_bytes |].
      apply enc_core_ok, enc_key_ok.
    - rewrite decrypt_custom_core. unfold seed_words.
      rewrite load_words_bytes by (reflexivity || assumption).
      apply store_words_mid; [apply length_words_bytes |].
      apply dec_core_ok, dec_key_ok. }
  rewrite Hstep.
  destruct r as [| x' r'].
  - cbn [length flat_map app].
    change (16 * Z.of_nat 1 - 16 =? 0) with true. cbv iota.
    now rewrite app_nil_r.
  - replace (16 * Z.of_nat (length (x :: x' :: r')) - 16 =? 0) with false
      by (symmetry; apply Z.eqb_neq; cbn [length]; lia).
    rewrite (app_assoc done (words_bytes y)).
    replace (Z.of_nat (length done) + 16)
      with (Z.of_nat (length (done ++ words_bytes y)))
      by (rewrite length_app, length_words_bytes; lia).
    replace (16 * Z.of_nat (length (x :: x' :: r')) - 16)
      with (16 * Z.of_nat (length (x' :: r'))) by (cbn [length]; lia).
    rewrite IH by (try discriminate; cbn [length] in *; lia).
    now rewrite <- !app_assoc.
Qed.

Lemma land_15 (z : Z) : Z.land z 0x0F = z mod 16.
Proof. change 0x0F with (Z.ones 4). rewrite Z.land_ones by lia. reflexivity. Qed.

Lemma cipher_blocks (key data : list Z) (n : nat) (encrypt : bool) :
  bytes_ok data -> length data = (16 * n)%nat ->
  Z.of_nat (length data) < 2 ^ 31 ->
  let expanded := Aes.mtpz_encryption_expand_key key 16 10 in
  Aes.mtpz_encryption_cipher key data (Z.of_nat (length data)) encrypt
  = flat_map
      (fun x => words_bytes
                  (if encrypt then enc_core (enc_key expanded) x
                   else dec_core (dec_key expanded) x)) (to_blocks n data).
Proof.
  intros Hd Hl Hb expanded. unfold Aes.mtpz_encryption_cipher. fold expanded.
  rewrite s32_small by lia. rewrite land_15.
  replace (Z.of_nat (length data) mod 16) with 0
    by (rewrite Hl; replace (Z.of_nat (16 * n)) with (Z.of_nat n * 16) by lia;
        now rewrite Z.mod_mul).
  cbn [Z.eqb].
  destruct n as [| n].
  - destruct data; [reflexivity | discriminate Hl].
  - replace (Z.of_nat (length data) =? 0) with false
      by (symmetry; apply Z.eqb_neq; lia).
    cbn [negb].
    set (xs := to_blocks (S n) data).
    assert (Hxs : Forall words_ok xs) by apply to_blocks_ok.
    assert (Hn : length xs = S n) by apply length_to_blocks.
    pose proof (ecb_loop_blocks expanded encrypt xs Hxs) as H.
    specialize (H ltac:(intros E; rewrite E in Hn; discriminate Hn)
                  (Z.to_nat (Z.of_nat (length data) / 16)) [] []).
    cbn [app length] in H. rewrite !app_nil_r in H.
    assert (Hbytes : flat_map words_bytes xs = data)
      by (unfold xs; now apply to_blocks_bytes).
    rewrite Hbytes in H.
    replace (16 * Z.of_nat (length xs)) with (Z.of_nat (length data)) in H by lia.
    apply H. rewrite Hl, Hn.
    replace (Z.of_nat (16 * S n)) with (Z.of_nat (S n) * 16) by lia.
    rewrite Z.div_mul by lia. lia.
Qed.

Lemma flat_map_words_map (f : Aes.words -> Aes.words) (xs : list Aes.words) :
  flat_map (fun x => words_bytes (f x)) xs = flat_map words_bytes (map f xs).
Proof.
  induction xs as [| x xs IH]; cbn [flat_map map]; [reflexivity |].
  now rewrite IH.
Qed.

Lemma bytes_ok_flat_map_words (xs : list Aes.words) :
  bytes_ok (flat_map words_bytes xs).
Proof.
  induction xs as [| x xs IH]; cbn [flat_map].
  - apply Forall_nil_2.
  - apply bytes_ok_app. split; [apply bytes_ok_words_bytes | exact IH].
Qed.

Lemma to_blocks_flat_map (ys : list Aes.words) (rest : list Z) :
  Forall words_ok ys ->
  to_blocks (length ys) (flat_map words_bytes ys ++ rest) = ys.
Proof.
  induction 1 as [| y ys Hy Hys IH]; cbn [length to_blocks flat_map];
    [reflexivity |].
  rewrite <- app_assoc. f_equal.
  - exact (load_words_bytes [] _ 0 y eq_refl Hy).
  - rewrite drop_app_length' by (now rewrite length_words_bytes). exact IH.
Qed.

(** X16.  The mode with the stored key works block by block: on two
    runs of whole blocks put end to end it gives the two results put
    end to end, in either direction and for any key. *)
Theorem cipher_block_by_block (key p1 p2 : list Z) (n1 n2 : nat)
    (encrypt : bool) :
  bytes_ok p1 -> bytes_ok p2 ->
  length p1 = (16 * n1)%nat -> length p2 = (16 * n2)%nat ->
  Z.of_nat (length (p1 ++ p2)) < 2 ^ 31 ->
  Aes.mtpz_encryption_cipher key (p1 ++ p2) (Z.of_nat (length (p1 ++ p2)))
    encrypt
  = Aes.mtpz_encryption_cipher key p1 (Z.of_nat (length p1)) encrypt
    ++ Aes.mtpz_encryption_cipher key p2 (Z.of_nat (length p2)) encrypt.
Proof.
  intros H1 H2 L1 L2 Hb.
  assert (H12 : bytes_ok (p1 ++ p2)) by (apply bytes_ok_app; now split).
  assert (L12 : length (p1 ++ p2) = (16 * (n1 + n2))%nat)
    by (rewrite length_app; lia).
  rewrite length_app in Hb.
  rewrite (cipher_blocks key (p1 ++ p2) (n1 + n2) encrypt H12 L12)
    by (rewrite length_app; lia).
  rewrite (cipher_blocks key p1 n1 encrypt H1 L1) by lia.
  rewrite (cipher_blocks key p2 n2 encrypt H2 L2) by lia.
  rewrite (to_blocks_app n1 n2 p1 p2 L1). apply flat_map_app.
Qed.

Lemma cipher_block_by_block_witness :
  Aes.mtpz_encryption_cipher Samples.aes_key_128
    (Samples.aes_block ++ Samples.aes_block)
    (Z.of_nat (length (Samples.aes_block ++ Samples.aes_block))) true
  = Aes.mtpz_encryption_cipher Samples.aes_key_128 Samples.aes_block
      (Z.of_nat (length Samples.aes_block)) true
    ++ Aes.mtpz_encryption_cipher Samples.aes_key_128 Samples.aes_block
         (Z.of_nat (length Samples.aes_block)) true.
Proof.
  apply (cipher_block_by_block Samples.aes_key_128 Samples.aes_block
           Samples.aes_block 1 1 true);
    try (apply bytes_ok_check; reflexivity); reflexivity.
Defined.

(** X17.  With a 16-byte stored key, decrypting block by block what was
    encrypted block by block gives the buffer back. *)
Theorem cipher_round_trip (key data : list Z) (n : nat) :
  length key = 16%nat -> bytes_ok key ->
  bytes_ok data -> length data = (16 * n)%nat ->
  Z.of_nat (length data) < 2 ^ 31 ->
  let len := Z.of_nat (length data) in
  Aes.mtpz_encryption_cipher key
    (Aes.mtpz_encryption_cipher key data len true) len false
  = data.
Proof.
  intros _ Hk Hd Hl Hb len. unfold len.
  rewrite (cipher_blocks key data n true Hd Hl Hb). cbv zeta.
  set (expanded := Aes.mtpz_encryption_expand_key key 16 10).
  pose proof (expand_key_16_ok key Hk) as Hs. fold expanded in Hs.
  pose proof Hs as (K0 & K10 & Kmid & Kok).
  rewrite flat_map_words_map.
  set (ys := map (enc_core (enc_key expanded)) (to_blocks n data)).
  assert (Hys : Forall words_ok ys).
  { unfold ys. apply Forall_map, Forall_forall. intros x _.
    apply enc_core_ok, Kok. }
  assert (Ln : length ys = n) by (unfold ys; now rewrite length_map, length_to_blocks).
  assert (Lc : length (flat_map words_bytes ys) = (16 * n)%nat)
    by (rewrite length_flat_map_words; lia).
  rewrite Hl, <- Lc.
  rewrite (cipher_blocks key _ n false (bytes_ok_flat_map_words ys) Lc)
    by (rewrite Lc; lia).
  cbv zeta. fold expanded.
  pose proof (to_blocks_flat_map ys [] Hys) as Ht.
  rewrite app_nil_r, Ln in Ht. rewrite Ht.
  rewrite flat_map_words_map. unfold ys. rewrite map_map.
  rewrite (map_ext_in _ (fun x => x)).
  - rewrite map_id. now apply to_blocks_bytes.
  - intros x Hx. apply dec_core_enc_core; try assumption.
    pose proof (to_blocks_ok n data) as Hall.
    rewrite Forall_forall in Hall. apply Hall. now apply list_elem_of_In.
Qed.

Lemma cipher_round_trip_witness :
  Aes.mtpz_encryption_cipher Samples.aes_key_128
    (Aes.mtpz_encryption_cipher Samples.aes_key_128 Samples.two_blocks
       (Z.of_nat (length Samples.two_blocks)) true)
    (Z.of_nat (length Samples.two_blocks)) false
  = Samples.two_blocks.
Proof.
  apply (cipher_round_trip Samples.aes_key_128 Samples.two_blocks 2);
    try (apply bytes_ok_check; reflexivity); reflexivity.
Defined.

(** ** AES: the key schedule *)

Lemma schedule_step_prefix (key_len : nat) (key : list Z) (i rcon_i j : nat) :
  (j < i)%nat ->
  getb (fst (Aes.schedule_step key_len key i rcon_i)) j = getb key j.
Proof.
  intros Hj. unfold Aes.schedule_step.
  destruct (if (i mod key_len =? 0)%nat then _ else _) as [temp r].
  cbn [fst]. rewrite !getb_insert.
  repeat (case_decide; try lia); reflexivity.
Qed.

Lemma schedule_loop_prefix (n key_len : nat) (key : list Z) (i rcon_i j : nat) :
  (j < i)%nat ->
  getb (Aes.schedule_loop n key_len key i rcon_i) j = getb key j.
Proof.
  revert key i rcon_i. induction n as [| n IH]; intros key i rcon_i Hj;
    cbn [Aes.schedule_loop]; [reflexivity |].
  pose proof (schedule_step_prefix key_len key i rcon_i j Hj) as Hs.
  destruct (Aes.schedule_step key_len key i rcon_i) as [key' r'].
  cbn [fst] in Hs. rewrite IH by lia. exact Hs.
Qed.

Lemma length_schedule_loop (n key_len : nat) (key : list Z) (i rcon_i : nat) :
  length (Aes.schedule_loop n key_len key i rcon_i) = length key.
Proof.
  revert key i rcon_i. induction n as [| n IH]; intros key i rcon_i;
    cbn [Aes.schedule_loop]; [reflexivity |].
  assert (Hs : length (fst (Aes.schedule_step key_len key i rcon_i)) = length key).
  { unfold Aes.schedule_step.
    destruct (if (i mod key_len =? 0)%nat then _ else _) as [temp r].
    cbn [fst]. now rewrite !length_insert. }
  destruct (Aes.schedule_step key_len key i rcon_i) as [key' r'].
  cbn [fst] in Hs. now rewrite IH.
Qed.

Lemma schedule_keeps_key (constant : list Z) (ks : nat) :
  (length constant <= ks)%nat ->
  let key := copy_bytes (length constant) (zeros ks) 0 constant 0 in
  let inner := Aes.schedule_loop ((ks - length constant) / 4)
                 (length constant) key (length constant) 0 in
  length inner = ks /\ take (length constant) inner = constant.
Proof.
  intros Hks key inner.
  assert (Li : length inner = ks)
    by (unfold inner, key;
        now rewrite length_schedule_loop, length_copy_bytes, length_zeros).
  split; [exact Li |].
  apply buf_ext; [rewrite length_take_le; lia |].
  intros j Hj. rewrite length_take_le in Hj by lia.
  rewrite getb_take. case_decide; [| lia].
  unfold inner. rewrite schedule_loop_prefix by lia.
  unfold key. rewrite getb_copy_bytes_in by (rewrite length_zeros; lia).
  case_decide; [| lia]. f_equal. lia.
Qed.

Lemma expand_key_inner_16_prefix (k : list Z) :
  length k = 16%nat ->
  take 16 (Aes.mtpz_encryption_expand_key_inner k 16) = k.
Proof.
  intros Hl.
  destruct (schedule_keeps_key k (16 * (10 + 1))) as [_ H];
    [rewrite Hl; cbn; lia |].
  rewrite Hl in H. exact H.
Qed.

(** X19.  [mtpz_encryption_expand_key_inner] serves key lengths 16, 24
    and 32 only.  For those it returns 176, 208 and 240 bytes that
    start with the key itself; for any other length it returns [NULL]
    with length 0. *)
Theorem expand_key_inner_sizes (constant : list Z) (key_len : Z) :
  Z.of_nat (length constant) = key_len ->
  (key_len = 16 \/ key_len = 24 \/ key_len = 32 ->
   Z.of_nat (length (Aes.mtpz_encryption_expand_key_inner constant key_len))
   = 16 * (key_len / 4 + 7)
   /\ take (length constant)
        (Aes.mtpz_encryption_expand_key_inner constant key_len) = constant)
  /\ (key_len <> 16 -> key_len <> 24 -> key_len <> 32 ->
      Aes.mtpz_encryption_expand_key_inner constant key_len = []).
Proof.
  intros Hl. split.
  - intros Hk. pose proof (schedule_keeps_key constant) as Hgen.
    unfold Aes.mtpz_encryption_expand_key_inner.
    rewrite <- Hl in *. rewrite Nat2Z.id.
    destruct Hk as [Hk | [Hk | Hk]];
      assert (Hn : length constant = Z.to_nat (Z.of_nat (length constant)))
        by lia;
      rewrite Hk in Hn |- *; cbv iota beta;
      [destruct (Hgen (16 * (10 + 1))%nat ltac:(rewrite Hn; cbn; lia)) as [A B']
      |destruct (Hgen (16 * (12 + 1))%nat ltac:(rewrite Hn; cbn; lia)) as [A B']
      |destruct (Hgen (16 * (14 + 1))%nat ltac:(rewrite Hn; cbn; lia)) as [A B']];
      cbv zeta in A, B'; (split; [rewrite A; reflexivity | exact B']).
  - intros H16 H24 H32. unfold Aes.mtpz_encryption_expand_key_inner.
    destruct key_len as [| p | p]; try reflexivity.
    repeat (match goal with q : positive |- _ => destruct q end;
            try reflexivity; try congruence).
Qed.

Lemma expand_key_inner_sizes_witness :
  Z.of_nat (length (Aes.mtpz_encryption_expand_key_inner Samples.aes_key_192 24))
  = 16 * (24 / 4 + 7).
Proof.
  destruct (expand_key_inner_sizes Samples.aes_key_192 24 eq_refl) as [H _].
  exact (proj1 (H (or_intror (or_introl eq_refl)))).
Defined.

Lemma getb_inv_mix_step (e : list Z) (o q : nat) :
  (q < o + 16 \/ o + 32 <= q)%nat ->
  getb (Aes.inv_mix_step e o) q = getb e q.
Proof.
  intros H. unfold Aes.inv_mix_step. rewrite !getb_store32.
  repeat (case_decide; try lia); reflexivity.
Qed.

Lemma inv_mix_loop_frame (n : nat) (e : list Z) (o : nat) :
  length (Aes.inv_mix_loop n e o) = length e
  /\ (bytes_ok e -> bytes_ok (Aes.inv_mix_loop n e o))
  /\ (forall q, (q < o + 16 \/ o + 16 + 16 * n <= q)%nat ->
        getb (Aes.inv_mix_loop n e o) q = getb e q).
Proof.
  revert e o. induction n as [| n IH]; intros e o; cbn [Aes.inv_mix_loop].
  - repeat split; auto.
  - destruct (IH (Aes.inv_mix_step e o) (o + 16)%nat) as (L & B & F).
    split; [now rewrite L, length_inv_mix_step |]. split.
    + intros He. apply B. now apply bytes_ok_inv_mix_step.
    + intros q Hq. rewrite F by lia. apply getb_inv_mix_step. lia.
Qed.

(** X20.  The schedule made for a 16-byte key.  [mtpz_encryption_expand_key]
    returns 484 bytes: the round count in byte 0, the key itself as
    the first round key at offset 4, and at offset 0xB4 a second copy of
    the eleven round keys in which keys 1 to 9 have gone through the
    inverse mix-columns step while keys 0 and 10 are as in the first
    copy. *)
Theorem key_schedule_128 (k : list Z) :
  length k = 16%nat -> bytes_ok k ->
  let expanded := Aes.mtpz_encryption_expand_key k 16 10 in
  length expanded = 484%nat
  /\ bytes_ok expanded
  /\ getb expanded 0 = 10
  /\ take 16 (drop 4 expanded) = k
  /\ dec_key expanded 0 = enc_key expanded 0
  /\ dec_key expanded 10 = enc_key expanded 10
  /\ (forall i, (1 <= i <= 9)%nat ->
        dec_key expanded i = inv_mix4 (enc_key expanded i)).
Proof.
  intros Hl Hk expanded.
  destruct (expand_key_16_ok k Hk) as (K0 & K10 & Kmid & _).
  fold expanded in K0, K10, Kmid.
  destruct (expand_key_inner_16 k Hk) as [Hib Hil].
  pose proof (expand_key_inner_16_prefix k Hl) as Hpre.
  assert (E : expanded
              = Aes.inv_mix_loop 9
                  (copy_bytes 176
                     (copy_bytes 176 (<[0%nat := u8 (Z.rem 10 0xFF)]> (zeros 484))
                        4 (Aes.mtpz_encryption_expand_key_inner k 16) 0)
                     (4 + 176) (Aes.mtpz_encryption_expand_key_inner k 16) 0)
                  180).
  { unfold expanded, Aes.mtpz_encryption_expand_key. rewrite Hil. reflexivity. }
  set (inner := Aes.mtpz_encryption_expand_key_inner k 16) in *.
  clearbody inner.
  set (B := copy_bytes 176 (copy_bytes 176 _ 4 inner 0) (4 + 176) inner 0) in E.
  assert (LB : length B = 484%nat) by (unfold B; len).
  assert (HB : bytes_ok B).
  { unfold B.
    apply bytes_ok_copy_bytes; [apply bytes_ok_copy_bytes | exact Hib];
      [| exact Hib].
    apply bytes_ok_insert; [apply bytes_ok_zeros | apply u8_range]. }
  destruct (inv_mix_loop_frame 9 B 180) as (L & Bok & F).
  rewrite <- E in L, Bok, F.
  split; [congruence |]. split; [now apply Bok |]. split; [| split].
  - rewrite F by lia. unfold B. getb_norm. split_cases.
  - rewrite <- Hpre. apply buf_ext.
    + rewrite !length_take_le; rewrite ?length_drop; lia.
    + intros j Hj. rewrite length_take_le in Hj by (rewrite length_drop; lia).
      rewrite !getb_take. case_decide; [| lia].
      rewrite getb_drop, F by lia. unfold B. getb_norm. split_cases.
  - auto.
Qed.

Lemma key_schedule_128_witness :
  take 16 (drop 4 (Aes.mtpz_encryption_expand_key Samples.aes_key_128 16 10))
  = Samples.aes_key_128.
Proof.
  apply (key_schedule_128 Samples.aes_key_128);
    [reflexivity | apply bytes_ok_check; reflexivity].
Defined.

(** ** AES: the message authentication code *)

Lemma encrypt_mac_16 (hash seed : list Z) (seed_len : Z) :
  exists s expanded, forall out,
    Aes.mtpz_encryption_encrypt_mac (Some hash) 16 seed seed_len out
    = Aes.mtpz_encryption_encrypt_custom out 0 (Some s) expanded.
Proof.
  unfold Aes.mtpz_encryption_encrypt_mac.
  replace (negb (16 =? 16)) with false by reflexivity.
  eexists. eexists. intros out. reflexivity.
Qed.

Lemma encrypt_mac_tag (hash seed out : list Z) (seed_len : Z) :
  (16 <= length out)%nat ->
  let tag :=
    Aes.mtpz_encryption_encrypt_mac (Some hash) 16 seed seed_len (zeros 16) in
  Aes.mtpz_encryption_encrypt_mac (Some hash) 16 seed seed_len out
  = tag ++ drop 16 out
  /\ length tag = 16%nat
  /\ bytes_ok tag.
Proof.
  intros Hl tag.
  destruct (encrypt_mac_16 hash seed seed_len) as (s & expanded & E).
  unfold tag. rewrite !E.
  rewrite (encrypt_custom_bytes out 0 (Some s) expanded) by lia.
  rewrite (encrypt_custom_bytes (zeros 16) 0 (Some s) expanded)
    by (rewrite length_zeros; lia).
  rewrite (drop_ge (zeros 16)) by (rewrite length_zeros; lia).
  rewrite app_nil_r, !take_0, !app_nil_l.
  split; [reflexivity |]. split.
  - apply length_words_bytes.
  - apply bytes_ok_words_bytes.
Qed.

(** X21.  With a 16-byte key and a seed of at most 16 bytes,
    [mtpz_encryption_encrypt_mac] writes a 16-byte tag at the start of
    [out] and nothing else, and the tag does not depend on what [out]
    held before. *)
Theorem encrypt_mac_writes_tag (hash seed out : list Z) (seed_len : Z) :
  length hash = 16%nat ->
  0 <= seed_len <= 16 -> seed_len <= Z.of_nat (length seed) ->
  (16 <= length out)%nat ->
  let tag :=
    Aes.mtpz_encryption_encrypt_mac (Some hash) 16 seed seed_len (zeros 16) in
  Aes.mtpz_encryption_encrypt_mac (Some hash) 16 seed seed_len out
  = tag ++ drop 16 out
  /\ length tag = 16%nat
  /\ bytes_ok tag.
Proof. intros _ _ _. apply encrypt_mac_tag. Qed.

Lemma encrypt_mac_writes_tag_witness :
  Aes.mtpz_encryption_encrypt_mac (Some Samples.aes_key_128) 16
    Samples.aes_block 16 Samples.two_blocks
  = Aes.mtpz_encryption_encrypt_mac (Some Samples.aes_key_128) 16
      Samples.aes_block 16 (zeros 16)
    ++ drop 16 Samples.two_blocks.
Proof.
  apply (encrypt_mac_writes_tag Samples.aes_key_128 Samples.aes_block
           Samples.two_blocks 16).
  - reflexivity.
  - lia.
  - vm_compute. discriminate.
  - vm_compute. lia.
Defined.

Lemma double_byte (a b : Z) :
  byte_ok a -> byte_ok b ->
  u8 (Z.lor (2 * a) (Z.shiftr b 7)) = (2 * a) mod 256 + b / 128.
Proof.
  unfold byte_ok, u8. intros Ha Hb.
  rewrite Z.shiftr_div_pow2 by lia. change (2 ^ 7) with 128.
  assert (Hc : 0 <= b / 128 < 2 ^ 1)
    by (change (2 ^ 1) with 2; Z.div_mod_to_equations; lia).
  replace (2 * a) with (a * 2 ^ 1) by (change (2 ^ 1) with 2; lia).
  rewrite lor_disjoint by (lia || exact Hc).
  change (2 ^ 1) with 2 in *. Z.div_mod_to_equations. lia.
Qed.

Lemma lxor_low_byte (h d c : Z) :
  0 <= d < 256 -> 0 <= c < 256 -> Z.lxor (h * 256 + d) c = h * 256 + Z.lxor d c.
Proof.
  intros Hd Hc. change 256 with (2 ^ 8) in *.
  replace c with (0 * 2 ^ 8 + c) at 1 by lia.
  rewrite lxor_split by lia. now rewrite Z.lxor_0_r.
Qed.

Lemma double_facts (b : Z) :
  byte_ok b ->
  exists q r, b / 128 = q /\ (2 * b) mod 256 = r
              /\ 2 * b = 256 * q + r /\ 0 <= q <= 1 /\ 0 <= r < 256
              /\ (q = 1 <-> 128 <= b).
Proof.
  unfold byte_ok. intros Hb. exists (b / 128), ((2 * b) mod 256).
  repeat split; Z.div_mod_to_equations; lia.
Qed.

(** X22.  The doubling step of the tag computation.  Read as a 128-bit
    number, most significant byte first, the sixteen bytes that
    [mac_double] makes from a 17-byte buffer ending in 0 are twice the
    number in the buffer, reduced to 128 bits, with 0x87 xor-ed in when
    the top bit was set: doubling in the field of 2^128 elements.  The
    result is again a 17-byte buffer ending in 0. *)
Theorem mac_double_doubles (src : list Z) :
  length src = 17%nat -> bytes_ok src -> getb src 16 = 0 ->
  let v := be_value (take 16 src) in
  let dst := Aes.mac_double src in
  length dst = 17%nat /\ bytes_ok dst /\ getb dst 16 = 0
  /\ be_value (take 16 dst)
     = Z.lxor ((2 * v) mod 2 ^ 128) (if 2 ^ 127 <=? v then 0x87 else 0).
Proof.
  intros Hl Hb H16 v dst.
  destruct src as [| b0 [| b1 [| b2 [| b3 [| b4 [| b5 [| b6 [| b7 [| b8 [| b9 [| b10 [| b11 [| b12 [| b13 [| b14 [| b15 [| b16 [| ? ?]]]]]]]]]]]]]]]]]]; try discriminate Hl.
  cbv [getb nth] in H16. subst b16.
  unfold bytes_ok in Hb.
  apply Forall_cons in Hb as [B0 Hb]. apply Forall_cons in Hb as [B1 Hb].
  apply Forall_cons in Hb as [B2 Hb]. apply Forall_cons in Hb as [B3 Hb].
  apply Forall_cons in Hb as [B4 Hb]. apply Forall_cons in Hb as [B5 Hb].
  apply Forall_cons in Hb as [B6 Hb]. apply Forall_cons in Hb as [B7 Hb].
  apply Forall_cons in Hb as [B8 Hb]. apply Forall_cons in Hb as [B9 Hb].
  apply Forall_cons in Hb as [B10 Hb]. apply Forall_cons in Hb as [B11 Hb].
  apply Forall_cons in Hb as [B12 Hb]. apply Forall_cons in Hb as [B13 Hb].
  apply Forall_cons in Hb as [B14 Hb]. apply Forall_cons in Hb as [B15 Hb].
  assert (Bz : byte_ok 0) by (unfold byte_ok; lia).
  unfold dst, v.
  cbv [Aes.mac_double seq fold_left zeros repeat insert list_insert getb nth
       Nat.add be_value firstn].
  rewrite !double_byte by assumption.
  destruct (double_facts b0 B0) as (q0 & r0 & Eq0 & Er0 & S0 & Q0 & R0 & I0).
  destruct (double_facts b1 B1) as (q1 & r1 & Eq1 & Er1 & S1 & Q1 & R1 & I1).
  destruct (double_facts b2 B2) as (q2 & r2 & Eq2 & Er2 & S2 & Q2 & R2 & I2).
  destruct (double_facts b3 B3) as (q3 & r3 & Eq3 & Er3 & S3 & Q3 & R3 & I3).
  destruct (double_facts b4 B4) as (q4 & r4 & Eq4 & Er4 & S4 & Q4 & R4 & I4).
  destruct (double_facts b5 B5) as (q5 & r5 & Eq5 & Er5 & S5 & Q5 & R5 & I5).
  destruct (double_facts b6 B6) as (q6 & r6 & Eq6 & Er6 & S6 & Q6 & R6 & I6).
  destruct (double_facts b7 B7) as (q7 & r7 & Eq7 & Er7 & S7 & Q7 & R7 & I7).
  destruct (double_facts b8 B8) as (q8 & r8 & Eq8 & Er8 & S8 & Q8 & R8 & I8).
  destruct (double_facts b9 B9) as (q9 & r9 & Eq9 & Er9 & S9 & Q9 & R9 & I9).
  destruct (double_facts b10 B10) as (q10 & r10 & Eq10 & Er10 & S10 & Q10 & R10 & I10).
  destruct (double_facts b11 B11) as (q11 & r11 & Eq11 & Er11 & S11 & Q11 & R11 & I11).
  destruct (double_facts b12 B12) as (q12 & r12 & Eq12 & Er12 & S12 & Q12 & R12 & I12).
  destruct (double_facts b13 B13) as (q13 & r13 & Eq13 & Er13 & S13 & Q13 & R13 & I13).
  destruct (double_facts b14 B14) as (q14 & r14 & Eq14 & Er14 & S14 & Q14 & R14 & I14).
  destruct (double_facts b15 B15) as (q15 & r15 & Eq15 & Er15 & S15 & Q15 & R15 & I15).
  rewrite ?Eq0, ?Er0. rewrite ?Eq1, ?Er1. rewrite ?Eq2, ?Er2. rewrite ?Eq3, ?Er3. rewrite ?Eq4, ?Er4. rewrite ?Eq5, ?Er5. rewrite ?Eq6, ?Er6. rewrite ?Eq7, ?Er7. rewrite ?Eq8, ?Er8. rewrite ?Eq9, ?Er9. rewrite ?Eq10, ?Er10. rewrite ?Eq11, ?Er11. rewrite ?Eq12, ?Er12. rewrite ?Eq13, ?Er13. rewrite ?Eq14, ?Er14. rewrite ?Eq15, ?Er15.
  change (0 / 128) with 0. rewrite Z.add_0_r.
  clear Eq0 Er0 Eq1 Er1 Eq2 Er2 Eq3 Er3 Eq4 Er4 Eq5 Er5 Eq6 Er6 Eq7 Er7 Eq8 Er8 Eq9 Er9 Eq10 Er10 Eq11 Er11 Eq12 Er12 Eq13 Er13 Eq14 Er14 Eq15 Er15 I1 I2 I3 I4 I5 I6 I7 I8 I9 I10 I11 I12 I13 I14 I15.
  unfold byte_ok in *.
  destruct (Z.leb_spec 128 b0) as [Hhi | Hlo].
  - cbv [fold_left firstn length]. split; [reflexivity |]. split; [| split].
    + unfold bytes_ok.
      repeat (apply Forall_cons; split;
              [first [unfold byte_ok; lia | apply (lxor_range 8); lia] |]).
      apply Forall_nil_2.
    + reflexivity.
    + replace (2 ^ 127 <=? _) with true by (symmetry; apply Z.leb_le; lia).
      rewrite <- lxor_low_byte by lia. f_equal.
      apply (Z.mod_unique _ _ 1); lia.
  - cbv [fold_left firstn length]. split; [reflexivity |]. split; [| split].
    + unfold bytes_ok.
      repeat (apply Forall_cons; split; [unfold byte_ok; lia |]).
      apply Forall_nil_2.
    + reflexivity.
    + replace (2 ^ 127 <=? _) with false by (symmetry; apply Z.leb_gt; lia).
      rewrite Z.lxor_0_r. apply (Z.mod_unique _ _ 0); lia.
Qed.

Lemma mac_double_doubles_witness :
  be_value (take 16 (Aes.mac_double (repeat 0xFF 16 ++ [0])))
  = Z.lxor ((2 * be_value (take 16 (repeat 0xFF 16 ++ [0]))) mod 2 ^ 128)
      (if 2 ^ 127 <=? be_value (take 16 (repeat 0xFF 16 ++ [0]))
       then 0x87 else 0).
Proof.
  apply (mac_double_doubles (repeat 0xFF 16 ++ [0]));
    [reflexivity | apply bytes_ok_check; reflexivity | reflexivity].
Defined.

(** ** The block signed by the application certificate message *)

Lemma bytes_ok_finalize_out (state out : list Z) (off : nat) :
  bytes_ok out -> bytes_ok (snd (Hash.mtpz_hash_finalize_hash state out off)).
Proof.
  intros H. unfold Hash.mtpz_hash_finalize_hash. cbn [snd].
  now repeat apply bytes_ok_store32.
Qed.

Lemma mgf_fold_bytes_ok (len : Z) (l : list nat) :
  forall (state v5 v13 : list Z),
    bytes_ok v13 ->
    bytes_ok (snd (fold_left (fun s i => Hash.mgf_step len i s) l
                     (state, v5, v13))).
Proof.
  induction l as [| i l IH]; intros state v5 v13 H; cbn [fold_left].
  - exact H.
  - unfold Hash.mgf_step at 2.
    pose proof (bytes_ok_finalize_out
                  (Hash.mtpz_hash_transform_hash
                     (Hash.mtpz_hash_reset_state state)
                     (store32 v5 (Z.to_nat len) (MTPZ_SWAP (Z.of_nat i)))
                     (len + 4)) v13 (i * 20) H) as Hf.
    destruct (Hash.mtpz_hash_finalize_hash _ v13 (i * 20)) as [st' v13'].
    cbn [snd] in Hf. now apply IH.
Qed.

Lemma mgf_bytes_ok (state msg : list Z) (len a4 : Z) :
  bytes_ok (snd (Hash.mtpz_hash_custom6A5DC state msg len a4)).
Proof.
  unfold Hash.mtpz_hash_custom6A5DC.
  pose proof (mgf_fold_bytes_ok len (seq 0 (Z.to_nat (Z.quot a4 20 + 1))) state
                (copy_bytes (Z.to_nat len) (zeros (Z.to_nat (len + 4))) 0 msg 0)
                (zeros (Z.to_nat ((Z.quot a4 20 + 1) * 20)))
                (bytes_ok_zeros _)) as H.
  destruct (fold_left _ _ _) as [[st v5] v13]. exact H.
Qed.

Lemma xor_bytes_ok (n : nat) (dst : list Z) (doff : nat) (src : list Z) :
  bytes_ok dst -> bytes_ok src ->
  bytes_ok (Handshake.xor_bytes n dst doff src)
  /\ length (Handshake.xor_bytes n dst doff src) = length dst.
Proof.
  intros Hd Hs. unfold Handshake.xor_bytes.
  generalize (seq 0 n). intros l. revert dst Hd.
  induction l as [| i l IH]; intros dst Hd; cbn [fold_left]; [now split |].
  destruct (IH (<[(doff + i)%nat := Z.lxor (getb dst (doff + i)) (getb src i)]> dst))
    as [Hb Hl].
  - apply bytes_ok_insert; [exact Hd |].
    apply lxor_byte_ok; now apply getb_byte_ok.
  - split; [exact Hb |]. now rewrite Hl, length_insert.
Qed.

Lemma be_value_cons (b : Z) (l : list Z) :
  be_value (b :: l) = b * 2 ^ (8 * Z.of_nat (length l)) + be_value l.
Proof.
  unfold be_value. cbn [fold_left].
  change (fold_left (fun acc b0 => acc * 256 + b0) l 0) with (Rsa.mpi_scan_usg l).
  rewrite mpi_scan_acc. lia.
Qed.

Lemma be_value_range (l : list Z) :
  bytes_ok l -> 0 <= be_value l < 2 ^ (8 * Z.of_nat (length l)).
Proof.
  induction 1 as [| b l Hb Hl IH].
  - cbn. lia.
  - rewrite be_value_cons. unfold byte_ok in Hb.
    replace (8 * Z.of_nat (length (b :: l)))
      with (8 + 8 * Z.of_nat (length l)) by (cbn [length]; lia).
    rewrite Z.pow_add_r by lia. change (2 ^ 8) with 256. nia.
Qed.

(** X23.  The block handed to the RSA engine by the application
    certificate message always has 128 bytes, ends in 0xBC, and has the
    top bit of its first byte cleared: read as a number, most
    significant byte first, it is below 2^1023, whatever was hashed. *)
Theorem signed_block_shape (hashed : list Z) :
  let odata := Handshake.make_odata hashed in
  length odata = 128%nat
  /\ bytes_ok odata
  /\ getb odata 127 = 0xBC
  /\ getb odata 0 < 128
  /\ 0 <= be_value odata < 2 ^ 1023.
Proof.
  intros odata. unfold odata, Handshake.make_odata.
  destruct (Hash.mtpz_hash_finalize_hash _ (zeros 28) 8) as [st2 v16].
  pose proof (bytes_ok_finalize_out
                (Hash.mtpz_hash_transform_hash (Hash.mtpz_hash_reset_state st2)
                   v16 28) (zeros 20) 0 (bytes_ok_zeros 20)) as Hh.
  destruct (Hash.mtpz_hash_finalize_hash _ (zeros 20) 0) as [st4 hash].
  cbn [snd] in Hh.
  pose proof (mgf_bytes_ok st4 hash 20 107) as Hm.
  destruct (Hash.mtpz_hash_custom6A5DC st4 hash 20 107) as [st5 v17].
  cbn [snd] in Hm.
  set (o1 := <[106%nat := 1]> (copy_bytes 20 (zeros 128) 107 hash 0)).
  assert (B1 : bytes_ok o1).
  { unfold o1. apply bytes_ok_insert; [| unfold byte_ok; lia].
    apply bytes_ok_copy_bytes; [apply bytes_ok_zeros | exact Hh]. }
  assert (L1 : length o1 = 128%nat) by (unfold o1; len).
  destruct (xor_bytes_ok 107 o1 0 v17 B1 Hm) as [B2 L2]. rewrite L1 in L2.
  set (o2 := Handshake.xor_bytes 107 o1 0 v17) in *.
  assert (H0 : 0 <= Z.land (getb o2 0) 127 < 128).
  { change 127 with (Z.ones 7). rewrite Z.land_ones by lia.
    apply Z.mod_pos_bound. lia. }
  set (o3 := <[0%nat := Z.land (getb o2 0) 127]> o2).
  assert (B3 : bytes_ok o3)
    by (unfold o3; apply bytes_ok_insert; [exact B2 | unfold byte_ok; lia]).
  assert (L3 : length o3 = 128%nat) by (unfold o3; now rewrite length_insert).
  set (o4 := <[127%nat := 188]> o3).
  assert (B4 : bytes_ok o4)
    by (unfold o4; apply bytes_ok_insert; [exact B3 | unfold byte_ok; lia]).
  assert (L4 : length o4 = 128%nat) by (unfold o4; now rewrite length_insert).
  assert (G127 : getb o4 127 = 188).
  { unfold o4. rewrite getb_insert_in by lia. now case_decide. }
  assert (G0 : getb o4 0 = Z.land (getb o2 0) 127).
  { unfold o4, o3. rewrite !getb_insert_in by (rewrite ?length_insert; lia).
    repeat (case_decide; try lia); reflexivity. }
  split; [exact L4 |]. split; [exact B4 |]. split; [exact G127 |].
  split; [rewrite G0; lia |].
  destruct o4 as [| b rest]; [discriminate L4 |].
  cbn [getb nth] in G0. rewrite be_value_cons.
  apply Forall_cons in B4 as [_ Brest].
  pose proof (be_value_range rest Brest) as Hr.
  assert (Lr : length rest = 127%nat) by (cbn [length] in L4; lia).
  rewrite Lr in *. change (8 * Z.of_nat 127) with 1016 in *.
  replace (2 ^ 1023) with (128 * 2 ^ 1016) by reflexivity.
  rewrite G0. nia.
Qed.

(** ** What a successful validation and a successful handshake mean *)

Section Acceptance.

Variable gcry_pk_decrypt : Rsa.mtpz_rsa_t -> Z -> Z.
Variable written0 : Z.
Variable secrets : Handshake.bundle.
Variable dev : Type.
Variable PTP_RC_OK : Z.
Variable ptp_setdevicepropvalue : dev -> list Z -> Z * dev.
Variable ptp_mtpz_resethandshake : dev -> Z * dev.
Variable ptp_mtpz_sendwmdrmpdapprequest : dev -> option (list Z) -> Z -> Z * dev.
Variable ptp_mtpz_getwmdrmpdappresponse : dev -> Z * list Z * dev.
Variable ptp_mtpz_wmdrmpd_enabletrustedfilesoperations :
  dev -> Z -> Z -> Z -> Z -> Z * dev.

Hypothesis ok_is_not_failure : PTP_RC_OK <> 0xFFFF.








End Acceptance.



(** ** AES: the substitution tables *)

(** X27.  The substitution tables fit together.  For every byte,
    [mtpz_aes_invsbox] undoes [mtpz_aes_sbox] and the other way round,
    and the S-box bytes that the last encryption round picks out of
    [mtpz_aes_ft3] are those of [mtpz_aes_sbox], which the key schedule
    uses. *)
Theorem substitution_tables_agree (b : Z) :
  0 <= b < 256 ->
  Aes.tbl mtpz_aes_invsbox (Aes.tbl mtpz_aes_sbox b) = b
  /\ Aes.tbl mtpz_aes_sbox (Aes.tbl mtpz_aes_invsbox b) = b
  /\ Aes.FT3_Bytes (1 + 4 * b) = Aes.tbl mtpz_aes_sbox b
  /\ 0 <= Aes.tbl mtpz_aes_sbox b < 256.
Proof.
  intros Hb. fold (byte_ok b) in Hb.
  pose proof (forall_bytes
    (fun b => (Aes.tbl mtpz_aes_invsbox (Aes.tbl mtpz_aes_sbox b) =? b)
              && (Aes.tbl mtpz_aes_sbox (Aes.tbl mtpz_aes_invsbox b) =? b)
              && (Aes.FT3_Bytes (1 + 4 * b) =? Aes.tbl mtpz_aes_sbox b)
              && in_byte_range (Aes.tbl mtpz_aes_sbox b))) as H.
  specialize (H ltac:(vm_compute; reflexivity) b Hb). cbv beta in H.
  apply andb_true_iff in H as [H H4]. apply andb_true_iff in H as [H H3].
  apply andb_true_iff in H as [H1 H2].
  unfold in_byte_range in H4. apply andb_true_iff in H4 as [H4 H5].
  repeat split; lia.
Qed.

Lemma substitution_tables_agree_witness :
  Aes.tbl mtpz_aes_invsbox (Aes.tbl mtpz_aes_sbox 0x53) = 0x53.
Proof. apply (substitution_tables_agree 0x53). lia. Defined.

(** ** The chaining mode on a length that is no multiple of 16 *)

Lemma copy_bytes_ragged (done c pad rest : list Z) :
  (length c <= 16)%nat ->
  copy_bytes (length c) (zeros 16) 0 (done ++ (c ++ pad) ++ rest) (length done)
  = c ++ zeros (16 - length c).
Proof.
  intros Hc. apply buf_ext.
  - rewrite length_copy_bytes, length_app, !length_zeros. lia.
  - intros j Hj. rewrite length_copy_bytes, length_zeros in Hj.
    rewrite getb_copy_bytes_in by (rewrite length_zeros; lia).
    rewrite !getb_app, !length_app.
    repeat (case_decide; try lia); rewrite ?getb_zeros;
      try reflexivity; f_equal; lia.
Qed.

Section Ragged.

Variable expanded : list Z.
Variables c pad rest : list Z.
Hypothesis c_bytes : bytes_ok c.
Hypothesis c_short : (0 < length c < 16)%nat.
Hypothesis pad_length : length pad = (16 - length c)%nat.

Let padded : list Z := c ++ zeros (16 - length c).
Let x : Aes.words := Aes.load_words padded 0.

Lemma padded_length : length padded = 16%nat.
Proof. unfold padded. rewrite length_app, length_zeros. lia. Qed.

Lemma padded_words : padded = words_bytes x.
Proof.
  unfold x. rewrite words_bytes_load_words.
  - rewrite drop_0. symmetry. apply take_ge. rewrite padded_length. lia.
  - unfold padded. apply bytes_ok_app. split; [exact c_bytes | apply bytes_ok_zeros].
  - rewrite padded_length. lia.
Qed.

Lemma x_ok : words_ok x.
Proof. apply load_words_ok. Qed.

Lemma cbc_step_ragged_encrypt (done out : list Z) (iv : Aes.words) (w : nat) :
  length done = (4 * w)%nat -> words_ok iv ->
  Aes.cbc_step true expanded
    (Aes.CbcState (done ++ (c ++ pad) ++ rest) (Z.of_nat (length done))
       (Z.of_nat (length c)) out (words_list iv))
  = let y := enc_core (enc_key expanded) (xorw x iv) in
    Aes.CbcState (done ++ words_bytes y ++ rest)
      (Z.of_nat (length done) + Z.of_nat (length c))
      (Z.of_nat (length c) - Z.of_nat (length c))
      (words_bytes (xorw x iv)) (words_list y).
Proof.
  intros Hd Hiv. unfold Aes.cbc_step.
  replace (Z.of_nat (length c) <? 16) with true by (symmetry; apply Z.ltb_lt; lia).
  rewrite !Nat2Z.id.
  rewrite copy_bytes_ragged by lia. fold padded. rewrite padded_words.
  rewrite xor_dtf_block by (apply x_ok || assumption).
  rewrite encrypt_custom_core. unfold seed_words.
  rewrite load_words_block by (apply xorw_ok; [apply x_ok | assumption]).
  assert (Hok : words_ok (enc_core (enc_key expanded) (xorw x iv)))
    by apply enc_core_ok, enc_key_ok.
  rewrite store_words_mid by (try assumption; rewrite length_app; lia).
  replace (Z.to_nat (Z.quot (Z.of_nat (length done)) 4)) with w
    by (rewrite Hd, word_index; reflexivity).
  rewrite load_dtf_words, <- Hd.
  rewrite load_words_bytes by (reflexivity || assumption).
  reflexivity.
Qed.

Lemma cbc_step_ragged_decrypt (done out : list Z) (iv : Aes.words) (w : nat) :
  length done = (4 * w)%nat -> words_ok iv ->
  Aes.cbc_step false expanded
    (Aes.CbcState (done ++ (c ++ pad) ++ rest) (Z.of_nat (length done))
       (Z.of_nat (length c)) out (words_list iv))
  = let y := xorw (dec_core (dec_key expanded) x) iv in
    Aes.CbcState (done ++ words_bytes y ++ rest)
      (Z.of_nat (length done) + Z.of_nat (length c))
      (Z.of_nat (length c) - Z.of_nat (length c))
      (words_bytes x) (words_list x).
Proof.
  intros Hd Hiv. unfold Aes.cbc_step.
  replace (Z.of_nat (length c) <? 16) with true by (symmetry; apply Z.ltb_lt; lia).
  rewrite !Nat2Z.id.
  rewrite copy_bytes_ragged by lia. fold padded. rewrite padded_words.
  rewrite decrypt_custom_core. unfold seed_words.
  rewrite load_words_block by apply x_ok.
  assert (Hok : words_ok (dec_core (dec_key expanded) x))
    by apply dec_core_ok, dec_key_ok.
  rewrite store_words_mid by (try assumption; rewrite length_app; lia).
  replace (Z.to_nat (Z.quot (Z.of_nat (length done)) 4)) with w
    by (rewrite Hd, word_index; reflexivity).
  rewrite xor_dtf_bytes by assumption.
  rewrite load_dtf_words. change (4 * 0)%nat with 0%nat.
  rewrite load_words_block by apply x_ok.
  reflexivity.
Qed.

(** The last pass of the loop on the short tail leaves the buffer the
    whole-block pass leaves when the tail is padded with zeros. *)
Lemma cbc_last_pass (encrypt : bool) (fa fb : nat) (done out : list Z)
    (iv : Aes.words) (w : nat) :
  length done = (4 * w)%nat -> length out = 16%nat -> words_ok iv ->
  Aes.cbc_data
    (Aes.cbc_loop (S fa) encrypt expanded
       (Aes.CbcState (done ++ (c ++ pad) ++ rest) (Z.of_nat (length done))
          (Z.of_nat (length c)) out (words_list iv)))
  = Aes.cbc_data
      (Aes.cbc_loop (S fb) encrypt expanded
         (Aes.CbcState (done ++ padded ++ rest) (Z.of_nat (length done))
            16 out (words_list iv))).
Proof.
  intros Hd Ho Hiv. cbn [Aes.cbc_loop Aes.cbc_count].
  replace (Z.of_nat (length c) =? 0) with false
    by (symmetry; apply Z.eqb_neq; lia).
  change (16 =? 0) with false. cbv iota.
  rewrite padded_words.
  destruct encrypt.
  - rewrite (cbc_step_ragged_encrypt done out iv w Hd Hiv).
    rewrite (cbc_step_encrypt expanded (enc_key_ok expanded) done rest out x iv w)
      by (assumption || apply x_ok || lia).
    cbv zeta. rewrite Z.sub_diag.
    destruct fa, fb; reflexivity.
  - rewrite (cbc_step_ragged_decrypt done out iv w Hd Hiv).
    rewrite (cbc_step_decrypt expanded (dec_key_ok expanded 0) done rest out x iv w)
      by (assumption || apply x_ok || lia).
    cbv zeta. rewrite Z.sub_diag.
    destruct fa, fb; reflexivity.
Qed.

Lemma cbc_loop_ragged (encrypt : bool) (xs : list Aes.words) :
  Forall words_ok xs ->
  forall (fa fb : nat) (done out : list Z) (iv : Aes.words) (w : nat),
    length done = (4 * w)%nat -> length out = 16%nat -> words_ok iv ->
    (length xs < fa)%nat -> (length xs < fb)%nat ->
    Aes.cbc_data
      (Aes.cbc_loop fa encrypt expanded
         (Aes.CbcState (done ++ flat_map words_bytes xs ++ (c ++ pad) ++ rest)
            (Z.of_nat (length done))
            (16 * Z.of_nat (length xs) + Z.of_nat (length c)) out
            (words_list iv)))
    = Aes.cbc_data
        (Aes.cbc_loop fb encrypt expanded
           (Aes.CbcState (done ++ flat_map words_bytes xs ++ padded ++ rest)
              (Z.of_nat (length done))
              (16 * Z.of_nat (length xs) + 16) out (words_list iv))).
Proof.
  induction 1 as [| b r Hb Hr IH]; intros fa fb done out iv w Hd Ho Hiv Ha Hfb.
  - destruct fa as [| fa]; [cbn [length] in Ha; lia |].
    destruct fb as [| fb]; [cbn [length] in Hfb; lia |].
    cbn [flat_map app length]. change (16 * Z.of_nat 0) with 0.
    rewrite !Z.add_0_l.
    exact (cbc_last_pass encrypt fa fb done out iv w Hd Ho Hiv).
  - destruct fa as [| fa]; [cbn [length] in Ha; lia |].
    destruct fb as [| fb]; [cbn [length] in Hfb; lia |].
    cbn [Aes.cbc_loop Aes.cbc_count].
    replace (16 * Z.of_nat (length (b :: r)) + Z.of_nat (length c) =? 0)
      with false by (symmetry; apply Z.eqb_neq; cbn [length]; lia).
    replace (16 * Z.of_nat (length (b :: r)) + 16 =? 0)
      with false by (symmetry; apply Z.eqb_neq; cbn [length]; lia).
    cbn [flat_map]. rewrite <- !(app_assoc (words_bytes b)).
    destruct encrypt.
    + rewrite !(cbc_step_encrypt expanded (enc_key_ok expanded) done _ out b iv w)
        by (cbn [length]; lia || assumption).
      cbv zeta. set (y := enc_core (enc_key expanded) (xorw b iv)).
      rewrite !(app_assoc done (words_bytes y)).
      replace (Z.of_nat (length done) + 16)
        with (Z.of_nat (length (done ++ words_bytes y)))
        by (rewrite length_app, length_words_bytes; lia).
      replace (16 * Z.of_nat (length (b :: r)) + Z.of_nat (length c) - 16)
        with (16 * Z.of_nat (length r) + Z.of_nat (length c))
        by (cbn [length]; lia).
      replace (16 * Z.of_nat (length (b :: r)) + 16 - 16)
        with (16 * Z.of_nat (length r) + 16) by (cbn [length]; lia).
      apply (IH fa fb _ _ y (w + 4)%nat).
      * rewrite length_app, length_words_bytes. lia.
      * apply length_words_bytes.
      * apply enc_core_ok, enc_key_ok.
      * cbn [length] in Ha. lia.
      * cbn [length] in Hfb. lia.
    + rewrite !(cbc_step_decrypt expanded (dec_key_ok expanded 0) done _ out b iv w)
        by (cbn [length]; lia || assumption).
      cbv zeta. set (y := xorw (dec_core (dec_key expanded) b) iv).
      rewrite !(app_assoc done (words_bytes y)).
      replace (Z.of_nat (length done) + 16)
        with (Z.of_nat (length (done ++ words_bytes y)))
        by (rewrite length_app, length_words_bytes; lia).
      replace (16 * Z.of_nat (length (b :: r)) + Z.of_nat (length c) - 16)
        with (16 * Z.of_nat (length r) + Z.of_nat (length c))
        by (cbn [length]; lia).
      replace (16 * Z.of_nat (length (b :: r)) + 16 - 16)
        with (16 * Z.of_nat (length r) + 16) by (cbn [length]; lia).
      apply (IH fa fb _ _ b (w + 4)%nat).
      * rewrite length_app, length_words_bytes. lia.
      * apply length_words_bytes.
      * exact Hb.
      * cbn [length] in Ha. lia.
      * cbn [length] in Hfb. lia.
Qed.

End Ragged.

(** X28.  A length that is no multiple of 16 makes the chaining mode
    work on one more whole block (key of 16 or 24 bytes, either
    direction).  When [data_len] ends [length c]
    bytes (1 to 15) into a block, the call leaves what it leaves on the
    data with that block filled up with zeros and the length rounded up
    to the block: the [16 - length c] bytes that follow the data in the
    buffer are overwritten with cipher output, and the buffer after
    that block is kept. *)
Theorem cbc_ragged_length (key : list Z) (key_len : Z)
    (p c pad rest : list Z) (n : nat) (encrypt : bool) :
  key_len = 16 \/ key_len = 24 -> Z.of_nat (length key) = key_len ->
  bytes_ok p -> bytes_ok c ->
  length p = (16 * n)%nat -> (0 < length c < 16)%nat ->
  length pad = (16 - length c)%nat ->
  Z.of_nat (length p + 16) < 2 ^ 31 ->
  Aes.mtpz_encryption_cipher_advanced key key_len (p ++ c ++ pad ++ rest)
    (Z.of_nat (length p + length c)) encrypt
  = Aes.mtpz_encryption_cipher_advanced key key_len
      (p ++ c ++ zeros (16 - length c)) (Z.of_nat (length p + 16)) encrypt
    ++ rest.
Proof.
  intros _ _ Hp Hc Lp Lc Lpad _.
  set (padded := c ++ zeros (16 - length c)).
  assert (Lpd : length padded = 16%nat)
    by (unfold padded; rewrite length_app, length_zeros; lia).
  assert (Hq : bytes_ok (p ++ padded)).
  { apply bytes_ok_app. split; [exact Hp |].
    apply bytes_ok_app. split; [exact Hc | apply bytes_ok_zeros]. }
  assert (Lq : length (p ++ padded) = (16 * (n + 1))%nat)
    by (rewrite length_app; lia).
  pose proof (cipher_advanced_blocks key key_len (p ++ padded) [] (n + 1)
                encrypt Hq Lq) as Hw.
  pose proof (cipher_advanced_blocks key key_len (p ++ padded) rest (n + 1)
                encrypt Hq Lq) as Hr.
  cbv zeta in Hw, Hr. rewrite !app_nil_r in Hw.
  replace (Z.of_nat (length p + 16)) with (Z.of_nat (length (p ++ padded)))
    by (rewrite length_app; lia).
  rewrite Hw, <- Hr. clear Hw Hr.
  unfold Aes.mtpz_encryption_cipher_advanced.
  set (expanded := Aes.mtpz_encryption_expand_key key key_len
                     (Aes.cipher_advanced_rounds key_len)).
  assert (Hz : words_ok (0, 0, 0, 0)) by (unfold words_ok, word_ok; lia).
  pose proof (cbc_loop_ragged expanded c pad rest Hc Lc Lpad encrypt
                (to_blocks n p) (to_blocks_ok n p)
                (Z.to_nat (Z.of_nat (length p + length c)))
                (Z.to_nat (Z.of_nat (length (p ++ padded))))
                [] (zeros 16) (0, 0, 0, 0) 0 eq_refl eq_refl Hz) as H.
  rewrite (to_blocks_bytes n p Hp Lp), length_to_blocks in H.
  cbn [app length] in H. change (Z.of_nat 0) with 0 in H.
  replace (16 * Z.of_nat n + Z.of_nat (length c))
    with (Z.of_nat (length p + length c)) in H by lia.
  replace (16 * Z.of_nat n + 16)
    with (Z.of_nat (length (p ++ padded))) in H by (rewrite length_app; lia).
  fold padded in H. rewrite <- !app_assoc.
  rewrite <- !app_assoc in H.
  apply H; rewrite ?length_app; lia.
Qed.

Lemma cbc_ragged_length_witness :
  Aes.mtpz_encryption_cipher_advanced Samples.aes_key_128 16
    (Samples.aes_block ++ [1; 2; 3] ++ [9; 9; 9; 9; 9; 9; 9; 9; 9; 9; 9; 9; 9]
       ++ [7; 7])
    (Z.of_nat (length Samples.aes_block + length [1; 2; 3])) true
  = Aes.mtpz_encryption_cipher_advanced Samples.aes_key_128 16
      (Samples.aes_block ++ [1; 2; 3] ++ zeros (16 - length [1; 2; 3]))
      (Z.of_nat (length Samples.aes_block + 16)) true
    ++ [7; 7].
Proof.
  apply (cbc_ragged_length Samples.aes_key_128 16 Samples.aes_block [1; 2; 3]
           [9; 9; 9; 9; 9; 9; 9; 9; 9; 9; 9; 9; 9] [7; 7] 1 true).
  - left. reflexivity.
  - reflexivity.
  - apply bytes_ok_check. reflexivity.
  - apply bytes_ok_check. reflexivity.
  - reflexivity.
  - cbn [length]. lia.
  - reflexivity.
  - reflexivity.
Defined.
